(* ===== verification/_CoqProject ===== *)
-Q . S2P
Prelude.v
Replay.v
Platform.v
Crypto.v
Handshake.v
Hex.v
Cidr.v
Keys.v
Session.v
Logging.v
Peer.v
Invariant.v
Safety.v
Frames.v
Tunnel.v
Connect.v
Threads.v
Interleave.v
Locking.v
ThreadSafety.v
Sequential.v
Config.v
Startup.v
Daemon.v
RcList.v
RcUnit.v
Excp.v
RcDb.v
RcRun.v
RcReport.v
RcSuite.v
RcVerdict.v
RcSamples.v
RcRest.v
Mtrace.v
Compact.v
RcHash.v
RcMisc.v
RcRandom.v
PeerTests.v
CommonTests.v
