(* ===== verification/Prelude.v ===== *)
(** * A verification of lanecove-tunnel

    lanecove-tunnel is a point-to-multipoint VPN daemon in C: peers exchange
    X25519 handshakes over UDP, encrypt the packets of a TUN device with
    AES-256-GCM, drop replayed packets with a sliding window and relay between
    peers by longest-prefix routing.  Its program is [src/common.h],
    [src/common.c] and [src/peer.c]; its tests run under the framework
    [rcunit/src].  This library models both and proves what makes them correct.

    ** How the code is modelled

    A stateful function is a value of [M S A] of this file: from a state, either
    a result and a state, or [UB], C undefined behaviour (a dead pointer, an
    index or copy out of its buffer, a signed overflow).  [wp m Q s] says that
    [m] from [s] is defined and ends in [Q]; its rules are the proof calculus of
    every file, so that each theorem about a result is also one of termination
    and of absence of undefined behaviour.  Machine integers are [Z] kept in
    range by [wrap]; bytes are [Byte.byte]; C strings are [string].  Error codes
    and early returns are values of [option].

    OpenSSL, the kernel and libyaml are not code of the repository.  [Platform]
    has them as operations of two classes with the laws their manuals document,
    among them that an authenticated cipher opens only what it sealed; its
    module [Toy] is an executable instance, at which the witnesses evaluate.
    What a test function does is a parameter of [RcUnit]: a list of assertions
    and signals.

    ** The files

    - [Prelude]: the monad, its calculus and tactics, the hint databases, and
      generic facts on machine integers, bytes, slices and big-endian numbers.
    - [Replay]: [check_replay] (common.h) on its 32 words, an abstract window,
      and the refinement between them.
    - [Platform]: OpenSSL, keys in a heap, clock, random bytes, sockets.
    - [Crypto]: [encrypt_packet], [decrypt_packet], key generation and exchange,
      key derivation, sealing of identities (common.c).
    - [Handshake]: the three handshake functions (common.c).
    - [Hex], [Cidr]: [bytes_to_hex], [hex_to_bytes] (common.c) and [parse_cidr]
      (peer.c), with the C library conversions they rely on.
    - [Keys]: the loading and generation of key files (common.c).
    - [Session]: the tables of peer.c and the functions on them: lookup,
      [route_lookup], [alloc_session], [session_init], [forward_to_peer],
      [initiate_outbound_handshake].
    - [Logging]: [fmt_addr] (peer.c), [log_timestamp] and the log macros
      (common.h), with the static buffer that all threads share.
    - [Peer]: [worker_loop] and [housekeeping_loop] (peer.c), branch by branch.
    - [Invariant]: the invariant of the state and its preservation by every
      handler.
    - [Safety]: reachable states as a step relation, and the theorems on them.
    - [Frames]: which parts of the session table each function leaves alone.
    - [Tunnel]: two peers with one session key, and packets that come again.
    - [Connect]: two peers from the first handshake packet to traffic both ways.
    - [Threads]: the two loops once more, as sequences of lock operations and of
      the pieces of work between them, with the signal handler, and a scheduler
      of the threads under [table_lock] and the [hot_lock]s.
    - [Interleave]: what a piece of work may change and may rely on (a
      rely-guarantee relation on the tables).
    - [Locking]: every thread keeps to it, in each of its pieces.
    - [ThreadSafety]: the theorems on all schedules.
    - [Sequential]: the pieces, run without interruption, are the handlers of
      [Peer].
    - [Config], [Startup]: [load_config], [open_tunnel], [start_peer] and [main]
      (peer.c, common.c).
    - [Daemon]: the whole process: the start, the threads, the end of [main].
    - [RcList]: the intrusive lists (rcunit_list.c, rcunit_list.h).
    - [RcUnit]: the test database, assertions, exceptions, runner and plain text
      report (rcunit.c, rcunit_machine.c, rcunit_registry.c, rcunit_module.c,
      rcunit_function.c, rcunit_assert.c, rcunit_exception.c, rcunit_util.c,
      rcunit_report.c, rcunit_report_plaintext.c).
    - [Excp]: the exceptions in full: frames, long jumps, signal actions and
      masks (rcunit_exception.c, rcunit_exception.h).
    - [RcDb], [RcRun], [RcSuite]: the invariant of the test database and what
      registration, a run and destruction do to it.
    - [RcReport]: searches, counts, dumps and the error messages (rcunit_util.c,
      rcunit_registry.c, rcunit_assert.c, rcunit_error.c), and what they and the
      report say of the database.
    - [RcVerdict]: the theorems on the verdict of a test program.
    - [RcSamples]: the macros a test program is written with (rcunit_assert.h,
      rcunit_api.h), the programs of rcunit/examples, and the table of
      exceptions (rcunit_exception.c).
    - [RcRest]: [rcu_prepare_report], the restart of the assertion engine, and
      the functions that only return (rcunit_report.c, rcunit_assert.c,
      rcunit_machine.c, rcunit.c).
    - [Mtrace]: the memory trace and the allocator above it (rcunit_mtrace.c,
      rcunit_mem.c).
    - [Compact]: the compaction of the tables of the memory trace, and their
      dumps (rcunit_mtrace.c).
    - [RcHash]: the creation of a hash table (rcunit_hashtable.c,
      rcunit_hashtable.h) on that allocator.
    - [RcMisc]: the queue, the hash functions and the table of threads
      (rcunit_queue.c, rcunit_hashtable.c, rcunit_thread.c).
    - [RcRandom]: the random numbers (rcunit_random.c), in the rounding of
      [double].
    - [PeerTests]: the unit tests of tests/test_peer.c, and those of
      tests/test_common.c without cryptography.
    - [CommonTests]: the other tests of tests/test_common.c.

    ** What the theorems show

    - Replay protection ([Replay]): the bitmap implements the set of accepted
      numbers; no number is accepted twice; a number is rejected only when
      accepted before or 2048 or more behind; packets in order are accepted.
    - Packets ([Crypto]): encryption round trips; what decrypts is authentic.
    - Handshake ([Handshake]): honest peers agree on the key; without the
      pre-shared key the server is silent; the client authenticates the server;
      a failed start leaves no key behind.
    - Text ([Hex], [Cidr]): conversions round trip and denote what is written;
      the inputs they wrongly accept.
    - The handlers ([Session], [Safety]): routing is a longest-prefix match; no
      run of a thread is undefined; the session table stays consistent and
      bounded; housekeeping expires what is overdue; output needs an authentic
      packet from an allowed source, and a fresh one under the current key; and
      four behaviours of the handshake handler, among them a leak and a dead
      branch.
    - The threads ([ThreadSafety], [Sequential]): no schedule is undefined; across
      all threads the packets sealed for a session carry consecutive numbers, and
      no number passes its replay test twice; each field changes only under the locks its comment names, and
      a lock keeps the other threads from what it protects; there is no deadlock,
      and after a signal to stop all threads return; an undisturbed worker does
      what the handlers of [Peer] compute in one step.
    - Start and end ([Keys], [Startup], [Daemon]): a generated key persists
      exactly when all of it reached the disk;
      [load_config] is defined, bounded and round trips; [main] establishes the
      hypotheses of the safety theorems; a setting for which housekeeping
      overflows; the process as a whole does not crash and cleans up.
    - End to end ([Tunnel], [Connect]): a replayed packet has no effect; what
      one peer forwards, the other delivers; packets under the previous key are
      delivered as often as they arrive; two daemons that know each other's keys
      connect through their own handlers and then exchange packets.
    - Logging ([Logging]): the text of an address fits the buffers of its
      callers; a log line carries the time it was made, when no other thread
      logs; two threads can mix their times.
    - The test framework ([RcList], [RcVerdict], [RcSamples], [Excp],
      [RcReport], [Mtrace], [Compact], [RcHash], [RcMisc], [RcRandom]): the lists
      implement sequences; try blocks implement structured exceptions; a test program fails exactly when a test fails; a run of any
      well-formed database that an [int] can count ends with the right counts;
      queries and the report
      are functions of the database; the memory tracer implements a map of live
      pointers, invents no leak when its own memory is short, and frees its
      tables; compaction keeps the records of two tables; random numbers are the
      integer scaling of [rand] and stay in their range; the sample programs do
      what they show; and defects: compaction reads the list head of three
      tables, a hash table is lost when it is made, an assertion that misreads
      its argument, a restarted assertion engine, statistics counted twice, a
      failed setup reported as success, a setup failure blamed on the teardown, the list a module added twice leaves, names without
      a terminator, a queue that removes nothing, hashes, a dangling thread.
    - Both together ([PeerTests], [CommonTests]): the unit tests of the
      repository without cryptography, calling the modelled code and run by the
      modelled framework, pass; so do three of the others, whatever the cipher
      and the hash are.  The last five check particular values of OpenSSL.

    ** Bounds and fuel

    Recursion is structural, on the input, wherever the code runs over one:
    events of the parser, wake-ups of a worker, ticks of the housekeeping
    thread, the schedule of the threads, the statements in a try block.
    [print_digits] has fuel 5, the digits of a port.  A traversal of a list has
    the number of nodes in the heap as fuel, which a ring never exhausts; running
    out is [UB], and [RcVerdict.run_tests_verdict] and the theorems of [Mtrace]
    and [RcReport] show that no run does.  The loop of the compaction has twice
    that number, since a turn frees a table or moves one cursor back.  That the
    threads end is proved without fuel, by a well-founded relation on what remains of them.

    ** What is abstracted

    A piece of work between two lock operations is one step of a thread.  What
    the pieces share is protected by the locks, with two exceptions: the flags of
    the signal handler, which are read in steps of their own, and the static
    buffer of [log_timestamp], which every thread writes without a lock when it
    logs.  The second is left out of [Threads], whose theorems are about the code
    without its log output; [Logging] models it and shows what two threads can do
    to it.  The clock, random bytes, sockets and the TUN device give arbitrary
    answers.  The kernel is not modelled: descriptors are numbers that are open or
    closed, what [epoll_wait] and [recvfrom] return is part of the schedule, and
    the epoll set of a worker, which it opens and closes itself, is not among the
    descriptors.  The counters of the test framework are [int]s, undefined once they
    overflow; only the numbers that the report gives to registries and modules are
    unbounded.  Alignment and aliasing of buffers are outside the model.

    ** What is not modelled

    What the log messages say, and what the framework logs of its own work.  Of
    rcunit: the two assertions on floating point numbers, which no program uses;
    the log hooks, which are empty; declarations, and its own tests, which run
    under another framework.  The scripts, templates and packaging of the repository, which are
    not C and only start the daemon. *)

From stdpp Require Export base gmap list strings.
From Stdlib Require Export ZArith Lia.
From Stdlib Require Import Strings.Byte.

#[export] Set Warnings "-clear-no-such-hyp".

(** ** Scopes, notations and hint databases *)

Declare Scope c_scope.
Delimit Scope c_scope with c.

Create Rewrite HintDb lanecove.
Create HintDb wf.

Abbreviation byte := Byte.byte.
Abbreviation bytes := (list Byte.byte).

#[export] Instance byte_eq_decision : EqDecision byte := Byte.byte_eq_dec.

(** ** Computations with state and undefined behaviour

    C code that reads or writes memory, calls the operating system or calls
    OpenSSL is a function of the state it runs in.  [UB] is the outcome of an
    execution that C leaves undefined: a write beyond a buffer, a use or a free
    of a key that is not live, an index outside an array. *)

Inductive outcome (S A : Type) : Type :=
| Ret (a : A) (s : S)
| UB.
Arguments Ret {S A} a s.
Arguments UB {S A}.

Definition M (S A : Type) : Type := S -> outcome S A.

Definition ret {S A} (a : A) : M S A := fun s => Ret a s.

Definition bind {S A B} (m : M S A) (k : A -> M S B) : M S B :=
  fun s => match m s with Ret a s' => k a s' | UB => UB end.

Definition get {S} : M S S := fun s => Ret s s.
Definition gets {S A} (f : S -> A) : M S A := fun s => Ret (f s) s.
Definition modify {S} (f : S -> S) : M S unit := fun s => Ret tt (f s).
Definition undefined {S A} : M S A := fun _ => UB.

Notation "'let!' x ':=' c1 'in' c2" := (bind c1 (fun x => c2))
  (at level 10, x pattern, c1 at level 200, c2 at level 200) : c_scope.
Notation "c1 ;;; c2" := (bind c1 (fun _ => c2))
  (at level 100, right associativity) : c_scope.

Open Scope c_scope.
Open Scope Z_scope.

(** [guard b] is undefined behaviour when [b] is false: it marks an access that
    C only defines under [b]. *)
Definition guard {S} (b : bool) : M S unit := if b then ret tt else undefined.

(** A counter [x] of type [int] grows by [n], which is not negative: signed
    overflow is undefined behaviour. *)
Definition INT_MAX : Z := 2 ^ 31 - 1.
Definition int_add {S} (x n : Z) : M S Z := guard (x + n <=? INT_MAX) ;;; ret (x + n).

(** Run a computation of a component [T] inside a larger state [S]. *)
Definition zoom {S T A} (getter : S -> T) (setter : T -> S -> S) (m : M T A) : M S A :=
  fun s => match m (getter s) with
           | Ret a t => Ret a (setter t s)
           | UB => UB
           end.

(** [for i in l: body], threading an accumulator. *)
Fixpoint foldM {S A B} (f : B -> A -> M S B) (l : list A) (b : B) : M S B :=
  match l with
  | [] => ret b
  | a :: l' => let! b' := f b a in foldM f l' b'
  end.

Lemma bind_assoc {S A B C} (m : M S A) (f : A -> M S B) (g : B -> M S C) s :
  bind (bind m f) g s = bind m (fun a => bind (f a) g) s.
Proof. unfold bind. by destruct (m s). Qed.

Lemma bind_ext {S A B} (m : M S A) (f g : A -> M S B) s :
  (forall a s', f a s' = g a s') -> bind m f s = bind m g s.
Proof. intros Hf. unfold bind. destruct (m s); [apply Hf|done]. Qed.

Lemma bind_Ret {S A B} (m : M S A) (f : A -> M S B) s a s' : m s = Ret a s' -> bind m f s = f a s'.
Proof. intros E. unfold bind. by rewrite E. Qed.

(** [wp m Q s]: run from [s], [m] is defined and its result satisfies [Q]. *)
Definition wp {S A} (m : M S A) (Q : A -> S -> Prop) (s : S) : Prop :=
  match m s with Ret a s' => Q a s' | UB => False end.

Section WP.
Context {S : Type}.

Lemma wp_ret {A} (a : A) Q (s : S) : Q a s -> wp (ret a) Q s.
Proof. done. Qed.

Lemma wp_bind {A B} (m : M S A) (k : A -> M S B) Q s :
  wp m (fun a s' => wp (k a) Q s') s -> wp (bind m k) Q s.
Proof. unfold wp, bind. by destruct (m s). Qed.

Lemma wp_gets {A} (f : S -> A) Q s : Q (f s) s -> wp (gets f) Q s.
Proof. done. Qed.

Lemma wp_modify (f : S -> S) Q s : Q tt (f s) -> wp (modify f) Q s.
Proof. done. Qed.

Lemma wp_guard b Q (s : S) : b = true -> Q tt s -> wp (guard b) Q s.
Proof. by intros ->. Qed.

Lemma wp_int_add x n Q (s : S) : x + n <= INT_MAX -> Q (x + n) s -> wp (int_add x n) Q s.
Proof. intros Hx HQ. apply wp_bind, wp_guard; [by apply Z.leb_le|]. by apply wp_ret. Qed.

Lemma wp_conseq {A} (m : M S A) (P Q : A -> S -> Prop) s :
  wp m P s -> (forall a s', P a s' -> Q a s') -> wp m Q s.
Proof. unfold wp. destruct (m s); eauto. Qed.

Lemma wp_and {A} (m : M S A) (P Q : A -> S -> Prop) s :
  wp m P s -> wp m Q s -> wp m (fun a s' => P a s' /\ Q a s') s.
Proof. unfold wp. destruct (m s); auto. Qed.

Lemma wp_zoom {T A} (g : S -> T) (u : T -> S -> S) (m : M T A) Q s :
  wp m (fun a t => Q a (u t s)) (g s) -> wp (zoom g u m) Q s.
Proof. unfold wp, zoom. by destruct (m (g s)). Qed.

(** The loop rule: [I] holds before every iteration. *)
Lemma wp_foldM {A B} (f : B -> A -> M S B) (I : B -> S -> Prop) l b s :
  I b s ->
  (forall a b s, a ∈ l -> I b s -> wp (f b a) I s) ->
  wp (foldM f l b) I s.
Proof.
  revert b s. induction l as [|a l IH]; intros b s HI Hf; simpl; [done|].
  apply wp_bind, (wp_conseq _ I).
  - apply Hf; [by left|done].
  - intros b' s' HI'. apply IH; [done|]. intros a' b'' s'' ?. apply Hf. by right.
Qed.

(** The rule for [for (i = 0; i < n; i++)], with an invariant indexed by [i]. *)
Lemma wp_foldM_seq {B} (f : B -> nat -> M S B) (I : nat -> S -> Prop) n b s :
  I 0%nat s -> (forall i b s, (i < n)%nat -> I i s -> wp (f b i) (fun _ => I (Datatypes.S i)) s) ->
  wp (foldM f (seq 0 n) b) (fun _ => I n) s.
Proof.
  intros HI Hf.
  assert (forall k m b s, (k + m = n)%nat -> I k s ->
    wp (foldM f (seq k m) b) (fun _ => I n) s) as Hgen.
  { intros k m. revert k. induction m as [|m IH]; intros k b' s' Hkm HI'; cbn.
    - by replace n with k by lia.
    - apply wp_bind, (wp_conseq _ (fun _ => I (Datatypes.S k))); [apply Hf; [lia|done]|].
      intros b'' s''. apply IH. lia. }
  by apply Hgen.
Qed.

Lemma wp_elim {A} (m : M S A) Q s : wp m Q s -> exists a s', m s = Ret a s' /\ Q a s'.
Proof. unfold wp. destruct (m s); [eauto|done]. Qed.

(** The outcome of a defined run may be assumed in its postcondition. *)
Lemma wp_self {A} (m : M S A) Q s : wp m Q s -> wp m (fun a s' => m s = Ret a s' /\ Q a s') s.
Proof. unfold wp. by destruct (m s). Qed.

Lemma wp_of_run {A} (m : M S A) (Q : A -> S -> Prop) s a s' : m s = Ret a s' -> Q a s' -> wp m Q s.
Proof. unfold wp. by intros ->. Qed.

Lemma wp_run {A} (m : M S A) Q s a s' : wp m Q s -> m s = Ret a s' -> Q a s'.
Proof. unfold wp. intros H E. by rewrite E in H. Qed.
End WP.

Lemma bind_run {S A B} (m : M S A) (k : A -> M S B) s a s' : m s = Ret a s' -> bind m k s = k a s'.
Proof. unfold bind. by intros ->. Qed.

Lemma bind_ub {S A B} (m : M S A) (k : A -> M S B) (P : A -> S -> Prop) s :
  wp m P s -> (forall a s', P a s' -> k a s' = UB) -> bind m k s = UB.
Proof. unfold wp, bind. destruct (m s); [auto|done]. Qed.

(** The result of a run, and the state it ends in, for evaluating concrete runs. *)
Definition run_res {S A} (x : outcome S A) : option A := match x with Ret a _ => Some a | UB => None end.
Definition run_end {S A} (x : outcome S A) (d : S) : S := match x with Ret _ s => s | UB => d end.

Lemma run_eta {S A} (x : outcome S A) d a : run_res x = Some a -> x = Ret a (run_end x d).
Proof. destruct x; cbn; [by intros [= ->]|done]. Qed.

(** Symbolic execution, one construct at a time. *)
Ltac wp_step :=
  lazymatch goal with
  | |- wp (bind _ _) _ _ => apply wp_bind
  | |- wp (ret _) _ _ => apply wp_ret
  | |- wp (gets _) _ _ => apply wp_gets
  | |- wp (modify _) _ _ => apply wp_modify
  | |- wp (guard _) _ _ => apply wp_guard
  | |- wp (zoom _ _ _) _ _ => apply wp_zoom
  | |- wp (let _ := _ in _) _ _ => cbv zeta
  end.
Ltac wp_steps := repeat (wp_step; cbn beta iota).

(** ** Machine integers

    An unsigned [w]-bit integer is a [Z] kept in range; [wrap w] is the
    reduction C performs on unsigned overflow. *)

Definition wrap (w z : Z) : Z := z mod 2 ^ w.
Abbreviation u32 := (wrap 32).
Abbreviation u64 := (wrap 64).

Definition in_range (w z : Z) : Prop := 0 <= z < 2 ^ w.

Lemma wrap_range w z : 0 <= w -> in_range w (wrap w z).
Proof. intros. apply Z.mod_pos_bound. lia. Qed.

Lemma wrap_small w z : in_range w z -> wrap w z = z.
Proof. intros. by apply Z.mod_small. Qed.

Lemma in_range_0 w : 0 <= w -> in_range w 0.
Proof. intros. unfold in_range. lia. Qed.

Lemma wrap_testbit w z i :
  0 <= w -> 0 <= i -> Z.testbit (wrap w z) i = (i <? w) && Z.testbit z i.
Proof.
  intros. unfold wrap. rewrite <- Z.land_ones, Z.land_spec, Z.testbit_ones_nonneg by lia.
  by rewrite andb_comm.
Qed.

Lemma in_range_testbit w z i : in_range w z -> 0 <= w <= i -> Z.testbit z i = false.
Proof.
  intros Hz Hi. rewrite <- (wrap_small w z Hz), wrap_testbit by lia.
  by replace (i <? w) with false by lia.
Qed.

(** A number whose high bits are clear is in range. *)
Lemma testbit_in_range w z :
  0 <= w -> 0 <= z -> (forall i, w <= i -> Z.testbit z i = false) -> in_range w z.
Proof.
  intros Hw Hz Hi. enough (z = wrap w z) as -> by by apply wrap_range.
  apply Z.bits_inj'. intros i ?. rewrite wrap_testbit by lia.
  destruct (Z.ltb_spec i w); [done|]. by apply Hi.
Qed.

Lemma lor_range w a b : 0 <= w -> in_range w a -> in_range w b -> in_range w (Z.lor a b).
Proof.
  intros Hw Ha Hb. apply testbit_in_range; [done| |].
  - apply Z.lor_nonneg. unfold in_range in *. lia.
  - intros i ?. rewrite Z.lor_spec, !(in_range_testbit w) by (done || lia). done.
Qed.

Lemma land_range w a b : 0 <= w -> in_range w a -> 0 <= b -> in_range w (Z.land a b).
Proof.
  intros Hw Ha Hb. apply testbit_in_range; [done| |].
  - apply Z.land_nonneg. lia.
  - intros i ?. rewrite Z.land_spec, (in_range_testbit w a) by (done || lia). done.
Qed.

Lemma shiftr_range w a n : 0 <= w -> 0 <= n -> in_range w a -> in_range w (Z.shiftr a n).
Proof.
  intros Hw Hn Ha. apply testbit_in_range; [done| |].
  - apply Z.shiftr_nonneg. unfold in_range in *. lia.
  - intros i ?. rewrite Z.shiftr_spec by lia. apply (in_range_testbit w); [done|lia].
Qed.

(** ** Bytes *)

Definition bval (b : byte) : Z := Z.of_N (Byte.to_N b).
Definition byte_of (z : Z) : byte := default Byte.x00 (Byte.of_N (Z.to_N (z mod 256))).

Lemma bval_range b : 0 <= bval b < 256.
Proof. unfold bval. pose proof (Byte.to_N_bounded b). lia. Qed.

Lemma byte_of_bval b : byte_of (bval b) = b.
Proof.
  unfold byte_of. rewrite Z.mod_small by apply bval_range.
  unfold bval. by rewrite N2Z.id, Byte.of_to_N.
Qed.

Lemma bval_byte_of z : bval (byte_of z) = z mod 256.
Proof.
  unfold byte_of, bval. pose proof (Z.mod_pos_bound z 256 ltac:(lia)).
  destruct (Byte.of_N (Z.to_N (z mod 256))) as [b|] eqn:E; simpl.
  - apply Byte.to_of_N in E. rewrite E. lia.
  - apply Byte.of_N_None_iff in E. lia.
Qed.

Lemma bval_inj a b : bval a = bval b -> a = b.
Proof. intros H. by rewrite <- (byte_of_bval a), <- (byte_of_bval b), H. Qed.

(** The sign of C's [memcmp] over two buffers of the same size. *)
Fixpoint memcmp (a b : bytes) : Z :=
  match a, b with
  | x :: a', y :: b' =>
      if bval x <? bval y then -1 else if bval y <? bval x then 1 else memcmp a' b'
  | _, _ => 0
  end.

Lemma memcmp_eq a b : length a = length b -> memcmp a b = 0 <-> a = b.
Proof.
  revert b. induction a as [|x a IH]; intros [|y b]; simpl; try done.
  intros [= Hl].
  destruct (Z.ltb_spec (bval x) (bval y)), (Z.ltb_spec (bval y) (bval x)); split;
    try (intros; lia); try (intros [= ??]; subst; lia).
  - intros Hm. rewrite (bval_inj x y) by lia. f_equal. by apply IH.
  - intros [= -> ->]. by apply IH.
Qed.

Lemma memcmp_refl a : memcmp a a = 0.
Proof. by apply memcmp_eq. Qed.

(** Bytes [off, off+n) of a buffer. *)
Definition slice (off n : nat) (l : bytes) : bytes := take n (drop off l).

Arguments slice : simpl never.

Lemma length_slice off n l : (off + n <= length l)%nat -> length (slice off n l) = n.
Proof. intros. unfold slice. rewrite length_take, length_drop. lia. Qed.

Lemma slice_head n a b : length a = n -> slice 0 n (a ++ b) = a.
Proof. intros <-. unfold slice. by rewrite drop_0, take_app_length. Qed.

Lemma slice_skip off n a b :
  (length a <= off)%nat -> slice off n (a ++ b) = slice (off - length a) n b.
Proof. intros Hle. unfold slice. by rewrite drop_app_ge. Qed.

Lemma slice_mid off n a b c : length a = off -> length b = n -> slice off n (a ++ b ++ c) = b.
Proof. intros <- <-. by rewrite slice_skip, Nat.sub_diag, slice_head. Qed.

Lemma slice_tail off n a b : length a = off -> length b = n -> slice off n (a ++ b) = b.
Proof. intros. rewrite <- (app_nil_r b) at 1. by apply slice_mid. Qed.

(** Big-endian (network order) codec on [n] bytes: [htobe64]/[be64toh] with the
    [memcpy] around them, [htonl]/[ntohl] on a field of a packet. *)
Fixpoint be_encode (n : nat) (z : Z) : bytes :=
  match n with
  | O => []
  | S n' => byte_of (Z.shiftr z (8 * Z.of_nat n')) :: be_encode n' z
  end.

Fixpoint be_decode_acc (l : bytes) (acc : Z) : Z :=
  match l with
  | [] => acc
  | b :: l' => be_decode_acc l' (acc * 256 + bval b)
  end.
Definition be_decode (l : bytes) : Z := be_decode_acc l 0.

Lemma length_be_encode n z : length (be_encode n z) = n.
Proof. induction n; simpl; auto. Qed.

Lemma be_decode_acc_encode n z acc :
  be_decode_acc (be_encode n z) acc = acc * 2 ^ (8 * Z.of_nat n) + z mod 2 ^ (8 * Z.of_nat n).
Proof.
  revert acc. induction n as [|n IH]; intros acc.
  { simpl. rewrite Z.mod_1_r. lia. }
  cbn [be_encode be_decode_acc]. rewrite IH, bval_byte_of.
  replace (8 * Z.of_nat (S n)) with (8 + 8 * Z.of_nat n) by lia.
  set (k := 8 * Z.of_nat n). rewrite Z.shiftr_div_pow2 by lia.
  rewrite Z.pow_add_r by lia. change (2 ^ 8) with 256.
  rewrite (Z.mul_comm 256 (2 ^ k)), Z.rem_mul_r by lia. lia.
Qed.

Lemma be_decode_encode n z : be_decode (be_encode n z) = z mod 2 ^ (8 * Z.of_nat n).
Proof. unfold be_decode. rewrite be_decode_acc_encode. lia. Qed.

Lemma be_decode_acc_range l acc k :
  in_range (8 * Z.of_nat k) acc ->
  in_range (8 * Z.of_nat (length l + k)) (be_decode_acc l acc).
Proof.
  revert acc k. induction l as [|b l IH]; intros acc k Hacc; simpl; [done|].
  replace (S (length l + k)) with (length l + S k)%nat by lia.
  apply IH. unfold in_range in *. pose proof (bval_range b).
  replace (8 * Z.of_nat (S k)) with (8 + 8 * Z.of_nat k) by lia.
  rewrite Z.pow_add_r by lia. lia.
Qed.

Lemma be_decode_range l : in_range (8 * Z.of_nat (length l)) (be_decode l).
Proof.
  rewrite <- (Nat.add_0_r (length l)) at 1.
  apply (be_decode_acc_range l 0 0). unfold in_range. lia.
Qed.

(** ** Searching a list *)

(** The index of the first element of [l] that satisfies [f]. *)
Fixpoint first_index {A} (f : A -> bool) (l : list A) : option nat :=
  match l with
  | [] => None
  | a :: l' => if f a then Some O else S <$> first_index f l'
  end.

Lemma first_index_Some {A} (f : A -> bool) l i :
  first_index f l = Some i ->
  exists a, l !! i = Some a /\ f a = true /\
    forall j b, (j < i)%nat -> l !! j = Some b -> f b = false.
Proof.
  revert i. induction l as [|a l IH]; intros i; cbn [first_index]; [done|].
  destruct (f a) eqn:E.
  - intros [= <-]. exists a. split_and!; [done..|lia].
  - destruct (first_index f l) as [k|]; cbn; [|done]. intros [= <-].
    destruct (IH k eq_refl) as (b & Hb & Hf & Hmin). exists b. split_and!; [done..|].
    intros [|j] c ? Hc; cbn in Hc; [congruence|]. eapply Hmin; [|done]. lia.
Qed.

Lemma first_index_intro {A} (f : A -> bool) l i a :
  l !! i = Some a -> f a = true -> (forall j b, (j < i)%nat -> l !! j = Some b -> f b = false) ->
  first_index f l = Some i.
Proof.
  revert i. induction l as [|b l IH]; intros i Hi Hf Hmin; [done|]. cbn [first_index]. destruct i as [|i].
  - injection Hi as ->. by rewrite Hf.
  - rewrite (Hmin 0%nat b) by (done || lia). rewrite (IH i); [done..|]. intros j c ? Hj.
    apply (Hmin (S j) c); [lia|done].
Qed.

Lemma first_index_None {A} (f : A -> bool) l :
  first_index f l = None <-> forall i a, l !! i = Some a -> f a = false.
Proof.
  split.
  - induction l as [|a l IH]; cbn [first_index]; [done|]. destruct (f a) eqn:E; [done|].
    destruct (first_index f l); [done|]. intros _ [|i] b; cbn; [congruence|]. by apply IH.
  - induction l as [|a l IH]; cbn [first_index]; [done|]. intros Hf.
    rewrite (Hf 0%nat a) by done. rewrite IH; [done|]. intros i. apply (Hf (S i)).
Qed.

Lemma first_index_ext {A} (R : A -> A -> Prop) (f : A -> bool) l l' :
  (forall a a', R a a' -> f a' = f a) -> Forall2 R l l' -> first_index f l' = first_index f l.
Proof. intros Hf Hl. induction Hl as [|a a' l l' Ha Hl IH]; cbn; [done|]. by rewrite (Hf _ _ Ha), IH. Qed.

Lemma forallb_lookup {A} (P : A -> Prop) `{!forall x, Decision (P x)} l :
  forallb (fun x => bool_decide (P x)) l = true <-> forall n x, l !! n = Some x -> P x.
Proof.
  rewrite forallb_forall. split.
  - intros Hf n x Hn. eapply bool_decide_eq_true_1, Hf, list_elem_of_In, list_elem_of_lookup_2, Hn.
  - intros Hf x [n Hn]%list_elem_of_In%list_elem_of_lookup. by eapply bool_decide_eq_true_2, Hf.
Qed.

Lemma forallb_false {A} (P : A -> bool) l :
  forallb P l = false -> exists n x, l !! n = Some x /\ P x = false.
Proof.
  induction l as [|x l IH]; [done|]. cbn. intros [E|(n & y & ? & ?)%IH]%andb_false_iff.
  - by exists 0%nat, x.
  - by exists (S n), y.
Qed.

#[export] Hint Rewrite length_be_encode @length_app @length_insert @length_take
  @length_drop @length_replicate @length_map : lanecove.
#[export] Hint Resolve in_range_0 wrap_range : wf.
#[export] Hint Extern 5 (_ <= _) => lia : wf.
#[export] Hint Extern 5 (_ < _) => lia : wf.
#[export] Hint Extern 5 (_ <= _ < _) => lia : wf.

(** Close well-formedness and range side conditions. *)
Ltac wf := solve [lia | eauto with wf].

(** [lia] for goals [b = true] and [b = false] where [b] is an integer test. *)
Ltac blia :=
  let go := first [ apply Z.ltb_lt | apply Z.ltb_ge | apply Z.leb_le | apply Z.leb_gt
                  | apply Z.eqb_eq | apply Z.eqb_neq ]; lia in
  first [go | symmetry; go].
