(* ===== verification/Replay.v ===== *)
(** * Replay protection: [check_replay] of src/common.h

    The 2048-bit sliding window a session keeps over the sequence numbers it has
    received, translated word by word, an abstract window over the set of all
    accepted numbers, and the refinement between the two. *)

From S2P Require Import Prelude.

(** ** The code *)

Definition REPLAY_WINDOW_WORDS : nat := 32.

(** [*highest] and [window[]]: the two cells [check_replay] updates. *)
Record replay_state := ReplayState {
  recv_seq_highest : Z;
  recv_seq_window : list Z;
}.

(** [window[k]]; the routine only reads indices in [0, 32). *)
Definition word (window : list Z) (k : Z) : Z := default 0 (window !! Z.to_nat k).

(** The loop [for (int i = n-1; i >= 0; i--)] that shifts the window in place
    by [wn] words and [bn] bits. *)
Fixpoint shift_window (n : nat) (wn bn : Z) (window : list Z) : list Z :=
  match n with
  | O => window
  | S i =>
      let lo_src := Z.of_nat i - wn in
      let hi_src := lo_src - 1 in
      let lo := if 0 <=? lo_src then word window lo_src else 0 in
      let hi := if (0 <? bn) && (0 <=? hi_src) then word window hi_src else 0 in
      let w := if 0 <? bn then Z.lor (u64 (Z.shiftl lo bn)) (Z.shiftr hi (64 - bn)) else lo in
      shift_window i wn bn (<[i := w]> window)
  end.

Definition set_bit (window : list Z) (k bit : Z) : list Z :=
  <[Z.to_nat k := Z.lor (word window k) (Z.shiftl 1 bit)]> window.

(** Returns 0 when [seq] is new, -1 when it is a duplicate or too old. *)
Definition check_replay (seq : Z) (st : replay_state) : Z * replay_state :=
  let highest := recv_seq_highest st in
  let window := recv_seq_window st in
  if highest <? seq then
    let diff := u64 (seq - highest) in
    let window :=
      if Z.of_nat REPLAY_WINDOW_WORDS * 64 <=? diff
      then replicate REPLAY_WINDOW_WORDS 0
      else shift_window REPLAY_WINDOW_WORDS (diff / 64) (diff mod 64) window in
    (0, ReplayState seq (set_bit window 0 0))
  else
    let diff := u64 (highest - seq) in
    if Z.of_nat REPLAY_WINDOW_WORDS * 64 <=? diff then (-1, st) else
    let w := diff / 64 in
    let bit := diff mod 64 in
    if negb (Z.land (word window w) (Z.shiftl 1 bit) =? 0) then (-1, st)
    else (0, ReplayState highest (set_bit window w bit)).

(** The state [session_init] leaves: nothing received under the new key. *)
Definition replay_init : replay_state :=
  ReplayState 0 (replicate REPLAY_WINDOW_WORDS 0).

(** A run of the routine over the sequence numbers of a session's packets. *)
Fixpoint replay_run (seqs : list Z) (st : replay_state) : list Z * replay_state :=
  match seqs with
  | [] => ([], st)
  | seq :: rest =>
      let '(r, st1) := check_replay seq st in
      let '(rs, st2) := replay_run rest st1 in
      (r :: rs, st2)
  end.

(** The sequence numbers a run lets through. *)
Definition accepted (seqs rs : list Z) : list Z :=
  (filter (fun p => p.2 = 0) (zip seqs rs)).*1.

(** ** The abstract window

    What the routine promises, without words and bits: the set of all numbers
    accepted so far and the highest of them. *)

Record abs_window := AbsWindow { abs_highest : Z; abs_seen : gset Z }.

Definition WINDOW : Z := 2048.

Definition abs_fresh (seq : Z) (a : abs_window) : bool :=
  bool_decide (seq ∉ abs_seen a) && (abs_highest a - seq <? WINDOW).

Definition abs_check (seq : Z) (a : abs_window) : bool * abs_window :=
  if abs_fresh seq a
  then (true, AbsWindow (Z.max (abs_highest a) seq) ({[seq]} ∪ abs_seen a))
  else (false, a).

Definition abs_init : abs_window := AbsWindow 0 ∅.

Fixpoint abs_run (seqs : list Z) (a : abs_window) : list bool * abs_window :=
  match seqs with
  | [] => ([], a)
  | seq :: rest =>
      let '(b, a1) := abs_check seq a in
      let '(bs, a2) := abs_run rest a1 in
      (b :: bs, a2)
  end.

(** ** Bits of the window *)

Definition window_wf (w : list Z) : Prop :=
  length w = REPLAY_WINDOW_WORDS /\ Forall (in_range 64) w.

(** Bit [k] of the window stands for the number [highest - k]. *)
Definition wbit (w : list Z) (k : Z) : bool := Z.testbit (word w (k / 64)) (k mod 64).

Record refines (c : replay_state) (a : abs_window) : Prop := {
  ref_wf : window_wf (recv_seq_window c);
  ref_range : in_range 64 (recv_seq_highest c);
  ref_highest : abs_highest a = recv_seq_highest c;
  ref_seen : forall s, s ∈ abs_seen a -> 0 <= s <= recv_seq_highest c;
  ref_bits : forall k, 0 <= k < WINDOW ->
    wbit (recv_seq_window c) k = bool_decide (recv_seq_highest c - k ∈ abs_seen a);
}.

Lemma word_range w k : window_wf w -> in_range 64 (word w k).
Proof.
  intros [_ Hw]. unfold word. destruct (w !! Z.to_nat k) eqn:E; simpl.
  - by eapply Forall_lookup_1.
  - by apply in_range_0.
Qed.

Lemma opt_word_range (b : bool) w k : window_wf w -> in_range 64 (if b then word w k else 0).
Proof. intros. destruct b; [by apply word_range|by apply in_range_0]. Qed.

Lemma window_wf_insert w i z : window_wf w -> in_range 64 z -> window_wf (<[i := z]> w).
Proof.
  intros [Hl Hw] Hz. split; [by rewrite length_insert|]. by apply Forall_insert.
Qed.

Lemma window_wf_zero : window_wf (replicate REPLAY_WINDOW_WORDS 0).
Proof. split; [done|]. apply Forall_replicate. by apply in_range_0. Qed.

#[export] Hint Resolve word_range opt_word_range window_wf_insert window_wf_zero : wf.

Lemma word_insert w i z k :
  window_wf w -> (i < REPLAY_WINDOW_WORDS)%nat -> 0 <= k ->
  word (<[i := z]> w) k = if k =? Z.of_nat i then z else word w k.
Proof.
  intros [Hl _] Hi Hk. unfold word. destruct (Z.eqb_spec k (Z.of_nat i)) as [->|Hne].
  - by rewrite Nat2Z.id, list_lookup_insert_eq by lia.
  - by rewrite list_lookup_insert_ne by lia.
Qed.

Lemma word_zero k : word (replicate REPLAY_WINDOW_WORDS 0) k = 0.
Proof.
  unfold word. destruct (_ !! _) as [z|] eqn:E; [|done].
  by apply lookup_replicate in E as [-> _].
Qed.

Lemma wbit_zero k : wbit (replicate REPLAY_WINDOW_WORDS 0) k = false.
Proof. unfold wbit. by rewrite word_zero, Z.testbit_0_l. Qed.

(** The word the shift loop writes at index [i], from the window before it. *)
Definition shifted_word (wn bn : Z) (w : list Z) (i : Z) : Z :=
  let lo := if 0 <=? i - wn then word w (i - wn) else 0 in
  let hi := if (0 <? bn) && (0 <=? i - wn - 1) then word w (i - wn - 1) else 0 in
  if 0 <? bn then Z.lor (u64 (Z.shiftl lo bn)) (Z.shiftr hi (64 - bn)) else lo.

Lemma shifted_word_range wn bn w i :
  0 <= bn < 64 -> window_wf w -> in_range 64 (shifted_word wn bn w i).
Proof.
  intros Hbn Hw. unfold shifted_word.
  destruct (0 <? bn); [|wf].
  apply lor_range; [lia|by apply wrap_range|].
  apply shiftr_range; wf.
Qed.

(** Word [i] of the result only depends on words at or below [i], so running
    downwards in place reads each source word before it is overwritten. *)
Lemma shifted_word_insert wn bn w n z i :
  0 <= wn -> window_wf w -> (n < REPLAY_WINDOW_WORDS)%nat -> 0 <= i < Z.of_nat n ->
  shifted_word wn bn (<[n := z]> w) i = shifted_word wn bn w i.
Proof.
  intros Hwn Hw Hn Hi. unfold shifted_word.
  assert (H : forall k, 0 <= k < Z.of_nat n -> word (<[n := z]> w) k = word w k).
  { intros k ?. rewrite word_insert by (done || lia). by replace (k =? Z.of_nat n) with false by lia. }
  destruct (Z.leb_spec 0 (i - wn)), (Z.leb_spec 0 (i - wn - 1));
    rewrite ?andb_true_r, ?andb_false_r, ?H by lia; done.
Qed.

Lemma shift_window_words n wn bn w :
  0 <= wn -> 0 <= bn < 64 -> window_wf w -> (n <= REPLAY_WINDOW_WORDS)%nat ->
  window_wf (shift_window n wn bn w) /\
  forall k, 0 <= k ->
    word (shift_window n wn bn w) k =
      if k <? Z.of_nat n then shifted_word wn bn w k else word w k.
Proof.
  revert w. induction n as [|n IH]; intros w Hwn Hbn Hw Hn.
  { split; [done|]. intros k ?. change (Z.of_nat 0) with 0. by replace (k <? 0) with false by lia. }
  cbn [shift_window].
  fold (shifted_word wn bn w (Z.of_nat n)).
  pose proof (shifted_word_range wn bn w (Z.of_nat n) Hbn Hw) as Hr.
  destruct (IH _ Hwn Hbn (window_wf_insert _ n _ Hw Hr) ltac:(lia)) as [Hwf Hk].
  split; [done|]. intros k ?. rewrite Hk, word_insert by (done || lia).
  destruct (Z.ltb_spec k (Z.of_nat n)), (Z.ltb_spec k (Z.of_nat (S n)));
    try lia; [by apply shifted_word_insert|..];
    destruct (Z.eqb_spec k (Z.of_nat n)); subst; done || lia.
Qed.

(** The shift loop moves every bit up by [64 * wn + bn] places and clears the
    places it vacates. *)
Lemma wbit_shift wn bn w k :
  0 <= wn -> 0 <= bn < 64 -> window_wf w -> 0 <= k < WINDOW ->
  wbit (shift_window REPLAY_WINDOW_WORDS wn bn w) k =
    (64 * wn + bn <=? k) && wbit w (k - (64 * wn + bn)).
Proof.
  intros Hwn Hbn Hw Hk. unfold WINDOW in Hk.
  destruct (shift_window_words REPLAY_WINDOW_WORDS wn bn w) as [_ Hword]; [done..|].
  unfold wbit. pose proof (Z.div_mod k 64 ltac:(lia)) as Hdm.
  pose proof (Z.mod_pos_bound k 64 ltac:(lia)) as Hj.
  set (i := k / 64) in *. set (j := k mod 64) in *.
  rewrite Hword by lia. replace (i <? Z.of_nat REPLAY_WINDOW_WORDS) with true
    by (unfold REPLAY_WINDOW_WORDS; blia).
  assert (Hd : forall d, 0 <= k - d ->
    exists q r, (k - d) / 64 = q /\ (k - d) mod 64 = r /\ k - d = 64 * q + r /\ 0 <= r < 64).
  { intros d ?. eexists _, _. split_and!; try done; Z.div_mod_to_equations; lia. }
  unfold shifted_word.
  destruct (Z.ltb_spec 0 bn) as [Hb|Hb]; simpl andb.
  - rewrite Z.lor_spec, wrap_testbit, Z.shiftl_spec, Z.shiftr_spec by lia.
    replace (j <? 64) with true by lia. simpl.
    destruct (Z.leb_spec (64 * wn + bn) k) as [Hle|Hgt]; simpl.
    + destruct (Hd (64 * wn + bn)) as (q & r & -> & -> & Heq & Hr); [lia|].
      destruct (Z.leb_spec bn j).
      * replace (0 <=? i - wn) with true by lia.
        assert (q = i - wn) as -> by lia. assert (r = j - bn) as -> by lia.
        rewrite (in_range_testbit 64 _ (j + (64 - bn))) by wf.
        by rewrite orb_false_r.
      * rewrite (Z.testbit_neg_r _ (j - bn)) by lia.
        replace (0 <=? i - wn - 1) with true by lia.
        assert (q = i - wn - 1) as -> by lia. by assert (r = j + (64 - bn)) as -> by lia.
    + destruct (Z.leb_spec bn j).
      * replace (0 <=? i - wn) with false by lia. rewrite Z.testbit_0_l. simpl.
        apply (in_range_testbit 64); wf.
      * rewrite (Z.testbit_neg_r _ (j - bn)) by lia.
        replace (0 <=? i - wn - 1) with false by lia. by rewrite Z.testbit_0_l.
  - assert (bn = 0) as -> by lia. rewrite Z.add_0_r.
    destruct (Z.leb_spec (64 * wn) k); simpl.
    + replace (0 <=? i - wn) with true by lia.
      destruct (Hd (64 * wn)) as (q & r & -> & -> & Heq & Hr); [lia|].
      assert (q = i - wn) as -> by lia. by assert (r = j) as -> by lia.
    + replace (0 <=? i - wn) with false by lia. by rewrite Z.testbit_0_l.
Qed.

Lemma wbit_set_bit w k k' :
  window_wf w -> 0 <= k < WINDOW -> 0 <= k' ->
  wbit (set_bit w (k / 64) (k mod 64)) k' = (k' =? k) || wbit w k'.
Proof.
  intros Hw Hk Hk'. unfold WINDOW in Hk. unfold wbit, set_bit.
  pose proof (Z.mod_pos_bound k 64 ltac:(lia)). pose proof (Z.mod_pos_bound k' 64 ltac:(lia)).
  rewrite word_insert
    by (done || unfold REPLAY_WINDOW_WORDS; Z.div_mod_to_equations; lia).
  rewrite Z2Nat.id by (Z.div_mod_to_equations; lia).
  destruct (Z.eqb_spec (k' / 64) (k / 64)) as [He|He].
  - rewrite Z.lor_spec, Z.shiftl_spec, He by lia.
    destruct (Z.eqb_spec k' k) as [->|Hne].
    + by rewrite Z.sub_diag, orb_true_r.
    + enough (Z.testbit 1 (k' mod 64 - k mod 64) = false) as -> by by rewrite orb_false_r.
      destruct (Z.lt_trichotomy (k' mod 64) (k mod 64)) as [?|[?|?]];
        [by rewrite Z.testbit_neg_r by lia| Z.div_mod_to_equations; lia|].
      apply (in_range_testbit 1); [unfold in_range; lia|lia].
  - destruct (Z.eqb_spec k' k) as [->|Hne]; done.
Qed.

Lemma set_bit_wf w k bit : window_wf w -> 0 <= bit < 64 -> window_wf (set_bit w k bit).
Proof.
  intros Hw Hb. apply window_wf_insert; [done|]. apply lor_range; [lia|wf|].
  rewrite Z.shiftl_1_l. split; [lia|]. apply Z.pow_lt_mono_r; lia.
Qed.

#[export] Hint Resolve set_bit_wf : wf.

(** ** Refinement *)

Lemma refines_init : refines replay_init abs_init.
Proof.
  split; simpl; [wf|wf|done|set_solver|].
  intros k _. rewrite wbit_zero. symmetry. apply bool_decide_eq_false. set_solver.
Qed.

(** Accepting [seq > highest]: the window slides up by their difference. *)
Lemma refines_slide c a seq w :
  refines c a -> recv_seq_highest c < seq -> in_range 64 seq -> window_wf w ->
  (forall k, 0 <= k < WINDOW ->
     wbit w k = (seq - recv_seq_highest c <=? k) &&
                bool_decide (seq - k ∈ abs_seen a)) ->
  refines (ReplayState seq (set_bit w 0 0))
          (AbsWindow (Z.max (abs_highest a) seq) ({[seq]} ∪ abs_seen a)).
Proof.
  intros [Hwf Hr Hh Hs Hb] Hlt Hseq Hw Hbits. split; simpl; [wf|done|lia| |].
  - intros s Hin. apply elem_of_union in Hin as [->%elem_of_singleton|Hin].
    + unfold in_range in *. lia.
    + apply Hs in Hin. lia.
  - intros k Hk. change (set_bit w 0 0) with (set_bit w (0 / 64) (0 mod 64)).
    rewrite wbit_set_bit, Hbits by (done || unfold WINDOW; lia).
    destruct (Z.eqb_spec k 0) as [->|Hne]; simpl.
    { symmetry. apply bool_decide_eq_true. rewrite Z.sub_0_r.
      by apply elem_of_union_l, elem_of_singleton. }
    destruct (Z.leb_spec (seq - recv_seq_highest c) k); simpl.
    + apply bool_decide_ext. rewrite elem_of_union, elem_of_singleton.
      split; [by right|]. intros [?|?]; [lia|done].
    + symmetry. apply bool_decide_eq_false. intros Hin.
      apply elem_of_union in Hin as [Hin%elem_of_singleton|Hin%Hs]; lia.
Qed.

Lemma testbit_test w k :
  0 <= k -> negb (Z.land w (Z.shiftl 1 k) =? 0) = Z.testbit w k.
Proof.
  intros Hk. destruct (Z.testbit w k) eqn:E.
  - apply negb_true_iff, Z.eqb_neq. intros H0.
    assert (Z.testbit (Z.land w (Z.shiftl 1 k)) k = false) by (by rewrite H0, Z.testbit_0_l).
    by rewrite Z.land_spec, Z.shiftl_spec, Z.sub_diag, E in * by lia.
  - apply negb_false_iff, Z.eqb_eq. apply Z.bits_inj'. intros i ?.
    rewrite Z.land_spec, Z.shiftl_spec, Z.testbit_0_l by lia.
    destruct (Z.eq_dec i k) as [->|]; [by rewrite E|].
    destruct (Z.lt_trichotomy i k) as [?|[?|?]]; [|lia|].
    + by rewrite (Z.testbit_neg_r 1), andb_false_r by lia.
    + rewrite (in_range_testbit 1 1), andb_false_r; [done|unfold in_range; lia|lia].
Qed.

Lemma sub_u64 a b : in_range 64 a -> in_range 64 b -> b <= a -> u64 (a - b) = a - b.
Proof. unfold in_range. intros. apply wrap_small. unfold in_range. lia. Qed.

Lemma div_mod_64 d : 64 * (d / 64) + d mod 64 = d.
Proof. symmetry. apply Z.div_mod. lia. Qed.

#[local] Opaque shift_window.

(** A number above the highest is always fresh. *)
Lemma check_replay_above c a seq :
  refines c a -> in_range 64 seq -> recv_seq_highest c < seq ->
  abs_fresh seq a = true /\
  exists c', check_replay seq c = (0, c') /\
    refines c' (AbsWindow (Z.max (abs_highest a) seq) ({[seq]} ∪ abs_seen a)).
Proof.
  intros Href Hseq Hlt. pose proof Href as [Hwf Hr Hh Hs Hb]. split.
  { unfold abs_fresh. rewrite Hh, bool_decide_eq_true_2 by (intros ?%Hs; lia).
    cbn [andb]. unfold WINDOW. blia. }
  unfold check_replay. replace (recv_seq_highest c <? seq) with true by blia.
  rewrite sub_u64 by first [done|lia]. cbv zeta. eexists. split; [done|].
  set (d := seq - recv_seq_highest c) in *.
  change (Z.of_nat REPLAY_WINDOW_WORDS * 64) with WINDOW.
  assert (0 <= d / 64 /\ 0 <= d mod 64 < 64) as [Hq Hm] by (Z.div_mod_to_equations; lia).
  apply (refines_slide c); [done..| |].
  - destruct (WINDOW <=? d); [wf|]. by apply shift_window_words.
  - intros k Hk. fold d. destruct (Z.leb_spec WINDOW d).
    + rewrite wbit_zero. by replace (d <=? k) with false by blia.
    + rewrite wbit_shift, div_mod_64 by done.
      destruct (Z.leb_spec d k); [|done]. cbn [andb].
      rewrite Hb by lia. apply bool_decide_ext. by replace (recv_seq_highest c - (k - d)) with (seq - k) by lia.
Qed.

(** A number at or below the highest is looked up in the window. *)
Lemma check_replay_below c a seq :
  refines c a -> in_range 64 seq -> seq <= recv_seq_highest c ->
  exists c', check_replay seq c = (if abs_fresh seq a then 0 else -1, c') /\
    refines c' (if abs_fresh seq a
                then AbsWindow (Z.max (abs_highest a) seq) ({[seq]} ∪ abs_seen a) else a).
Proof.
  intros Href Hseq Hle. pose proof Href as [Hwf Hr Hh Hs Hb].
  unfold check_replay, abs_fresh. replace (recv_seq_highest c <? seq) with false by blia.
  rewrite Hh, sub_u64 by first [done|lia]. cbv zeta.
  set (d := recv_seq_highest c - seq) in *.
  change (Z.of_nat REPLAY_WINDOW_WORDS * 64) with WINDOW.
  destruct (Z.leb_spec WINDOW d).
  { replace (d <? WINDOW) with false by blia. rewrite andb_false_r. by eexists. }
  replace (d <? WINDOW) with true by blia. rewrite andb_true_r.
  assert (0 <= d / 64 /\ 0 <= d mod 64 < 64) as [Hq Hm] by (Z.div_mod_to_equations; lia).
  rewrite testbit_test by lia.
  fold (wbit (recv_seq_window c) d). rewrite Hb by lia.
  replace (recv_seq_highest c - d) with seq by lia.
  destruct (decide (seq ∈ abs_seen a)) as [Hin|Hnin].
  { rewrite bool_decide_eq_true_2, bool_decide_eq_false_2 by auto. by eexists. }
  rewrite bool_decide_eq_false_2, bool_decide_eq_true_2 by auto.
  eexists. split; [done|]. rewrite Z.max_l by lia. split; cbn; [|done..| |].
  - by apply set_bit_wf.
  - intros s [->%elem_of_singleton|Hin]%elem_of_union; [|by apply Hs].
    unfold in_range in *. lia.
  - intros k Hk. rewrite wbit_set_bit, Hb by first [done|lia].
    destruct (Z.eqb_spec k d) as [->|Hne]; cbn [orb].
    + symmetry. apply bool_decide_eq_true. apply elem_of_union_l, elem_of_singleton. lia.
    + apply bool_decide_ext. rewrite elem_of_union, elem_of_singleton.
      split; [by right|]. intros [?|?]; [lia|done].
Qed.

Lemma check_replay_step c a seq :
  refines c a -> in_range 64 seq ->
  exists c', check_replay seq c = (if (abs_check seq a).1 then 0 else -1, c') /\
             refines c' (abs_check seq a).2.
Proof.
  intros Href Hseq. unfold abs_check.
  destruct (Z.lt_ge_cases (recv_seq_highest c) seq).
  - destruct (check_replay_above c a seq) as [-> H']; done.
  - destruct (check_replay_below c a seq) as (c' & ? & ?); [done..|].
    exists c'. by destruct (abs_fresh seq a).
Qed.

Definition result (b : bool) : Z := if b then 0 else -1.

Lemma replay_run_step seqs : forall c a,
  Forall (in_range 64) seqs -> refines c a ->
  (replay_run seqs c).1 = result <$> (abs_run seqs a).1 /\
  refines (replay_run seqs c).2 (abs_run seqs a).2.
Proof.
  induction seqs as [|seq seqs IH]; intros c a Hf Href; cbn; [done|].
  apply Forall_cons in Hf as [Hseq Hf].
  destruct (check_replay_step c a seq Href Hseq) as (c' & -> & Href').
  destruct (abs_check seq a) as [b a'] eqn:E. cbn in Href'.
  destruct (IH c' a' Hf Href') as [H1 H2].
  destruct (replay_run seqs c') as [rs c''], (abs_run seqs a') as [bs a''].
  cbn in *. split; [|done]. by f_equal.
Qed.

Lemma accepted_cons seq seqs b rs :
  accepted (seq :: seqs) (result b :: rs) =
    (if b then [seq] else []) ++ accepted seqs rs.
Proof. unfold accepted. by destruct b. Qed.
Arguments accepted : simpl never.
Arguments result : simpl never.

(** The numbers an abstract run accepts are distinct, new, and all recorded. *)
Lemma abs_run_accepted seqs : forall a,
  let acc := accepted seqs (result <$> (abs_run seqs a).1) in
  NoDup acc /\ (forall s, s ∈ acc -> s ∉ abs_seen a) /\
  forall s, s ∈ abs_seen (abs_run seqs a).2 <-> s ∈ abs_seen a \/ s ∈ acc.
Proof.
  induction seqs as [|seq seqs IH]; intros a; cbn.
  { split_and!; [constructor|set_solver|set_solver]. }
  unfold abs_check. destruct (abs_fresh seq a) eqn:E.
  - set (a1 := AbsWindow _ _). specialize (IH a1).
    destruct (abs_run seqs a1) as [bs a2]. cbn in *. destruct IH as (H1 & H2 & H3).
    rewrite accepted_cons. cbn.
    unfold abs_fresh in E. apply andb_true_iff in E as [E%bool_decide_eq_true _].
    split_and!.
    + constructor; [|done]. intros Hin%H2. apply Hin. cbn. set_solver.
    + intros s [->|Hin]%elem_of_cons; [done|]. apply H2 in Hin. set_solver.
    + intros s. rewrite H3. cbn. set_solver.
  - specialize (IH a). destruct (abs_run seqs a) as [bs a2]. cbn in *.
    by rewrite accepted_cons.
Qed.

Lemma replay_run_accepted seqs :
  Forall (in_range 64) seqs ->
  let '(rs, c) := replay_run seqs replay_init in
  NoDup (accepted seqs rs) /\
  exists a, refines c a /\ forall s, s ∈ abs_seen a <-> s ∈ accepted seqs rs.
Proof.
  intros Hf. destruct (replay_run_step seqs replay_init abs_init Hf refines_init) as [H1 H2].
  destruct (replay_run seqs replay_init) as [rs c]. cbn in H1, H2. subst rs.
  destruct (abs_run_accepted seqs abs_init) as (Hn & _ & Hs). split; [done|].
  eexists. split; [done|]. intros s. rewrite Hs. cbn. set_solver.
Qed.

(** The window keeps the maximum of what it accepted. *)
Lemma abs_run_highest seqs : forall a,
  abs_highest a <= abs_highest (abs_run seqs a).2 /\
  (forall s, s ∈ accepted seqs (result <$> (abs_run seqs a).1) ->
     s <= abs_highest (abs_run seqs a).2).
Proof.
  induction seqs as [|seq seqs IH]; intros a; cbn; [split; [lia|set_solver]|].
  unfold abs_check. destruct (abs_fresh seq a) eqn:E.
  - set (a1 := AbsWindow _ _). specialize (IH a1).
    destruct (abs_run seqs a1) as [bs a2]. cbn in *. destruct IH as (H1 & H2).
    rewrite accepted_cons. cbn.
    split; [lia|]. intros s [->|Hin]%elem_of_cons; [lia|auto].
  - specialize (IH a). destruct (abs_run seqs a) as [bs a2]. cbn in *.
    by rewrite accepted_cons.
Qed.

(** The highest number is the initial one or one of the accepted ones. *)
Lemma abs_run_highest_in seqs : forall a,
  abs_highest (abs_run seqs a).2 = abs_highest a \/
  abs_highest (abs_run seqs a).2 ∈ accepted seqs (result <$> (abs_run seqs a).1).
Proof.
  induction seqs as [|seq seqs IH]; intros a; cbn; [by left|].
  unfold abs_check. destruct (abs_fresh seq a) eqn:E.
  - set (a1 := AbsWindow _ _). specialize (IH a1).
    destruct (abs_run seqs a1) as [bs a2]. cbn in *. rewrite accepted_cons. cbn.
    destruct IH as [->|?]; [|right; by right].
    destruct (Z.max_spec (abs_highest a) seq) as [[_ ->]|[_ ->]]; [right; left|by left].
  - specialize (IH a). destruct (abs_run seqs a) as [bs a2]. cbn in *.
    by rewrite accepted_cons.
Qed.

(** In-order numbers from [k] on are all fresh when everything seen is below [k]. *)
Lemma abs_run_in_order n : forall k a,
  abs_highest a <= Z.of_nat k -> (forall s, s ∈ abs_seen a -> s < Z.of_nat k) ->
  (abs_run (Z.of_nat <$> seq k n) a).1 = replicate n true.
Proof.
  induction n as [|n IH]; intros k a Hh Hs; cbn; [done|]. unfold abs_check.
  assert (abs_fresh (Z.of_nat k) a = true) as ->.
  { unfold abs_fresh. apply andb_true_iff. split; [|unfold WINDOW; blia].
    apply bool_decide_eq_true. intros ?%Hs. lia. }
  set (a1 := AbsWindow _ _). specialize (IH (S k) a1).
  destruct (abs_run _ a1) as [bs a2]. cbn in *. f_equal. apply IH; [lia|].
  intros s [->%elem_of_singleton|?%Hs]%elem_of_union; lia.
Qed.

(** ** Properties *)

(** C1: [check_replay] on its 32 64-bit words implements the abstract window
    over the set of all accepted sequence numbers: from related states, on any
    64-bit sequence number, it returns 0 exactly when the number has not been
    accepted before and is less than 2048 below the highest accepted one, and
    the states it leads to are related again. *)
Theorem check_replay_refines c a seq :
  refines c a -> in_range 64 seq ->
  (check_replay seq c).1 = result (abs_check seq a).1 /\
  refines (check_replay seq c).2 (abs_check seq a).2.
Proof.
  intros Href Hseq. destruct (check_replay_step c a seq Href Hseq) as (c' & -> & ?). done.
Qed.

Lemma check_replay_refines_witness :
  (check_replay 5 replay_init).1 = result (abs_check 5 abs_init).1 /\
  refines (check_replay 5 replay_init).2 (abs_check 5 abs_init).2.
Proof.
  apply (check_replay_refines replay_init abs_init 5 refines_init).
  unfold in_range. lia.
Defined.

(** C2: Over any sequence of packets received under one session key, no
    sequence number is ever accepted twice. *)
Theorem replay_never_accepts_twice seqs :
  Forall (in_range 64) seqs ->
  NoDup (accepted seqs (replay_run seqs replay_init).1).
Proof.
  intros Hf. pose proof (replay_run_accepted seqs Hf).
  destruct (replay_run seqs replay_init). naive_solver.
Qed.

Lemma replay_never_accepts_twice_witness :
  NoDup (accepted [3; 3; 1; 2500; 1] (replay_run [3; 3; 1; 2500; 1] replay_init).1).
Proof.
  apply (replay_never_accepts_twice [3; 3; 1; 2500; 1]).
  repeat constructor; unfold in_range; lia.
Defined.

(** C3: What the window decides, in terms of the packets alone: after any
    history of packets under one key, a sequence number is accepted if and only
    if it was not accepted before and no accepted number is 2048 or more ahead
    of it. *)
Theorem replay_accepts_exactly_fresh seqs seq :
  Forall (in_range 64) seqs -> in_range 64 seq ->
  let '(rs, c) := replay_run seqs replay_init in
  fst (check_replay seq c) = 0 <->
  (seq ∉ accepted seqs rs) /\ forall s, s ∈ accepted seqs rs -> s - seq < WINDOW.
Proof.
  intros Hf Hseq. destruct (replay_run_step seqs replay_init abs_init Hf refines_init) as [H1 H2].
  destruct (replay_run seqs replay_init) as [rs c]. cbn in H1, H2.
  destruct (abs_run_accepted seqs abs_init) as (_ & _ & Hs).
  destruct (abs_run_highest seqs abs_init) as [_ Hmax].
  pose proof (abs_run_highest_in seqs abs_init) as Hin. rewrite <- H1 in *.
  set (a := (abs_run seqs abs_init).2) in *. cbn in Hin.
  destruct (check_replay_step c a seq H2 Hseq) as (c' & -> & _).
  unfold abs_check, abs_fresh. cbn in Hs.
  assert (abs_highest a - seq < WINDOW <-> forall s, s ∈ accepted seqs rs -> s - seq < WINDOW) as Hw.
  { split; [intros ? s ?%Hmax; lia|]. intros Hall.
    destruct Hin as [->|?%Hall]; [|done]. unfold in_range, WINDOW in *. lia. }
  rewrite <- Hw. destruct (decide (seq ∈ abs_seen a)) as [Hi|Hi].
  - rewrite bool_decide_eq_false_2 by tauto. cbn. split; [done|]. set_solver.
  - rewrite bool_decide_eq_true_2 by done. cbn [andb].
    destruct (Z.ltb_spec (abs_highest a - seq) WINDOW); cbn; split; try done; [|lia].
    intros _. split; [set_solver|done].
Qed.

Lemma replay_accepts_exactly_fresh_witness :
  fst (check_replay 1 (snd (replay_run [3000; 7] replay_init))) = 0 <->
  (1 ∉ accepted [3000; 7] (replay_run [3000; 7] replay_init).1) /\
  forall s, s ∈ accepted [3000; 7] (replay_run [3000; 7] replay_init).1 -> s - 1 < WINDOW.
Proof.
  apply (replay_accepts_exactly_fresh [3000; 7] 1);
    repeat constructor; unfold in_range; lia.
Defined.

(** Packets that arrive in the order a session's [send_seq] numbers them
    (0, 1, 2, ...) are all accepted, the first one included, for every count
    below 2^64. *)
Theorem replay_in_order_accepted n :
  Z.of_nat n <= 2 ^ 64 ->
  (replay_run (Z.of_nat <$> seq 0 n) replay_init).1 = replicate n 0.
Proof.
  intros Hn.
  assert (Forall (in_range 64) (Z.of_nat <$> seq 0 n)) as Hf.
  { apply Forall_fmap, Forall_forall. intros x ?%elem_of_seq. cbn. unfold in_range. lia. }
  destruct (replay_run_step _ replay_init abs_init Hf refines_init) as [-> _].
  rewrite abs_run_in_order; [by rewrite fmap_replicate|done|set_solver].
Qed.

Lemma replay_in_order_accepted_witness :
  (replay_run (Z.of_nat <$> seq 0 5) replay_init).1 = [0; 0; 0; 0; 0].
Proof. apply (replay_in_order_accepted 5). lia. Defined.
