(* ===== verification/Platform.v ===== *)
(** * The platform: OpenSSL and the operating system

    What src/common.c and src/peer.c call and do not define.  The OpenSSL calls
    and the environment (clock, random bytes, sockets, DNS) are operations of
    two classes, so every definition of the library is stated for all of their
    behaviours; [OpenSSLOk] states what the OpenSSL manual documents of them.
    The module [Toy] is an executable instance of both. *)

From S2P Require Import Prelude.
From Stdlib Require Import Strings.Byte.

(** An IPv4 socket address, in host byte order ([htonl]/[htons] are applied on
    the way to the structure and undone on the way out). *)
Record sockaddr_in := SockAddr { sin_addr : Z; sin_port : Z }.

#[export] Instance sockaddr_in_eq_dec : EqDecision sockaddr_in.
Proof. solve_decision. Defined.

(** ** OpenSSL

    A call that can fail returns an [option].  Calls that allocate take the
    number of the interaction with the environment, so that they may fail at
    one time and succeed at another; the state of a context decides the outcome
    of the later calls on it. *)

Class OpenSSL := {
  evp_pkey : Type;
  evp_pkey_ctx : Type;
  evp_cipher_ctx : Type;

  SHA256 : bytes -> bytes;
  HMAC_SHA256 : nat -> bytes -> bytes -> option bytes;

  EVP_PKEY_get_raw_public_key : evp_pkey -> option bytes;
  EVP_PKEY_get_raw_private_key : evp_pkey -> option bytes;
  EVP_PKEY_new_raw_public_key : nat -> bytes -> option evp_pkey;
  EVP_PKEY_new_raw_private_key : nat -> bytes -> option evp_pkey;
  EVP_PKEY_CTX_new : nat -> evp_pkey -> option evp_pkey_ctx;
  EVP_PKEY_derive_init : evp_pkey_ctx -> option evp_pkey_ctx;
  EVP_PKEY_derive_set_peer : evp_pkey_ctx -> evp_pkey -> option evp_pkey_ctx;
  EVP_PKEY_derive : evp_pkey_ctx -> option bytes;

  EVP_CIPHER_CTX_new : nat -> option evp_cipher_ctx;
  EVP_CIPHER_CTX_reset : evp_cipher_ctx -> evp_cipher_ctx;
  EVP_EncryptInit_ex : evp_cipher_ctx -> bytes -> bytes -> option evp_cipher_ctx;
  EVP_EncryptUpdate : evp_cipher_ctx -> bytes -> option (evp_cipher_ctx * bytes);
  EVP_EncryptFinal_ex : evp_cipher_ctx -> option (evp_cipher_ctx * bytes);
  EVP_CTRL_GCM_GET_TAG : evp_cipher_ctx -> nat -> option bytes;
  EVP_DecryptInit_ex : evp_cipher_ctx -> bytes -> bytes -> option evp_cipher_ctx;
  EVP_DecryptUpdate : evp_cipher_ctx -> bytes -> option (evp_cipher_ctx * bytes);
  EVP_CTRL_GCM_SET_TAG : evp_cipher_ctx -> bytes -> option evp_cipher_ctx;
  EVP_DecryptFinal_ex : evp_cipher_ctx -> option (evp_cipher_ctx * bytes);
}.

(** ** The environment: the answers the [n]-th interaction gets *)

Class Env `{OpenSSL} := {
  env_time : nat -> Z;
  env_RAND_bytes : nat -> nat -> option bytes;
  env_keygen_ctx : nat -> bool;
  env_keygen_init : nat -> bool;
  env_keygen : nat -> option evp_pkey;
  env_sendto : nat -> sockaddr_in -> bytes -> bool;
  env_tun_write : nat -> bytes -> bool;
  env_getaddrinfo : nat -> string -> string -> option sockaddr_in;
}.

(** ** State of the process outside peer.c's own tables

    [os_keys] holds the live [EVP_PKEY] objects by address, [os_sent] and
    [os_tun] what was sent on the UDP socket and written to the TUN device. *)

Record os `{OpenSSL} := Os {
  os_n : nat;
  os_keys : gmap nat evp_pkey;
  os_next : nat;
  os_sent : list (sockaddr_in * bytes);
  os_tun : list bytes;
}.

Section Calls.
Context `{Env}.

(** One interaction with the environment. *)
Definition io {A} (f : nat -> A) : M os A := fun s =>
  Ret (f (os_n s)) (Os _ (S (os_n s)) (os_keys s) (os_next s) (os_sent s) (os_tun s)).

Definition c_time : M os Z := io env_time.
Definition RAND_bytes (len : nat) : M os (option bytes) := io (fun n => env_RAND_bytes n len).

(** A new [EVP_PKEY] object for the key material [k]. *)
Definition pkey_alloc (k : evp_pkey) : M os nat := fun s =>
  Ret (os_next s)
      (Os _ (os_n s) (<[os_next s := k]> (os_keys s)) (S (os_next s)) (os_sent s) (os_tun s)).

(** Dereferencing an [EVP_PKEY] that is not live is undefined. *)
Definition pkey_deref (h : nat) : M os evp_pkey := fun s =>
  match os_keys s !! h with Some k => Ret k s | None => UB end.

(** [EVP_PKEY_free]: freeing [NULL] does nothing, freeing a dead key is undefined. *)
Definition EVP_PKEY_free (p : option nat) : M os unit := fun s =>
  match p with
  | None => Ret tt s
  | Some h =>
      match os_keys s !! h with
      | Some _ =>
          Ret tt (Os _ (os_n s) (delete h (os_keys s)) (os_next s) (os_sent s) (os_tun s))
      | None => UB
      end
  end.

(** [sendto] on the UDP socket; [true] when it returned a non-negative value. *)
Definition sendto (addr : sockaddr_in) (pkt : bytes) : M os bool :=
  let! ok := io (fun n => env_sendto n addr pkt) in
  (if ok : bool then
     modify (fun s => Os _ (os_n s) (os_keys s) (os_next s) (os_sent s ++ [(addr, pkt)]) (os_tun s))
   else ret tt) ;;;
  ret ok.

(** [write] on the TUN device. *)
Definition tun_write (pkt : bytes) : M os bool :=
  let! ok := io (fun n => env_tun_write n pkt) in
  (if ok : bool then
     modify (fun s => Os _ (os_n s) (os_keys s) (os_next s) (os_sent s) (os_tun s ++ [pkt]))
   else ret tt) ;;;
  ret ok.

Definition getaddrinfo (host port : string) : M os (option sockaddr_in) :=
  io (fun n => env_getaddrinfo n host port).

(** The address of every live key was handed out before. *)
Definition os_wf (s : os) : Prop := forall h, is_Some (os_keys s !! h) -> (h < os_next s)%nat.

Lemma os_wf_fresh s : os_wf s -> os_keys s !! os_next s = None.
Proof.
  intros Hwf. destruct (os_keys s !! os_next s) eqn:E; [|done].
  specialize (Hwf (os_next s)). rewrite E in Hwf. specialize (Hwf ltac:(done)). lia.
Qed.

(** A computation that sends nothing and leaves the live keys as they were. *)
Record os_quiet (s s' : os) : Prop := {
  quiet_keys : os_keys s' = os_keys s;
  quiet_sent : os_sent s' = os_sent s;
  quiet_tun : os_tun s' = os_tun s;
  quiet_next : (os_next s <= os_next s')%nat;
}.

#[export] Instance os_quiet_preorder : PreOrder os_quiet.
Proof.
  split; [by intros ?; constructor|].
  intros ??? [] []. constructor; try congruence. lia.
Qed.

Lemma os_quiet_wf s s' : os_quiet s s' -> os_wf s -> os_wf s'.
Proof. intros [Hk _ _ Hn] Hwf h. rewrite Hk. intros ?%Hwf. lia. Qed.

(** ** Rules for symbolic execution *)

Lemma wp_io {A} (f : nat -> A) Q s :
  Q (f (os_n s)) (Os _ (S (os_n s)) (os_keys s) (os_next s) (os_sent s) (os_tun s)) ->
  wp (io f) Q s.
Proof. done. Qed.

Lemma wp_pkey_alloc k Q s :
  Q (os_next s)
    (Os _ (os_n s) (<[os_next s := k]> (os_keys s)) (S (os_next s)) (os_sent s) (os_tun s)) ->
  wp (pkey_alloc k) Q s.
Proof. done. Qed.

Lemma wp_pkey_deref h k Q s : os_keys s !! h = Some k -> Q k s -> wp (pkey_deref h) Q s.
Proof. unfold wp, pkey_deref. by intros ->. Qed.

Lemma wp_pkey_free h k Q s :
  os_keys s !! h = Some k ->
  Q tt (Os _ (os_n s) (delete h (os_keys s)) (os_next s) (os_sent s) (os_tun s)) ->
  wp (EVP_PKEY_free (Some h)) Q s.
Proof. unfold wp, EVP_PKEY_free. by intros ->. Qed.

Lemma wp_sendto addr pkt Q s :
  (env_sendto (os_n s) addr pkt = true ->
   Q true (Os _ (S (os_n s)) (os_keys s) (os_next s) (os_sent s ++ [(addr, pkt)]) (os_tun s))) ->
  (env_sendto (os_n s) addr pkt = false ->
   Q false (Os _ (S (os_n s)) (os_keys s) (os_next s) (os_sent s) (os_tun s))) ->
  wp (sendto addr pkt) Q s.
Proof.
  intros Ht Hf. unfold wp, sendto, bind, io, modify, ret. cbn.
  destruct (env_sendto (os_n s) addr pkt) eqn:E; auto.
Qed.
End Calls.

(** ** What the manual documents

    [OpenSSLSizes]: the sizes of what a successful call writes, for SHA-256,
    HMAC-SHA256, X25519 and a GCM context (a stream mode: an update writes as
    many bytes as it reads and the final call writes none). *)

Class OpenSSLSizes `{Env} := {
  SHA256_size m : length (SHA256 m) = 32%nat;
  HMAC_size n k m h : HMAC_SHA256 n k m = Some h -> length h = 32%nat;
  raw_public_size k b : EVP_PKEY_get_raw_public_key k = Some b -> length b = 32%nat;
  derive_size c b : EVP_PKEY_derive c = Some b -> length b = 32%nat;
  EncryptUpdate_size c p c' o :
    EVP_EncryptUpdate c p = Some (c', o) -> length o = length p;
  EncryptFinal_size c c' o : EVP_EncryptFinal_ex c = Some (c', o) -> o = [];
  GET_TAG_size c n t : EVP_CTRL_GCM_GET_TAG c n = Some t -> length t = n;
  DecryptUpdate_size c p c' o :
    EVP_DecryptUpdate c p = Some (c', o) -> length o = length p;
  DecryptFinal_size c c' o : EVP_DecryptFinal_ex c = Some (c', o) -> o = [];
  RAND_bytes_size n len b : env_RAND_bytes n len = Some b -> length b = len;
}.

(** [OpenSSLOk]: the algorithms the calls implement, when no call fails for
    want of memory.  AES-256-GCM sealing and opening, HMAC-SHA256, and X25519
    over key pairs: a public key of a key pair is never rejected and both sides
    of an exchange derive the same secret. *)

Class OpenSSLOk `{Env} := {
  gcm_seal : bytes -> bytes -> bytes -> bytes * bytes;
  gcm_open : bytes -> bytes -> bytes -> bytes -> option bytes;
  hmac : bytes -> bytes -> bytes;
  is_keypair : evp_pkey -> Prop;
  public : evp_pkey -> bytes;
  dh : evp_pkey -> bytes -> bytes;

  ok_sizes :: OpenSSLSizes;
  ok_seal_open k iv p ct tag :
    gcm_seal k iv p = (ct, tag) <-> gcm_open k iv ct tag = Some p;
  ok_encrypt c k iv p ct tag :
    length k = 32%nat -> length iv = 12%nat -> gcm_seal k iv p = (ct, tag) ->
    exists c1 c2 c3,
      EVP_EncryptInit_ex c k iv = Some c1 /\ EVP_EncryptUpdate c1 p = Some (c2, ct) /\
      EVP_EncryptFinal_ex c2 = Some (c3, []) /\ EVP_CTRL_GCM_GET_TAG c3 16 = Some tag;
  ok_decrypt c k iv ct tag :
    length k = 32%nat -> length iv = 12%nat -> length tag = 16%nat ->
    exists c1 c2 c3 out,
      EVP_DecryptInit_ex c k iv = Some c1 /\ EVP_DecryptUpdate c1 ct = Some (c2, out) /\
      EVP_CTRL_GCM_SET_TAG c2 tag = Some c3 /\
      match gcm_open k iv ct tag with
      | Some p => out = p /\ exists c4, EVP_DecryptFinal_ex c3 = Some (c4, [])
      | None => EVP_DecryptFinal_ex c3 = None
      end;
  ok_cipher_ctx n : is_Some (EVP_CIPHER_CTX_new n);
  ok_hmac n k m : HMAC_SHA256 n k m = Some (hmac k m);
  ok_public k : is_keypair k -> EVP_PKEY_get_raw_public_key k = Some (public k);
  ok_derive n m a b :
    is_keypair a -> is_keypair b ->
    exists pk c1 c2 c3,
      EVP_PKEY_new_raw_public_key n (public b) = Some pk /\
      EVP_PKEY_CTX_new m a = Some c1 /\ EVP_PKEY_derive_init c1 = Some c2 /\
      EVP_PKEY_derive_set_peer c2 pk = Some c3 /\ EVP_PKEY_derive c3 = Some (dh a (public b));
  ok_dh a b : is_keypair a -> is_keypair b -> dh a (public b) = dh b (public a);
  ok_keygen n : env_keygen_ctx n = true /\ env_keygen_init n = true /\
    exists k, env_keygen n = Some k /\ is_keypair k;
  ok_RAND_bytes n len : is_Some (env_RAND_bytes n len);
  ok_private k : is_keypair k -> exists priv,
    EVP_PKEY_get_raw_private_key k = Some priv /\ length priv = 32%nat /\
    forall n, exists k', EVP_PKEY_new_raw_private_key n priv = Some k' /\
      is_keypair k' /\ public k' = public k;
}.

(** ** An executable instance

    Not cryptography: a cipher that leaves its input in the clear, a checksum
    for the tag and an additive exchange.  It satisfies the laws above and
    evaluates, which is all the concrete runs of the library need. *)

Module Toy.
Inductive key := Private (x : byte) | Public (b : bytes).
Record cipher := Cipher { c_key : bytes; c_iv : bytes; c_data : bytes; c_tag : bytes }.

Definition mix (n : nat) (m : bytes) : bytes := be_encode n (be_decode m + 1).
Arguments mix : simpl never.
Definition pad (n : nat) (m : bytes) : bytes := take n (m ++ replicate n Byte.x00).
Arguments pad : simpl never.
Definition pub_of (k : key) : bytes :=
  match k with Private x => x :: replicate 31 Byte.x00 | Public b => pad 32 b end.
Definition shared (a : key) (b : bytes) : bytes :=
  match a with
  | Private x => byte_of (bval x + bval (default Byte.x00 (head b))) :: replicate 31 Byte.x00
  | Public _ => replicate 32 Byte.x00
  end.
Definition mac (k iv p : bytes) : bytes := be_encode 16 (be_decode k + be_decode (iv ++ p) + 1).
Arguments mac : simpl never.

#[local] Instance ssl : OpenSSL := {|
  evp_pkey := key;
  evp_pkey_ctx := key * option key;
  evp_cipher_ctx := cipher;
  SHA256 m := mix 32 m;
  HMAC_SHA256 _ k m := Some (mix 32 (k ++ m));
  EVP_PKEY_get_raw_public_key k := Some (pub_of k);
  EVP_PKEY_get_raw_private_key k :=
    match k with Private x => Some (x :: replicate 31 Byte.x00) | Public _ => None end;
  EVP_PKEY_new_raw_public_key _ b := Some (Public b);
  EVP_PKEY_new_raw_private_key _ b := Some (Private (default Byte.x00 (head b)));
  EVP_PKEY_CTX_new _ k := Some (k, None);
  EVP_PKEY_derive_init c := Some c;
  EVP_PKEY_derive_set_peer c k := Some (c.1, Some k);
  EVP_PKEY_derive c :=
    match c.2 with Some k => Some (shared c.1 (pub_of k)) | None => None end;
  EVP_CIPHER_CTX_new _ := Some (Cipher [] [] [] []);
  EVP_CIPHER_CTX_reset _ := Cipher [] [] [] [];
  EVP_EncryptInit_ex _ k iv := Some (Cipher k iv [] []);
  EVP_EncryptUpdate c p := Some (Cipher (c_key c) (c_iv c) p [], p);
  EVP_EncryptFinal_ex c := Some (c, []);
  EVP_CTRL_GCM_GET_TAG c n := Some (pad n (mac (c_key c) (c_iv c) (c_data c)));
  EVP_DecryptInit_ex _ k iv := Some (Cipher k iv [] []);
  EVP_DecryptUpdate c p := Some (Cipher (c_key c) (c_iv c) p [], p);
  EVP_CTRL_GCM_SET_TAG c t := Some (Cipher (c_key c) (c_iv c) (c_data c) t);
  EVP_DecryptFinal_ex c :=
    if decide (c_tag c = mac (c_key c) (c_iv c) (c_data c)) then Some (c, []) else None;
|}.

(** A clock that ticks every interaction, fresh keys, a socket that never fails. *)
#[local] Instance env : Env := {|
  env_time n := 1000 + Z.of_nat n;
  env_RAND_bytes n len := Some (be_encode len (Z.of_nat n));
  env_keygen_ctx _ := true;
  env_keygen_init _ := true;
  env_keygen n := Some (Private (byte_of (Z.of_nat n)));
  env_sendto _ _ _ := true;
  env_tun_write _ _ := true;
  env_getaddrinfo _ _ _ := Some (SockAddr 0x7f000001 5040);
|}.

Lemma length_pad n m : length (pad n m) = n.
Proof. unfold pad. rewrite length_take, length_app, length_replicate. lia. Qed.

Lemma length_mix n m : length (mix n m) = n.
Proof. apply length_be_encode. Qed.

Lemma pad_same n m : length m = n -> pad n m = m.
Proof. intros <-. unfold pad. by rewrite take_app_length. Qed.

Lemma length_pub_of k : length (pub_of k) = 32%nat.
Proof. destruct k; [done|apply length_pad]. Qed.

#[local] Instance ssl_sizes : OpenSSLSizes.
Proof.
  constructor; cbn; intros; simplify_eq;
    first [apply length_mix | apply length_pad | apply length_pub_of | apply length_be_encode
          | idtac]; try done.
  - destruct c as [[] []]; simplify_eq/=; done.
  - by case_decide; simplify_eq.
Qed.

#[local] Instance ssl_ok : OpenSSLOk.
Proof.
  refine {| gcm_seal k iv p := (p, mac k iv p);
            gcm_open k iv ct tag := if decide (tag = mac k iv ct) then Some ct else None;
            hmac k m := mix 32 (k ++ m);
            is_keypair k := match k with Private _ => True | Public _ => False end;
            public := pub_of;
            dh := shared |}.
  - intros k iv p ct tag. destruct (decide (tag = mac k iv ct)); naive_solver.
  - intros c k iv p ct tag _ _ [= <- <-]. by eexists _, _, _.
  - intros c k iv ct tag _ _ _. eexists _, _, _, _. cbn. split_and!; try done.
    cbn. destruct (decide (tag = mac k iv ct)); [by split; [|eexists]|done].
  - done.
  - done.
  - done.
  - intros n m a b Ha Hb. eexists _, _, _, _. split_and!; try done. cbn.
    by rewrite pad_same by apply length_pub_of.
  - intros [x|] [y|] Ha Hb; try done. cbn. by rewrite Z.add_comm.
  - intros n. split_and!; try done. by eexists.
  - done.
  - intros [x|] Hk; [|done]. eexists. split_and!; [done|done|]. intros n. by eexists.
Defined.
End Toy.
