(* ===== verification/Crypto.v ===== *)
(** * Packet and key cryptography: the OpenSSL wrappers of src/common.c

    [encrypt_packet]/[decrypt_packet] (the data packet format), X25519 key
    generation and exchange, the session key derivation and the sealing of
    identities in the handshake. *)

From S2P Require Import Prelude Platform.
From Stdlib Require Import Strings.Byte.

(** ** Sizes (src/common.h) *)

Definition CRYPTO_KEY_LEN : nat := 32.
Definition CRYPTO_IV_LEN : nat := 12.
Definition CRYPTO_TAG_LEN : nat := 16.
Definition CRYPTO_OVERHEAD : nat := CRYPTO_IV_LEN + CRYPTO_TAG_LEN.
Definition HEADER_SIZE : nat := 8.
Definition SEQ_SIZE : nat := 8.
Definition WIRE_OVERHEAD : nat := HEADER_SIZE + SEQ_SIZE + CRYPTO_OVERHEAD.
Definition TUN_MTU : nat := 1500 - 20 - 8 - WIRE_OVERHEAD.
Definition BUFFER_SIZE : nat := 2048.
Definition DH_PUBKEY_LEN : nat := 32.
Definition HMAC_LEN : nat := 32.
Definition HS_ENCRYPTED_PUB_LEN : nat := DH_PUBKEY_LEN + CRYPTO_TAG_LEN.

Definition pkt_header : bytes := byte_of <$> [0xde; 0xad; 0xbe; 0xef; 0xca; 0xfe; 0xba; 0xbe].

Create HintDb sizes.
#[export] Hint Unfold CRYPTO_KEY_LEN CRYPTO_IV_LEN CRYPTO_TAG_LEN CRYPTO_OVERHEAD HEADER_SIZE
  SEQ_SIZE WIRE_OVERHEAD TUN_MTU BUFFER_SIZE DH_PUBKEY_LEN HMAC_LEN HS_ENCRYPTED_PUB_LEN : sizes.

(** Arithmetic over the size constants. *)
Ltac sizes := autounfold with sizes in *; lia.
Ltac wp_fits := apply wp_guard; [first [apply Nat.leb_le | apply Nat.ltb_lt]; sizes|].

Section Crypto.
Context `{Env}.

(** ** Data packets *)

(** [encrypt_packet ctx key plain out_cap]: [out_cap] is the size of the buffer
    [out] points to.  The result is the context as the call leaves it and the
    bytes written ([None] for -1). *)
Definition encrypt_packet (ctx : evp_cipher_ctx) (key plain : bytes) (out_cap : nat)
    : M os (evp_cipher_ctx * option bytes) :=
  let! r := RAND_bytes CRYPTO_IV_LEN in
  match r with
  | None => ret (ctx, None)
  | Some iv =>
      match EVP_EncryptInit_ex ctx key iv with
      | None => ret (EVP_CIPHER_CTX_reset ctx, None)
      | Some ctx1 =>
      match EVP_EncryptUpdate ctx1 plain with
      | None => ret (EVP_CIPHER_CTX_reset ctx1, None)
      | Some (ctx2, c1) =>
      guard (CRYPTO_IV_LEN + length c1 <=? out_cap)%nat ;;;
      match EVP_EncryptFinal_ex ctx2 with
      | None => ret (EVP_CIPHER_CTX_reset ctx2, None)
      | Some (ctx3, c2) =>
      let ciphertext := c1 ++ c2 in
      guard (CRYPTO_IV_LEN + length ciphertext + CRYPTO_TAG_LEN <=? out_cap)%nat ;;;
      match EVP_CTRL_GCM_GET_TAG ctx3 CRYPTO_TAG_LEN with
      | None => ret (EVP_CIPHER_CTX_reset ctx3, None)
      | Some tag => ret (ctx3, Some (iv ++ ciphertext ++ tag))
      end end end end
  end.

(** [decrypt_packet ctx key in out_cap]: the plaintext, or [None] for -1. *)
Definition decrypt_packet (ctx : evp_cipher_ctx) (key pkt : bytes) (out_cap : nat)
    : M os (evp_cipher_ctx * option bytes) :=
  let in_len := length pkt in
  if (in_len <? CRYPTO_OVERHEAD)%nat then ret (ctx, None) else
  let iv := slice 0 CRYPTO_IV_LEN pkt in
  let ciphertext := slice CRYPTO_IV_LEN (in_len - CRYPTO_OVERHEAD) pkt in
  let tag := slice (in_len - CRYPTO_TAG_LEN) CRYPTO_TAG_LEN pkt in
  match EVP_DecryptInit_ex ctx key iv with
  | None => ret (EVP_CIPHER_CTX_reset ctx, None)
  | Some ctx1 =>
  match EVP_DecryptUpdate ctx1 ciphertext with
  | None => ret (EVP_CIPHER_CTX_reset ctx1, None)
  | Some (ctx2, p1) =>
  guard (length p1 <=? out_cap)%nat ;;;
  match EVP_CTRL_GCM_SET_TAG ctx2 tag with
  | None => ret (EVP_CIPHER_CTX_reset ctx2, None)
  | Some ctx3 =>
  match EVP_DecryptFinal_ex ctx3 with
  | None => ret (EVP_CIPHER_CTX_reset ctx3, None)
  | Some (ctx4, p2) =>
  guard (length (p1 ++ p2) <=? out_cap)%nat ;;;
  ret (ctx4, Some (p1 ++ p2))
  end end end end.

(** ** X25519 *)

(** A fresh key pair: the address of the key and its public half. *)
Definition generate_eph_keypair : M os (option (nat * bytes)) :=
  let! pctx := io env_keygen_ctx in
  if negb pctx then ret None else
  let! init := io env_keygen_init in
  if negb init then ret None else
  let! key := io env_keygen in
  match key with
  | None => ret None
  | Some k =>
      let! pkey := pkey_alloc k in
      match EVP_PKEY_get_raw_public_key k with
      | None => EVP_PKEY_free (Some pkey) ;;; ret None
      | Some pub => ret (Some (pkey, pub))
      end
  end.

(** The three calls of the derivation, chained with [&&]. *)
Definition derive_secret (ctx : evp_pkey_ctx) (peer : evp_pkey) : option bytes :=
  match EVP_PKEY_derive_init ctx with
  | None => None
  | Some ctx1 =>
      match EVP_PKEY_derive_set_peer ctx1 peer with
      | None => None
      | Some ctx2 => EVP_PKEY_derive ctx2
      end
  end.

(** The shared secret of [my_key] and the raw public key [peer_pub]. *)
Definition x25519_shared_secret (my_key : option nat) (peer_pub : bytes)
    : M os (option bytes) :=
  let! pk := io (fun n => EVP_PKEY_new_raw_public_key n peer_pub) in
  match pk with
  | None => ret None
  | Some peer =>
      let! peer_key := pkey_alloc peer in
      match my_key with
      | None => EVP_PKEY_free (Some peer_key) ;;; ret None
      | Some h =>
          let! mine := pkey_deref h in
          let! c := io (fun n => EVP_PKEY_CTX_new n mine) in
          match c with
          | None => EVP_PKEY_free (Some peer_key) ;;; ret None
          | Some ctx =>
              let rc := derive_secret ctx peer in
              EVP_PKEY_free (Some peer_key) ;;;
              ret rc
          end
      end
  end.

(** ** Derived keys *)

Definition derive_session_key (ecdh_eph ecdh_sc_es ecdh_ec_ss client_eph_pub server_eph_pub
    client_static_pub server_static_pub : bytes) : bytes :=
  SHA256 (ecdh_eph ++ ecdh_sc_es ++ ecdh_ec_ss ++ client_eph_pub ++ server_eph_pub ++
          client_static_pub ++ server_static_pub).

Definition compute_hmac (psk_key msg : bytes) : M os (option bytes) :=
  io (fun n => HMAC_SHA256 n psk_key msg).

(** ** Identity hiding *)

Definition zero_iv : bytes := replicate CRYPTO_IV_LEN Byte.x00.

(** [encrypt_identity key_material pub]: 48 bytes, the sealed key and the tag. *)
Definition encrypt_identity (key_material pub : bytes) : M os (option bytes) :=
  let key := SHA256 key_material in
  let! c := io EVP_CIPHER_CTX_new in
  ret (match c with
       | None => None
       | Some ctx =>
       match EVP_EncryptInit_ex ctx key zero_iv with
       | None => None
       | Some ctx1 =>
       match EVP_EncryptUpdate ctx1 pub with
       | None => None
       | Some (ctx2, c1) =>
       match EVP_EncryptFinal_ex ctx2 with
       | None => None
       | Some (ctx3, c2) =>
       match EVP_CTRL_GCM_GET_TAG ctx3 CRYPTO_TAG_LEN with
       | None => None
       | Some tag => Some (c1 ++ c2 ++ tag)
       end end end end end).

(** [decrypt_identity key_material in]: the 32-byte public key. *)
Definition decrypt_identity (key_material enc : bytes) : M os (option bytes) :=
  let key := SHA256 key_material in
  let tag := slice DH_PUBKEY_LEN CRYPTO_TAG_LEN enc in
  let! c := io EVP_CIPHER_CTX_new in
  ret (match c with
       | None => None
       | Some ctx =>
       match EVP_DecryptInit_ex ctx key zero_iv with
       | None => None
       | Some ctx1 =>
       match EVP_DecryptUpdate ctx1 (slice 0 DH_PUBKEY_LEN enc) with
       | None => None
       | Some (ctx2, p1) =>
       match EVP_CTRL_GCM_SET_TAG ctx2 tag with
       | None => None
       | Some ctx3 =>
       match EVP_DecryptFinal_ex ctx3 with
       | None => None
       | Some (_, p2) => Some (p1 ++ p2)
       end end end end end).
End Crypto.

(** ** Sizes, memory and effects

    What holds of every run of these routines, whatever OpenSSL answers. *)

Section Sizes.
Context `{OpenSSLSizes}.

Lemma io_quiet {A} (f : nat -> A) (Q : A -> os -> Prop) s :
  (forall s', os_quiet s s' -> Q (f (os_n s)) s') -> wp (io f) Q s.
Proof. intros HQ. apply wp_io, HQ. by constructor. Qed.

Lemma wp_compute_hmac psk msg s :
  wp (compute_hmac psk msg)
     (fun r s' => os_quiet s s' /\ forall h, r = Some h -> length h = HMAC_LEN) s.
Proof. apply io_quiet. intros s' Hq. split; [done|]. intros h. apply HMAC_size. Qed.

(** [encrypt_packet] stays inside a buffer with room for the payload and the
    28 bytes of overhead, and writes exactly that much. *)
Lemma wp_encrypt_packet ctx key plain cap s :
  (length plain + CRYPTO_OVERHEAD <= cap)%nat ->
  wp (encrypt_packet ctx key plain cap)
     (fun r s' => os_quiet s s' /\
        forall out, r.2 = Some out -> length out = (length plain + CRYPTO_OVERHEAD)%nat) s.
Proof.
  intros Hcap. unfold encrypt_packet. apply wp_bind, io_quiet. intros s' Hq.
  destruct (env_RAND_bytes _ _) as [iv|] eqn:Eiv; [|by wp_step].
  apply RAND_bytes_size in Eiv.
  destruct (EVP_EncryptInit_ex _ _ _) as [c1|]; [|by wp_step].
  destruct (EVP_EncryptUpdate _ _) as [[c2 o1]|] eqn:E1; [|by wp_step].
  apply EncryptUpdate_size in E1. apply wp_bind; wp_fits.
  destruct (EVP_EncryptFinal_ex _) as [[c3 o2]|] eqn:E2; [|by wp_step].
  apply EncryptFinal_size in E2 as ->. rewrite app_nil_r.
  apply wp_bind; wp_fits.
  destruct (EVP_CTRL_GCM_GET_TAG _ _) as [tag|] eqn:E3; [|by wp_step].
  apply GET_TAG_size in E3. wp_step. split; [done|]. intros out [= <-].
  rewrite !length_app. sizes.
Qed.

(** [decrypt_packet] writes at most [in_len - 28] bytes, also when the tag is
    wrong, and returns exactly that many. *)
Lemma wp_decrypt_packet ctx key pkt cap s :
  (length pkt - CRYPTO_OVERHEAD <= cap)%nat ->
  wp (decrypt_packet ctx key pkt cap)
     (fun r s' => s' = s /\
        forall out, r.2 = Some out -> (length out + CRYPTO_OVERHEAD)%nat = length pkt) s.
Proof.
  intros Hcap. unfold decrypt_packet.
  destruct (Nat.ltb_spec (length pkt) CRYPTO_OVERHEAD) as [|Hlen]; [by wp_step|].
  destruct (EVP_DecryptInit_ex _ _ _) as [c1|]; [|by wp_step].
  destruct (EVP_DecryptUpdate _ _) as [[c2 p1]|] eqn:E1; [|by wp_step].
  apply DecryptUpdate_size in E1.
  rewrite length_slice in E1 by sizes.
  apply wp_bind; wp_fits.
  destruct (EVP_CTRL_GCM_SET_TAG _ _) as [c3|]; [|by wp_step].
  destruct (EVP_DecryptFinal_ex _) as [[c4 p2]|] eqn:E2; [|by wp_step].
  apply DecryptFinal_size in E2 as ->. rewrite app_nil_r.
  apply wp_bind; wp_fits.
  wp_step. split; [done|]. intros out [= <-]. sizes.
Qed.

Lemma wp_encrypt_identity km pub s :
  length pub = DH_PUBKEY_LEN ->
  wp (encrypt_identity km pub)
     (fun r s' => os_quiet s s' /\ forall e, r = Some e -> length e = HS_ENCRYPTED_PUB_LEN) s.
Proof.
  intros Hp. unfold encrypt_identity. apply wp_bind, io_quiet. intros s' Hq.
  wp_step. split; [done|]. intros e He. repeat case_match; simplify_eq.
  match goal with H : EVP_EncryptFinal_ex _ = _ |- _ => apply EncryptFinal_size in H as -> end.
  match goal with H : EVP_EncryptUpdate _ _ = _ |- _ => apply EncryptUpdate_size in H end.
  match goal with H : EVP_CTRL_GCM_GET_TAG _ _ = _ |- _ => apply GET_TAG_size in H end.
  rewrite app_nil_l, length_app. sizes.
Qed.

Lemma wp_decrypt_identity km enc s :
  length enc = HS_ENCRYPTED_PUB_LEN ->
  wp (decrypt_identity km enc)
     (fun r s' => os_quiet s s' /\ forall p, r = Some p -> length p = DH_PUBKEY_LEN) s.
Proof.
  intros Hp. unfold decrypt_identity. apply wp_bind, io_quiet. intros s' Hq.
  wp_step. split; [done|]. intros e He. repeat case_match; simplify_eq.
  match goal with H : EVP_DecryptFinal_ex _ = _ |- _ => apply DecryptFinal_size in H as -> end.
  match goal with H : EVP_DecryptUpdate _ _ = _ |- _ => apply DecryptUpdate_size in H as Hl end.
  rewrite app_nil_r, Hl. apply length_slice. sizes.
Qed.

(** A key pointer that may be dereferenced: [NULL] or the address of a live key. *)
Definition live (s : os) (p : option nat) : Prop :=
  match p with None => True | Some h => is_Some (os_keys s !! h) end.

Lemma live_quiet s s' p : os_quiet s s' -> live s p -> live s' p.
Proof. intros [Hk _ _ _]. unfold live. by rewrite Hk. Qed.

(** [x25519_shared_secret] frees the peer key it makes on every path. *)
Lemma wp_x25519 my_key pub s :
  os_wf s -> live s my_key ->
  wp (x25519_shared_secret my_key pub)
     (fun r s' => os_quiet s s' /\ forall b, r = Some b -> length b = DH_PUBKEY_LEN) s.
Proof.
  intros Hwf Hlive. unfold x25519_shared_secret. apply wp_bind, io_quiet. intros s1 Hq.
  destruct (EVP_PKEY_new_raw_public_key _ _) as [peer|]; [|by wp_step].
  pose proof (os_wf_fresh _ (os_quiet_wf _ _ Hq Hwf)) as Hfresh.
  apply wp_bind, wp_pkey_alloc.
  assert (forall n (r : option bytes), (forall b, r = Some b -> length b = DH_PUBKEY_LEN) ->
    wp (EVP_PKEY_free (Some (os_next s1)) ;;; ret r)
     (fun r s' => os_quiet s s' /\ forall b, r = Some b -> length b = DH_PUBKEY_LEN)
     (Os _ n (<[os_next s1 := peer]> (os_keys s1)) (S (os_next s1)) (os_sent s1) (os_tun s1)))
    as Hfree.
  { intros n r Hr. apply wp_bind. eapply wp_pkey_free; [apply lookup_insert_eq|].
    wp_step. split; [|done]. destruct Hq as [Hk ???]. constructor; cbn; [|done..|lia].
    by rewrite delete_insert_id. }
  destruct my_key as [h|]; [|by apply Hfree].
  destruct Hlive as [k Hk]. apply wp_bind. eapply wp_pkey_deref.
  { cbn. rewrite lookup_insert_ne; [by rewrite (quiet_keys _ _ Hq)|].
    intros <-. by rewrite (quiet_keys _ _ Hq), Hk in Hfresh. }
  apply wp_bind, wp_io. cbn. destruct (EVP_PKEY_CTX_new _ _) as [c|]; [|by apply Hfree].
  apply Hfree. intros b Hb. unfold derive_secret in Hb. repeat case_match; simplify_eq.
  by eapply derive_size.
Qed.

(** With a [NULL] key there is no context to derive in. *)
Lemma wp_x25519_null pub s :
  os_wf s -> wp (x25519_shared_secret None pub) (fun r s' => os_quiet s s' /\ r = None) s.
Proof.
  intros Hwf. pose proof (wp_x25519 None pub s Hwf I) as Hsafe.
  apply wp_elim in Hsafe as (r & s' & E & Hq & _). unfold wp. rewrite E. split; [done|].
  revert E. unfold x25519_shared_secret, bind, io, pkey_alloc, EVP_PKEY_free, ret. cbn.
  destruct (EVP_PKEY_new_raw_public_key _ _); cbn; [rewrite lookup_insert_eq|]; congruence.
Qed.

(** A successful [generate_eph_keypair] adds one live key; a failed one none. *)
Definition keypair_post (s : os) (r : option (nat * bytes)) (s' : os) : Prop :=
  match r with
  | None => os_quiet s s'
  | Some (h, pub) => exists k,
      os_keys s !! h = None /\ os_keys s' = <[h := k]> (os_keys s) /\
      EVP_PKEY_get_raw_public_key k = Some pub /\
      os_sent s' = os_sent s /\ os_tun s' = os_tun s /\ os_wf s' /\
      (os_next s <= os_next s')%nat
  end.

Lemma wp_generate_eph_keypair s :
  os_wf s -> wp generate_eph_keypair (keypair_post s) s.
Proof.
  intros Hwf. unfold generate_eph_keypair.
  apply wp_bind, io_quiet. intros s1 Hq1. destruct (env_keygen_ctx _); [|by apply wp_ret].
  apply wp_bind, io_quiet. intros s2 Hq2. destruct (env_keygen_init _); [|apply wp_ret; cbn; by etrans].
  apply wp_bind, io_quiet. intros s3 Hq3.
  assert (os_quiet s s3) as Hq by (etrans; [|done]; by etrans).
  destruct (env_keygen _) as [k|]; [|by wp_step].
  pose proof (os_quiet_wf _ _ Hq Hwf) as Hwf3. pose proof (os_wf_fresh _ Hwf3) as Hfresh.
  apply wp_bind, wp_pkey_alloc. destruct (EVP_PKEY_get_raw_public_key k) as [pub|] eqn:Ep.
  - wp_step. exists k. destruct Hq as [Hk Hs Ht Hn]. cbn. rewrite Hk in *. split_and!; try done; [|lia].
    intros h. cbn. rewrite lookup_insert. case_decide; [lia|]. intros [x Hx].
    specialize (Hwf3 h). rewrite Hk in Hwf3. specialize (Hwf3 ltac:(eauto)). lia.
  - apply wp_bind. eapply wp_pkey_free; [apply lookup_insert_eq|]. wp_step. cbn.
    destruct Hq. constructor; cbn; [|done..|lia]. by rewrite delete_insert_id.
Qed.
End Sizes.

(** ** What the routines compute, by the laws of the algorithms *)

Section Ok.
Context `{OpenSSLOk}.

Lemma gcm_sizes k iv p ct tag :
  length k = 32%nat -> length iv = 12%nat -> gcm_seal k iv p = (ct, tag) ->
  length ct = length p /\ length tag = 16%nat.
Proof.
  intros Hk Hiv Hs. destruct (ok_cipher_ctx 0) as [c _].
  destruct (ok_encrypt c k iv p ct tag) as (c1 & c2 & c3 & _ & Hu & _ & Ht); [done..|].
  split; [by eapply EncryptUpdate_size|by eapply GET_TAG_size].
Qed.

(** The IV is what this interaction gets from [RAND_bytes]. *)
Lemma wp_encrypt_packet_iv ctx key plain cap s :
  length key = CRYPTO_KEY_LEN -> (length plain + CRYPTO_OVERHEAD <= cap)%nat ->
  wp (encrypt_packet ctx key plain cap)
     (fun r s' => os_quiet s s' /\ os_n s' = S (os_n s) /\ exists iv ct tag,
        env_RAND_bytes (os_n s) CRYPTO_IV_LEN = Some iv /\ gcm_seal key iv plain = (ct, tag) /\
        r.2 = Some (iv ++ ct ++ tag)) s.
Proof.
  intros Hk Hcap. unfold encrypt_packet. apply wp_bind, wp_io.
  destruct (ok_RAND_bytes (os_n s) CRYPTO_IV_LEN) as [iv Hiv]. rewrite Hiv.
  pose proof (RAND_bytes_size _ _ _ Hiv) as Hl.
  destruct (gcm_seal key iv plain) as [ct tag] eqn:Es.
  destruct (ok_encrypt ctx key iv plain ct tag) as (c1 & c2 & c3 & -> & -> & Hf & Ht); [done..|].
  destruct (gcm_sizes key iv plain ct tag) as [Hct Htag]; [done..|].
  apply wp_bind; wp_fits. rewrite Hf, app_nil_r. apply wp_bind; wp_fits.
  change CRYPTO_TAG_LEN with 16%nat. rewrite Ht.
  wp_step. split; [by constructor|]. split; [done|]. by exists iv, ct, tag.
Qed.

Lemma wp_encrypt_packet_ok ctx key plain cap s :
  length key = CRYPTO_KEY_LEN -> (length plain + CRYPTO_OVERHEAD <= cap)%nat ->
  wp (encrypt_packet ctx key plain cap)
     (fun r s' => os_quiet s s' /\ exists iv ct tag,
        length iv = CRYPTO_IV_LEN /\ gcm_seal key iv plain = (ct, tag) /\
        r.2 = Some (iv ++ ct ++ tag)) s.
Proof.
  intros Hk Hcap. eapply wp_conseq; [by apply wp_encrypt_packet_iv|].
  intros r s' (Hq & _ & iv & ct & tag & Hiv%RAND_bytes_size & Hs & Hr). split; [done|]. by exists iv, ct, tag.
Qed.

Lemma wp_decrypt_packet_ok ctx key pkt cap s :
  length key = CRYPTO_KEY_LEN -> (CRYPTO_OVERHEAD <= length pkt)%nat ->
  (length pkt - CRYPTO_OVERHEAD <= cap)%nat ->
  wp (decrypt_packet ctx key pkt cap)
     (fun r s' => s' = s /\
        r.2 = gcm_open key (slice 0 CRYPTO_IV_LEN pkt)
                (slice CRYPTO_IV_LEN (length pkt - CRYPTO_OVERHEAD) pkt)
                (slice (length pkt - CRYPTO_TAG_LEN) CRYPTO_TAG_LEN pkt)) s.
Proof.
  intros Hk Hlen Hcap. unfold decrypt_packet.
  destruct (Nat.ltb_spec (length pkt) CRYPTO_OVERHEAD); [lia|].
  set (iv := slice 0 _ _). set (ct := slice CRYPTO_IV_LEN _ _). set (tag := slice (_ - _) _ _).
  assert (length ct = length pkt - CRYPTO_OVERHEAD)%nat as Hct by (apply length_slice; sizes).
  destruct (ok_decrypt ctx key iv ct tag) as (c1 & c2 & c3 & out & -> & Hu & Ht & Hf);
    [done|apply length_slice; sizes..|].
  rewrite Hu. apply DecryptUpdate_size in Hu. apply wp_bind; wp_fits. rewrite Ht.
  destruct (gcm_open key iv ct tag) as [p|].
  - destruct Hf as [-> [c4 ->]]. rewrite app_nil_r. apply wp_bind; wp_fits. by wp_step.
  - rewrite Hf. by wp_step.
Qed.

Lemma wp_encrypt_identity_ok km pub s :
  wp (encrypt_identity km pub)
     (fun r s' => os_quiet s s' /\ exists ct tag,
        gcm_seal (SHA256 km) zero_iv pub = (ct, tag) /\ r = Some (ct ++ tag)) s.
Proof.
  unfold encrypt_identity. apply wp_bind, io_quiet. intros s' Hq.
  destruct (ok_cipher_ctx (os_n s)) as [c ->].
  destruct (gcm_seal (SHA256 km) zero_iv pub) as [ct tag] eqn:Es.
  destruct (ok_encrypt c (SHA256 km) zero_iv pub ct tag (SHA256_size km) (length_replicate _ _) Es)
    as (c1 & c2 & c3 & -> & -> & -> & Ht).
  change CRYPTO_TAG_LEN with 16%nat. rewrite Ht. wp_step. split; [done|]. by exists ct, tag.
Qed.

Lemma wp_decrypt_identity_ok km ct tag s :
  length ct = DH_PUBKEY_LEN -> length tag = CRYPTO_TAG_LEN ->
  wp (decrypt_identity km (ct ++ tag))
     (fun r s' => os_quiet s s' /\ r = gcm_open (SHA256 km) zero_iv ct tag) s.
Proof.
  intros Hct Htag. unfold decrypt_identity. apply wp_bind, io_quiet. intros s' Hq.
  destruct (ok_cipher_ctx (os_n s)) as [c ->].
  assert (slice DH_PUBKEY_LEN CRYPTO_TAG_LEN (ct ++ tag) = tag) as ->.
  { by apply slice_tail. }
  assert (slice 0 DH_PUBKEY_LEN (ct ++ tag) = ct) as ->.
  { by apply slice_head. }
  destruct (ok_decrypt c (SHA256 km) zero_iv ct tag (SHA256_size km) (length_replicate _ _) Htag)
    as (c1 & c2 & c3 & out & -> & -> & -> & Hf).
  destruct (gcm_open (SHA256 km) zero_iv ct tag) as [p|].
  - destruct Hf as [-> [c4 ->]]. rewrite app_nil_r. by wp_step.
  - rewrite Hf. by wp_step.
Qed.

Lemma wp_x25519_ok h a b s :
  os_wf s -> os_keys s !! h = Some a -> is_keypair a -> is_keypair b ->
  wp (x25519_shared_secret (Some h) (public b))
     (fun r s' => os_quiet s s' /\ r = Some (dh a (public b))) s.
Proof.
  intros Hwf Ha Hka Hkb.
  pose proof (wp_x25519 (Some h) (public b) s Hwf (mk_is_Some _ _ Ha)) as Hsafe.
  apply wp_elim in Hsafe as (r & s' & E & Hq & _).
  unfold wp. rewrite E. split; [done|].
  revert E. unfold x25519_shared_secret, bind, io, pkey_alloc, pkey_deref, ret. cbn.
  destruct (ok_derive (os_n s) (S (os_n s)) a b Hka Hkb) as (pk & c1 & c2 & c3 & -> & Hc & Hi & Hp & Hd).
  cbn. rewrite lookup_insert_ne, Ha.
  2:{ intros <-. by rewrite os_wf_fresh in Ha. }
  cbn. rewrite Hc. unfold EVP_PKEY_free, derive_secret. cbn. rewrite lookup_insert_eq, Hi, Hp.
  intros [= <- _]. done.
Qed.

(** ** Properties *)

(** C4: A data packet round trips.  [encrypt_packet] succeeds, the packet is
    28 bytes longer than its plaintext, and [decrypt_packet] under the same key,
    with any context and at any later time, returns the plaintext. *)
Theorem packet_roundtrip ctx key plain cap s :
  length key = CRYPTO_KEY_LEN -> (length plain + CRYPTO_OVERHEAD <= cap)%nat ->
  exists ctx' pkt s',
    encrypt_packet ctx key plain cap s = Ret (ctx', Some pkt) s' /\
    length pkt = (length plain + CRYPTO_OVERHEAD)%nat /\
    forall ctx2 cap2 s2, (length plain <= cap2)%nat ->
      exists ctx2', decrypt_packet ctx2 key pkt cap2 s2 = Ret (ctx2', Some plain) s2.
Proof.
  intros Hk Hcap.
  destruct (wp_elim _ _ _ (wp_encrypt_packet_ok ctx key plain cap s Hk Hcap))
    as ([ctx' r] & s' & -> & _ & iv & ct & tag & Hiv & Hseal & Hr). cbn in Hr. subst r.
  destruct (gcm_sizes key iv plain ct tag) as [Hct Htag]; [done..|].
  exists ctx', (iv ++ ct ++ tag), s'. split; [done|].
  assert (length (iv ++ ct ++ tag) = (length plain + CRYPTO_OVERHEAD)%nat) as Hlen
    by (rewrite !length_app; sizes).
  split; [done|]. intros ctx2 cap2 s2 Hcap2.
  destruct (wp_elim _ _ _ (wp_decrypt_packet_ok ctx2 key (iv ++ ct ++ tag) cap2 s2 Hk
    ltac:(lia) ltac:(lia))) as ([ctx2' r] & s2' & -> & -> & Hr).
  exists ctx2'. do 2 f_equal. cbn [snd] in Hr. rewrite Hr, Hlen.
  apply ok_seal_open. rewrite slice_head, slice_mid by sizes.
  by rewrite app_assoc, slice_tail by (rewrite ?length_app; sizes).
Qed.

(** C5: A packet [decrypt_packet] accepts is authentic: its three fields are
    exactly the sealing of the returned plaintext under the session key and the
    IV the packet carries; a packet shorter than 28 bytes is never accepted. *)
Theorem decrypt_packet_authentic ctx key pkt cap s ctx' plain s' :
  length key = CRYPTO_KEY_LEN -> (length pkt - CRYPTO_OVERHEAD <= cap)%nat ->
  decrypt_packet ctx key pkt cap s = Ret (ctx', Some plain) s' ->
  exists iv ct tag, pkt = iv ++ ct ++ tag /\ length iv = CRYPTO_IV_LEN /\
    length tag = CRYPTO_TAG_LEN /\ gcm_seal key iv plain = (ct, tag).
Proof.
  intros Hk Hcap Hd.
  destruct (decide (length pkt < CRYPTO_OVERHEAD)%nat) as [Hs|Hs].
  { unfold decrypt_packet in Hd. by rewrite (proj2 (Nat.ltb_lt _ _) Hs) in Hd. }
  pose proof (wp_run _ _ _ _ _ (wp_decrypt_packet_ok ctx key pkt cap s Hk ltac:(lia) Hcap) Hd)
    as [_ Hr]. symmetry in Hr. cbn [snd] in Hr. apply ok_seal_open in Hr.
  eexists _, _, _. split_and!; [..|exact Hr]; [|apply length_slice; sizes..].
  unfold slice. rewrite drop_0, (take_ge (drop (length pkt - CRYPTO_TAG_LEN) pkt)) by (rewrite length_drop; sizes).
  replace (length pkt - CRYPTO_TAG_LEN)%nat
    with (CRYPTO_IV_LEN + (length pkt - CRYPTO_OVERHEAD))%nat by sizes.
  by rewrite <- drop_drop, take_drop, take_drop.
Qed.
End Ok.

(** *** Concrete runs of the properties on the executable platform *)
#[local] Existing Instance Toy.ssl.
#[local] Existing Instance Toy.env.
#[local] Existing Instance Toy.ssl_ok.

Definition toy_os : os := Os _ 0 ∅ 0 [] [].
Definition toy_key : bytes := replicate 32 Byte.x07.
Definition toy_ctx : evp_cipher_ctx := Toy.Cipher [] [] [] [].

Lemma packet_roundtrip_witness :
  exists ctx' pkt s',
    encrypt_packet toy_ctx toy_key pkt_header 100 toy_os = Ret (ctx', Some pkt) s' /\
    length pkt = 36%nat /\
    forall ctx2 cap2 s2, (8 <= cap2)%nat ->
      exists ctx2', decrypt_packet ctx2 toy_key pkt cap2 s2 = Ret (ctx2', Some pkt_header) s2.
Proof.
  apply (packet_roundtrip toy_ctx toy_key pkt_header 100 toy_os);
    [reflexivity | apply Nat.leb_le; vm_compute; reflexivity].
Defined.

Definition toy_pkt : bytes := Eval vm_compute in
  match encrypt_packet toy_ctx toy_key pkt_header 100 toy_os with
  | Ret (_, Some pkt) _ => pkt
  | _ => []
  end.

Definition toy_ctx' : evp_cipher_ctx := Eval vm_compute in
  match decrypt_packet toy_ctx toy_key toy_pkt 100 toy_os with
  | Ret (c, _) _ => c
  | _ => toy_ctx
  end.

Example toy_pkt_opens :
  decrypt_packet toy_ctx toy_key toy_pkt 100 toy_os = Ret (toy_ctx', Some pkt_header) toy_os.
Proof. reflexivity. Qed.

Lemma decrypt_packet_authentic_witness :
  exists iv ct tag, toy_pkt = iv ++ ct ++ tag /\ length iv = CRYPTO_IV_LEN /\
    length tag = CRYPTO_TAG_LEN /\ gcm_seal toy_key iv pkt_header = (ct, tag).
Proof.
  apply (decrypt_packet_authentic toy_ctx toy_key toy_pkt 100 toy_os toy_ctx' pkt_header toy_os);
    [reflexivity | apply Nat.leb_le; reflexivity | exact toy_pkt_opens].
Defined.
