(* ===== verification/Handshake.v ===== *)
(** * The handshake: [handshake_client_send], [handshake_server_respond] and
    [handshake_client_recv] of src/common.c

    Both messages have the form
    [[8 magic][32 eph_pub][48 sealed static_pub][32 HMAC]?]. *)

From S2P Require Import Prelude Platform Crypto.
From Stdlib Require Import Strings.Byte.

(** State carried between the two phases of an outbound handshake; [eph_key] is
    a pointer, [None] for [NULL]. *)
Record hs_client_state := HsState {
  eph_key : option nat;
  eph_pub : bytes;
  ecdh_ec_ss : bytes;
}.

(** [int expected = ... + (psk_key ? HMAC_LEN : 0)] *)
Definition hs_size (psk_key : option bytes) : nat :=
  HEADER_SIZE + DH_PUBKEY_LEN + HS_ENCRYPTED_PUB_LEN +
  (match psk_key with Some _ => HMAC_LEN | None => 0 end).

(** The part of a message the HMAC covers: [pkt + HEADER_SIZE]. *)
Definition hs_covered (pkt : bytes) : bytes :=
  slice HEADER_SIZE (DH_PUBKEY_LEN + HS_ENCRYPTED_PUB_LEN) pkt.

Section Handshake.
Context `{Env}.

(** The optional HMAC check of a received message: [false] is "return -1". *)
Definition hs_verify_hmac (psk_key : option bytes) (pkt : bytes) : M os bool :=
  match psk_key with
  | None => ret true
  | Some psk =>
      let! h := compute_hmac psk (hs_covered pkt) in
      match h with
      | None => ret false
      | Some expected_hmac =>
          ret (bool_decide
            (slice (HEADER_SIZE + DH_PUBKEY_LEN + HS_ENCRYPTED_PUB_LEN) HMAC_LEN pkt
             = expected_hmac))
      end
  end.

(** Assemble a message: magic, ephemeral key, sealed identity and, with a PSK,
    the HMAC of the two; [None] when the HMAC fails. *)
Definition hs_build (psk_key : option bytes) (eph_pub enc_static : bytes)
    : M os (option bytes) :=
  let pkt := pkt_header ++ eph_pub ++ enc_static in
  match psk_key with
  | None => ret (Some pkt)
  | Some psk =>
      let! h := compute_hmac psk (hs_covered pkt) in
      match h with
      | None => ret None
      | Some hmac => ret (Some (pkt ++ hmac))
      end
  end.

(** Returns the state for [handshake_client_recv], [None] for -1.  The ephemeral
    key is freed on every failure after its generation. *)
Definition handshake_client_send (server_addr : sockaddr_in) (psk_key : option bytes)
    (static_pub : bytes) (server_static_pub : option bytes)
    : M os (option hs_client_state) :=
  match server_static_pub with
  | None => ret None
  | Some server_pub =>
      let! kp := generate_eph_keypair in
      match kp with
      | None => ret None
      | Some (key, pub) =>
          let! sec := x25519_shared_secret (Some key) server_pub in
          match sec with
          | None => EVP_PKEY_free (Some key) ;;; ret None
          | Some secret =>
              let! enc := encrypt_identity secret static_pub in
              match enc with
              | None => EVP_PKEY_free (Some key) ;;; ret None
              | Some enc_static =>
                  let! p := hs_build psk_key pub enc_static in
                  match p with
                  | None => EVP_PKEY_free (Some key) ;;; ret None
                  | Some pkt =>
                      let! sent := sendto server_addr pkt in
                      if negb sent then EVP_PKEY_free (Some key) ;;; ret None
                      else ret (Some (HsState (Some key) pub secret))
                  end
              end
          end
      end
  end.

(** Returns the session key ([None] for -1) and the state as the call leaves
    it: the ephemeral key is freed on success only. *)
Definition handshake_client_recv (resp : bytes) (psk_key : option bytes)
    (static_key : option nat) (static_pub server_static_pub : bytes) (state : hs_client_state)
    : M os (option bytes * hs_client_state) :=
  if negb (length resp =? hs_size psk_key)%nat then ret (None, state) else
  if negb (memcmp (slice 0 HEADER_SIZE resp) pkt_header =? 0) then ret (None, state) else
  let server_eph_pub := slice HEADER_SIZE DH_PUBKEY_LEN resp in
  let enc_server_static := slice (HEADER_SIZE + DH_PUBKEY_LEN) HS_ENCRYPTED_PUB_LEN resp in
  let! authentic := hs_verify_hmac psk_key resp in
  if negb authentic then ret (None, state) else
  let! e := x25519_shared_secret (eph_key state) server_eph_pub in
  match e with
  | None => ret (None, state)
  | Some ecdh_eph =>
  let! i := decrypt_identity ecdh_eph enc_server_static in
  match i with
  | None => ret (None, state)
  | Some server_static_pub_recv =>
  if negb (memcmp server_static_pub_recv server_static_pub =? 0) then ret (None, state) else
  let! x := x25519_shared_secret static_key server_eph_pub in
  match x with
  | None => ret (None, state)
  | Some ecdh_sc_es =>
  let session_key := derive_session_key ecdh_eph ecdh_sc_es (ecdh_ec_ss state)
    (eph_pub state) server_eph_pub static_pub server_static_pub_recv in
  EVP_PKEY_free (eph_key state) ;;;
  ret (Some session_key, HsState None (eph_pub state) (ecdh_ec_ss state))
  end end end.

(** Returns the client's static public key and the session key, [None] for -1.
    The response is sent before the last exchange and the derivation. *)
Definition handshake_server_respond (pkt : bytes) (peer_addr : sockaddr_in)
    (psk_key : option bytes) (static_key : option nat) (static_pub : bytes)
    (precomp_eph_key : option nat) (precomp_eph_pub : bytes)
    : M os (option (bytes * bytes)) :=
  if negb (length pkt =? hs_size psk_key)%nat then ret None else
  if negb (memcmp (slice 0 HEADER_SIZE pkt) pkt_header =? 0) then ret None else
  let client_eph_pub := slice HEADER_SIZE DH_PUBKEY_LEN pkt in
  let enc_client_static := slice (HEADER_SIZE + DH_PUBKEY_LEN) HS_ENCRYPTED_PUB_LEN pkt in
  let! authentic := hs_verify_hmac psk_key pkt in
  if negb authentic then ret None else
  let! s := x25519_shared_secret static_key client_eph_pub in
  match s with
  | None => ret None
  | Some ecdh_ec_ss =>
  let! i := decrypt_identity ecdh_ec_ss enc_client_static in
  match i with
  | None => ret None
  | Some client_static_pub =>
  let! e := x25519_shared_secret precomp_eph_key client_eph_pub in
  match e with
  | None => ret None
  | Some ecdh_eph =>
  let! c := encrypt_identity ecdh_eph static_pub in
  match c with
  | None => ret None
  | Some enc_server_static =>
  let! r := hs_build psk_key precomp_eph_pub enc_server_static in
  match r with
  | None => ret None
  | Some resp =>
  let! sent := sendto peer_addr resp in
  if negb sent then ret None else
  let! x := x25519_shared_secret precomp_eph_key client_static_pub in
  match x with
  | None => ret None
  | Some ecdh_sc_es =>
  ret (Some (client_static_pub,
             derive_session_key ecdh_eph ecdh_sc_es ecdh_ec_ss client_eph_pub precomp_eph_pub
               client_static_pub static_pub))
  end end end end end end.
End Handshake.

Lemma length_pkt_header : length pkt_header = HEADER_SIZE.
Proof. done. Qed.

(** ** Sizes, memory and effects, whatever OpenSSL answers *)

Section Sizes.
Context `{OpenSSLSizes}.

Lemma wp_hs_verify_hmac psk pkt s :
  wp (hs_verify_hmac psk pkt) (fun _ s' => os_quiet s s') s.
Proof.
  unfold hs_verify_hmac. destruct psk as [psk|]; [|by wp_step].
  apply wp_bind. eapply wp_conseq; [apply wp_compute_hmac|]. intros h s' [Hq _].
  by destruct h; wp_step.
Qed.

Lemma wp_hs_build psk pub enc s :
  length pub = DH_PUBKEY_LEN -> length enc = HS_ENCRYPTED_PUB_LEN ->
  wp (hs_build psk pub enc)
     (fun r s' => os_quiet s s' /\ forall pkt, r = Some pkt -> length pkt = hs_size psk) s.
Proof.
  intros Hp He. unfold hs_build, hs_size.
  assert (length (pkt_header ++ pub ++ enc)
          = HEADER_SIZE + DH_PUBKEY_LEN + HS_ENCRYPTED_PUB_LEN)%nat as Hl.
  { rewrite !length_app, length_pkt_header, Hp, He. lia. }
  destruct psk as [psk|].
  - apply wp_bind. eapply wp_conseq; [apply wp_compute_hmac|]. intros [h|] s' [Hq Hh]; [|by wp_step].
    wp_step. split; [done|]. intros pkt <-%(inj Some). rewrite length_app, Hl, Hh by done. done.
  - wp_step. split; [done|]. intros pkt <-%(inj Some). lia.
Qed.

(** The keys are as before and at most one datagram of the handshake's size was
    sent, to [addr]. *)
Record hs_sends (addr : sockaddr_in) (size : nat) (s s' : os) (pkts : list bytes) : Prop := {
  sends_keys : os_keys s' = os_keys s;
  sends_tun : os_tun s' = os_tun s;
  sends_wf : os_wf s';
  sends_sent : os_sent s' = os_sent s ++ ((fun p => (addr, p)) <$> pkts);
  sends_one : (length pkts <= 1)%nat;
  sends_size : Forall (fun p => length p = size) pkts;
}.

Lemma hs_sends_none addr size s s' : os_wf s -> os_quiet s s' -> hs_sends addr size s s' [].
Proof.
  intros Hwf Hq. pose proof (os_quiet_wf _ _ Hq Hwf). destruct Hq.
  constructor; try done; [|cbn; lia]. cbn. by rewrite app_nil_r.
Qed.

Lemma hs_sends_quiet addr size s s1 s2 pkts :
  hs_sends addr size s s1 pkts -> os_quiet s1 s2 -> hs_sends addr size s s2 pkts.
Proof.
  intros [] Hq. pose proof (os_quiet_wf _ _ Hq sends_wf0). destruct Hq.
  constructor; try done; congruence.
Qed.

(** What the server routine does to the process: no key is made or freed, a
    success means that one response went out. *)
Lemma wp_server_respond pkt addr psk sk spub ek epub s :
  os_wf s -> live s sk -> live s ek -> length spub = DH_PUBKEY_LEN -> length epub = DH_PUBKEY_LEN ->
  wp (handshake_server_respond pkt addr psk sk spub ek epub)
     (fun r s' => exists pkts, hs_sends addr (hs_size psk) s s' pkts /\
        forall cpub key, r = Some (cpub, key) ->
          length pkts = 1%nat /\ length cpub = DH_PUBKEY_LEN /\ length key = CRYPTO_KEY_LEN) s.
Proof.
  intros Hwf Hsk Hek Hsp Hep. unfold handshake_server_respond.
  assert (forall s', os_quiet s s' -> wp (ret (@None (bytes * bytes)))
     (fun r s' => exists pkts, hs_sends addr (hs_size psk) s s' pkts /\
        forall cpub key, r = Some (cpub, key) ->
          length pkts = 1%nat /\ length cpub = DH_PUBKEY_LEN /\ length key = CRYPTO_KEY_LEN) s')
    as Hnone.
  { intros s' Hq. wp_step. exists []. split; [by apply hs_sends_none|done]. }
  destruct (Nat.eqb_spec (length pkt) (hs_size psk)) as [Hlen|]; cbn [negb]; [|by apply Hnone].
  destruct (memcmp _ _ =? 0); cbn [negb]; [|by apply Hnone].
  apply wp_bind. eapply wp_conseq; [apply wp_hs_verify_hmac|]. intros [] s1 Hq1;
    cbn [negb]; [|by apply Hnone].
  apply wp_bind. eapply wp_conseq; [apply wp_x25519; [by eapply os_quiet_wf|by eapply live_quiet]|].
  intros [ecss|] s2 [Hq2 _]; [|apply Hnone; by etrans].
  assert (os_quiet s s2) as Hq02 by by etrans.
  apply wp_bind. eapply wp_conseq; [apply wp_decrypt_identity|].
  { apply length_slice. unfold hs_size in Hlen. sizes. }
  intros [cpub|] s3 [Hq3 Hcpub]; [|apply Hnone; by etrans].
  assert (os_quiet s s3) as Hq03 by by etrans.
  apply wp_bind. eapply wp_conseq; [apply wp_x25519; [by eapply os_quiet_wf|by eapply live_quiet]|].
  intros [eph|] s4 [Hq4 _]; [|apply Hnone; by etrans].
  apply wp_bind. eapply wp_conseq; [by apply wp_encrypt_identity|].
  intros [enc|] s5 [Hq5 Henc]; [|apply Hnone; by repeat (etrans; [done|])].
  apply wp_bind. eapply wp_conseq; [apply wp_hs_build; [done|by apply Henc]|].
  assert (os_quiet s s5) as Hq05 by (etrans; [|done]; by etrans).
  intros [resp|] s6 [Hq6 Hresp]; [|apply Hnone; by etrans].
  assert (os_quiet s s6) as Hq06 by by etrans.
  apply wp_bind, wp_sendto; intros _; cbn [negb].
  2:{ apply Hnone. etrans; [done|]. by constructor. }
  assert (hs_sends addr (hs_size psk) s
    (Os _ (S (os_n s6)) (os_keys s6) (os_next s6) (os_sent s6 ++ [(addr, resp)]) (os_tun s6)) [resp])
    as Hsends.
  { pose proof (os_quiet_wf _ _ Hq06 Hwf) as Hwf6. destruct Hq06.
    constructor; cbn; try done; [congruence|by repeat constructor; apply Hresp]. }
  apply wp_bind. eapply wp_conseq.
  { apply wp_x25519; [by destruct Hsends|]. destruct Hsends as [Hk _ _ _ _ _].
    unfold live in *. by rewrite Hk. }
  intros [sces|] s7 [Hq7 _]; wp_step; exists [resp]; (split; [by eapply hs_sends_quiet|]); [|done].
  intros ?? [= <- <-]. split_and!; [done|by apply Hcpub|apply SHA256_size].
Qed.

(** What the client's first phase does to the process: a failure leaves no key
    behind, a success leaves exactly the ephemeral key the state points to and
    one datagram of the handshake's size. *)
Definition client_send_post (addr : sockaddr_in) (psk : option bytes) (s : os)
    (r : option hs_client_state) (s' : os) : Prop :=
  match r with
  | None => os_quiet s s'
  | Some st => exists h k pkt,
      eph_key st = Some h /\ os_keys s !! h = None /\ os_keys s' = <[h := k]> (os_keys s) /\
      os_wf s' /\ os_tun s' = os_tun s /\
      os_sent s' = os_sent s ++ [(addr, pkt)] /\ length pkt = hs_size psk /\
      length (eph_pub st) = DH_PUBKEY_LEN /\ length (ecdh_ec_ss st) = DH_PUBKEY_LEN
  end.

Lemma wp_client_send addr psk spub server_pub s :
  os_wf s -> length spub = DH_PUBKEY_LEN ->
  wp (handshake_client_send addr psk spub server_pub) (client_send_post addr psk s) s.
Proof.
  intros Hwf Hsp. unfold handshake_client_send.
  destruct server_pub as [spk|]; [|by wp_step].
  apply wp_bind. eapply wp_conseq; [by apply wp_generate_eph_keypair|].
  intros [[h pub]|] s1; [|intros Hq; by wp_step].
  intros (k & Hfresh & Hk & Hpub & Hsent & Htun & Hwf1 & Hnext).
  apply raw_public_size in Hpub.
  assert (forall s', os_quiet s1 s' ->
    wp (EVP_PKEY_free (Some h) ;;; ret None) (client_send_post addr psk s) s') as Hfail.
  { intros s' [Hk' Hs' Ht' Hn']. apply wp_bind.
    eapply wp_pkey_free; [by rewrite Hk', Hk, lookup_insert_eq|]. wp_step.
    constructor; cbn; try congruence; [|lia]. by rewrite Hk', Hk, delete_insert_id. }
  apply wp_bind. eapply wp_conseq.
  { apply wp_x25519; [done|]. cbn. rewrite Hk, lookup_insert_eq. done. }
  intros [sec|] s2 [Hq2 Hsec]; [|by apply Hfail].
  apply wp_bind. eapply wp_conseq; [by apply wp_encrypt_identity|].
  intros [enc|] s3 [Hq3 Henc]; [|apply Hfail; by etrans].
  assert (os_quiet s1 s3) as Hq13 by by etrans.
  apply wp_bind. eapply wp_conseq; [apply wp_hs_build; [done|by apply Henc]|].
  intros [pkt|] s4 [Hq4 Hpkt]; [|apply Hfail; by etrans].
  assert (os_quiet s1 s4) as Hq14 by by etrans.
  apply wp_bind, wp_sendto; intros _; cbn [negb].
  - wp_step. pose proof (os_quiet_wf _ _ Hq14 Hwf1). destruct Hq14 as [Hk4 Hs4 Ht4 _].
    exists h, k, pkt. cbn. split_and!; try done; try congruence; [by apply Hpkt|by apply Hsec].
  - apply Hfail. etrans; [done|]. by constructor.
Qed.

(** What the client's second phase does: a failure leaves the keys and the state
    as they were, the ephemeral key still live; a success frees it. *)
Definition client_recv_post (st : hs_client_state) (s : os)
    (r : option bytes * hs_client_state) (s' : os) : Prop :=
  match r.1 with
  | None => os_quiet s s' /\ r.2 = st
  | Some key => exists h, eph_key st = Some h /\ length key = CRYPTO_KEY_LEN /\
      r.2 = HsState None (eph_pub st) (ecdh_ec_ss st) /\
      os_keys s' = delete h (os_keys s) /\ os_wf s' /\
      os_sent s' = os_sent s /\ os_tun s' = os_tun s
  end.

Lemma os_wf_delete s h n next sent tun :
  os_wf s -> (os_next s <= next)%nat -> os_wf (Os _ n (delete h (os_keys s)) next sent tun).
Proof.
  intros Hwf Hn h' [k Hk]. cbn in Hk. apply lookup_delete_Some in Hk as [_ Hk].
  specialize (Hwf h' ltac:(eauto)). cbn. lia.
Qed.

Lemma wp_client_recv resp psk sk spub server_pub st s :
  os_wf s -> live s sk -> live s (eph_key st) ->
  wp (handshake_client_recv resp psk sk spub server_pub st) (client_recv_post st s) s.
Proof.
  intros Hwf Hsk Hek. unfold handshake_client_recv.
  assert (forall s', os_quiet s s' -> wp (ret (None, st)) (client_recv_post st s) s') as Hnone.
  { intros s' Hq. by wp_step. }
  destruct (Nat.eqb_spec (length resp) (hs_size psk)) as [Hlen|]; cbn [negb]; [|by apply Hnone].
  destruct (memcmp _ _ =? 0); cbn [negb]; [|by apply Hnone].
  apply wp_bind. eapply wp_conseq; [apply wp_hs_verify_hmac|]. intros [] s1 Hq1;
    cbn [negb]; [|by apply Hnone].
  apply wp_bind. destruct (eph_key st) as [h|] eqn:Eek.
  2:{ eapply wp_conseq; [apply wp_x25519_null; by eapply os_quiet_wf|]. intros r s2 [Hq2 ->]. apply Hnone. by etrans. }
  eapply wp_conseq; [apply wp_x25519; [by eapply os_quiet_wf|by eapply (live_quiet s)]|].
  intros [eph|] s2 [Hq2 _]; [|apply Hnone; by etrans].
  assert (os_quiet s s2) as Hq02 by by etrans.
  apply wp_bind. eapply wp_conseq; [apply wp_decrypt_identity|].
  { apply length_slice. unfold hs_size in Hlen. sizes. }
  intros [srv|] s3 [Hq3 _]; [|apply Hnone; by etrans].
  assert (os_quiet s s3) as Hq03 by by etrans.
  destruct (memcmp _ _ =? 0); cbn [negb]; [|by apply Hnone].
  apply wp_bind. eapply wp_conseq; [apply wp_x25519; [by eapply os_quiet_wf|by eapply live_quiet]|].
  intros [sces|] s4 [Hq4 _]; [|apply Hnone; by etrans].
  assert (os_quiet s s4) as Hq04 by by etrans.
  destruct Hek as [k Hk]. apply wp_bind. rewrite <- Eek.
  rewrite Eek. eapply wp_pkey_free; [by rewrite (quiet_keys _ _ Hq04)|]. wp_step.
  exists h. cbn. pose proof (os_quiet_wf _ _ Hq04 Hwf) as Hwf4.
  split_and!; [done|apply SHA256_size|done|by rewrite (quiet_keys _ _ Hq04)| |apply Hq04..].
  by apply (os_wf_delete s4).
Qed.
End Sizes.

(** ** What the messages are and what the two sides derive *)

Section Ok.
Context `{OpenSSLOk}.

(** A handshake message on the wire. *)
Definition hs_message (psk : option bytes) (eph enc : bytes) : bytes :=
  pkt_header ++ eph ++ enc ++
  match psk with Some k => hmac k (eph ++ enc) | None => [] end.

(** A 32-byte key sealed under the hash of a shared secret. *)
Definition sealed (secret pub enc : bytes) : Prop :=
  exists ct tag, gcm_seal (SHA256 secret) zero_iv pub = (ct, tag) /\ enc = ct ++ tag.

Lemma length_public k : is_keypair k -> length (public k) = DH_PUBKEY_LEN.
Proof. intros Hk. by apply (raw_public_size k), ok_public. Qed.

Lemma length_sealed secret pub enc :
  length pub = DH_PUBKEY_LEN -> sealed secret pub enc -> length enc = HS_ENCRYPTED_PUB_LEN.
Proof.
  intros Hp (ct & tag & Hs & ->).
  destruct (gcm_sizes _ _ _ _ _ (SHA256_size secret) (length_replicate _ _) Hs).
  rewrite length_app. sizes.
Qed.

Lemma length_hs_message psk eph enc :
  length eph = DH_PUBKEY_LEN -> length enc = HS_ENCRYPTED_PUB_LEN ->
  length (hs_message psk eph enc) = hs_size psk.
Proof.
  intros He Hc. unfold hs_message, hs_size. rewrite !length_app, He, Hc, length_pkt_header.
  destruct psk as [k|]; [|cbn; lia].
  assert (length (hmac k (eph ++ enc)) = HMAC_LEN) as -> by (eapply HMAC_size, (ok_hmac 0)).
  lia.
Qed.

(** The fields of a message, as both receivers cut them out. *)
Lemma hs_message_fields psk eph enc :
  length eph = DH_PUBKEY_LEN -> length enc = HS_ENCRYPTED_PUB_LEN ->
  slice 0 HEADER_SIZE (hs_message psk eph enc) = pkt_header /\
  slice HEADER_SIZE DH_PUBKEY_LEN (hs_message psk eph enc) = eph /\
  slice (HEADER_SIZE + DH_PUBKEY_LEN) HS_ENCRYPTED_PUB_LEN (hs_message psk eph enc) = enc /\
  hs_covered (hs_message psk eph enc) = eph ++ enc.
Proof.
  intros He Hc. unfold hs_message, hs_covered. split_and!.
  - by apply slice_head.
  - by apply slice_mid.
  - rewrite slice_skip by (rewrite length_pkt_header; lia). rewrite length_pkt_header.
    by rewrite slice_mid by lia.
  - rewrite slice_skip by done. rewrite length_pkt_header, Nat.sub_diag, app_assoc.
    by rewrite slice_head by (rewrite length_app; lia).
Qed.

Lemma wp_hs_build_ok psk eph enc s :
  length eph = DH_PUBKEY_LEN -> length enc = HS_ENCRYPTED_PUB_LEN ->
  wp (hs_build psk eph enc)
     (fun r s' => os_quiet s s' /\ r = Some (hs_message psk eph enc)) s.
Proof.
  intros He Hc. unfold hs_build.
  destruct (hs_message_fields None eph enc He Hc) as (_ & _ & _ & Hcov).
  unfold hs_message in *. rewrite app_nil_r in Hcov. destruct psk as [k|].
  - rewrite Hcov. apply wp_bind, io_quiet. intros s' Hq. rewrite ok_hmac. wp_step.
    split; [done|]. by rewrite <- !app_assoc.
  - wp_step. split; [done|]. by rewrite app_nil_r.
Qed.

Lemma wp_hs_verify_ok psk eph enc s :
  length eph = DH_PUBKEY_LEN -> length enc = HS_ENCRYPTED_PUB_LEN ->
  wp (hs_verify_hmac psk (hs_message psk eph enc)) (fun r s' => os_quiet s s' /\ r = true) s.
Proof.
  intros He Hc. unfold hs_verify_hmac. destruct psk as [k|]; [|by wp_step].
  destruct (hs_message_fields (Some k) eph enc He Hc) as (_ & _ & _ & ->).
  apply wp_bind, io_quiet. intros s' Hq. rewrite ok_hmac. wp_step. split; [done|].
  apply bool_decide_eq_true. unfold hs_message. rewrite !app_assoc.
  rewrite slice_tail; [done| |by eapply HMAC_size, (ok_hmac 0)].
  rewrite !length_app, He, Hc. done.
Qed.

Lemma wp_decrypt_sealed secret pub enc s :
  length pub = DH_PUBKEY_LEN -> sealed secret pub enc ->
  wp (decrypt_identity secret enc) (fun r s' => os_quiet s s' /\ r = Some pub) s.
Proof.
  intros Hp (ct & tag & Hs & ->).
  destruct (gcm_sizes _ _ _ _ _ (SHA256_size secret) (length_replicate _ _) Hs) as [Hct Htag].
  eapply wp_conseq; [apply wp_decrypt_identity_ok; [by rewrite Hct|done]|].
  intros r s' [Hq ->]. split; [done|]. by apply ok_seal_open.
Qed.

(** A process that owns key pairs; the client side of an exchange. *)
Definition owns (s : os) (h : nat) (k : evp_pkey) : Prop :=
  os_keys s !! h = Some k /\ is_keypair k.

Lemma owns_quiet s s' h k : os_quiet s s' -> owns s h k -> owns s' h k.
Proof. intros [Hk _ _ _]. unfold owns. by rewrite Hk. Qed.

Lemma wp_generate_ok s :
  os_wf s -> wp generate_eph_keypair (fun r s' => exists h k,
    r = Some (h, public k) /\ is_keypair k /\ keypair_post s r s' /\ os_keys s' !! h = Some k) s.
Proof.
  intros Hwf. pose proof (wp_generate_eph_keypair s Hwf) as Hsafe.
  apply wp_elim in Hsafe as (r & s' & E & Hpost). unfold wp. rewrite E.
  revert E. unfold generate_eph_keypair, bind, io, pkey_alloc, ret. cbn.
  destruct (ok_keygen (os_n s)) as [-> _]. cbn.
  destruct (ok_keygen (S (os_n s))) as [_ [-> _]]. cbn.
  destruct (ok_keygen (S (S (os_n s)))) as (_ & _ & k & -> & Hk). cbn.
  rewrite (ok_public k Hk). intros [= <- <-]. exists (os_next s), k.
  split_and!; [done..|]. cbn. apply lookup_insert_eq.
Qed.

Section Exchange.
Hypothesis socket_up : forall n a p, env_sendto n a p = true.

Lemma wp_sendto_up addr pkt Q s :
  Q true (Os _ (S (os_n s)) (os_keys s) (os_next s) (os_sent s ++ [(addr, pkt)]) (os_tun s)) ->
  wp (sendto addr pkt) Q s.
Proof. intros HQ. apply wp_sendto; [done|]. by rewrite socket_up. Qed.

(** The initiation: the client's identity sealed under DH(eph_c, static_s). *)
Lemma wp_client_send_ok addr psk kc ks s :
  os_wf s -> is_keypair kc -> is_keypair ks ->
  wp (handshake_client_send addr psk (public kc) (Some (public ks)))
     (fun r s' => exists h k enc,
        r = Some (HsState (Some h) (public k) (dh k (public ks))) /\ is_keypair k /\
        os_keys s !! h = None /\ os_keys s' = <[h := k]> (os_keys s) /\ os_wf s' /\
        sealed (dh k (public ks)) (public kc) enc /\
        os_sent s' = os_sent s ++ [(addr, hs_message psk (public k) enc)]) s.
Proof.
  intros Hwf Hkc Hks. unfold handshake_client_send.
  apply wp_bind. eapply wp_conseq; [by apply wp_generate_ok|].
  intros r s1 (h & k & -> & Hk & (k' & Hfresh & Hkeys & _ & Hsent & _ & Hwf1 & _) & Hown).
  assert (k' = k) as ->. { rewrite Hkeys, lookup_insert_eq in Hown. by simplify_eq. }
  apply wp_bind. eapply wp_conseq; [by apply wp_x25519_ok|]. intros r s2 [Hq2 ->].
  apply wp_bind. eapply wp_conseq; [apply wp_encrypt_identity_ok|].
  intros r s3 (Hq3 & ct & tag & Hseal & ->).
  assert (sealed (dh k (public ks)) (public kc) (ct ++ tag)) as Hsealed by by exists ct, tag.
  apply wp_bind. eapply wp_conseq.
  { apply wp_hs_build_ok; [by apply length_public|].
    eapply length_sealed; [|done]. by apply length_public. }
  intros r s4 [Hq4 ->]. assert (os_quiet s1 s4) as Hq by (etrans; [|done]; by etrans).
  apply wp_bind, wp_sendto_up. cbn [negb]. wp_step.
  pose proof (os_quiet_wf _ _ Hq Hwf1). destruct Hq as [Hk4 Hs4 _ _].
  exists h, k, (ct ++ tag). cbn. split_and!; try done; congruence.
Qed.

(** The response to it, and the key the server derives. *)
Lemma wp_server_respond_ok caddr psk hs he ks ke kc k enc s :
  os_wf s -> owns s hs ks -> owns s he ke -> is_keypair kc -> is_keypair k ->
  sealed (dh k (public ks)) (public kc) enc ->
  wp (handshake_server_respond (hs_message psk (public k) enc) caddr psk
        (Some hs) (public ks) (Some he) (public ke))
     (fun r s' => exists enc',
        r = Some (public kc,
              derive_session_key (dh ke (public k)) (dh ke (public kc)) (dh ks (public k))
                (public k) (public ke) (public kc) (public ks)) /\
        os_keys s' = os_keys s /\ sealed (dh ke (public k)) (public ks) enc' /\
        os_sent s' = os_sent s ++ [(caddr, hs_message psk (public ke) enc')]) s.
Proof.
  intros Hwf [Hhs Hks] [Hhe Hke] Hkc Hk Hsealed. unfold handshake_server_respond.
  pose proof (length_public k Hk) as Hlk.
  pose proof (length_sealed _ _ _ (length_public kc Hkc) Hsealed) as Hlenc.
  destruct (hs_message_fields psk (public k) enc Hlk Hlenc) as (-> & -> & -> & _).
  rewrite length_hs_message, Nat.eqb_refl, memcmp_refl by done. cbn [negb Z.eqb].
  apply wp_bind. eapply wp_conseq; [by apply wp_hs_verify_ok|]. intros r s1 [Hq1 ->]. cbn [negb].
  apply wp_bind. eapply wp_conseq.
  { apply (wp_x25519_ok hs ks k); [by eapply os_quiet_wf| |done..]. by rewrite (quiet_keys _ _ Hq1). }
  intros r s2 [Hq2 ->]. assert (os_quiet s s2) as Hq02 by by etrans.
  apply wp_bind. eapply wp_conseq.
  { apply (wp_decrypt_sealed _ (public kc)); [by apply length_public|]. by rewrite (ok_dh ks k). }
  intros r s3 [Hq3 ->]. assert (os_quiet s s3) as Hq03 by by etrans.
  apply wp_bind. eapply wp_conseq.
  { apply (wp_x25519_ok he ke k); [by eapply os_quiet_wf| |done..]. by rewrite (quiet_keys _ _ Hq03). }
  intros r s4 [Hq4 ->]. apply wp_bind. eapply wp_conseq; [apply wp_encrypt_identity_ok|].
  intros r s5 (Hq5 & ct & tag & Hseal & ->).
  assert (sealed (dh ke (public k)) (public ks) (ct ++ tag)) as Hsealed' by by exists ct, tag.
  apply wp_bind. eapply wp_conseq.
  { apply wp_hs_build_ok; [by apply length_public|].
    eapply length_sealed; [|done]. by apply length_public. }
  intros r s6 [Hq6 ->].
  assert (os_quiet s s6) as Hq06 by (etrans; [|done]; etrans; [|done]; by etrans).
  apply wp_bind, wp_sendto_up. cbn [negb]. apply wp_bind. eapply wp_conseq.
  { apply (wp_x25519_ok he ke kc); [by apply (os_quiet_wf _ _ Hq06)| |done..].
    cbn. by rewrite (quiet_keys _ _ Hq06). }
  intros r s7 [Hq7 ->]. wp_step. exists (ct ++ tag). split_and!; [done| |done|].
  - rewrite (quiet_keys _ _ Hq7). cbn. apply Hq06.
  - rewrite (quiet_sent _ _ Hq7). cbn. by rewrite (quiet_sent _ _ Hq06).
Qed.

(** The completion by the client. *)
Lemma wp_client_recv_ok psk hc h kc k ks ke enc s :
  os_wf s -> owns s hc kc -> owns s h k -> is_keypair ks -> is_keypair ke ->
  sealed (dh ke (public k)) (public ks) enc ->
  wp (handshake_client_recv (hs_message psk (public ke) enc) psk (Some hc) (public kc) (public ks)
        (HsState (Some h) (public k) (dh k (public ks))))
     (fun r s' =>
        r = (Some (derive_session_key (dh k (public ke)) (dh kc (public ke)) (dh k (public ks))
                     (public k) (public ke) (public kc) (public ks)),
             HsState None (public k) (dh k (public ks))) /\
        os_keys s' = delete h (os_keys s) /\ os_sent s' = os_sent s) s.
Proof.
  intros Hwf [Hhc Hkc] [Hh Hk] Hks Hke Hsealed. unfold handshake_client_recv.
  pose proof (length_public ke Hke) as Hlk.
  pose proof (length_sealed _ _ _ (length_public ks Hks) Hsealed) as Hlenc.
  destruct (hs_message_fields psk (public ke) enc Hlk Hlenc) as (-> & -> & -> & _).
  rewrite length_hs_message, Nat.eqb_refl, memcmp_refl by done. cbn [negb Z.eqb].
  apply wp_bind. eapply wp_conseq; [by apply wp_hs_verify_ok|]. intros r s1 [Hq1 ->]. cbn [negb].
  apply wp_bind. eapply wp_conseq.
  { apply (wp_x25519_ok h k ke); [by eapply os_quiet_wf| |done..]. by rewrite (quiet_keys _ _ Hq1). }
  intros r s2 [Hq2 ->]. assert (os_quiet s s2) as Hq02 by by etrans.
  apply wp_bind. eapply wp_conseq.
  { apply (wp_decrypt_sealed _ (public ks)); [by apply length_public|]. by rewrite (ok_dh k ke). }
  intros r s3 [Hq3 ->]. assert (os_quiet s s3) as Hq03 by by etrans.
  rewrite memcmp_refl. cbn [negb Z.eqb]. apply wp_bind. eapply wp_conseq.
  { apply (wp_x25519_ok hc kc ke); [by eapply os_quiet_wf| |done..]. by rewrite (quiet_keys _ _ Hq03). }
  intros r s4 [Hq4 ->]. assert (os_quiet s s4) as Hq04 by by etrans.
  apply wp_bind. eapply wp_pkey_free; [by rewrite (quiet_keys _ _ Hq04)|]. wp_step.
  cbn. rewrite (quiet_keys _ _ Hq04), (quiet_sent _ _ Hq04). done.
Qed.
End Exchange.

(** ** Properties *)

(** C13: The handshake agrees.  When client and server share the PSK setting and
    the client is configured with the server's public key, the three calls run
    to completion: the initiation reaches the server, the server learns the
    client's static public key and sends one response, the client accepts it,
    both hold the same session key, and the client's ephemeral key is gone. *)
Theorem handshake_agreement saddr caddr psk hc kc hs ks he ke c0 s0 :
  (forall n a p, env_sendto n a p = true) ->
  os_wf c0 -> os_wf s0 -> owns c0 hc kc -> owns s0 hs ks -> owns s0 he ke ->
  exists st c1 msg key s1 resp st' c2,
    handshake_client_send saddr psk (public kc) (Some (public ks)) c0 = Ret (Some st) c1 /\
    os_sent c1 = os_sent c0 ++ [(saddr, msg)] /\
    handshake_server_respond msg caddr psk (Some hs) (public ks) (Some he) (public ke) s0
      = Ret (Some (public kc, key)) s1 /\
    os_sent s1 = os_sent s0 ++ [(caddr, resp)] /\ os_keys s1 = os_keys s0 /\
    handshake_client_recv resp psk (Some hc) (public kc) (public ks) st c1
      = Ret (Some key, st') c2 /\
    eph_key st' = None /\ os_keys c2 = os_keys c0.
Proof.
  intros Hup Hwc Hws [Hhc Hkc] Hs He. pose proof Hs as [Hhs Hks]. pose proof He as [Hhe Hke].
  destruct (wp_elim _ _ _ (wp_client_send_ok Hup saddr psk kc ks c0 Hwc Hkc Hks))
    as (r & c1 & E1 & h & k & enc & -> & Hk & Hfresh & Hkeys & Hwf1 & Hsealed & Hsent).
  destruct (wp_elim _ _ _ (wp_server_respond_ok Hup caddr psk hs he ks ke kc k enc s0
      Hws Hs He Hkc Hk Hsealed)) as (r & s1 & E2 & enc' & -> & Hkeys' & Hsealed' & Hsent').
  assert (owns c1 hc kc) as Hc1.
  { split; [|done]. rewrite Hkeys, lookup_insert_ne; [done|]. intros ->. by rewrite Hhc in Hfresh. }
  assert (owns c1 h k) as Hc1' by (split; [by rewrite Hkeys, lookup_insert_eq|done]).
  destruct (wp_elim _ _ _ (wp_client_recv_ok psk hc h kc k ks ke enc' c1
      Hwf1 Hc1 Hc1' Hks Hke Hsealed')) as (r & c2 & E3 & -> & Hkeys2 & _).
  eexists _, c1, _, _, s1, _, _, c2. split_and!; [exact E1|exact Hsent|exact E2|exact Hsent'|done| |..].
  - rewrite E3. by rewrite (ok_dh k ke), (ok_dh kc ke), (ok_dh k ks).
  - done.
  - by rewrite Hkeys2, Hkeys, delete_insert_id.
Qed.

(** C22: With a PSK, a message whose last 32 bytes are not the HMAC of its keys
    is refused before any other work: nothing is sent, no key is touched. *)
Theorem server_silent_without_psk pkt addr psk sk spub ek epub s :
  slice (HEADER_SIZE + DH_PUBKEY_LEN + HS_ENCRYPTED_PUB_LEN) HMAC_LEN pkt
    <> hmac psk (hs_covered pkt) ->
  exists s', handshake_server_respond pkt addr (Some psk) sk spub ek epub s = Ret None s' /\
    os_quiet s s'.
Proof.
  intros Hne. unfold handshake_server_respond.
  destruct (_ =? _)%nat; cbn [negb]; [|by exists s].
  destruct (_ =? _); cbn [negb]; [|by exists s].
  unfold hs_verify_hmac, compute_hmac, bind, io. rewrite ok_hmac. cbn.
  rewrite bool_decide_eq_false_2 by done. cbn. eexists. split; [done|]. by constructor.
Qed.

(** C23: The client authenticates the server.  When [handshake_client_recv]
    accepts a response, the response has the right size, magic and HMAC, and its
    identity field is the configured server key sealed under the secret the
    client shares with the response's ephemeral key. *)
Theorem client_authenticates_server resp psk sk spub server_pub st s key st' s' :
  os_wf s -> live s sk -> live s (eph_key st) -> length server_pub = DH_PUBKEY_LEN ->
  handshake_client_recv resp psk sk spub server_pub st s = Ret (Some key, st') s' ->
  length resp = hs_size psk /\ slice 0 HEADER_SIZE resp = pkt_header /\
  (forall k, psk = Some k ->
     slice (HEADER_SIZE + DH_PUBKEY_LEN + HS_ENCRYPTED_PUB_LEN) HMAC_LEN resp
       = hmac k (hs_covered resp)) /\
  exists secret s1 s2,
    x25519_shared_secret (eph_key st) (slice HEADER_SIZE DH_PUBKEY_LEN resp) s1
      = Ret (Some secret) s2 /\
    sealed secret server_pub
      (slice (HEADER_SIZE + DH_PUBKEY_LEN) HS_ENCRYPTED_PUB_LEN resp).
Proof.
  intros Hwf Hsk Hek Hlp. unfold handshake_client_recv.
  destruct (Nat.eqb_spec (length resp) (hs_size psk)) as [Hlen|]; cbn [negb]; [|done].
  destruct (Z.eqb_spec (memcmp (slice 0 HEADER_SIZE resp) pkt_header) 0) as [Hm|];
    cbn [negb]; [|done].
  apply memcmp_eq in Hm; [|rewrite length_slice; [done|unfold hs_size in Hlen; sizes]].
  unfold bind at 1. destruct (hs_verify_hmac psk resp s) as [auth s1|] eqn:Ev; [|done].
  destruct auth; cbn [negb]; [|done].
  pose proof (wp_run _ _ _ _ _ (wp_hs_verify_hmac psk resp s) Ev) as Hq1.
  unfold bind at 1.
  destruct (x25519_shared_secret _ _ s1) as [[ecdh|] s2|] eqn:Ex; [|done..].
  unfold bind at 1.
  set (enc := slice (HEADER_SIZE + _) _ resp).
  assert (length enc = HS_ENCRYPTED_PUB_LEN) as Henc
    by (apply length_slice; unfold hs_size in Hlen; sizes).
  destruct (decrypt_identity ecdh enc s2) as [[srv|] s3|] eqn:Ed; [|done..].
  pose proof (wp_run _ _ _ _ _ (wp_decrypt_identity ecdh enc s2 Henc) Ed) as [_ Hsrv].
  destruct (Z.eqb_spec (memcmp srv server_pub) 0) as [Hsp|]; cbn [negb]; [|done].
  apply memcmp_eq in Hsp; [|by rewrite Hsrv]. subst srv. intros _.
  split_and!; [done..| |].
  - intros k ->. revert Ev. unfold hs_verify_hmac, compute_hmac, bind, io. rewrite ok_hmac. cbn.
    by intros [= ?%bool_decide_eq_true _].
  - exists ecdh, s1, s2. split; [done|]. revert Ed. rewrite <- (take_drop DH_PUBKEY_LEN enc).
    assert (length (take DH_PUBKEY_LEN enc) = DH_PUBKEY_LEN) as Hl1 by (rewrite length_take; sizes).
    assert (length (drop DH_PUBKEY_LEN enc) = CRYPTO_TAG_LEN) as Hl2 by (rewrite length_drop; sizes).
    intros Ed. pose proof (wp_run _ _ _ _ _ (wp_decrypt_identity_ok ecdh _ _ s2 Hl1 Hl2) Ed) as [_ Ho].
    symmetry in Ho. apply ok_seal_open in Ho. eexists _, _. split; [exact Ho|]. done.
Qed.
End Ok.

(** C29: Whatever OpenSSL and the socket answer, [handshake_client_send] is
    free of undefined behaviour and never leaks: on failure the live keys and
    the datagrams sent are as before, on success there is exactly one more live
    key, the one the returned state owns, and exactly one more datagram. *)
Theorem client_send_memory_safe `{OpenSSLSizes} addr psk spub server_pub s :
  os_wf s -> length spub = DH_PUBKEY_LEN ->
  exists r s', handshake_client_send addr psk spub server_pub s = Ret r s' /\
    client_send_post addr psk s r s'.
Proof.
  intros Hwf Hl. exact (wp_elim _ _ _ (wp_client_send addr psk spub server_pub s Hwf Hl)).
Qed.

(** *** Concrete runs *)
#[local] Existing Instance Toy.ssl.
#[local] Existing Instance Toy.env.
#[local] Existing Instance Toy.ssl_ok.

Definition toy_kc : @evp_pkey Toy.ssl := Toy.Private Byte.x01.
Definition toy_ks : @evp_pkey Toy.ssl := Toy.Private Byte.x02.
Definition toy_ke : @evp_pkey Toy.ssl := Toy.Private Byte.x03.
Definition toy_client : os := Os _ 10 {[0%nat := toy_kc]} 1 [] [].
Definition toy_server : os :=
  Os _ 0 {[0%nat := toy_ks; 1%nat := toy_ke]} 2 [] [].
Definition toy_psk : bytes := replicate 32 Byte.x09.

Lemma toy_client_wf : os_wf toy_client.
Proof.
  intros h [k Hk]. cbn in Hk. apply lookup_singleton_Some in Hk as [<- _]. cbn. lia.
Qed.

Lemma toy_server_wf : os_wf toy_server.
Proof.
  intros h [k Hk]. cbn in Hk. apply lookup_insert_Some in Hk as [[<- _]|[_ Hk]]; [cbn; lia|].
  apply lookup_singleton_Some in Hk as [<- _]. cbn. lia.
Qed.

Lemma handshake_agreement_witness :
  exists st c1 msg key s1 resp st' c2,
    handshake_client_send (SockAddr 1 1) (Some toy_psk) (public toy_kc)
      (Some (public toy_ks)) toy_client = Ret (Some st) c1 /\
    os_sent c1 = os_sent toy_client ++ [(SockAddr 1 1, msg)] /\
    handshake_server_respond msg (SockAddr 2 2) (Some toy_psk) (Some 0%nat)
      (public toy_ks) (Some 1%nat) (public toy_ke) toy_server
      = Ret (Some (public toy_kc, key)) s1 /\
    os_sent s1 = os_sent toy_server ++ [(SockAddr 2 2, resp)] /\
    os_keys s1 = os_keys toy_server /\
    handshake_client_recv resp (Some toy_psk) (Some 0%nat) (public toy_kc)
      (public toy_ks) st c1 = Ret (Some key, st') c2 /\
    eph_key st' = None /\ os_keys c2 = os_keys toy_client.
Proof.
  apply (handshake_agreement (SockAddr 1 1) (SockAddr 2 2) (Some toy_psk)
    0%nat toy_kc 0%nat toy_ks 1%nat toy_ke
    toy_client toy_server);
    [reflexivity | exact toy_client_wf | exact toy_server_wf | split; [reflexivity | exact I] ..].
Defined.

Lemma server_silent_without_psk_witness :
  exists s', handshake_server_respond (replicate 120 Byte.x00) (SockAddr 2 2) (Some toy_psk)
      (Some 0%nat) toy_key (Some 1%nat) toy_key toy_server = Ret None s' /\
    os_quiet toy_server s'.
Proof.
  apply (server_silent_without_psk (replicate 120 Byte.x00) (SockAddr 2 2) toy_psk
    (Some 0%nat) toy_key (Some 1%nat) toy_key toy_server).
  vm_compute. discriminate.
Defined.

Lemma client_send_memory_safe_witness :
  exists r s', handshake_client_send (SockAddr 1 1) (Some toy_psk) toy_key (Some toy_key) toy_client
      = Ret r s' /\
    client_send_post (SockAddr 1 1) (Some toy_psk) toy_client r s'.
Proof.
  apply (client_send_memory_safe (SockAddr 1 1) (Some toy_psk) toy_key (Some toy_key) toy_client);
    [exact toy_client_wf | reflexivity].
Defined.

(** The client of a finished exchange: its ephemeral key is key 5. *)
Definition toy_waiting : os := Os _ 10 {[0%nat := toy_kc; 5%nat := toy_ke]} 6 [] [].
Definition toy_state : hs_client_state :=
  HsState (Some 5%nat) (public toy_ke) (dh toy_ke (public toy_ks)).
Definition toy_resp : bytes :=
  hs_message (Some toy_psk) (public toy_kc)
    (public toy_ks ++ Toy.mac (SHA256 (dh toy_ke (public toy_kc))) zero_iv (public toy_ks)).
Definition toy_recv :=
  handshake_client_recv toy_resp (Some toy_psk) (Some 0%nat) (public toy_kc) (public toy_ks)
    toy_state toy_waiting.
Definition toy_recv_key : bytes := match toy_recv with Ret (Some k, _) _ => k | _ => [] end.
Definition toy_recv_os : os := match toy_recv with Ret _ s => s | _ => toy_waiting end.

Lemma toy_waiting_wf : os_wf toy_waiting.
Proof.
  intros h [k Hk]. cbn in Hk. apply lookup_insert_Some in Hk as [[<- _]|[_ Hk]]; [cbn; lia|].
  apply lookup_singleton_Some in Hk as [<- _]. cbn. lia.
Qed.

Lemma client_authenticates_server_witness :
  length toy_resp = hs_size (Some toy_psk) /\ slice 0 HEADER_SIZE toy_resp = pkt_header /\
  (forall k, Some toy_psk = Some k ->
     slice (HEADER_SIZE + DH_PUBKEY_LEN + HS_ENCRYPTED_PUB_LEN) HMAC_LEN toy_resp
       = hmac k (hs_covered toy_resp)) /\
  exists secret s1 s2,
    x25519_shared_secret (eph_key toy_state) (slice HEADER_SIZE DH_PUBKEY_LEN toy_resp) s1
      = Ret (Some secret) s2 /\
    sealed secret (public toy_ks)
      (slice (HEADER_SIZE + DH_PUBKEY_LEN) HS_ENCRYPTED_PUB_LEN toy_resp).
Proof.
  apply (client_authenticates_server toy_resp (Some toy_psk) (Some 0%nat) (public toy_kc)
    (public toy_ks) toy_state toy_waiting toy_recv_key
    (HsState None (public toy_ke) (dh toy_ke (public toy_ks))) toy_recv_os);
    [exact toy_waiting_wf | exists toy_kc; reflexivity | exists toy_ke; reflexivity
    | reflexivity | reflexivity].
Defined.
