(* ===== verification/Hex.v ===== *)
(** * C strings and hexadecimal: [derive_key], [bytes_to_hex], [hex_to_bytes] of
    src/common.c and the C library routines the two sources call on strings

    A C string is a [string] without NUL; [c_str] is the string a [char *]
    denotes when the bytes it points to may contain one. *)

From S2P Require Import Prelude Platform Crypto.
From Stdlib Require Import Ascii.

Abbreviation chars := String.list_ascii_of_string.
Abbreviation of_chars := String.string_of_list_ascii.

Definition char_code (c : ascii) : Z := Z.of_N (N_of_ascii c).

(** Everything before the first NUL. *)
Fixpoint c_str_chars (l : list ascii) : list ascii :=
  match l with
  | [] => []
  | c :: l' => if char_code c =? 0 then [] else c :: c_str_chars l'
  end.
Definition c_str (s : string) : string := of_chars (c_str_chars (chars s)).

Definition strlen (s : string) : nat := String.length s.

Definition string_bytes (s : string) : bytes := byte_of ∘ char_code <$> chars s.

(** ** Character classes *)

Definition isdigit (c : ascii) : bool := (48 <=? char_code c) && (char_code c <=? 57).

Definition isspace (c : ascii) : bool :=
  (char_code c =? 32) || ((9 <=? char_code c) && (char_code c <=? 13)).

(** The value of a hexadecimal digit of either case. *)
Definition hex_val (c : ascii) : option Z :=
  let n := char_code c in
  if (48 <=? n) && (n <=? 57) then Some (n - 48)
  else if (97 <=? n) && (n <=? 102) then Some (n - 87)
  else if (65 <=? n) && (n <=? 70) then Some (n - 55)
  else None.

(** The lower-case digit of a value below 16. *)
Definition hex_digit (d : Z) : ascii :=
  ascii_of_N (Z.to_N (if d <? 10 then 48 + d else 87 + d)).

(** ** [bytes_to_hex] *)

(** [sprintf("%02x", b)] *)
Definition sprintf_02x (b : byte) : list ascii := [hex_digit (bval b / 16); hex_digit (bval b mod 16)].

(** The first [len] bytes in hexadecimal; the buffer receives these characters
    and a NUL. *)
Definition bytes_to_hex (bs : bytes) (len : nat) : string :=
  of_chars (take len bs ≫= sprintf_02x).

(** ** [hex_to_bytes] *)

(** [sscanf(s, "%02x%n", &byte, &n)]: leading white space is skipped, then an
    item of at most two characters is converted: a sign and a digit, or one or
    two digits ("0x" alone is a prefix of an item and matches nothing).  The
    result is the converted value and the number of characters read. *)
Fixpoint sscanf_02x (s : list ascii) (skipped : nat) : option (Z * nat) :=
  match s with
  | [] => None
  | c1 :: s' =>
      if isspace c1 then sscanf_02x s' (S skipped) else
      let next := match s' with c2 :: _ => hex_val c2 | [] => None end in
      if (char_code c1 =? 43) || (char_code c1 =? 45) then
        match next with
        | Some d => Some (if char_code c1 =? 45 then u32 (- d) else d, (skipped + 2)%nat)
        | None => None
        end
      else
        match hex_val c1 with
        | None => None
        | Some d1 =>
            match s' with
            | c2 :: _ =>
                match hex_val c2 with
                | Some d2 => Some (16 * d1 + d2, (skipped + 2)%nat)
                | None =>
                    if (d1 =? 0) && ((char_code c2 =? 120) || (char_code c2 =? 88))
                    then None else Some (d1, (skipped + 1)%nat)
                end
            | [] => Some (d1, (skipped + 1)%nat)
            end
        end
  end.

(** The loop over the [n] pairs left, at the current position. *)
Fixpoint hex_pairs (s : list ascii) (n : nat) : option bytes :=
  match n with
  | O => Some []
  | S n' =>
      match sscanf_02x s 0 with
      | None => None
      | Some (b, k) =>
          if negb (k =? 2)%nat then None else
          match hex_pairs (drop 2 s) n' with
          | None => None
          | Some rest => Some (byte_of b :: rest)
          end
      end
  end.

(** [None] for -1. *)
Definition hex_to_bytes (hex : string) (expected_len : nat) : option bytes :=
  if negb (strlen hex =? expected_len * 2)%nat then None
  else hex_pairs (chars hex) expected_len.

(** ** [derive_key] *)

Definition derive_key `{OpenSSL} (psk : string) : bytes := SHA256 (string_bytes psk).

(** ** Lemmas *)

Lemma hex_digit_cases (P : Z -> Prop) :
  P 0 -> P 1 -> P 2 -> P 3 -> P 4 -> P 5 -> P 6 -> P 7 -> P 8 -> P 9 -> P 10 -> P 11 ->
  P 12 -> P 13 -> P 14 -> P 15 -> forall d, 0 <= d < 16 -> P d.
Proof.
  intros. assert (d = 0 \/ d = 1 \/ d = 2 \/ d = 3 \/ d = 4 \/ d = 5 \/ d = 6 \/ d = 7 \/ d = 8
    \/ d = 9 \/ d = 10 \/ d = 11 \/ d = 12 \/ d = 13 \/ d = 14 \/ d = 15) by lia.
  naive_solver.
Qed.

Lemma hex_val_digit d : 0 <= d < 16 -> hex_val (hex_digit d) = Some d.
Proof. revert d. by apply hex_digit_cases. Qed.

(** A character with a digit value is neither white space nor a sign. *)
Lemma hex_val_plain c d :
  hex_val c = Some d ->
  isspace c = false /\ (char_code c =? 43) || (char_code c =? 45) = false /\ 0 <= d < 16.
Proof.
  unfold hex_val, isspace. intros Hv.
  destruct (_ && _) eqn:E1 in Hv; [|destruct (_ && _) eqn:E2 in Hv; [|destruct (_ && _) eqn:E3 in Hv]];
    simplify_eq; split_and!; lia.
Qed.

Lemma sscanf_two_digits c1 c2 d1 d2 s :
  hex_val c1 = Some d1 -> hex_val c2 = Some d2 ->
  sscanf_02x (c1 :: c2 :: s) 0 = Some (16 * d1 + d2, 2%nat).
Proof.
  intros H1 H2. cbn. destruct (hex_val_plain _ _ H1) as (-> & -> & _). by rewrite H1, H2.
Qed.

Arguments sscanf_02x : simpl never.

(** On digits only, the routine computes the base-16 value of each pair. *)
Fixpoint hex_value (ds : list Z) : bytes :=
  match ds with
  | d1 :: d2 :: ds' => byte_of (16 * d1 + d2) :: hex_value ds'
  | _ => []
  end.

Lemma hex_pairs_digits n : forall s ds,
  length s = (n * 2)%nat -> hex_val <$> s = Some <$> ds -> hex_pairs s n = Some (hex_value ds).
Proof.
  induction n as [|n IH]; intros s ds Hl Hv.
  { by destruct s, ds. }
  destruct s as [|c1 [|c2 s]], ds as [|d1 [|d2 ds]]; simplify_eq/=.
  erewrite sscanf_two_digits by done. cbn.
  by erewrite IH by (done || lia).
Qed.

Lemma length_chars s : length (chars s) = String.length s.
Proof. induction s; cbn; auto. Qed.

Lemma chars_of_chars l : chars (of_chars l) = l.
Proof. apply String.list_ascii_of_string_of_list_ascii. Qed.

(** Text without NUL is a C string as it is. *)
Lemma c_str_plain s : Forall (fun c => char_code c <> 0) (chars s) -> c_str s = s.
Proof.
  intros Hf. unfold c_str. rewrite <- (String.string_of_list_ascii_of_string s) at 2. f_equal.
  induction Hf as [|c l Hc Hf IH]; cbn; [done|]. by rewrite (proj2 (Z.eqb_neq _ _) Hc), IH.
Qed.

Lemma strlen_of_chars l : strlen (of_chars l) = length l.
Proof. unfold strlen. by rewrite <- length_chars, chars_of_chars. Qed.

Lemma length_hex bs : length (bs ≫= sprintf_02x) = (length bs * 2)%nat.
Proof. induction bs; cbn; [done|]. by rewrite IHbs. Qed.

Definition nibbles (b : byte) : list Z := [bval b / 16; bval b mod 16].

Lemma hex_val_of_hex bs : hex_val <$> (bs ≫= sprintf_02x) = Some <$> (bs ≫= nibbles).
Proof.
  induction bs as [|b bs IH]; cbn; [done|]. pose proof (bval_range b).
  rewrite !hex_val_digit by (Z.div_mod_to_equations; lia). by rewrite IH.
Qed.

Lemma hex_value_nibbles bs : hex_value (bs ≫= nibbles) = bs.
Proof.
  induction bs as [|b bs IH]; cbn [mbind list_bind app nibbles hex_value]; [done|]. f_equal; [|done].
  rewrite <- Z.div_mod by lia. apply byte_of_bval.
Qed.

Lemma length_hex_pairs n : forall s bs, hex_pairs s n = Some bs -> length bs = n.
Proof.
  induction n as [|n IH]; intros s bs; cbn; [by intros [= <-]|].
  destruct (sscanf_02x s 0) as [[b k]|]; [|done]. destruct (negb _); [done|].
  destruct (hex_pairs (drop 2 s) n) eqn:E; [|done]. intros [= <-]. cbn. f_equal. eauto.
Qed.

Lemma length_hex_to_bytes hex n bs : hex_to_bytes hex n = Some bs -> length bs = n.
Proof. unfold hex_to_bytes. destruct (negb _); [done|]. apply length_hex_pairs. Qed.

Lemma hex_to_bytes_hex bs : hex_to_bytes (bytes_to_hex bs (length bs)) (length bs) = Some bs.
Proof.
  unfold bytes_to_hex, hex_to_bytes. rewrite take_ge by lia.
  rewrite strlen_of_chars, length_hex, Nat.eqb_refl, chars_of_chars. cbn [negb].
  rewrite (hex_pairs_digits _ _ (bs ≫= nibbles)) by (apply length_hex || apply hex_val_of_hex).
  by rewrite hex_value_nibbles.
Qed.

Lemma c_str_hex bs n : c_str (bytes_to_hex bs n) = bytes_to_hex bs n.
Proof.
  apply c_str_plain. unfold bytes_to_hex. rewrite chars_of_chars.
  induction (take n bs) as [|b l IH]; cbn; [constructor|]. pose proof (bval_range b).
  assert (forall d, 0 <= d < 16 -> char_code (hex_digit d) <> 0) as Hd by by apply hex_digit_cases.
  repeat constructor; [..|done]; apply Hd; Z.div_mod_to_equations; lia.
Qed.

(** ** Properties *)

(** Hexadecimal round trips: [hex_to_bytes] reads back what [bytes_to_hex]
    writes for any bytes, and that text is two characters per byte. *)
Theorem hex_roundtrip bs :
  strlen (bytes_to_hex bs (length bs)) = (length bs * 2)%nat /\
  hex_to_bytes (bytes_to_hex bs (length bs)) (length bs) = Some bs.
Proof.
  split; [|apply hex_to_bytes_hex]. unfold bytes_to_hex. rewrite take_ge by lia.
  by rewrite strlen_of_chars, length_hex.
Qed.

(** On a text made of hexadecimal digits of either case, [hex_to_bytes]
    fails exactly when the length is not twice the expected one, and otherwise
    returns the base-16 value of each pair. *)
Theorem hex_to_bytes_digits hex n ds :
  hex_val <$> chars hex = Some <$> ds ->
  hex_to_bytes hex n = if (length ds =? n * 2)%nat then Some (hex_value ds) else None.
Proof.
  intros Hv. assert (strlen hex = length ds) as Hl.
  { unfold strlen. rewrite <- length_chars, <- (length_fmap hex_val), Hv. by rewrite length_fmap. }
  unfold hex_to_bytes. rewrite Hl. destruct (Nat.eqb_spec (length ds) (n * 2)); cbn [negb]; [|done].
  apply hex_pairs_digits; [|done]. rewrite length_chars. unfold strlen in Hl. lia.
Qed.

Lemma hex_to_bytes_digits_witness :
  hex_to_bytes "DeAd" 2 = Some (hex_value [13; 14; 10; 13]).
Proof. apply (hex_to_bytes_digits "DeAd" 2 [13; 14; 10; 13]). reflexivity. Defined.

(** Digits are not required: [sscanf] skips white space and takes a sign,
    so a two-character group made of a sign and a digit is accepted, and a minus
    sign yields the two's complement byte. *)
Theorem hex_to_bytes_accepts_sign c d :
  hex_val c = Some d ->
  hex_to_bytes (String "-" (String c EmptyString)) 1 = Some [byte_of (256 - d)] /\
  hex_to_bytes (String "+" (String c EmptyString)) 1 = Some [byte_of d].
Proof.
  intros Hc. unfold hex_to_bytes, hex_pairs, sscanf_02x. cbn. rewrite Hc. cbn. split; [|done]. do 2 f_equal.
  apply bval_inj. rewrite !bval_byte_of. unfold wrap.
  destruct (hex_val_plain _ _ Hc) as (_ & _ & Hd). clear Hc. revert d Hd.
  by apply hex_digit_cases.
Qed.

Lemma hex_to_bytes_accepts_sign_witness :
  hex_to_bytes "-1" 1 = Some [byte_of 255] /\ hex_to_bytes "+1" 1 = Some [byte_of 1].
Proof. apply (hex_to_bytes_accepts_sign "1" 1). reflexivity. Defined.
