(* ===== verification/Cidr.v ===== *)
(** * Prefixes: [ip_prefix_t] and [parse_cidr] of src/peer.c, with the C library
    routines it calls ([atoi], [inet_pton]) *)

From S2P Require Import Prelude Platform Crypto Hex.
From Stdlib Require Import Ascii.

(** ** The code *)

Record ip_prefix := IpPrefix { network : Z; mask : Z; prefix_len : Z }.

#[export] Instance ip_prefix_eq_dec : EqDecision ip_prefix.
Proof. solve_decision. Defined.

(** Conversion to a 32-bit [int]. *)
Definition to_int (z : Z) : Z := (z + 2 ^ 31) mod 2 ^ 32 - 2 ^ 31.

Fixpoint skip_spaces (s : list ascii) : list ascii :=
  match s with
  | c :: s' => if isspace c then skip_spaces s' else s
  | [] => []
  end.

Fixpoint atoi_digits (s : list ascii) (acc : Z) : Z :=
  match s with
  | c :: s' => if isdigit c then atoi_digits s' (10 * acc + (char_code c - 48)) else acc
  | [] => acc
  end.

(** [atoi]: the [int] conversion of [strtol], which saturates at 64 bits; text
    that does not start with a number is 0. *)
Definition atoi (s : list ascii) : Z :=
  let clamp z := Z.max (- 2 ^ 63) (Z.min (2 ^ 63 - 1) z) in
  to_int (clamp
    (match skip_spaces s with
     | c :: s' =>
         if char_code c =? 45 then - atoi_digits s' 0
         else if char_code c =? 43 then atoi_digits s' 0
         else atoi_digits (c :: s') 0
     | [] => 0
     end)).

(** [inet_pton(AF_INET, ...)]: exactly four decimal octets without leading
    zeros.  [acc] is the value of the octets closed so far, [cur] the open one,
    [saw] whether it has a digit, [octets] how many were opened. *)
Fixpoint inet_pton_loop (s : list ascii) (acc cur : Z) (saw : bool) (octets : nat) : option Z :=
  match s with
  | [] => if (octets <? 4)%nat then None else Some (acc * 256 + cur)
  | c :: s' =>
      if isdigit c then
        let new := cur * 10 + (char_code c - 48) in
        if saw && (cur =? 0) then None else
        if 255 <? new then None else
        if saw then inet_pton_loop s' acc new true octets
        else if (4 <? S octets)%nat then None
        else inet_pton_loop s' acc new true (S octets)
      else if (char_code c =? 46) && saw then
        if (octets =? 4)%nat then None
        else inet_pton_loop s' (acc * 256 + cur) 0 false octets
      else None
  end.
Definition inet_pton (s : list ascii) : option Z := inet_pton_loop s 0 0 false 0.

(** The text before the first [c] and, when there is one, the text after it. *)
Fixpoint split_at_char (code : Z) (s : list ascii) : list ascii * option (list ascii) :=
  match s with
  | [] => ([], None)
  | c :: s' =>
      if char_code c =? code then ([], Some s') else
      let '(before, after) := split_at_char code s' in (c :: before, after)
  end.

Definition prefix_mask (prefix_len : Z) : Z :=
  if prefix_len =? 0 then 0 else u32 (Z.shiftl (2 ^ 32 - 1) (32 - prefix_len)).

(** [parse_cidr]: [None] for -1.  [strncpy] keeps the first 31 characters. *)
Definition parse_cidr (cidr : string) : option ip_prefix :=
  let buf := take 31 (chars cidr) in
  let '(addr_text, slash) := split_at_char 47 buf in
  let prefix_len := match slash with Some t => atoi t | None => 32 end in
  if (prefix_len <? 0) || (32 <? prefix_len) then None else
  match inet_pton addr_text with
  | None => None
  | Some addr =>
      let m := prefix_mask prefix_len in
      Some (IpPrefix (Z.land addr m) m prefix_len)
  end.

(** The test [route_lookup] and [check_allowed_src] make. *)
Definition prefix_match (ip : Z) (p : ip_prefix) : bool := Z.land ip (mask p) =? network p.

Definition prefix_zero : ip_prefix := IpPrefix 0 0 0.

(** ** Well-formed prefixes *)

Record prefix_wf (p : ip_prefix) : Prop := {
  wf_len : 0 <= prefix_len p <= 32;
  wf_mask : mask p = prefix_mask (prefix_len p);
  wf_network : in_range 32 (network p) /\ Z.land (network p) (mask p) = network p;
}.

Lemma prefix_mask_testbit n i :
  0 <= n <= 32 -> 0 <= i -> Z.testbit (prefix_mask n) i = (32 - n <=? i) && (i <? 32).
Proof.
  intros Hn Hi. unfold prefix_mask. destruct (Z.eqb_spec n 0) as [->|Hne].
  { rewrite Z.testbit_0_l. symmetry. apply andb_false_iff.
    destruct (Z.lt_ge_cases i 32); [left|right]; blia. }
  change (2 ^ 32 - 1) with (Z.ones 32).
  rewrite wrap_testbit, Z.shiftl_spec, andb_comm by lia.
  destruct (Z.leb_spec (32 - n) i); [|by rewrite Z.testbit_neg_r by lia]. cbn [andb].
  destruct (Z.ltb_spec i 32); [|by rewrite andb_false_r]. rewrite andb_true_r.
  apply Z.ones_spec_low. lia.
Qed.

Lemma prefix_mask_nonneg n : 0 <= prefix_mask n.
Proof. unfold prefix_mask. destruct (_ =? 0); [lia|]. apply wrap_range. lia. Qed.

(** Masking keeps the top [n] of the 32 bits. *)
Lemma land_mask_eq n a b :
  0 <= n <= 32 -> in_range 32 a -> in_range 32 b ->
  Z.land a (prefix_mask n) = Z.land b (prefix_mask n) <->
  Z.shiftr a (32 - n) = Z.shiftr b (32 - n).
Proof.
  intros Hn Ha Hb. split; intros He; apply Z.bits_inj'; intros i Hi.
  - rewrite !Z.shiftr_spec by lia. destruct (Z.lt_ge_cases (i + (32 - n)) 32).
    + apply (f_equal (fun z => Z.testbit z (i + (32 - n)))) in He.
      rewrite !Z.land_spec, !prefix_mask_testbit in He by lia.
      replace ((32 - n <=? i + (32 - n)) && (i + (32 - n) <? 32)) with true in He by lia.
      by rewrite !andb_true_r in He.
    + by rewrite !(in_range_testbit 32) by (done || lia).
  - rewrite !Z.land_spec, prefix_mask_testbit by lia.
    destruct (Z.leb_spec (32 - n) i); [|by rewrite !andb_false_r]. f_equal.
    apply (f_equal (fun z => Z.testbit z (i - (32 - n)))) in He.
    rewrite !Z.shiftr_spec in He by lia. by rewrite Z.sub_add in He.
Qed.

(** A well-formed prefix matches exactly the addresses that share its top
    [prefix_len] bits. *)
Lemma prefix_match_spec p ip :
  prefix_wf p -> in_range 32 ip ->
  prefix_match ip p = true <->
  Z.shiftr ip (32 - prefix_len p) = Z.shiftr (network p) (32 - prefix_len p).
Proof.
  intros [Hl Hm [Hr Hn]] Hip. unfold prefix_match. rewrite Z.eqb_eq.
  by rewrite <- land_mask_eq, <- Hm, Hn by done.
Qed.

Lemma inet_pton_loop_range s : forall (acc cur : Z) (saw : bool) (octets : nat) ip,
  (octets <= 4)%nat -> 0 <= cur <= 255 ->
  in_range (8 * (if saw then Z.of_nat octets - 1 else Z.of_nat octets)) acc ->
  (saw = true -> (1 <= octets)%nat) -> (saw = false -> cur = 0 /\ (octets = 4%nat -> s <> [])) ->
  inet_pton_loop s acc cur saw octets = Some ip -> in_range 32 ip.
Proof.
  induction s as [|c s IH]; intros acc cur saw octets ip Ho Hcur Hacc Hs Hn; cbn [inet_pton_loop].
  - destruct (Nat.ltb_spec octets 4); [done|]. intros [= <-].
    assert (octets = 4%nat) as -> by lia. destruct saw; [|by destruct Hn as [_ []]].
    change (8 * (Z.of_nat 4 - 1)) with 24 in Hacc. unfold in_range in *. lia.
  - destruct (isdigit c) eqn:Ed.
    + unfold isdigit in Ed. destruct (saw && (cur =? 0)); [done|].
      destruct (Z.ltb_spec 255 (cur * 10 + (char_code c - 48))); [done|].
      destruct saw.
      * apply IH; try done; lia.
      * destruct (Nat.ltb_spec 4 (S octets)); [done|]. apply IH; try done; try lia.
        by replace (Z.of_nat (S octets) - 1) with (Z.of_nat octets) by lia.
    + destruct (_ =? 46); cbn [andb]; [|done]. destruct saw; [|done].
      destruct (Nat.eqb_spec octets 4); [done|]. specialize (Hs eq_refl). apply IH; try done; try lia.
      unfold in_range in *. replace (8 * Z.of_nat octets) with (8 + 8 * (Z.of_nat octets - 1)) by lia.
      rewrite Z.pow_add_r by lia. lia.
Qed.

Lemma inet_pton_range s ip : inet_pton s = Some ip -> in_range 32 ip.
Proof.
  apply inet_pton_loop_range; try done; lia.
Qed.

Lemma parse_cidr_wf cidr p : parse_cidr cidr = Some p -> prefix_wf p.
Proof.
  unfold parse_cidr. destruct (split_at_char 47 _) as [a t].
  set (n := match t with Some _ => _ | None => _ end).
  destruct (Z.ltb_spec n 0), (Z.ltb_spec 32 n); cbn [orb]; try done.
  destruct (inet_pton a) as [ip|] eqn:E; [|done]. intros [= <-].
  apply inet_pton_range in E. pose proof (prefix_mask_nonneg n).
  split; cbn; [lia|done|]. split; [by apply land_range|].
  by rewrite <- Z.land_assoc, Z.land_diag.
Qed.

(** ** Printing, for the round trip *)

Definition digit_char (d : Z) : ascii := ascii_of_N (Z.to_N (48 + d)).

(** A number below 1000 in decimal, without leading zeros. *)
Definition dec (n : Z) : list ascii :=
  if n <? 10 then [digit_char n]
  else if n <? 100 then [digit_char (n / 10); digit_char (n mod 10)]
  else [digit_char (n / 100); digit_char (n / 10 mod 10); digit_char (n mod 10)].

Definition inet_ntop (ip : Z) : list ascii :=
  dec (Z.shiftr ip 24 mod 256) ++ "."%char :: dec (Z.shiftr ip 16 mod 256) ++ "."%char ::
  dec (Z.shiftr ip 8 mod 256) ++ "."%char :: dec (ip mod 256).

Definition print_cidr (ip n : Z) : string := of_chars (inet_ntop ip ++ "/"%char :: dec n).

Lemma digit_char_code d : 0 <= d < 10 -> char_code (digit_char d) = 48 + d.
Proof.
  intros. assert (d = 0 \/ d = 1 \/ d = 2 \/ d = 3 \/ d = 4 \/ d = 5 \/ d = 6 \/ d = 7 \/ d = 8
    \/ d = 9) by lia. naive_solver.
Qed.

Lemma isdigit_char d : 0 <= d < 10 -> isdigit (digit_char d) = true.
Proof. intros. unfold isdigit. rewrite digit_char_code by done. lia. Qed.

Lemma digits_of n :
  0 <= n < 1000 ->
  exists a b c, 0 <= a < 10 /\ 0 <= b < 10 /\ 0 <= c < 10 /\ n = 100 * a + 10 * b + c /\
    n / 100 = a /\ n / 10 mod 10 = b /\ n mod 10 = c /\ n / 10 = 10 * a + b.
Proof.
  intros. exists (n / 100), (n / 10 mod 10), (n mod 10).
  split_and!; try done; Z.div_mod_to_equations; lia.
Qed.

(** One canonical octet opens and fills one octet of the parser. *)
Lemma inet_pton_dec n rest acc octets :
  0 <= n <= 255 -> (octets < 4)%nat ->
  inet_pton_loop (dec n ++ rest) acc 0 false octets = inet_pton_loop rest acc n true (S octets).
Proof.
  intros Hn Ho. destruct (digits_of n) as (a & b & c & Ha & Hb & Hc & Heq & E1 & E2 & E3 & E4); [lia|].
  unfold dec. rewrite E1, E2, E3, E4.
  destruct (Z.ltb_spec n 10); [|destruct (Z.ltb_spec n 100)]; cbn [app inet_pton_loop];
    rewrite !isdigit_char by lia; rewrite !digit_char_code by lia; cbn [andb];
    rewrite (proj2 (Nat.ltb_ge 4 (S octets))) by lia.
  - rewrite (proj2 (Z.ltb_ge 255 _)) by lia. by replace (0 * 10 + (48 + n - 48)) with n by lia.
  - rewrite !(proj2 (Z.ltb_ge 255 _)) by lia. rewrite (proj2 (Z.eqb_neq _ 0)) by lia.
    f_equal. lia.
  - rewrite !(proj2 (Z.ltb_ge 255 _)) by lia. rewrite !(proj2 (Z.eqb_neq _ 0)) by lia.
    f_equal. lia.
Qed.

Lemma inet_pton_dot s acc cur octets :
  (octets <> 4)%nat ->
  inet_pton_loop ("."%char :: s) acc cur true octets = inet_pton_loop s (acc * 256 + cur) 0 false octets.
Proof. intros Ho. cbn. by rewrite (proj2 (Nat.eqb_neq octets 4)). Qed.

Lemma inet_pton_ntop ip : in_range 32 ip -> inet_pton (inet_ntop ip) = Some ip.
Proof.
  intros Hip. unfold inet_pton, inet_ntop.
  assert (forall z, 0 <= z mod 256 <= 255) as Hb by (intros; Z.div_mod_to_equations; lia).
  rewrite inet_pton_dec, inet_pton_dot, inet_pton_dec, inet_pton_dot, inet_pton_dec,
    inet_pton_dot by (done || lia).
  rewrite <- (app_nil_r (dec (ip mod 256))), inet_pton_dec by (done || lia). cbn.
  f_equal. rewrite !Z.shiftr_div_pow2 by lia. unfold in_range in Hip.
  change (2 ^ 24) with (65536 * 256). change (2 ^ 16) with 65536. change (2 ^ 8) with 256.
  change (2 ^ 32) with 4294967296 in Hip. Z.div_mod_to_equations; lia.
Qed.

Lemma atoi_dec n : 0 <= n < 1000 -> atoi (dec n) = n.
Proof.
  intros Hn. destruct (digits_of n) as (a & b & c & Ha & Hb & Hc & Heq & E1 & E2 & E3 & E4); [lia|].
  assert (exists d t, dec n = digit_char d :: t /\ 0 <= d < 10 /\ atoi_digits (dec n) 0 = n)
    as (d & t & Hd & Hr & Hv).
  { unfold dec. rewrite E1, E2, E3, E4.
    destruct (Z.ltb_spec n 10); [|destruct (Z.ltb_spec n 100)]; eexists _, _; (split; [done|]);
      (split; [lia|]); cbn [atoi_digits]; rewrite !isdigit_char, !digit_char_code by lia; lia. }
  unfold atoi. cbv zeta beta. rewrite Hd in *. cbn [skip_spaces].
  unfold isspace. rewrite digit_char_code by done.
  replace ((48 + d =? 32) || ((9 <=? 48 + d) && (48 + d <=? 13))) with false by lia.
  rewrite !digit_char_code by done.
  replace (48 + d =? 45) with false by lia. replace (48 + d =? 43) with false by lia.
  rewrite Hv, Z.min_r, Z.max_r by lia. unfold to_int.
  change (2 ^ 31) with 2147483648. change (2 ^ 32) with 4294967296.
  rewrite Z.mod_small; lia.
Qed.

Lemma split_at_char_app code a c b :
  Forall (fun x => char_code x <> code) a -> char_code c = code ->
  split_at_char code (a ++ c :: b) = (a, Some b).
Proof.
  intros Ha Hc. induction Ha as [|x a Hx Ha IH]; cbn.
  - by rewrite (proj2 (Z.eqb_eq _ _) Hc).
  - by rewrite (proj2 (Z.eqb_neq _ _) Hx), IH.
Qed.

Lemma dec_chars n :
  0 <= n < 1000 -> Forall (fun x => char_code x <> 0) (dec n) /\ (length (dec n) <= 3)%nat.
Proof.
  intros Hn. destruct (digits_of n) as (a & b & c & Ha & Hb & Hc & Heq & E1 & E2 & E3 & E4); [lia|].
  unfold dec. rewrite E1, E2, E3, E4.
  destruct (Z.ltb_spec n 10); [|destruct (Z.ltb_spec n 100)]; (split; [|cbn; lia]);
    repeat constructor; rewrite digit_char_code by lia; lia.
Qed.

Lemma inet_ntop_chars ip :
  Forall (fun x => char_code x <> 0) (inet_ntop ip) /\ (length (inet_ntop ip) <= 15)%nat.
Proof.
  assert (forall z, 0 <= z mod 256 < 1000) as Hb by (intros; Z.div_mod_to_equations; lia).
  destruct (dec_chars _ (Hb (Z.shiftr ip 24))), (dec_chars _ (Hb (Z.shiftr ip 16))),
    (dec_chars _ (Hb (Z.shiftr ip 8))), (dec_chars _ (Hb ip)).
  unfold inet_ntop. split.
  - repeat (apply Forall_app; split; [done|]; constructor; [done|]). done.
  - rewrite !length_app; cbn [length]; rewrite !length_app; cbn [length];
      rewrite !length_app; cbn [length]. lia.
Qed.

Lemma chars_print_cidr ip n : chars (print_cidr ip n) = inet_ntop ip ++ "/"%char :: dec n.
Proof. apply chars_of_chars. Qed.

Lemma c_str_print_cidr ip n : 0 <= n <= 32 -> c_str (print_cidr ip n) = print_cidr ip n.
Proof.
  intros Hn. apply c_str_plain. rewrite chars_print_cidr. apply Forall_app. split; [apply inet_ntop_chars|].
  constructor; [done|]. apply dec_chars. lia.
Qed.

(** How many more digits an octet of value [cur] can take. *)
Definition digits_left (cur : Z) : nat :=
  if cur =? 0 then 0%nat else if cur <? 10 then 2%nat else if cur <? 100 then 1%nat else 0%nat.

(** The address text of a successful parse is at most 15 characters long. *)
Lemma inet_pton_loop_length s : forall (acc cur : Z) (saw : bool) (octets : nat) ip,
  0 <= cur -> (octets <= 4)%nat ->
  inet_pton_loop s acc cur saw octets = Some ip ->
  (length s <= if saw then (4 - octets) * 4 + digits_left cur else (4 - octets) * 4 - 1)%nat.
Proof.
  induction s as [|c s IH]; intros acc cur saw octets ip Hc Ho; cbn [inet_pton_loop]; [cbn; lia|].
  unfold digits_left in *. destruct (isdigit c) eqn:Ed.
  - unfold isdigit in Ed. set (new := cur * 10 + (char_code c - 48)).
    destruct saw; cbn [andb].
    + destruct (Z.eqb_spec cur 0); [done|]. destruct (Z.ltb_spec 255 new); [done|].
      intros Hl%IH; [|lia..]. revert Hl. cbn [length].
      destruct (Z.eqb_spec new 0), (Z.ltb_spec new 10), (Z.ltb_spec new 100), (Z.ltb_spec cur 10),
        (Z.ltb_spec cur 100); lia.
    + destruct (Z.ltb_spec 255 new); [done|]. destruct (Nat.ltb_spec 4 (S octets)); [done|].
      intros Hl%IH; [|lia..]. revert Hl. cbn [length].
      destruct (new =? 0), (new <? 10), (new <? 100); lia.
  - destruct (_ =? 46); cbn [andb]; [|done]. destruct saw; [|done].
    destruct (Nat.eqb_spec octets 4); [done|]. intros Hl%IH; [|lia..]. cbn [length]. lia.
Qed.

Lemma inet_pton_length s ip : inet_pton s = Some ip -> (length s <= 15)%nat.
Proof. intros Hl%inet_pton_loop_length; [exact Hl|lia..]. Qed.

Lemma inet_pton_no_slash s : forall acc cur saw octets ip,
  inet_pton_loop s acc cur saw octets = Some ip -> Forall (fun x => char_code x <> 47) s.
Proof.
  induction s as [|c s IH]; intros acc cur saw octets ip; cbn [inet_pton_loop]; [constructor|].
  unfold isdigit. destruct (Z.eqb_spec (char_code c) 46);
    destruct (Z.leb_spec 48 (char_code c)), (Z.leb_spec (char_code c) 57); cbn [andb]; try done;
    intros Hs; (constructor; [lia|]); revert Hs; repeat case_match; try done; apply IH.
Qed.

(** Parsing an address, a slash and a suffix, when it all fits. *)
Lemma parse_cidr_parts cidr a ip t :
  chars cidr = a ++ "/"%char :: t -> (length t <= 15)%nat -> inet_pton a = Some ip ->
  parse_cidr cidr =
    if (atoi t <? 0) || (32 <? atoi t) then None
    else Some (IpPrefix (Z.land ip (prefix_mask (atoi t))) (prefix_mask (atoi t)) (atoi t)).
Proof.
  intros Hc Ht Ha. unfold parse_cidr. rewrite Hc, take_ge.
  2:{ rewrite length_app. cbn [length]. apply inet_pton_length in Ha. lia. }
  rewrite split_at_char_app, Ha; [done| |done]. by eapply inet_pton_no_slash.
Qed.

(** What [a.b.c.d/n] denotes. *)
Definition prefix_of (ip n : Z) : ip_prefix :=
  IpPrefix (Z.land ip (prefix_mask n)) (prefix_mask n) n.

Lemma parse_print_cidr ip n :
  in_range 32 ip -> 0 <= n <= 32 -> parse_cidr (print_cidr ip n) = Some (prefix_of ip n).
Proof.
  intros Hip Hn. destruct (dec_chars n) as [_ Hl]; [lia|].
  rewrite (parse_cidr_parts _ _ ip _ (chars_print_cidr ip n)) by (lia || by apply inet_pton_ntop).
  rewrite atoi_dec by lia. by replace ((n <? 0) || (32 <? n)) with false by lia.
Qed.

(** ** Properties *)

(** C25: A prefix [parse_cidr] accepts is well formed (length 0 to 32, the mask
    of that length, host bits cleared) and matches exactly the addresses whose
    top [prefix_len] bits are those of its network. *)
Theorem parse_cidr_sound cidr p :
  parse_cidr cidr = Some p ->
  prefix_wf p /\
  forall ip, in_range 32 ip ->
    prefix_match ip p = true <->
    Z.shiftr ip (32 - prefix_len p) = Z.shiftr (network p) (32 - prefix_len p).
Proof. intros Hp%parse_cidr_wf. split; [done|]. intros ip. by apply prefix_match_spec. Qed.

Lemma parse_cidr_sound_witness :
  prefix_wf (IpPrefix 0x0a090000 0xffffff00 24) /\
  forall ip, in_range 32 ip ->
    prefix_match ip (IpPrefix 0x0a090000 0xffffff00 24) = true <->
    Z.shiftr ip (32 - 24) = Z.shiftr 0x0a090000 (32 - 24).
Proof.
  apply (parse_cidr_sound "10.9.0.5/24" (IpPrefix 0x0a090000 0xffffff00 24)). reflexivity.
Defined.

(** Every address and length from 0 to 32, written in the usual way, is
    accepted, and the prefix matches exactly the addresses that agree with the
    written one on that many bits. *)
Theorem parse_cidr_roundtrip ip n :
  in_range 32 ip -> 0 <= n <= 32 ->
  exists p, parse_cidr (print_cidr ip n) = Some p /\ prefix_len p = n /\
    forall x, in_range 32 x ->
      prefix_match x p = true <-> Z.shiftr x (32 - n) = Z.shiftr ip (32 - n).
Proof.
  intros Hip Hn. rewrite parse_print_cidr by done. eexists. split; [done|]. split; [done|]. intros x Hx. unfold prefix_match. cbn.
  rewrite Z.eqb_eq. by apply land_mask_eq.
Qed.

Lemma parse_cidr_roundtrip_witness :
  exists p, parse_cidr (print_cidr 0x0a090005 24) = Some p /\ prefix_len p = 24 /\
    forall x, in_range 32 x ->
      prefix_match x p = true <-> Z.shiftr x (32 - 24) = Z.shiftr 0x0a090005 (32 - 24).
Proof.
  apply (parse_cidr_roundtrip 0x0a090005 24); [unfold in_range; lia | lia].
Defined.

(** A suffix that does not start with a number is read as 0: an address
    followed by a slash and such text (or nothing) is accepted as 0.0.0.0/0,
    which matches every address. *)
Theorem parse_cidr_bad_suffix_matches_all cidr a ip t :
  chars cidr = a ++ "/"%char :: t -> inet_pton a = Some ip -> (length t <= 15)%nat ->
  match t with
  | [] => True
  | c :: _ => isspace c = false /\ isdigit c = false /\ char_code c <> 43 /\ char_code c <> 45
  end ->
  parse_cidr cidr = Some prefix_zero /\ forall x, prefix_match x prefix_zero = true.
Proof.
  intros Hc Ha Hl Ht. assert (atoi t = 0) as H0.
  { destruct t as [|c t]; [done|]. destruct Ht as (Hs & Hd & Hp & Hm).
    unfold atoi. cbn [skip_spaces]. rewrite Hs.
    rewrite (proj2 (Z.eqb_neq _ 45) Hm), (proj2 (Z.eqb_neq _ 43) Hp).
    cbn [atoi_digits]. by rewrite Hd. }
  split.
  - rewrite (parse_cidr_parts cidr a ip t) by done. rewrite H0. cbn. by rewrite Z.land_0_r.
  - intros x. unfold prefix_match. cbn. by rewrite Z.land_0_r.
Qed.

Lemma parse_cidr_bad_suffix_witness :
  parse_cidr "10.9.0.2/x" = Some prefix_zero /\ forall x, prefix_match x prefix_zero = true.
Proof.
  apply (parse_cidr_bad_suffix_matches_all "10.9.0.2/x" (chars "10.9.0.2") 0x0a090002 ["x"%char]);
    [reflexivity | reflexivity | cbn; lia | split_and!; discriminate || reflexivity].
Defined.
