(* ===== verification/Keys.v ===== *)
(** * Key files: [load_or_generate_static_key], [load_public_key] and
    [load_static_key] of src/common.c

    A key file is what opening it gives: [None] when [fopen] fails.  For a PEM
    file the content is the key [PEM_read_PUBKEY] or [PEM_read_PrivateKey] makes
    of it, if any. *)

From S2P Require Import Prelude Platform Crypto.
From Stdlib Require Import Strings.Byte.

Section Keys.
Context `{Env}.

(** The key and its public half, [None] for -1; and the file afterwards.
    [disk] is [None] when [fopen(path, "wb")] fails; otherwise it is the number of
    bytes that reach the file.  The code does not look at the results of [fwrite]
    and [fclose], so that this number makes no other difference. *)
Definition load_or_generate_static_key (file : option bytes) (disk : option nat)
    : M os (option (nat * bytes) * option bytes) :=
  match file with
  | Some data =>
      let priv := take DH_PUBKEY_LEN data in
      if (length priv =? DH_PUBKEY_LEN)%nat then
        let! r := io (fun n => EVP_PKEY_new_raw_private_key n priv) in
        match r with
        | None => ret (None, file)
        | Some k =>
            let! pkey := pkey_alloc k in
            match EVP_PKEY_get_raw_public_key k with
            | Some pub => ret (Some (pkey, pub), file)
            | None => EVP_PKEY_free (Some pkey) ;;; ret (None, file)
            end
        end
      else ret (None, file)
  | None =>
      let! kp := generate_eph_keypair in
      match kp with
      | None => ret (None, None)
      | Some (pkey, pub) =>
          let! k := pkey_deref pkey in
          match EVP_PKEY_get_raw_private_key k with
          | None => EVP_PKEY_free (Some pkey) ;;; ret (None, None)
          | Some priv =>
              match disk with
              | Some written => ret (Some (pkey, pub), Some (take written priv))
              | None => EVP_PKEY_free (Some pkey) ;;; ret (None, None)
              end
          end
      end
  end.

(** The raw public key, [None] for -1; the parsed key is freed on every path. *)
Definition load_public_key (file : option (option evp_pkey)) : M os (option bytes) :=
  match file with
  | None => ret None
  | Some None => ret None
  | Some (Some k) =>
      let! pkey := pkey_alloc k in
      let rc := EVP_PKEY_get_raw_public_key k in
      EVP_PKEY_free (Some pkey) ;;;
      ret rc
  end.

Definition load_static_key (file : option (option evp_pkey)) : M os (option (nat * bytes)) :=
  match file with
  | None => ret None
  | Some None => ret None
  | Some (Some k) =>
      let! pkey := pkey_alloc k in
      match EVP_PKEY_get_raw_public_key k with
      | None => EVP_PKEY_free (Some pkey) ;;; ret None
      | Some pub => ret (Some (pkey, pub))
      end
  end.
End Keys.

(** ** What the loaders leave behind *)

Section Sizes.
Context `{OpenSSLSizes}.

Lemma wp_free_fresh {A} n k sent tun (a : A) (Q : A -> os -> Prop) (s : os) :
  os_wf s -> (forall s', os_quiet s s' -> Q a s') -> sent = os_sent s -> tun = os_tun s ->
  wp (EVP_PKEY_free (Some (os_next s)) ;;; ret a) Q
     (Os _ n (<[os_next s := k]> (os_keys s)) (S (os_next s)) sent tun).
Proof.
  intros Hwf HQ -> ->. apply wp_bind. eapply wp_pkey_free; [apply lookup_insert_eq|]. apply wp_ret, HQ.
  constructor; cbn; try done; [|lia]. by rewrite delete_insert_id by by apply os_wf_fresh.
Qed.

(** [load_static_key] adds the key it returns, and no key when it fails. *)
Lemma wp_load_static_key file s :
  os_wf s -> wp (load_static_key file) (keypair_post s) s.
Proof.
  intros Hwf. unfold load_static_key. destruct file as [[k|]|]; [|by wp_step..].
  apply wp_bind, wp_pkey_alloc. destruct (EVP_PKEY_get_raw_public_key k) as [pub|] eqn:E.
  - wp_step. exists k. cbn. pose proof (os_wf_fresh s Hwf). split_and!; try done; [|lia].
    intros h [k' Hk']. cbn in Hk' |- *. apply lookup_insert_Some in Hk' as [[<- _]|[_ Hk']]; [lia|].
    specialize (Hwf h ltac:(eauto)). lia.
  - by apply wp_free_fresh.
Qed.

Lemma wp_load_public_key file s :
  os_wf s ->
  wp (load_public_key file)
     (fun r s' => os_quiet s s' /\ forall b, r = Some b -> length b = DH_PUBKEY_LEN) s.
Proof.
  intros Hwf. unfold load_public_key. destruct file as [[k|]|]; [|by wp_step..].
  apply wp_bind, wp_pkey_alloc. cbv zeta. apply wp_free_fresh; try done.
  intros s' Hq. split; [done|]. intros b. apply raw_public_size.
Qed.
End Sizes.

Section Ok.
Context `{OpenSSLOk}.

Lemma wp_generate_eph_keypair_ok s :
  os_wf s ->
  wp generate_eph_keypair (fun r s' => exists h k, r = Some (h, public k) /\ is_keypair k /\
    os_keys s !! h = None /\ os_keys s' = <[h := k]> (os_keys s) /\ os_wf s') s.
Proof.
  intros Hwf. destruct (wp_elim _ _ _ (wp_generate_eph_keypair s Hwf)) as (r & s' & E & Hpost).
  eapply wp_of_run; [exact E|]. revert E. unfold generate_eph_keypair, bind, io. cbn.
  destruct (ok_keygen (os_n s)) as [-> _]. cbn. destruct (ok_keygen (S (os_n s))) as (_ & -> & _). cbn.
  destruct (ok_keygen (S (S (os_n s)))) as (_ & _ & k & -> & Hk). cbn.
  rewrite (ok_public k Hk). intros [= <- <-]. cbn in Hpost. eexists _, k. split_and!; [done|done|..].
  - apply os_wf_fresh, Hwf.
  - done.
  - by destruct Hpost as (k' & _ & _ & _ & _ & _ & Hwf' & _).
Qed.

(** A file that holds the private half of a key pair loads as a key with the same
    public half; a shorter one is refused, and nothing is left behind. *)
Lemma load_saved_key priv pub disk s :
  length priv = DH_PUBKEY_LEN ->
  (forall n, exists k, EVP_PKEY_new_raw_private_key n priv = Some k /\ is_keypair k /\ public k = pub) ->
  exists h s', load_or_generate_static_key (Some priv) disk s = Ret (Some (h, pub), Some priv) s' /\
    is_Some (os_keys s' !! h).
Proof.
  intros Hl Hload. unfold load_or_generate_static_key. cbv zeta.
  rewrite take_ge by (by rewrite Hl). rewrite Hl. cbn [Nat.eqb DH_PUBKEY_LEN].
  unfold bind, io, pkey_alloc. cbn. destruct (Hload (os_n s)) as (k & -> & Hk & <-). cbn.
  rewrite (ok_public k Hk). eexists _, _. split; [done|]. cbn. rewrite lookup_insert_eq. by eexists.
Qed.

Lemma load_short_key data disk s :
  (length data < DH_PUBKEY_LEN)%nat ->
  load_or_generate_static_key (Some data) disk s = Ret (None, Some data) s.
Proof.
  intros Hl. unfold load_or_generate_static_key. cbv zeta. rewrite take_ge by lia.
  by rewrite (proj2 (Nat.eqb_neq _ _)) by lia.
Qed.

(** C26: A generated static key persists exactly when it reached the disk.  With no
    key file and a path that can be opened for writing, a key is generated and used,
    whatever became of the write.  If all 32 bytes reached the file, every later
    start, in any process, loads a key with the same public half.  If fewer did,
    every later start fails and leaves the file as it is: the code reports success
    without looking at the results of [fwrite] and [fclose]. *)
Theorem static_key_persists s written :
  os_wf s ->
  exists h pub saved s',
    load_or_generate_static_key None (Some written) s = Ret (Some (h, pub), Some saved) s' /\
    length saved = Nat.min written DH_PUBKEY_LEN /\ is_Some (os_keys s' !! h) /\
    forall s1 disk,
      ((DH_PUBKEY_LEN <= written)%nat -> exists h' s1',
         load_or_generate_static_key (Some saved) disk s1 = Ret (Some (h', pub), Some saved) s1' /\
         is_Some (os_keys s1' !! h')) /\
      ((written < DH_PUBKEY_LEN)%nat ->
         load_or_generate_static_key (Some saved) disk s1 = Ret (None, Some saved) s1).
Proof.
  intros Hwf. destruct (wp_elim _ _ _ (wp_generate_eph_keypair_ok s Hwf))
    as (r & s' & E & h & k & -> & Hk & _ & Hkeys & _).
  destruct (ok_private k Hk) as (priv & Hp & Hl & Hload).
  assert (os_keys s' !! h = Some k) as Hh by (rewrite Hkeys; apply lookup_insert_eq).
  assert (length (take written priv) = Nat.min written DH_PUBKEY_LEN) as Hlen
    by (by rewrite length_take, Hl).
  exists h, (public k), (take written priv), s'. split_and!; [|done|by eexists|].
  - unfold load_or_generate_static_key, bind at 1. rewrite E. unfold bind, pkey_deref. by rewrite Hh, Hp.
  - intros s1 disk. split; intros Hw.
    + rewrite take_ge by (rewrite Hl; exact Hw). by apply load_saved_key.
    + apply load_short_key. lia.
Qed.
End Ok.

#[local] Existing Instance Toy.ssl.
#[local] Existing Instance Toy.env.
#[local] Existing Instance Toy.ssl_ok.

Lemma static_key_persists_witness :
  exists h pub saved s',
    load_or_generate_static_key None (Some 32%nat) toy_os = Ret (Some (h, pub), Some saved) s' /\
    length saved = Nat.min 32 DH_PUBKEY_LEN /\ is_Some (os_keys s' !! h) /\
    forall s1 disk,
      ((DH_PUBKEY_LEN <= 32)%nat -> exists h' s1',
         load_or_generate_static_key (Some saved) disk s1 = Ret (Some (h', pub), Some saved) s1' /\
         is_Some (os_keys s1' !! h')) /\
      ((32 < DH_PUBKEY_LEN)%nat ->
         load_or_generate_static_key (Some saved) disk s1 = Ret (None, Some saved) s1).
Proof.
  apply (static_key_persists toy_os 32). intros h [k Hk]. cbn in Hk. by rewrite lookup_empty in Hk.
Defined.
