(* ===== verification/Session.v ===== *)
(** * The session table of src/peer.c

    Configured peers, sessions and pending handshakes as peer.c keeps them, the
    lookups over the table, [session_init], [forward_to_peer],
    [initiate_outbound_handshake] and [refresh_precomp_eph]. *)

From S2P Require Import Prelude Replay Platform Crypto Handshake Hex Cidr.
From Stdlib Require Import Ascii Strings.Byte.

(** ** Data *)

Definition REKEY_AFTER_SECS : Z := 180.
Definition PREV_KEY_GRACE_SECS : Z := 90.
Definition HANDSHAKE_COOLDOWN_SECS : Z := 5.
Definition HANDSHAKE_TIMEOUT_SECS : Z := 5.
Definition RECONNECT_INTERVAL_SECS : Z := 30.
Definition SESSION_EXPIRY_SECS : Z := 3 * REKEY_AFTER_SECS.
Definition KEEPALIVE_INTERVAL_SECS : Z := 25.
Definition MAX_PEERS : nat := 64.
Definition MAX_ROUTES_PER_PEER : nat := 16.
Definition MAX_WORKER_THREADS : Z := 32.
Definition DEFAULT_WORKER_THREADS : Z := 4.

#[export] Hint Unfold MAX_PEERS MAX_ROUTES_PER_PEER : sizes.

(** A configured peer.  [pc_routes] is the first [route_count] entries of the
    array [routes]; the others are never read. *)
Record peer_config := PeerConfig {
  pc_pub : bytes;
  pc_routes : list ip_prefix;
  has_endpoint : bool;
  endpoint : sockaddr_in;
  endpoint_host : string;
  endpoint_port : Z;
  last_attempt : Z;
}.

(** A slot of the session table; [replay] is [recv_seq_highest] and
    [recv_seq_window], [routes] the first [route_count] entries of the array. *)
Record peer_session := PeerSession {
  active : bool;
  addr : sockaddr_in;
  static_pub : bytes;
  session_key : bytes;
  prev_session_key : bytes;
  prev_key_active : bool;
  prev_key_expires : Z;
  last_seen : Z;
  last_sent : Z;
  last_handshake : Z;
  rekey_deadline : Z;
  rekeying : bool;
  send_seq : Z;
  replay : replay_state;
  routes : list ip_prefix;
  is_outbound : bool;
}.

(** An outbound handshake that waits for its response. *)
Record pending_hs_t := PendingHs {
  p_active : bool;
  cfg_idx : nat;
  sent_at : Z;
  hs_state : hs_client_state;
  server_addr : sockaddr_in;
}.

(** The tunables of peer.c, file-scope [int]s. *)
Record timing := Timing {
  cfg_rekey_after : Z;
  cfg_reconnect_interval : Z;
  cfg_session_expiry : Z;
  cfg_prev_key_grace : Z;
  cfg_handshake_timeout : Z;
  cfg_handshake_cooldown : Z;
  cfg_worker_threads : Z;
}.

Definition default_timing : timing :=
  Timing REKEY_AFTER_SECS RECONNECT_INTERVAL_SECS SESSION_EXPIRY_SECS PREV_KEY_GRACE_SECS
    HANDSHAKE_TIMEOUT_SECS HANDSHAKE_COOLDOWN_SECS 0.

(** The file-scope tables; [peer_configs] has [peer_config_count] entries,
    [sessions] and [pending_hs] all 64. *)
Record tables := Tables {
  timers : timing;
  peer_configs : list peer_config;
  sessions : list peer_session;
  session_slots : nat;
  pending_hs : list pending_hs_t;
  precomp_eph_key : option nat;
  precomp_eph_pub : bytes;
}.

(** Zero-initialised static storage. *)
Definition zero_addr : sockaddr_in := SockAddr 0 0.
Definition zero_key : bytes := replicate 32 Byte.x00.
Definition zero_session : peer_session :=
  PeerSession false zero_addr zero_key zero_key zero_key false 0 0 0 0 0 false 0 replay_init [] false.
Definition zero_pending : pending_hs_t :=
  PendingHs false 0 0 (HsState None zero_key zero_key) zero_addr.
Definition zero_config : peer_config :=
  PeerConfig zero_key [] false zero_addr EmptyString 0 0.

(** ** Lookups *)

(** [sessions[0 .. session_slots)] *)
Definition slots (t : tables) : list peer_session := take (session_slots t) (sessions t).

Definition find_peer_config (t : tables) (pub : bytes) : option nat :=
  first_index (fun c => memcmp (pc_pub c) pub =? 0) (peer_configs t).

Definition same_addr (a b : sockaddr_in) : bool :=
  (sin_addr a =? sin_addr b) && (sin_port a =? sin_port b).

Definition find_session_by_addr (t : tables) (a : sockaddr_in) : option nat :=
  first_index (fun s => active s && same_addr (addr s) a) (slots t).

Definition find_session_by_pub (t : tables) (pub : bytes) : option nat :=
  first_index (fun s => active s && (memcmp (static_pub s) pub =? 0)) (slots t).

Definition set_session_slots (n : nat) (t : tables) : tables :=
  Tables (timers t) (peer_configs t) (sessions t) n (pending_hs t)
    (precomp_eph_key t) (precomp_eph_pub t).

(** By public key, then by address, then a free slot, then a new slot. *)
Definition alloc_session (t : tables) (pub : bytes) (a : sockaddr_in) : option nat * tables :=
  match find_session_by_pub t pub with
  | Some i => (Some i, t)
  | None =>
  match find_session_by_addr t a with
  | Some i => (Some i, t)
  | None =>
  match first_index (fun s => negb (active s)) (slots t) with
  | Some i => (Some i, t)
  | None =>
      if (MAX_PEERS <=? session_slots t)%nat then (None, t)
      else (Some (session_slots t), set_session_slots (S (session_slots t)) t)
  end end end.

(** The inner loop of [route_lookup]: the routes of session [i], updating the
    best session and its prefix length. *)
Definition route_scan (dst_ip : Z) (i : nat) (rs : list ip_prefix) (best : option nat * Z)
    : option nat * Z :=
  fold_left (fun '(b, best_prefix) p =>
    if prefix_match dst_ip p && (best_prefix <? prefix_len p)
    then (Some i, prefix_len p) else (b, best_prefix)) rs best.

(** The outer loop, over the slots from [i] on. *)
Fixpoint route_loop (dst_ip : Z) (l : list peer_session) (i : nat) (best : option nat * Z)
    : option nat * Z :=
  match l with
  | [] => best
  | s :: l' =>
      route_loop dst_ip l' (S i)
        (if negb (active s) then best else route_scan dst_ip i (routes s) best)
  end.

Definition route_lookup (t : tables) (dst_ip : Z) : option nat :=
  (route_loop dst_ip (slots t) 0 (None, -1)).1.

Definition check_allowed_src (s : peer_session) (src_ip : Z) : bool :=
  if (length (routes s) =? 0)%nat then true
  else existsb (prefix_match src_ip) (routes s).

(** What [print_sessions] reports: the number of active sessions, and for each
    its direction, address, shortened key and number of routes. *)
Definition session_line (s : peer_session) : bool * sockaddr_in * string * nat :=
  (is_outbound s, addr s, bytes_to_hex (static_pub s) 8, length (routes s)).

Definition print_sessions (t : tables) : nat * list (bool * sockaddr_in * string * nat) :=
  (fold_left (fun n s => n + (if active s then 1 else 0)) (slots t) 0,
   session_line <$> filter (fun s => active s = true) (slots t))%nat.

(** ** State of the process

    [w_os] is the state of Platform.v, [w_tab] the file-scope tables. *)
Record world `{OpenSSL} := World { w_os : os; w_tab : tables }.

(** Fields updated one at a time. *)
Definition set_sessions (l : list peer_session) (t : tables) : tables :=
  Tables (timers t) (peer_configs t) l (session_slots t) (pending_hs t)
    (precomp_eph_key t) (precomp_eph_pub t).
Definition set_peer_configs (l : list peer_config) (t : tables) : tables :=
  Tables (timers t) l (sessions t) (session_slots t) (pending_hs t)
    (precomp_eph_key t) (precomp_eph_pub t).
Definition set_pending_hs (l : list pending_hs_t) (t : tables) : tables :=
  Tables (timers t) (peer_configs t) (sessions t) (session_slots t) l
    (precomp_eph_key t) (precomp_eph_pub t).
Definition set_precomp (k : option nat) (pub : bytes) (t : tables) : tables :=
  Tables (timers t) (peer_configs t) (sessions t) (session_slots t) (pending_hs t) k pub.

Definition set_active (b : bool) (s : peer_session) : peer_session :=
  PeerSession b (addr s) (static_pub s) (session_key s) (prev_session_key s) (prev_key_active s)
    (prev_key_expires s) (last_seen s) (last_sent s) (last_handshake s) (rekey_deadline s)
    (rekeying s) (send_seq s) (replay s) (routes s) (is_outbound s).
Definition set_static_pub (pub : bytes) (s : peer_session) : peer_session :=
  PeerSession (active s) (addr s) pub (session_key s) (prev_session_key s) (prev_key_active s)
    (prev_key_expires s) (last_seen s) (last_sent s) (last_handshake s) (rekey_deadline s)
    (rekeying s) (send_seq s) (replay s) (routes s) (is_outbound s).
Definition set_rekeying (b : bool) (s : peer_session) : peer_session :=
  PeerSession (active s) (addr s) (static_pub s) (session_key s) (prev_session_key s)
    (prev_key_active s) (prev_key_expires s) (last_seen s) (last_sent s) (last_handshake s)
    (rekey_deadline s) b (send_seq s) (replay s) (routes s) (is_outbound s).
Definition set_send_seq (n : Z) (s : peer_session) : peer_session :=
  PeerSession (active s) (addr s) (static_pub s) (session_key s) (prev_session_key s)
    (prev_key_active s) (prev_key_expires s) (last_seen s) (last_sent s) (last_handshake s)
    (rekey_deadline s) (rekeying s) n (replay s) (routes s) (is_outbound s).
Definition set_last_sent (t : Z) (s : peer_session) : peer_session :=
  PeerSession (active s) (addr s) (static_pub s) (session_key s) (prev_session_key s)
    (prev_key_active s) (prev_key_expires s) (last_seen s) t (last_handshake s)
    (rekey_deadline s) (rekeying s) (send_seq s) (replay s) (routes s) (is_outbound s).
Definition set_last_seen (t : Z) (s : peer_session) : peer_session :=
  PeerSession (active s) (addr s) (static_pub s) (session_key s) (prev_session_key s)
    (prev_key_active s) (prev_key_expires s) t (last_sent s) (last_handshake s)
    (rekey_deadline s) (rekeying s) (send_seq s) (replay s) (routes s) (is_outbound s).
Definition set_prev_key_active (b : bool) (s : peer_session) : peer_session :=
  PeerSession (active s) (addr s) (static_pub s) (session_key s) (prev_session_key s)
    b (prev_key_expires s) (last_seen s) (last_sent s) (last_handshake s)
    (rekey_deadline s) (rekeying s) (send_seq s) (replay s) (routes s) (is_outbound s).
Definition set_replay (r : replay_state) (s : peer_session) : peer_session :=
  PeerSession (active s) (addr s) (static_pub s) (session_key s) (prev_session_key s)
    (prev_key_active s) (prev_key_expires s) (last_seen s) (last_sent s) (last_handshake s)
    (rekey_deadline s) (rekeying s) (send_seq s) r (routes s) (is_outbound s).

Definition set_p_active (b : bool) (p : pending_hs_t) : pending_hs_t :=
  PendingHs b (cfg_idx p) (sent_at p) (hs_state p) (server_addr p).
Definition set_hs_state (st : hs_client_state) (p : pending_hs_t) : pending_hs_t :=
  PendingHs (p_active p) (cfg_idx p) (sent_at p) st (server_addr p).

Definition set_endpoint (a : sockaddr_in) (c : peer_config) : peer_config :=
  PeerConfig (pc_pub c) (pc_routes c) (has_endpoint c) a (endpoint_host c) (endpoint_port c)
    (last_attempt c).
Definition set_last_attempt (t : Z) (c : peer_config) : peer_config :=
  PeerConfig (pc_pub c) (pc_routes c) (has_endpoint c) (endpoint c) (endpoint_host c)
    (endpoint_port c) t.

(** The context [start_peer] hands to every thread; the descriptors are the two
    channels of [os]. *)
Record loop_ctx := LoopCtx {
  static_key : nat;
  ctx_static_pub : bytes;
  psk_key : option bytes;
  keepalive_interval : Z;
}.

(** ["%d"] of a port number, which is at most 65535. *)
Fixpoint print_digits (fuel : nat) (n : Z) : list ascii :=
  match fuel with
  | O => []
  | S f =>
      (if n <? 10 then [] else print_digits f (n / 10)) ++
      [digit_char (n mod 10)]
  end.
Definition print_port (n : Z) : string := of_chars (print_digits 5 n).

Section Ops.
Context `{Env}.

Definition liftO {A} (m : M os A) : M world A := zoom w_os (fun o w => World _ o (w_tab w)) m.
Definition tab : M world tables := gets w_tab.
Definition mod_tab (f : tables -> tables) : M world unit :=
  modify (fun w => World _ (w_os w) (f (w_tab w))).

(** Array accesses; an index outside the array is undefined. *)
Definition at_index {A} (l : list A) (i : nat) : M world A :=
  match l !! i with Some a => ret a | None => undefined end.
Definition session_at (i : nat) : M world peer_session := let! t := tab in at_index (sessions t) i.
Definition config_at (i : nat) : M world peer_config := let! t := tab in at_index (peer_configs t) i.
Definition pending_at (i : nat) : M world pending_hs_t := let! t := tab in at_index (pending_hs t) i.
Definition upd_session (i : nat) (f : peer_session -> peer_session) : M world unit :=
  let! s := session_at i in mod_tab (fun t => set_sessions (<[i := f s]> (sessions t)) t).
Definition upd_config (i : nat) (f : peer_config -> peer_config) : M world unit :=
  let! c := config_at i in mod_tab (fun t => set_peer_configs (<[i := f c]> (peer_configs t)) t).
Definition upd_pending (i : nat) (f : pending_hs_t -> pending_hs_t) : M world unit :=
  let! p := pending_at i in mod_tab (fun t => set_pending_hs (<[i := f p]> (pending_hs t)) t).

(** [true] for 0, [false] for -1, which leaves the endpoint as it was. *)
Definition resolve_endpoint (i : nat) : M world bool :=
  let! cfg := config_at i in
  let! r := liftO (getaddrinfo (endpoint_host cfg) (print_port (endpoint_port cfg))) in
  match r with
  | None => ret false
  | Some new_addr => upd_config i (set_endpoint new_addr) ;;; ret true
  end.

(** A failed generation keeps the old pair. *)
Definition refresh_precomp_eph : M world unit :=
  let! t := tab in
  let old := precomp_eph_key t in
  let! kp := liftO generate_eph_keypair in
  match kp with
  | None => ret tt
  | Some (nk, pub) =>
      mod_tab (set_precomp (Some nk) pub) ;;;
      liftO (EVP_PKEY_free old)
  end.

(** [session_init], in the three parts its [hot_lock] makes of it.  Before: the
    fields of the table; the result is [was_active]. *)
Definition session_open (i : nat) (pub : bytes) : M world bool :=
  let! s := session_at i in
  upd_session i (fun s => set_static_pub pub (set_active true s)) ;;;
  ret (active s).

(** Under [hot_lock]: address, keys and counters. *)
Definition session_rekey (i : nat) (a : sockaddr_in) (key : bytes) (was_active : bool) : M world unit :=
  let! s := session_at i in
  let! t := tab in
  let! (prev_key, prev_expires) :=
    (if was_active then
       let! now := liftO c_time in
       ret (session_key s, now + cfg_prev_key_grace (timers t))
     else ret (prev_session_key s, prev_key_expires s)) in
  let! sent := liftO c_time in
  upd_session i (fun s =>
    PeerSession (active s) a (static_pub s) key prev_key was_active prev_expires 0 sent
      (last_handshake s) (rekey_deadline s) (rekeying s) 0 replay_init (routes s) (is_outbound s)).

(** After: handshake times, direction and routes; [cfg] is [None] for a null
    pointer. *)
Definition session_close (i : nat) (cfg : option peer_config) (is_out : bool) : M world unit :=
  let! t := tab in
  let! handshake := liftO c_time in
  let! deadline := liftO c_time in
  upd_session i (fun s =>
    PeerSession (active s) (addr s) (static_pub s) (session_key s) (prev_session_key s)
      (prev_key_active s) (prev_key_expires s) (last_seen s) (last_sent s) handshake
      (deadline + cfg_rekey_after (timers t)) false (send_seq s) (replay s)
      (match cfg with Some c => pc_routes c | None => [] end) is_out).

Definition session_init (i : nat) (a : sockaddr_in) (pub key : bytes) (cfg : option peer_config)
    (is_out : bool) : M world unit :=
  let! was_active := session_open i pub in
  session_rekey i a key was_active ;;;
  session_close i cfg is_out.

(** Buffers of a worker: [plain_buf] has 16 + 2048 bytes, [wire_buf] 2092. *)
Definition PLAIN_CAP : nat := HEADER_SIZE + SEQ_SIZE + BUFFER_SIZE.
Definition WIRE_CAP : nat := BUFFER_SIZE + WIRE_OVERHEAD.

(** The first critical section of [forward_to_peer]: number and seal a packet.
    The result is the destination with the datagram, if it was sealed. *)
Definition seal_for (i : nat) (enc_ctx : evp_cipher_ctx) (payload : bytes)
    : M world (evp_cipher_ctx * option (sockaddr_in * bytes)) :=
  let! s := session_at i in
  let seq_be := be_encode SEQ_SIZE (send_seq s) in
  upd_session i (set_send_seq (u64 (send_seq s + 1))) ;;;
  guard (HEADER_SIZE + SEQ_SIZE + length payload <=? PLAIN_CAP)%nat ;;;
  let plain := pkt_header ++ seq_be ++ payload in
  let! (enc_ctx, wire) := liftO (encrypt_packet enc_ctx (session_key s) plain WIRE_CAP) in
  ret (enc_ctx, pair (addr s) <$> wire).

(** The second one, after a datagram was sent. *)
Definition stamp_sent (i : nat) : M world unit :=
  let! now := liftO c_time in upd_session i (set_last_sent now).

(** Seal a packet for the session and send it; returns the cipher context. *)
Definition forward_to_peer (i : nat) (enc_ctx : evp_cipher_ctx) (payload : bytes)
    : M world evp_cipher_ctx :=
  let! (enc_ctx, r) := seal_for i enc_ctx payload in
  match r with
  | None => ret enc_ctx
  | Some (dest, wire_buf) =>
      let! ok := liftO (sendto dest wire_buf) in
      if ok : bool then stamp_sent i ;;; ret enc_ctx else ret enc_ctx
  end.

(** [true] for 0, [false] for -1.  A failed send leaves the free pending slot
    as it was: what it wrote to the slot's [hs_state] is never read. *)
Definition initiate_outbound_handshake (c : loop_ctx) (idx : nat) : M world bool :=
  let! now := liftO c_time in
  upd_config idx (set_last_attempt now) ;;;
  let! t := tab in
  match first_index (fun p => negb (p_active p)) (pending_hs t) with
  | None => ret false
  | Some slot =>
      let! cfg := config_at idx in
      let! r := liftO (handshake_client_send (endpoint cfg) (psk_key c) (ctx_static_pub c)
                         (Some (pc_pub cfg))) in
      match r with
      | None => ret false
      | Some st =>
          let! sent := liftO c_time in
          upd_pending slot (fun _ => PendingHs true idx sent st (endpoint cfg)) ;;;
          ret true
      end
  end.
End Ops.

#[export] Hint Unfold PLAIN_CAP WIRE_CAP : sizes.

(** ** Lookups *)


Lemma slots_lookup t i s : slots t !! i = Some s -> (i < session_slots t)%nat /\ sessions t !! i = Some s.
Proof. unfold slots. intros [? ?]%lookup_take_Some. done. Qed.

Lemma slots_lookup_lt t i :
  (i < session_slots t)%nat -> slots t !! i = sessions t !! i.
Proof. apply lookup_take_lt. Qed.

Lemma same_addr_true a b : same_addr a b = true <-> a = b.
Proof.
  unfold same_addr. rewrite andb_true_iff, !Z.eqb_eq. destruct a, b; cbn. naive_solver.
Qed.

Lemma find_session_by_addr_Some t a i :
  find_session_by_addr t a = Some i ->
  exists s, slots t !! i = Some s /\ active s = true /\ addr s = a.
Proof.
  intros (s & Hs & [Ha Hb]%andb_true_iff & _)%first_index_Some.
  exists s. by rewrite same_addr_true in Hb.
Qed.

Lemma find_session_by_pub_Some t pub i :
  find_session_by_pub t pub = Some i ->
  exists s, slots t !! i = Some s /\ active s = true /\ memcmp (static_pub s) pub = 0.
Proof.
  intros (s & Hs & [Ha Hb]%andb_true_iff & _)%first_index_Some. exists s. by rewrite Z.eqb_eq in Hb.
Qed.

Lemma find_session_by_pub_None t pub :
  find_session_by_pub t pub = None <->
  forall i s, slots t !! i = Some s -> active s = true -> memcmp (static_pub s) pub <> 0.
Proof.
  unfold find_session_by_pub. rewrite first_index_None. split; intros Hf i s Hs.
  - intros Ha Hm. specialize (Hf i s Hs). by rewrite Ha, Hm in Hf.
  - destruct (active s) eqn:Ha; [|done]. cbn. apply Z.eqb_neq. by apply (Hf i).
Qed.

Lemma find_peer_config_Some t pub i :
  find_peer_config t pub = Some i ->
  exists c, peer_configs t !! i = Some c /\ memcmp (pc_pub c) pub = 0.
Proof. intros (c & Hc & Hm%Z.eqb_eq & _)%first_index_Some. eauto. Qed.

(** ** Routing *)

(** Session [i] is active and has a route of length [n] for [ip]: the address
    agrees with the network of the route on the first [n] bits. *)
Definition reaches (t : tables) (ip : Z) (i : nat) (n : Z) : Prop :=
  exists s p, slots t !! i = Some s /\ active s = true /\ p ∈ routes s /\ prefix_len p = n /\
    Z.shiftr ip (32 - n) = Z.shiftr (network p) (32 - n).

(** What the two loops of [route_lookup] see: active session, matching route. *)
Definition candidate (dst : Z) (l : list peer_session) (i : nat) (n : Z) : Prop :=
  exists s p, l !! i = Some s /\ active s = true /\ p ∈ routes s /\ prefix_len p = n /\
    prefix_match dst p = true.

(** [best] is the first longest candidate of [C]. *)
Definition best_of (C : nat -> Z -> Prop) (best : option nat * Z) : Prop :=
  match best with
  | (None, b) => b = -1 /\ forall i n, ~ C i n
  | (Some i, b) => C i b /\ forall j n, C j n -> n <= b /\ ((j < i)%nat -> n < b)
  end.

Lemma best_of_ext C C' best :
  (forall j n, C j n <-> C' j n) -> best_of C best -> best_of C' best.
Proof. intros HC. destruct best as [[k|] b]; cbn; setoid_rewrite HC; done. Qed.

Lemma route_scan_step dst i p C best :
  0 <= prefix_len p -> (forall j n, C j n -> (j <= i)%nat) -> best_of C best ->
  best_of (fun j n => C j n \/ (j = i /\ prefix_len p = n /\ prefix_match dst p = true))
          (route_scan dst i [p] best).
Proof.
  intros Hpos Hle HC. destruct best as [b bp]. unfold route_scan; cbn [fold_left].
  destruct (prefix_match dst p) eqn:Em; cbn [andb].
  - destruct (Z.ltb_spec bp (prefix_len p)) as [Hlt|Hge]; cbn.
    + split; [right; done|]. intros j n [Hj|(->&<-&_)]; [|lia].
      destruct b as [k|]; cbn in HC; [|naive_solver]. apply HC in Hj. lia.
    + destruct b as [k|]; cbn in HC |- *; [|lia]. destruct HC as [Hk HC].
      split; [by left|]. intros j n [Hj|(->&<-&_)]; [by apply HC|].
      specialize (Hle _ _ Hk). lia.
  - eapply best_of_ext; [|exact HC]. naive_solver.
Qed.

Lemma route_scan_best dst i rs C best :
  (forall p, p ∈ rs -> 0 <= prefix_len p) -> (forall j n, C j n -> (j <= i)%nat) ->
  best_of C best ->
  best_of (fun j n => C j n \/
             (j = i /\ exists p, p ∈ rs /\ prefix_len p = n /\ prefix_match dst p = true))
          (route_scan dst i rs best).
Proof.
  revert C best. induction rs as [|p rs IH]; intros C best Hpos Hle HC.
  - eapply best_of_ext; [|exact HC]. intros j n. split; [by left|].
    intros [?|(_&?&?%not_elem_of_nil&_)]; done.
  - apply (route_scan_step dst i p) in HC; [|apply Hpos; by left|done].
    apply IH in HC; [|intros; apply Hpos; by right|naive_solver].
    change (route_scan dst i (p :: rs) best) with (route_scan dst i rs (route_scan dst i [p] best)).
    eapply best_of_ext; [|exact HC]. intros j n; cbn. setoid_rewrite elem_of_cons. naive_solver.
Qed.

Lemma route_loop_best dst l i C best :
  (forall s p, s ∈ l -> p ∈ routes s -> 0 <= prefix_len p) ->
  (forall j n, C j n -> (j < i)%nat) -> best_of C best ->
  best_of (fun j n => C j n \/ ((i <= j)%nat /\ candidate dst l (j - i) n))
          (route_loop dst l i best).
Proof.
  revert i C best. induction l as [|s l IH]; intros i C best Hpos Hlt HC; cbn [route_loop].
  - eapply best_of_ext; [|exact HC]. intros j n. split; [by left|].
    intros [?|(_&?&?&?&_)]; done.
  - assert (best_of (fun j n => C j n \/ (j = i /\ active s = true /\
        exists p, p ∈ routes s /\ prefix_len p = n /\ prefix_match dst p = true))
      (if negb (active s) then best else route_scan dst i (routes s) best)) as Hs.
    { destruct (active s); cbn [negb].
      - eapply best_of_ext; [|apply route_scan_best; [|intros j n Hj|exact HC]].
        + intros j n. split; [intros [|[]]|]; naive_solver.
        + intros p. apply Hpos. by left.
        + apply Hlt in Hj. lia.
      - eapply best_of_ext; [|exact HC]. naive_solver. }
    apply (IH (S i)) in Hs;
      [|intros s' p ?; apply Hpos; by right|intros j n [?%Hlt|[-> _]]; lia].
    eapply best_of_ext; [|exact Hs]. intros j n. split.
    + intros [[?|(->&Ha&p&?&?&?)]|[Hj Hc]]; [by left| |]; right; (split; [lia|]).
      * rewrite Nat.sub_diag. by exists s, p.
      * by replace (j - i)%nat with (S (j - S i)) by lia.
    + intros [?|[Hj (s'&p&Hs'&Ha&Hp&Hn&Hm)]]; [by left; left|].
      destruct (decide (j = i)) as [->|].
      * rewrite Nat.sub_diag in Hs'. cbn in Hs'. simplify_eq. left; right. eauto 10.
      * right. split; [lia|]. replace (j - i)%nat with (S (j - S i)) in Hs' by lia.
        exists s', p. done.
Qed.

(** Every route of the table is a prefix [parse_cidr] can produce. *)
Definition routes_wf (t : tables) : Prop :=
  forall i s, slots t !! i = Some s -> Forall prefix_wf (routes s).

Lemma candidate_reaches t ip i n :
  routes_wf t -> in_range 32 ip -> candidate ip (slots t) i n <-> reaches t ip i n.
Proof.
  intros Hwf Hip. unfold candidate, reaches.
  split; intros (s & p & Hs & Ha & Hp & Hn & Hm); exists s, p; split_and!; try done; subst n;
    (apply prefix_match_spec; [|done..]); specialize (Hwf i s Hs);
    rewrite Forall_forall in Hwf; by apply Hwf.
Qed.

Lemma route_lookup_best t ip :
  routes_wf t -> in_range 32 ip ->
  exists b, best_of (reaches t ip) (route_lookup t ip, b).
Proof.
  intros Hwf Hip. exists (route_loop ip (slots t) 0 (None, -1)).2.
  unfold route_lookup. rewrite <- surjective_pairing.
  eapply best_of_ext; [|apply (route_loop_best ip (slots t) 0 (fun _ _ => False))].
  - intros j n. cbn beta. rewrite Nat.sub_0_r, candidate_reaches by done. split; [by intros [|[]]|right; split; [lia|done]].
  - intros s p [i Hi]%list_elem_of_lookup Hp. specialize (Hwf i s Hi).
    rewrite Forall_forall in Hwf. by destruct (Hwf p Hp) as [[? _] _ _].
  - done.
  - split; [done|]. by intros ?? [].
Qed.

(** C14: [route_lookup] is a longest-prefix match.  The session it returns is
    active and has a route covering the address; no active session has a longer
    one, and no earlier slot has one as long; it returns nothing only when no
    active session has a route for the address. *)
Theorem route_lookup_longest_prefix t ip :
  routes_wf t -> in_range 32 ip ->
  match route_lookup t ip with
  | Some i => exists n, reaches t ip i n /\
      forall j m, reaches t ip j m -> m <= n /\ ((j < i)%nat -> m < n)
  | None => forall j m, ~ reaches t ip j m
  end.
Proof.
  intros Hwf Hip. destruct (route_lookup_best t ip Hwf Hip) as [b Hb].
  destruct (route_lookup t ip) as [i|]; cbn in Hb; [by exists b|by destruct Hb].
Qed.

(** Two sessions for 10.0.0.0/8 and 10.1.0.0/16. *)
Definition route_a : ip_prefix := IpPrefix 0x0a000000 0xff000000 8.
Definition route_b : ip_prefix := IpPrefix 0x0a010000 0xffff0000 16.
Definition routed (r : ip_prefix) : peer_session :=
  PeerSession true zero_addr zero_key zero_key zero_key false 0 0 0 0 0 false 0 replay_init [r] false.
Definition toy_routes : tables :=
  Tables default_timing [] [routed route_a; routed route_b] 2 [] None zero_key.

Lemma toy_routes_wf : routes_wf toy_routes.
Proof.
  intros i s Hs. destruct i as [|[|i]]; cbn in Hs; [..|done]; simplify_eq;
    repeat constructor; cbn; (done || lia).
Qed.

Lemma route_lookup_longest_prefix_witness :
  route_lookup toy_routes 0x0a010203 = Some 1%nat /\
  match route_lookup toy_routes 0x0a010203 with
  | Some i => exists n, reaches toy_routes 0x0a010203 i n /\
      forall j m, reaches toy_routes 0x0a010203 j m -> m <= n /\ ((j < i)%nat -> m < n)
  | None => forall j m, ~ reaches toy_routes 0x0a010203 j m
  end.
Proof.
  split; [reflexivity|].
  apply (route_lookup_longest_prefix toy_routes 0x0a010203); [exact toy_routes_wf|].
  unfold in_range; lia.
Defined.

(** ** Allocating a slot *)

(** Public keys of the active sessions are distinct, the slots in use are
    within the array, and slots not in use are inactive. *)
Record slots_wf (t : tables) : Prop := {
  slots_array : length (sessions t) = MAX_PEERS;
  slots_bound : (session_slots t <= MAX_PEERS)%nat;
  slots_rest : forall i s, sessions t !! i = Some s -> (session_slots t <= i)%nat -> active s = false;
  slots_pub : forall i j a b, sessions t !! i = Some a -> sessions t !! j = Some b ->
    active a = true -> active b = true -> static_pub a = static_pub b -> i = j;
}.

(** What the caller of [alloc_session] gets: the session of the key if there is
    one; else the session at the address; else an inactive slot. *)
Lemma alloc_session_spec t pub a :
  slots_wf t ->
  match alloc_session t pub a with
  | (Some i, t') => exists s, sessions t' !! i = Some s /\ (i < session_slots t')%nat /\
      ((active s = true /\ memcmp (static_pub s) pub = 0) \/
       (find_session_by_pub t pub = None /\ active s = true /\ addr s = a) \/
       (find_session_by_pub t pub = None /\ find_session_by_addr t a = None /\ active s = false)) /\
      sessions t' = sessions t /\ pending_hs t' = pending_hs t /\ peer_configs t' = peer_configs t /\
      (session_slots t <= session_slots t' <= MAX_PEERS)%nat
  | (None, t') => t' = t /\ session_slots t = MAX_PEERS /\
      forall i s, sessions t !! i = Some s -> active s = true /\ addr s <> a
  end.
Proof.
  intros [Hlen Hbound Hrest Hpub]. unfold alloc_session.
  destruct (find_session_by_pub t pub) as [i|] eqn:Ep.
  { apply find_session_by_pub_Some in Ep as (s & [Hi Hs]%slots_lookup & Ha & Hm).
    exists s. split_and!; auto. }
  destruct (find_session_by_addr t a) as [i|] eqn:Ea.
  { apply find_session_by_addr_Some in Ea as (s & [Hi Hs]%slots_lookup & Ha & Hm).
    exists s. split_and!; auto 10. }
  destruct (first_index _ _) as [i|] eqn:Ef.
  { apply first_index_Some in Ef as (s & [Hi Hs]%slots_lookup & Ha%negb_true_iff & _).
    exists s. split_and!; auto 10. }
  pose proof (proj1 (first_index_None _ _) Ef) as Hall.
  destruct (Nat.leb_spec MAX_PEERS (session_slots t)) as [Hfull|Hroom].
  - assert (session_slots t = MAX_PEERS) as E by lia. split_and!; [done|done|].
    intros i s Hs. pose proof (lookup_lt_Some _ _ _ Hs) as Hi. rewrite Hlen, <- E in Hi.
    rewrite <- slots_lookup_lt in Hs by done. split.
    + specialize (Hall i s Hs). by apply negb_false_iff in Hall.
    + intros Hsa. pose proof (proj1 (first_index_None _ _) Ea i s Hs) as Hf. cbn in Hf.
      specialize (Hall i s Hs). apply negb_false_iff in Hall.
      by rewrite Hall, (proj2 (same_addr_true _ _) Hsa) in Hf.
  - destruct (lookup_lt_is_Some_2 (sessions t) (session_slots t)) as [s Hs]; [lia|].
    exists s. cbn. split_and!; try done; try sizes. right; right. split_and!; [done..|].
    by apply (Hrest _ _ Hs).
Qed.
