(* ===== verification/Logging.v ===== *)
(** * Logging (src/common.h) and the printing of addresses (src/peer.c)

    [fmt_addr] writes into a buffer of its caller; [log_timestamp] writes into one
    static buffer, which the log macros then print.  Buffers are lists of bytes
    that may not have been written yet; reading such a byte, or past the end, is
    undefined.  The second part runs two threads that log, byte by byte. *)

From Stdlib Require Import Strings.Ascii Strings.String.
From S2P Require Import Prelude Platform Hex Cidr Session.

#[local] Open Scope Z_scope.

(** ** Buffers *)

Abbreviation buffer := (list (option ascii)).
Definition NUL : ascii := Ascii.zero.

(** A text with its terminator at the start of a buffer that is long enough. *)
Definition copy_text (text : list ascii) (buf : buffer) : buffer :=
  (Some <$> text ++ [NUL]) ++ drop (S (length text)) buf.

(** What ["%s"] prints; [None] when it reads a byte that is not there. *)
Fixpoint read_text (buf : buffer) : option (list ascii) :=
  match buf with
  | [] | None :: _ => None
  | Some x :: buf' => if bool_decide (x = NUL) then Some [] else cons x <$> read_text buf'
  end.

Lemma read_terminated text rest :
  Forall (fun x => x <> NUL) text -> read_text ((Some <$> text ++ [NUL]) ++ rest) = Some text.
Proof.
  intros Ht. induction Ht as [|x text Hx _ IH]; cbn; [done|]. rewrite bool_decide_eq_false_2 by done. by rewrite IH.
Qed.

Lemma read_copied text buf :
  Forall (fun x => x <> NUL) text -> read_text (copy_text text buf) = Some text.
Proof. apply read_terminated. Qed.

Lemma length_copy_text text buf : (length text < length buf)%nat -> length (copy_text text buf) = length buf.
Proof. intros Hl. unfold copy_text. rewrite length_app, length_fmap, length_app, length_drop. cbn. lia. Qed.

(** ** [fmt_addr] *)

Definition INET_ADDRSTRLEN : nat := 16.

(** [inet_ntop] writes nothing when the text and its terminator do not fit into
    [buflen] bytes; [None] when it writes past the end of the buffer. *)
Definition fmt_addr (a : sockaddr_in) (buf : buffer) (buflen : nat) : option buffer :=
  let text := inet_ntop (sin_addr a) in
  if (length text <? buflen)%nat
  then if (length text <? length buf)%nat then Some (copy_text text buf) else None
  else Some buf.

Lemma char_code_NUL x : char_code x <> 0 -> x <> NUL.
Proof. by intros Hx ->. Qed.

(** With a buffer of [INET_ADDRSTRLEN] bytes and its size, as the log calls have it,
    what they print is the dotted text of the address. *)
Lemma fmt_addr_fits (a : sockaddr_in) (buf : buffer) :
  in_range 32 (sin_addr a) -> length buf = INET_ADDRSTRLEN ->
  exists buf', fmt_addr a buf INET_ADDRSTRLEN = Some buf' /\ length buf' = INET_ADDRSTRLEN /\
    exists text, read_text buf' = Some text /\ inet_pton text = Some (sin_addr a).
Proof.
  intros Ha Hb. destruct (inet_ntop_chars (sin_addr a)) as [Hc Hl]. unfold fmt_addr.
  assert (length (inet_ntop (sin_addr a)) < INET_ADDRSTRLEN)%nat as Hlt by (unfold INET_ADDRSTRLEN; lia).
  rewrite Hb, (proj2 (Nat.ltb_lt _ _) Hlt). eexists. split; [done|]. split; [by rewrite length_copy_text; rewrite Hb|].
  exists (inet_ntop (sin_addr a)). split; [|by apply inet_pton_ntop].
  apply read_copied. eapply Forall_impl; [done|]. intros x. apply char_code_NUL.
Qed.

(** ** [log_timestamp] *)

Record tm := Tm { tm_sec : Z; tm_min : Z; tm_hour : Z; tm_mday : Z; tm_mon : Z; tm_year : Z }.

(** The ranges of the fields that [localtime] fills in; the year is an [int]. *)
Definition tm_ok (t : tm) : Prop :=
  0 <= tm_sec t <= 60 /\ 0 <= tm_min t <= 59 /\ 0 <= tm_hour t <= 23 /\ 1 <= tm_mday t <= 31 /\
  0 <= tm_mon t <= 11 /\ - 2 ^ 31 <= tm_year t < 2 ^ 31.

Definition two_digits (n : Z) : list ascii := [digit_char (n / 10); digit_char (n mod 10)].
(** ["%Y"]: a year of an [int] has at most 10 digits. *)
Definition print_year (y : Z) : list ascii :=
  (if y <? 0 then ["-"%char] else []) ++ print_digits 10 (Z.abs y).

(** [strftime] with ["%Y-%m-%d %H:%M:%S"]. *)
Definition strftime (t : tm) : list ascii :=
  print_year (tm_year t + 1900) ++ "-"%char :: two_digits (tm_mon t + 1) ++ "-"%char :: two_digits (tm_mday t) ++
  " "%char :: two_digits (tm_hour t) ++ ":"%char :: two_digits (tm_min t) ++ ":"%char :: two_digits (tm_sec t).

(** The static buffer, and the lines on stderr. *)
Record logs := Logs { log_buf : buffer; log_out : list (list ascii) }.
Definition TIMESTAMP_SIZE : nat := 32.
Definition log_start : logs := Logs (replicate TIMESTAMP_SIZE (Some NUL)) [].

Inductive level := ERROR | WARN | INFO | DEBUG.
#[export] Instance level_eq_dec : EqDecision level.
Proof. solve_decision. Defined.
Definition tag (l : level) : list ascii :=
  chars match l with ERROR => " [ERROR] " | WARN => " [WARN]  " | INFO => " [INFO]  " | DEBUG => " [DEBUG] " end.

Section Log.
(** [localtime], which has no result for a time whose year is not an [int]; [now]
    is what [time] returns. *)
Variable localtime : Z -> option tm.

(** A text that does not fit leaves the buffer indeterminate. *)
Definition log_timestamp (now : Z) : M logs unit :=
  match localtime now with
  | None => undefined
  | Some t =>
      modify (fun s => Logs (if (length (strftime t) <? TIMESTAMP_SIZE)%nat then copy_text (strftime t) (log_buf s)
                             else replicate TIMESTAMP_SIZE None) (log_out s))
  end.

(** The log macros; [msg] is the text of the message. *)
Definition LOG (l : level) (log_level now : Z) (msg : list ascii) : M logs unit :=
  if (match l with DEBUG => true | _ => false end) && negb (0 <? log_level) then ret tt else
  log_timestamp now ;;;
  let! s := get in
  match read_text (log_buf s) with
  | None => undefined
  | Some stamp => modify (fun s => Logs (log_buf s) (log_out s ++ [stamp ++ tag l ++ msg ++ ["010"%char]]))
  end.
End Log.

(** ** A thread that logs alone *)

Lemma digit_char_NUL n : digit_char (n mod 10) <> NUL.
Proof.
  apply char_code_NUL. rewrite digit_char_code; [|apply Z.mod_pos_bound; lia].
  pose proof (Z.mod_pos_bound n 10). lia.
Qed.

Lemma print_digits_text fuel n :
  Forall (fun x => x <> NUL) (print_digits fuel n) /\ (length (print_digits fuel n) <= fuel)%nat.
Proof.
  revert n. induction fuel as [|f IH]; intros n; cbn [print_digits]; [done|].
  destruct (IH (n / 10)) as [Hc Hl]. split.
  - apply Forall_app. split; [by destruct (n <? 10)|]. repeat constructor. apply digit_char_NUL.
  - rewrite length_app. destruct (n <? 10); cbn; lia.
Qed.

Lemma two_digits_text n : 0 <= n < 100 -> Forall (fun x => x <> NUL) (two_digits n) /\ length (two_digits n) = 2%nat.
Proof.
  intros Hn. split; [|done]. repeat constructor; [|apply digit_char_NUL].
  rewrite <- (Z.mod_small (n / 10) 10); [apply digit_char_NUL|]. Z.div_mod_to_equations. lia.
Qed.

Lemma print_year_text y : Forall (fun x => x <> NUL) (print_year y) /\ (length (print_year y) <= 11)%nat.
Proof.
  unfold print_year. destruct (print_digits_text 10 (Z.abs y)). split.
  - apply Forall_app. split; [|done]. by destruct (y <? 0); repeat constructor.
  - rewrite length_app. destruct (y <? 0); cbn [length]; lia.
Qed.

(** Every time is printed with at most 26 characters. *)
Lemma strftime_text t : tm_ok t -> Forall (fun x => x <> NUL) (strftime t) /\ (length (strftime t) <= 26)%nat.
Proof.
  intros (Hs & Hm & Hh & Hd & Ho & _). unfold strftime.
  destruct (print_year_text (tm_year t + 1900)) as [Hyc Hyl].
  destruct (two_digits_text (tm_mon t + 1) ltac:(lia)) as [Hoc Hol], (two_digits_text (tm_mday t) ltac:(lia)) as [Hdc Hdl],
    (two_digits_text (tm_hour t) ltac:(lia)) as [Hhc Hhl], (two_digits_text (tm_min t) ltac:(lia)) as [Hmc Hml],
    (two_digits_text (tm_sec t) ltac:(lia)) as [Hsc Hsl]. split.
  - repeat (apply Forall_app; split; [done|]; constructor; [done|]). done.
  - rewrite !length_app. cbn [length]. rewrite !length_app. cbn [length]. rewrite !length_app. cbn [length].
    rewrite !length_app. cbn [length]. rewrite !length_app. cbn [length]. lia.
Qed.

(** A thread that logs alone prints its own time: the text fits into the static
    buffer for every year of an [int], the buffer keeps its size, and the line is
    the time, the level and the message.  A debug message is printed only when
    [log_level] is positive, and nothing else changes otherwise. *)
Theorem log_lines_are_stamped (localtime : Z -> option tm) (l : level) (log_level now : Z) (msg : list ascii)
    (t : tm) (s : logs) :
  localtime now = Some t -> tm_ok t -> length (log_buf s) = TIMESTAMP_SIZE ->
  (length (strftime t) < TIMESTAMP_SIZE)%nat /\
  exists s', LOG localtime l log_level now msg s = Ret tt s' /\ length (log_buf s') = TIMESTAMP_SIZE /\
    log_out s' = log_out s ++
      (if bool_decide (l = DEBUG /\ log_level <= 0) then [] else [strftime t ++ tag l ++ msg ++ ["010"%char]]).
Proof.
  intros Hl Ht Hb. destruct (strftime_text t Ht) as [Hc Hlen].
  assert (length (strftime t) < TIMESTAMP_SIZE)%nat as Hfit by (unfold TIMESTAMP_SIZE; lia).
  split; [done|]. unfold LOG. case_bool_decide as Hd.
  - destruct Hd as [-> Hd]. rewrite (proj2 (Z.ltb_ge 0 log_level)) by done. exists s. by rewrite app_nil_r.
  - replace (_ && _) with false; [|destruct l; cbn; try done; destruct (Z.ltb_spec 0 log_level); [done|]; destruct Hd; split; [done|lia]].
    unfold log_timestamp, bind, get. rewrite Hl, (proj2 (Nat.ltb_lt _ _) Hfit). cbn.
    rewrite read_copied by done. eexists. split; [reflexivity|]. split; [|done]. cbn.
    rewrite length_copy_text; [done|]. by rewrite Hb.
Qed.

(** ** Two threads that log

    Between [log_timestamp] and the print of the line another thread may write the
    same buffer; no lock is held. *)

Inductive log_step := WriteByte (i : nat) (x : ascii) | PrintLine (l : level) (msg : list ascii).

Fixpoint write_steps (i : nat) (text : list ascii) : list log_step :=
  match text with
  | [] => []
  | x :: text' => WriteByte i x :: write_steps (S i) text'
  end.

(** The accesses of one log call. *)
Definition log_steps (t : tm) (l : level) (msg : list ascii) : list log_step :=
  write_steps 0 (strftime t ++ [NUL]) ++ [PrintLine l msg].

Definition do_step (x : log_step) : M logs unit :=
  match x with
  | WriteByte i x => modify (fun s => Logs (<[i := Some x]> (log_buf s)) (log_out s))
  | PrintLine l msg =>
      let! s := get in
      match read_text (log_buf s) with
      | None => undefined
      | Some stamp => modify (fun s => Logs (log_buf s) (log_out s ++ [stamp ++ tag l ++ msg ++ ["010"%char]]))
      end
  end.

(** [true] lets the first thread go on. *)
Fixpoint interleave (sched : list bool) (p q : list log_step) : M logs (list log_step * list log_step) :=
  match sched with
  | [] => ret (p, q)
  | true :: sched' => match p with [] => interleave sched' p q | x :: p' => do_step x ;;; interleave sched' p' q end
  | false :: sched' => match q with [] => interleave sched' p q | x :: q' => do_step x ;;; interleave sched' p q' end
  end.

Lemma write_steps_app i u v : write_steps i (u ++ v) = write_steps i u ++ write_steps (i + length u) v.
Proof.
  revert i. induction u as [|x u IH]; intros i; cbn; [by rewrite Nat.add_0_r|].
  by rewrite IH, Nat.add_succ_r.
Qed.

(** One of the threads writes a text over [b]. *)
Lemma run_writes (first : bool) text a b c out sched p q :
  length b = length text ->
  interleave (replicate (length text) first ++ sched)
    (if first then write_steps (length a) text ++ p else p) (if first then q else write_steps (length a) text ++ q)
    (Logs (a ++ b ++ c) out) = interleave sched p q (Logs (a ++ (Some <$> text) ++ c) out).
Proof.
  revert a b. induction text as [|x text IH]; intros a b Hb; [by destruct b, first|].
  destruct b as [|y b]; [done|]. injection Hb as Hb.
  assert (<[length a := Some x]> (a ++ (y :: b) ++ c) = a ++ [Some x] ++ b ++ c) as E.
  { rewrite <- (Nat.add_0_r (length a)) at 1. by rewrite insert_app_r. }
  specialize (IH (a ++ [Some x]) b Hb). rewrite length_app, Nat.add_1_r, <- !app_assoc in IH.
  cbn [replicate length app fmap list_fmap] in *.
  destruct first; cbn [interleave write_steps app do_step]; unfold bind, modify; cbn [log_buf log_out];
    rewrite E; exact IH.
Qed.

(** C30: Time stamps can mix.  While one thread is between [log_timestamp] and the print
    of its line, another may have written the first [k] bytes of its own time: the
    line then carries these and the rest of the first time, for every [k]. *)
Theorem timestamps_mix (t1 t2 : tm) (l1 l2 : level) (m1 m2 : list ascii) (k : nat) (s : logs) :
  tm_ok t1 -> tm_ok t2 -> length (strftime t1) = length (strftime t2) -> (k <= length (strftime t1))%nat ->
  length (log_buf s) = TIMESTAMP_SIZE ->
  exists sched r s', interleave sched (log_steps t1 l1 m1) (log_steps t2 l2 m2) s = Ret r s' /\
    log_out s' = log_out s ++ [(take k (strftime t2) ++ drop k (strftime t1)) ++ tag l1 ++ m1 ++ ["010"%char]].
Proof.
  intros H1 H2 Heq Hk Hb. destruct (strftime_text t1 H1) as [Hc1 Hl1], (strftime_text t2 H2) as [Hc2 Hl2].
  set (u := strftime t1) in *. set (v := strftime t2) in *.
  exists (replicate (length (u ++ [NUL])) true ++ replicate (length (take k v)) false ++ [true]).
  destruct s as [buf out]. cbn [log_buf log_out] in *. unfold log_steps. fold u v.
  assert (buf = [] ++ take (length (u ++ [NUL])) buf ++ drop (length (u ++ [NUL])) buf) as -> by (cbn; by rewrite take_drop).
  assert (length (u ++ [NUL]) <= length buf)%nat as Hfit by (rewrite length_app, Hb; unfold TIMESTAMP_SIZE; cbn; lia).
  rewrite (run_writes true (u ++ [NUL]) []) by (by rewrite length_take_le).
  set (rest := drop _ buf).
  assert ((Some <$> u ++ [NUL]) ++ rest = (Some <$> take k u) ++ (Some <$> drop k u ++ [NUL]) ++ rest) as E.
  { rewrite app_assoc, <- fmap_app, app_assoc. by rewrite take_drop. }
  assert (write_steps 0 (v ++ [NUL]) = write_steps 0 (take k v) ++ write_steps (0 + length (take k v)) (drop k v ++ [NUL])) as Ev
    by (by rewrite <- write_steps_app, app_assoc, take_drop).
  cbn [app]. rewrite E, Ev, <- app_assoc.
  pose proof (fun c o p q => run_writes false (take k v) [] (Some <$> take k u) c o [true] p q
    ltac:(rewrite length_fmap, !length_take; lia)) as R. cbn [app length] in R. rewrite R.
  cbn [app interleave do_step]. unfold bind, get. cbn [log_buf].
  rewrite (app_assoc (Some <$> take k v)), <- fmap_app, app_assoc, read_terminated
    by (apply Forall_app; split; [by apply Forall_take|by apply Forall_drop]).
  cbn. eauto.
Qed.

(** ** Witnesses *)

(** One second before ten, and ten. *)
Definition toy_before : tm := Tm 59 59 9 1 0 126.
Definition toy_ten : tm := Tm 0 0 10 1 0 126.
Definition toy_localtime (now : Z) : option tm := if now <? 36000 then Some toy_before else Some toy_ten.

Lemma log_lines_are_stamped_witness :
  (length (strftime toy_ten) < TIMESTAMP_SIZE)%nat /\
  exists s', LOG toy_localtime INFO 0 36000 (chars "up") log_start = Ret tt s' /\
    length (log_buf s') = TIMESTAMP_SIZE /\
    log_out s' = [chars "2026-01-01 10:00:00 [INFO]  up" ++ ["010"%char]].
Proof.
  apply (log_lines_are_stamped toy_localtime INFO 0 36000 (chars "up") toy_ten log_start);
    [reflexivity|repeat split; cbn; lia|reflexivity].
Defined.

(** The line of the first thread says one second before eleven. *)
Lemma timestamps_mix_witness :
  exists sched r s', interleave sched (log_steps toy_before INFO (chars "a")) (log_steps toy_ten INFO (chars "b")) log_start
      = Ret r s' /\
    log_out s' = [chars "2026-01-01 10:59:59 [INFO]  a" ++ ["010"%char]].
Proof.
  apply (timestamps_mix toy_before toy_ten INFO INFO (chars "a") (chars "b") 13 log_start);
    [repeat split; cbn; lia|repeat split; cbn; lia|reflexivity|apply Nat.leb_le; reflexivity|reflexivity].
Defined.
