(* ===== verification/Peer.v ===== *)
(** * The threads of src/peer.c: [worker_loop] and [housekeeping_loop]

    Each branch of a worker is a handler, run under [table_lock]; a worker is
    the sequence of the handlers its events select.  A tick of the housekeeping
    thread is one critical section of four passes. *)

From S2P Require Import Prelude Replay Platform Crypto Handshake Hex Cidr Session.
From Stdlib Require Import Strings.Byte.

(** [buf[0] >> 4 == 4], on at least 20 bytes. *)
Definition is_ipv4 (pkt : bytes) : bool :=
  (20 <=? length pkt)%nat &&
  match head pkt with Some b => Z.shiftr (bval b) 4 =? 4 | None => false end.

(** [ntohl( *(uint32_t * )(pkt + off))] *)
Definition read_u32 (off : nat) (pkt : bytes) : Z := be_decode (slice off 4 pkt).

(** The first active pending handshake with the address [a]. *)
Definition find_pending (t : tables) (a : sockaddr_in) : option nat :=
  first_index (fun p => p_active p && same_addr (server_addr p) a) (pending_hs t).

Section Worker.
Context `{Env}.

Definition alloc_slot (pub : bytes) (a : sockaddr_in) : M world (option nat) :=
  let! t := tab in
  let '(i, t') := alloc_session t pub a in
  mod_tab (fun _ => t') ;;;
  ret i.

(** [s = find_session_by_pub(pub); if (s) s->rekeying = b] *)
Definition mark_rekeying (pub : bytes) (b : bool) : M world unit :=
  let! t := tab in
  match find_session_by_pub t pub with
  | Some i => upd_session i (set_rekeying b)
  | None => ret tt
  end.

(** ** TUN -> UDP *)

Definition on_tun (buffer : bytes) (enc_ctx : evp_cipher_ctx) : M world evp_cipher_ctx :=
  if is_ipv4 buffer then
    let dst_ip := read_u32 16 buffer in
    let! t := tab in
    match route_lookup t dst_ip with
    | Some i => forward_to_peer i enc_ctx buffer
    | None => ret enc_ctx
    end
  else ret enc_ctx.

(** ** Handshake packets *)

(** What a handshake yields for [session_init]: the slot, the public key and the
    configuration of the peer, the session key. *)
Record grant := Grant { g_slot : nat; g_pub : bytes; g_key : bytes; g_cfg : peer_config }.

Definition install (src : sockaddr_in) (is_out : bool) (g : option grant) : M world unit :=
  match g with
  | Some g => session_init (g_slot g) src (g_pub g) (g_key g) (Some (g_cfg g)) is_out
  | None => ret tt
  end.

(** The body of the loop over [pending_hs], for the entry that matches, up to
    [session_init]. *)
Definition accept_response (c : loop_ctx) (j : nat) (src : sockaddr_in) (pkt : bytes)
    : M world (option grant) :=
  let! p := pending_at j in
  let! cfg := config_at (cfg_idx p) in
  upd_pending j (set_p_active false) ;;;
  let! (key, st) := liftO (handshake_client_recv pkt (psk_key c) (Some (static_key c))
                             (ctx_static_pub c) (pc_pub cfg) (hs_state p)) in
  upd_pending j (set_hs_state st) ;;;
  match key with
  | Some session_key =>
      let! s := alloc_slot (pc_pub cfg) src in
      ret ((fun i => Grant i (pc_pub cfg) session_key cfg) <$> s)
  | None => mark_rekeying (pc_pub cfg) false ;;; ret None
  end.

Definition on_response (c : loop_ctx) (j : nat) (src : sockaddr_in) (pkt : bytes) : M world unit :=
  let! g := accept_response c j src pkt in install src true g.

(** Tie-breaking between an outbound handshake and an inbound initiation;
    [true] when the initiation is ignored. *)
Definition tie_break (c : loop_ctx) (src : sockaddr_in) : M world bool :=
  let! t := tab in
  match find_pending t src with
  | None => ret false
  | Some j =>
      let! p := pending_at j in
      let! cfg := config_at (cfg_idx p) in
      if 0 <? memcmp (ctx_static_pub c) (pc_pub cfg) then ret true
      else
        liftO (EVP_PKEY_free (eph_key (hs_state p))) ;;;
        upd_pending j (fun p =>
          set_p_active false
            (set_hs_state (HsState None (eph_pub (hs_state p)) (ecdh_ec_ss (hs_state p))) p)) ;;;
        mark_rekeying (pc_pub cfg) false ;;;
        ret false
  end.

(** [s && now - s->last_handshake < cfg_handshake_cooldown] *)
Definition in_cooldown (t : tables) (now : Z) (s : option nat) : M world bool :=
  match s with
  | None => ret false
  | Some i =>
      let! e := session_at i in
      ret (now - last_handshake e <? cfg_handshake_cooldown (timers t))
  end.

(** An inbound initiation, up to [session_init]. *)
Definition accept_initiation (c : loop_ctx) (src : sockaddr_in) (pkt : bytes) (now : Z)
    : M world (option grant) :=
  let! t := tab in
  let! cool := in_cooldown t now (find_session_by_addr t src) in
  if cool : bool then ret None else
  let! r := liftO (handshake_server_respond pkt src (psk_key c) (Some (static_key c))
                     (ctx_static_pub c) (precomp_eph_key t) (precomp_eph_pub t)) in
  match r with
  | None => ret None
  | Some (peer_pub, session_key) =>
      refresh_precomp_eph ;;;
      let! t := tab in
      match find_peer_config t peer_pub with
      | None => ret None
      | Some k =>
          let! cfg := config_at k in
          let! cool := in_cooldown t now (find_session_by_pub t peer_pub) in
          if cool : bool then ret None else
          let! s := alloc_slot peer_pub src in
          ret ((fun i => Grant i peer_pub session_key cfg) <$> s)
      end
  end.

Definition on_initiation (c : loop_ctx) (src : sockaddr_in) (pkt : bytes) (now : Z) : M world unit :=
  let! g := accept_initiation c src pkt now in install src false g.

Definition on_handshake (c : loop_ctx) (src : sockaddr_in) (pkt : bytes) (now : Z) : M world unit :=
  let! t := tab in
  match find_pending t src with
  | Some j => on_response c j src pkt
  | None =>
      let! skip := tie_break c src in
      if skip : bool then ret tt else on_initiation c src pkt now
  end.

(** ** Data packets *)

(** The current key, then the previous one while it is valid; returns the
    plaintext and whether the previous key opened it. *)
Definition open_data (i : nat) (s : peer_session) (pkt : bytes) (now : Z)
    (dec_ctx : evp_cipher_ctx) : M world (evp_cipher_ctx * option (bytes * bool)) :=
  let! (dec_ctx, r) := liftO (decrypt_packet dec_ctx (session_key s) pkt PLAIN_CAP) in
  match r with
  | Some plain =>
      upd_session i (set_prev_key_active false) ;;;
      ret (dec_ctx, Some (plain, false))
  | None =>
      if prev_key_active s && (now <=? prev_key_expires s) then
        let! (dec_ctx, r) := liftO (decrypt_packet dec_ctx (prev_session_key s) pkt PLAIN_CAP) in
        ret (dec_ctx, (fun plain => (plain, true)) <$> r)
      else ret (dec_ctx, None)
  end.

(** The test for a replay; packets under the previous key are not tested. *)
Definition replay_gate (i : nat) (s : peer_session) (seq : Z) (used_prev_key : bool) : M world bool :=
  if used_prev_key then ret false else
  let '(r, st) := check_replay seq (replay s) in
  upd_session i (set_replay st) ;;;
  ret (r <? 0).

(** After decryption and the replay test: AllowedIPs, relay or TUN. *)
Inductive verdict :=
| Drop
| Relay (fwd : nat)
| ToTun.

Definition dispatch (i : nat) (payload : bytes) : M world verdict :=
  if (length payload =? 0)%nat then ret Drop else
  let! s := session_at i in
  if (0 <? length (routes s))%nat && is_ipv4 payload &&
     negb (check_allowed_src s (read_u32 12 payload)) then ret Drop else
  let! t := tab in
  match (if is_ipv4 payload then route_lookup t (read_u32 16 payload) else None) with
  | Some fwd => ret (if negb (fwd =? i)%nat then Relay fwd else ToTun)
  | None => ret ToTun
  end.

Definition deliver (i : nat) (payload : bytes) (enc_ctx : evp_cipher_ctx)
    : M world evp_cipher_ctx :=
  let! v := dispatch i payload in
  match v with
  | Drop => ret enc_ctx
  | Relay fwd => forward_to_peer fwd enc_ctx payload
  | ToTun => liftO (tun_write payload) ;;; ret enc_ctx
  end.

(** The critical section of a data packet: decrypt, then test for a replay.  The
    result is the sequence number, whether the previous key was used, and the
    payload, of a packet that is to be delivered. *)
Definition receive (i : nat) (pkt : bytes) (now : Z) (dec_ctx : evp_cipher_ctx)
    : M world (evp_cipher_ctx * option (Z * bool * bytes)) :=
  let! s := session_at i in
  upd_session i (set_last_seen now) ;;;
  let! (dec_ctx, r) := open_data i s pkt now dec_ctx in
  match r with
  | None => ret (dec_ctx, None)
  | Some (plain, used_prev_key) =>
      if (length plain <? HEADER_SIZE + SEQ_SIZE)%nat ||
         negb (memcmp (slice 0 HEADER_SIZE plain) pkt_header =? 0)
      then ret (dec_ctx, None) else
      let seq := be_decode (slice HEADER_SIZE SEQ_SIZE plain) in
      let! is_replay := replay_gate i s seq used_prev_key in
      ret (dec_ctx, if is_replay : bool then None
                    else Some (seq, used_prev_key, drop (HEADER_SIZE + SEQ_SIZE) plain))
  end.

Definition on_data (src : sockaddr_in) (pkt : bytes) (now : Z) (enc_ctx dec_ctx : evp_cipher_ctx)
    : M world (evp_cipher_ctx * evp_cipher_ctx) :=
  let! t := tab in
  match find_session_by_addr t src with
  | None => ret (enc_ctx, dec_ctx)
  | Some i =>
      let! (dec_ctx, r) := receive i pkt now dec_ctx in
      match r with
      | None => ret (enc_ctx, dec_ctx)
      | Some (_, _, payload) =>
          let! enc_ctx := deliver i payload enc_ctx in
          ret (enc_ctx, dec_ctx)
      end
  end.

Definition on_udp (c : loop_ctx) (src : sockaddr_in) (pkt : bytes) (enc_ctx dec_ctx : evp_cipher_ctx)
    : M world (evp_cipher_ctx * evp_cipher_ctx) :=
  let! now := liftO c_time in
  if (length pkt =? hs_size (psk_key c))%nat &&
     (memcmp (slice 0 HEADER_SIZE pkt) pkt_header =? 0) then
    on_handshake c src pkt now ;;;
    ret (enc_ctx, dec_ctx)
  else on_data src pkt now enc_ctx dec_ctx.

(** ** The event loop of a worker *)

(** One entry of [events], with what the read of its descriptor returns: [None]
    for an error.  The kernel cuts a packet to the size of the buffer. *)
Inductive event :=
| EvHangup
| EvTun (r : option bytes)
| EvUdp (r : option (sockaddr_in * bytes)).

(** The cipher contexts of a worker; [None] for [goto done]. *)
Definition on_event (c : loop_ctx) (e : event) (ctxs : evp_cipher_ctx * evp_cipher_ctx)
    : M world (option (evp_cipher_ctx * evp_cipher_ctx)) :=
  match e with
  | EvHangup => ret None
  | EvTun None => ret None
  | EvTun (Some data) =>
      let buffer := take BUFFER_SIZE data in
      if (length buffer =? 0)%nat then ret None else
      let! enc_ctx := on_tun buffer ctxs.1 in
      ret (Some (enc_ctx, ctxs.2))
  | EvUdp None => ret None
  | EvUdp (Some (src, data)) =>
      let! ctxs := on_udp c src (take WIRE_CAP data) ctxs.1 ctxs.2 in
      ret (Some ctxs)
  end.

(** The entries of one [epoll_wait]. *)
Fixpoint on_events (c : loop_ctx) (es : list event) (ctxs : evp_cipher_ctx * evp_cipher_ctx)
    : M world (option (evp_cipher_ctx * evp_cipher_ctx)) :=
  match es with
  | [] => ret (Some ctxs)
  | e :: es' =>
      let! r := on_event c e ctxs in
      match r with
      | None => ret None
      | Some ctxs => on_events c es' ctxs
      end
  end.

(** What [epoll_wait] returns: entries, [EINTR] or another error. *)
Inductive wake :=
| Events (es : list event)
| Interrupted
| EpollError.

(** The loop, over the wake-ups until [stop_flag] is seen. *)
Fixpoint worker_iter (c : loop_ctx) (ws : list wake) (ctxs : evp_cipher_ctx * evp_cipher_ctx)
    : M world unit :=
  match ws with
  | [] => ret tt
  | Interrupted :: ws' => worker_iter c ws' ctxs
  | EpollError :: _ => ret tt
  | Events es :: ws' =>
      let! r := on_events c es ctxs in
      match r with
      | None => ret tt
      | Some ctxs => worker_iter c ws' ctxs
      end
  end.

(** [epoll_ok] is the outcome of [epoll_create1]. *)
Definition worker_loop (c : loop_ctx) (epoll_ok : bool) (ws : list wake) : M world unit :=
  let! enc := liftO (io EVP_CIPHER_CTX_new) in
  let! dec := liftO (io EVP_CIPHER_CTX_new) in
  match enc, dec with
  | Some enc_ctx, Some dec_ctx =>
      if negb epoll_ok then ret tt else worker_iter c ws (enc_ctx, dec_ctx)
  | _, _ => ret tt
  end.
End Worker.

Section Housekeeping.
Context `{Env}.

(** [cfg_rekey_after * 4 / 5]: the product is an [int], overflow is undefined. *)
Definition rekey_delay (t : tables) : M world Z :=
  let p := cfg_rekey_after (timers t) * 4 in
  guard ((- 2 ^ 31 <=? p) && (p <? 2 ^ 31)) ;;;
  ret (Z.quot p 5).

(** First pass: peers to connect to or to rekey. *)
Definition hk_connect (c : loop_ctx) (now : Z) (i : nat) : M world unit :=
  let! cfg := config_at i in
  if negb (has_endpoint cfg) then ret tt else
  let! t := tab in
  let found := find_session_by_pub t (pc_pub cfg) in
  let! needs :=
    match found with
    | None => ret true
    | Some k =>
        let! s := session_at k in
        let! delay := rekey_delay t in
        ret ((last_handshake s + delay <=? now) && negb (rekeying s))
    end in
  let ready := cfg_reconnect_interval (timers t) <=? now - last_attempt cfg in
  if needs && ready then
    let! _ := resolve_endpoint i in
    match found with Some k => upd_session k (set_rekeying true) | None => ret tt end ;;;
    let! ok := initiate_outbound_handshake c i in
    if ok : bool then ret tt else
    match found with Some k => upd_session k (set_rekeying false) | None => ret tt end
  else ret tt.

(** Second pass: pending handshakes that timed out. *)
Definition hk_pending (now : Z) (j : nat) : M world unit :=
  let! p := pending_at j in
  let! t := tab in
  if negb (p_active p) || (now - sent_at p <? cfg_handshake_timeout (timers t)) then ret tt else
  let! cfg := config_at (cfg_idx p) in
  liftO (EVP_PKEY_free (eph_key (hs_state p))) ;;;
  upd_pending j (fun p =>
    set_p_active false
      (set_hs_state (HsState None (eph_pub (hs_state p)) (ecdh_ec_ss (hs_state p))) p)) ;;;
  mark_rekeying (pc_pub cfg) false.

(** Third pass: sessions without traffic. *)
Definition hk_silent (now : Z) (j : nat) : M world bool :=
  let! s := session_at j in
  let! t := tab in
  if negb (active s) then ret false else
  let ref := if 0 <? last_seen s then last_seen s else last_handshake s in
  ret (negb (now - ref <=? cfg_session_expiry (timers t))).

Definition hk_expire (now : Z) (j : nat) : M world unit :=
  let! silent := hk_silent now j in
  if silent : bool then upd_session j (set_active false) else ret tt.

(** Fourth pass: keepalives, empty packets. *)
Definition hk_due (c : loop_ctx) (now : Z) (j : nat) : M world bool :=
  let! s := session_at j in
  ret (keepalive_interval c <=? now - last_sent s).

Definition hk_keepalive (c : loop_ctx) (now : Z) (enc_ctx : evp_cipher_ctx) (j : nat)
    : M world evp_cipher_ctx :=
  let! s := session_at j in
  if negb (active s) then ret enc_ctx else
  let! due := hk_due c now j in
  if due : bool then forward_to_peer j enc_ctx [] else ret enc_ctx.

(** The first two passes; the result is [session_slots]. *)
Definition hk_handshakes (c : loop_ctx) (now : Z) : M world nat :=
  let! t := tab in
  foldM (fun _ i => hk_connect c now i) (seq 0 (length (peer_configs t))) tt ;;;
  foldM (fun _ j => hk_pending now j) (seq 0 MAX_PEERS) tt ;;;
  let! t := tab in
  ret (session_slots t).

(** One critical section of the housekeeping thread. *)
Definition housekeeping_tick (c : loop_ctx) (now : Z) (enc_ctx : evp_cipher_ctx)
    : M world evp_cipher_ctx :=
  let! slots := hk_handshakes c now in
  foldM (fun _ j => hk_expire now j) (seq 0 slots) tt ;;;
  foldM (hk_keepalive c now) (seq 0 slots) enc_ctx.

(** The loop, for the [n] iterations until [stop_flag] is seen; at most one tick
    every ten seconds. *)
Fixpoint housekeeping_iter (c : loop_ctx) (n : nat) (last_check : Z) (enc_ctx : evp_cipher_ctx)
    : M world unit :=
  match n with
  | O => ret tt
  | S n' =>
      let! now := liftO c_time in
      if 10 <=? now - last_check then
        let! enc_ctx := housekeeping_tick c now enc_ctx in
        housekeeping_iter c n' now enc_ctx
      else housekeeping_iter c n' last_check enc_ctx
  end.

Definition housekeeping_loop (c : loop_ctx) (n : nat) : M world unit :=
  let! enc := liftO (io EVP_CIPHER_CTX_new) in
  match enc with
  | None => ret tt
  | Some enc_ctx => housekeeping_iter c n 0 enc_ctx
  end.
End Housekeeping.
