(* ===== verification/Invariant.v ===== *)
(** * The invariant of the peer's state and its preservation

    Well-formed tables, every key the process owns live and owned once; each
    handler of Peer.v is defined (no undefined behaviour) and keeps the
    invariant, whatever arrives and whatever OpenSSL and the system answer. *)

From S2P Require Import Prelude Replay Platform Crypto Handshake Hex Cidr Session Peer.
From Stdlib Require Import Strings.Byte.

(** ** Well-formed tables *)

Record session_wf (s : peer_session) : Prop := {
  wf_static_pub : length (static_pub s) = DH_PUBKEY_LEN;
  wf_session_key : length (session_key s) = CRYPTO_KEY_LEN;
  wf_prev_key : length (prev_session_key s) = CRYPTO_KEY_LEN;
  wf_send_seq : in_range 64 (send_seq s);
  wf_replay : exists a, refines (replay s) a;
  wf_routes : Forall prefix_wf (routes s);
  wf_route_count : (length (routes s) <= MAX_ROUTES_PER_PEER)%nat;
}.

Record config_wf (c : peer_config) : Prop := {
  wf_pub : length (pc_pub c) = DH_PUBKEY_LEN;
  wf_cfg_routes : Forall prefix_wf (pc_routes c);
  wf_cfg_route_count : (length (pc_routes c) <= MAX_ROUTES_PER_PEER)%nat;
}.

(** An active entry belongs to a configured peer and has an ephemeral key. *)
Definition pending_wf (configs : nat) (p : pending_hs_t) : Prop :=
  p_active p = true -> (cfg_idx p < configs)%nat /\ is_Some (eph_key (hs_state p)).

Record tables_wf (t : tables) : Prop := {
  wf_slots : slots_wf t;
  wf_sessions : Forall session_wf (sessions t);
  wf_config_count : (length (peer_configs t) <= MAX_PEERS)%nat;
  wf_configs : Forall config_wf (peer_configs t);
  wf_pending_array : length (pending_hs t) = MAX_PEERS;
  wf_pending : Forall (pending_wf (length (peer_configs t))) (pending_hs t);
  wf_precomp_pub : length (precomp_eph_pub t) = DH_PUBKEY_LEN;
  wf_rekey_after : 0 < cfg_rekey_after (timers t) <= 2 ^ 29 - 1;
  wf_known : forall i s, sessions t !! i = Some s -> active s = true ->
    exists cfg, cfg ∈ peer_configs t /\ pc_pub cfg = static_pub s /\ pc_routes cfg = routes s;
}.

(** ** Ownership of keys *)

Definition pending_key (p : pending_hs_t) : option nat :=
  if p_active p then eph_key (hs_state p) else None.

(** The keys the process can still reach: its static key, the prepared
    ephemeral key and one for each active pending handshake. *)
Definition owned (c : loop_ctx) (t : tables) : list nat :=
  static_key c :: option_list (precomp_eph_key t) ++ omap pending_key (pending_hs t).

Section Inv.
Context `{OpenSSLSizes}.

Record keys_wf (c : loop_ctx) (o : os) (t : tables) : Prop := {
  keys_os : os_wf o;
  keys_nodup : NoDup (owned c t);
  keys_live : forall h, h ∈ owned c t -> is_Some (os_keys o !! h);
  keys_static_pub : length (ctx_static_pub c) = DH_PUBKEY_LEN;
}.

(** Without a key prepared, [handshake_server_respond] fails; that is possible
    only when the generation at startup failed. *)
Definition inv (c : loop_ctx) (w : world) : Prop :=
  tables_wf (w_tab w) /\ keys_wf c (w_os w) (w_tab w).

(** ** Rules for the table accesses *)

Lemma wp_liftO {A} (m : M os A) Q o t :
  wp m (fun a o' => Q a (World _ o' t)) o -> wp (liftO m) Q (World _ o t).
Proof. intros. by apply wp_zoom. Qed.

Lemma wp_tab Q (w : world) : Q (w_tab w) w -> wp tab Q w.
Proof. done. Qed.

Lemma wp_session_at i s Q (w : world) :
  sessions (w_tab w) !! i = Some s -> Q s w -> wp (session_at i) Q w.
Proof. intros Hs HQ. apply wp_bind, wp_tab. unfold at_index. by rewrite Hs. Qed.

Lemma wp_config_at i s Q (w : world) :
  peer_configs (w_tab w) !! i = Some s -> Q s w -> wp (config_at i) Q w.
Proof. intros Hs HQ. apply wp_bind, wp_tab. unfold at_index. by rewrite Hs. Qed.

Lemma wp_pending_at i s Q (w : world) :
  pending_hs (w_tab w) !! i = Some s -> Q s w -> wp (pending_at i) Q w.
Proof. intros Hs HQ. apply wp_bind, wp_tab. unfold at_index. by rewrite Hs. Qed.

Lemma wp_upd_session i f s Q o t :
  sessions t !! i = Some s -> Q tt (World _ o (set_sessions (<[i := f s]> (sessions t)) t)) ->
  wp (upd_session i f) Q (World _ o t).
Proof. intros Hs HQ. apply wp_bind. by eapply wp_session_at. Qed.

Lemma wp_upd_config i f s Q o t :
  peer_configs t !! i = Some s ->
  Q tt (World _ o (set_peer_configs (<[i := f s]> (peer_configs t)) t)) ->
  wp (upd_config i f) Q (World _ o t).
Proof. intros Hs HQ. apply wp_bind. by eapply wp_config_at. Qed.

Lemma wp_upd_pending i f s Q o t :
  pending_hs t !! i = Some s -> Q tt (World _ o (set_pending_hs (<[i := f s]> (pending_hs t)) t)) ->
  wp (upd_pending i f) Q (World _ o t).
Proof. intros Hs HQ. apply wp_bind. by eapply wp_pending_at. Qed.

Lemma wp_time Q o t :
  (forall z o', os_quiet o o' -> Q z (World _ o' t)) -> wp (liftO c_time) Q (World _ o t).
Proof. intros HQ. apply wp_liftO, io_quiet. intros o' Hq. by apply HQ. Qed.

(** ** What each kind of update preserves *)

Lemma keys_wf_quiet c o o' t : os_quiet o o' -> keys_wf c o t -> keys_wf c o' t.
Proof.
  intros Hq []. constructor; try done; [by eapply os_quiet_wf|].
  intros h. rewrite (quiet_keys _ _ Hq). auto.
Qed.

(** Same keys, whatever was sent. *)
Lemma keys_wf_same c o o' t :
  os_keys o' = os_keys o -> os_wf o' -> keys_wf c o t -> keys_wf c o' t.
Proof. intros Hk Hwf []. constructor; try done. intros h. rewrite Hk. auto. Qed.

(** The owned keys of the tables are all that [keys_wf] depends on. *)
Lemma keys_wf_tables c o t t' : owned c t' = owned c t -> keys_wf c o t -> keys_wf c o t'.
Proof. intros E []. constructor; try done; rewrite E; done. Qed.

Lemma slots_wf_ext t t' :
  sessions t' = sessions t -> session_slots t' = session_slots t -> slots_wf t -> slots_wf t'.
Proof. intros Es En []. constructor; rewrite ?Es, ?En; done. Qed.

(** An update of session [i] that may close it, but neither opens it nor moves
    it to another peer. *)
Lemma tables_wf_session t i s s' :
  tables_wf t -> sessions t !! i = Some s -> session_wf s' ->
  (active s' = true ->
     active s = true /\ static_pub s' = static_pub s /\ routes s' = routes s) ->
  tables_wf (set_sessions (<[i := s']> (sessions t)) t).
Proof.
  intros [[Hlen Hb Hrest Hpub] Hs Hcc Hc Hpa Hp Hpp Hra Hkn] Hi Hwf Hact.
  constructor; cbn; try done; [|by apply Forall_insert|].
  2:{ intros j a [[<- [<- _]]|[_ Hj]]%list_lookup_insert_Some Ha; [|by eapply Hkn].
      destruct (Hact Ha) as (Ha' & -> & ->). by eapply Hkn. }
  constructor; cbn; try done.
  - by rewrite length_insert.
  - intros j a [[<- [<- _]]|[Hne Hj]]%list_lookup_insert_Some Hle; [|by apply (Hrest j)].
    destruct (active s') eqn:E; [|done]. destruct (Hact eq_refl) as (Ha & _ & _).
    by rewrite (Hrest i s) in Ha.
  - intros j k a b [[<- [<- _]]|[Hnj Hj]]%list_lookup_insert_Some
      [[<- [<- _]]|[Hnk Hk]]%list_lookup_insert_Some Ha Hb'; try done.
    + destruct (Hact Ha) as (? & -> & _). intros. by apply (Hpub i k s b).
    + destruct (Hact Hb') as (? & -> & _). intros. by apply (Hpub j i a s).
    + by apply (Hpub j k a b).
Qed.

Lemma inv_session c o t i s s' :
  inv c (World _ o t) -> sessions t !! i = Some s -> session_wf s' ->
  (active s' = true ->
     active s = true /\ static_pub s' = static_pub s /\ routes s' = routes s) ->
  inv c (World _ o (set_sessions (<[i := s']> (sessions t)) t)).
Proof. intros [Ht Hk] ???. split; [by eapply tables_wf_session|by apply (keys_wf_tables c o t)]. Qed.

Lemma inv_quiet c o o' t : os_quiet o o' -> inv c (World _ o t) -> inv c (World _ o' t).
Proof. intros Hq [Ht Hk]. split; [done|by eapply keys_wf_quiet]. Qed.

Lemma inv_same c o o' t :
  os_keys o' = os_keys o -> os_wf o' -> inv c (World _ o t) -> inv c (World _ o' t).
Proof. intros ?? [Ht Hk]. split; [done|by eapply keys_wf_same]. Qed.

Lemma inv_session_wf c o t i s :
  inv c (World _ o t) -> sessions t !! i = Some s -> session_wf s.
Proof. intros [Ht _] Hi. pose proof (wf_sessions _ Ht) as Hs. by eapply Forall_lookup_1 in Hs. Qed.

Lemma inv_config_wf c o t i cfg :
  inv c (World _ o t) -> peer_configs t !! i = Some cfg -> config_wf cfg.
Proof. intros [Ht _] Hi. pose proof (wf_configs _ Ht) as Hs. by eapply Forall_lookup_1 in Hs. Qed.

Lemma inv_config_update c o t i cfg cfg' :
  inv c (World _ o t) -> peer_configs t !! i = Some cfg -> config_wf cfg' ->
  pc_pub cfg' = pc_pub cfg -> pc_routes cfg' = pc_routes cfg ->
  inv c (World _ o (set_peer_configs (<[i := cfg']> (peer_configs t)) t)).
Proof.
  intros [[] Hk] Hi Hwf Ep Er. split; [|by apply (keys_wf_tables c o t)].
  constructor; cbn; rewrite ?length_insert; try done; [by apply (slots_wf_ext t)|by apply Forall_insert|].
  intros j s Hj Ha. destruct (wf_known0 j s Hj Ha) as (x & [k Hk']%list_elem_of_lookup & E1 & E2).
  destruct (decide (k = i)) as [->|Hne].
  - cbn in Hk'. simplify_eq. exists cfg'. split_and!; [|congruence..].
    eapply list_elem_of_lookup_2, list_lookup_insert_eq. by eapply lookup_lt_Some.
  - exists x. split_and!; [|done..]. eapply (list_elem_of_lookup_2 _ k). by rewrite list_lookup_insert_ne.
Qed.

(** ** Session updates keep a session well-formed *)

Lemma session_wf_rekeying b s : session_wf s -> session_wf (set_rekeying b s).
Proof. by intros []. Qed.
Lemma session_wf_active b s : session_wf s -> session_wf (set_active b s).
Proof. by intros []. Qed.
Lemma session_wf_last_sent z s : session_wf s -> session_wf (set_last_sent z s).
Proof. by intros []. Qed.
Lemma session_wf_last_seen z s : session_wf s -> session_wf (set_last_seen z s).
Proof. by intros []. Qed.
Lemma session_wf_prev_key_active b s : session_wf s -> session_wf (set_prev_key_active b s).
Proof. by intros []. Qed.
Lemma session_wf_send_seq z s : in_range 64 z -> session_wf s -> session_wf (set_send_seq z s).
Proof. intros ? []. by constructor. Qed.
Lemma session_wf_replay r s :
  (exists a, refines r a) -> session_wf s -> session_wf (set_replay r s).
Proof. intros ? []. by constructor. Qed.

Lemma config_wf_endpoint a cfg : config_wf cfg -> config_wf (set_endpoint a cfg).
Proof. by intros []. Qed.
Lemma config_wf_last_attempt z cfg : config_wf cfg -> config_wf (set_last_attempt z cfg).
Proof. by intros []. Qed.

Hint Resolve session_wf_rekeying session_wf_active session_wf_last_sent session_wf_last_seen
  session_wf_prev_key_active session_wf_send_seq config_wf_endpoint config_wf_last_attempt : wf.

(** ** [forward_to_peer] *)

(** [wire] is what [encrypt_packet] makes of [plain] under [key]. *)
Definition seals (key plain wire : bytes) : Prop :=
  exists ctx ctx' o o', encrypt_packet ctx key plain WIRE_CAP o = Ret (ctx', Some wire) o'.

(** The plaintext of a data packet. *)
Definition data_plain (seq : Z) (payload : bytes) : bytes :=
  pkt_header ++ be_encode SEQ_SIZE seq ++ payload.
#[global] Arguments data_plain : simpl never.

(** A run: the session's counter advances by one, and at most one datagram leaves, to
    the session's address, the payload sealed with its number under the session key. *)
Definition forward_post (i : nat) (payload : bytes) (o : os) (t : tables) (w' : world) : Prop :=
  exists s o' z, sessions t !! i = Some s /\
    w' = World _ o' (set_sessions
           (<[i := set_last_sent z (set_send_seq (u64 (send_seq s + 1)) s)]> (sessions t)) t) /\
    os_keys o' = os_keys o /\ os_wf o' /\ os_tun o' = os_tun o /\
    (os_sent o' = os_sent o \/
     exists wire, os_sent o' = os_sent o ++ [(addr s, wire)] /\
       length wire = (length payload + WIRE_OVERHEAD)%nat /\
       seals (session_key s) (data_plain (send_seq s) payload) wire).

(** The session after a packet was numbered. *)
Definition numbered (s : peer_session) : peer_session := set_send_seq (u64 (send_seq s + 1)) s.

Lemma wp_seal i enc payload o t s :
  sessions t !! i = Some s -> (length payload <= BUFFER_SIZE)%nat ->
  wp (seal_for i enc payload)
     (fun r w' => exists o', os_quiet o o' /\
        w' = World _ o' (set_sessions (<[i := numbered s]> (sessions t)) t) /\
        forall dest wire, r.2 = Some (dest, wire) ->
          dest = addr s /\ length wire = (length payload + WIRE_OVERHEAD)%nat /\
          seals (session_key s) (data_plain (send_seq s) payload) wire) (World _ o t).
Proof.
  intros Hs Hlen. unfold seal_for. apply wp_bind. eapply wp_session_at; [done|]. cbv zeta.
  apply wp_bind. eapply wp_upd_session; [done|]. apply wp_bind. wp_fits. apply wp_bind, wp_liftO.
  eapply wp_conseq; [apply wp_self, wp_encrypt_packet; rewrite !length_app, length_be_encode, length_pkt_header; sizes|].
  intros [enc' r] o1 (Erun & Hq & Hw). wp_step. exists o1. split_and!; [done..|].
  intros dest wire E. destruct r as [w|]; [|done]. injection E as <- <-. split; [done|].
  specialize (Hw _ eq_refl). split; [|by eexists _, _, _, _].
  rewrite Hw, !length_app, length_be_encode, length_pkt_header. sizes.
Qed.

Lemma wp_stamp i o t s (Q : unit -> world -> Prop) :
  sessions t !! i = Some s ->
  (forall z o', os_quiet o o' ->
     Q tt (World _ o' (set_sessions (<[i := set_last_sent z s]> (sessions t)) t))) ->
  wp (stamp_sent i) Q (World _ o t).
Proof. intros Hs HQ. apply wp_bind, wp_time. intros z o' Hq. eapply wp_upd_session; [done|]. by apply HQ. Qed.

Lemma wp_forward i enc payload o t :
  os_wf o -> is_Some (sessions t !! i) -> (length payload <= BUFFER_SIZE)%nat ->
  wp (forward_to_peer i enc payload) (fun _ => forward_post i payload o t) (World _ o t).
Proof.
  intros Hwf [s Hs] Hlen. unfold forward_to_peer.
  assert (<[i := numbered s]> (sessions t) !! i = Some (numbered s)) as Hs1.
  { apply list_lookup_insert_eq. by eapply lookup_lt_Some. }
  assert (forall o', os_quiet o o' ->
    forward_post i payload o t (World _ o' (set_sessions (<[i := numbered s]> (sessions t)) t)))
    as Hquiet.
  { intros o' Hq. exists s, o', (last_sent s). pose proof (os_quiet_wf _ _ Hq Hwf). destruct Hq.
    split_and!; auto. }
  apply wp_bind. eapply wp_conseq; [by apply wp_seal|].
  intros [enc' [[dest wire]|]] w1 (o1 & Hq1 & -> & Hw); cbn [fst snd] in *; [|wp_step; by apply Hquiet].
  destruct (Hw _ _ eq_refl) as (-> & Hl & Hseal). apply wp_bind, wp_liftO, wp_sendto; intros _.
  - apply wp_bind. eapply wp_stamp; [done|]. intros z o2 [Hk2 Hs2 Ht2 Hn2]. wp_step.
    cbn [os_keys os_sent os_tun os_next] in Hk2, Hs2, Ht2, Hn2.
    pose proof (os_quiet_wf _ _ Hq1 Hwf) as Hwf1. destruct Hq1 as [Hk1 Hse1 Ht1 Hn1].
    exists s, o2, z. split_and!; [done| |congruence| |congruence|].
    + f_equal. unfold set_sessions. cbn. by rewrite list_insert_insert_eq.
    + intros h. rewrite Hk2. intros ?%Hwf1. lia.
    + right. exists wire. rewrite Hs2, Hse1. done.
  - wp_step. apply Hquiet. etrans; [done|]. by constructor.
Qed.

Lemma inv_forward c i payload o t w' :
  inv c (World _ o t) -> forward_post i payload o t w' -> inv c w'.
Proof.
  intros Hinv (s & o' & z & Hs & -> & Hk & Hwf & _).
  pose proof (inv_session_wf _ _ _ _ _ Hinv Hs).
  eapply inv_same in Hinv; [|done..]. eapply inv_session; try done.
  apply session_wf_last_sent, session_wf_send_seq; [by apply wrap_range|done].
Qed.

(** ** [alloc_session] and [session_init] *)

(** The slot chosen for [pub] is in use or becomes so, and no other active
    session has that key. *)
Lemma alloc_session_inv t pub a i t' :
  tables_wf t -> length pub = DH_PUBKEY_LEN -> alloc_session t pub a = (Some i, t') ->
  tables_wf t' /\ (i < session_slots t')%nat /\ (exists s, sessions t' !! i = Some s) /\
  (forall j b, sessions t' !! j = Some b -> active b = true -> static_pub b = pub -> j = i) /\
  t' = set_session_slots (session_slots t') t.
Proof.
  intros Hwf Hpub E. pose proof (alloc_session_spec t pub a (wf_slots t Hwf)) as Hspec.
  assert (t' = set_session_slots (session_slots t') t) as Et'.
  { revert E. unfold alloc_session. repeat case_match; intros [= <- <-]; by destruct t. }
  rewrite E in Hspec. destruct Hspec as (s & Hs & Hi & Hcase & Hses & _ & _ & Hle).
  destruct Hwf as [[Hlen Hb Hrest Hu] Hsw Hcc Hc Hpa Hp Hpp Hra Hkn].
  assert (forall j b, sessions t' !! j = Some b -> active b = true -> static_pub b = pub -> j = i) as Huniq.
  { intros j b Hj Ha Hpb. rewrite Hses in Hj, Hs.
    assert (find_session_by_pub t pub = None -> j = i) as Hnone.
    { intros Hn. destruct (decide (session_slots t <= j)%nat) as [Hle'|Hlt].
      - by rewrite (Hrest j b) in Ha.
      - rewrite <- slots_lookup_lt in Hj by lia.
        destruct (proj1 (find_session_by_pub_None _ _) Hn _ _ Hj Ha).
        rewrite Hpb. apply memcmp_refl. }
    destruct Hcase as [[Has Hm]|[[Hn _]|[Hn _]]]; [|by apply Hnone..].
    eapply Forall_lookup_1 in Hsw as Hsw'; [|exact Hs].
    apply memcmp_eq in Hm; [|by rewrite (wf_static_pub _ Hsw')].
    apply (Hu j i b s); congruence. }
  split_and!; try done; [|by exists s]. rewrite Et'. constructor; cbn; try done.
  constructor; cbn; try done; [lia|]. intros j b Hj ?. apply (Hrest j b Hj). lia.
Qed.

(** The session after [session_init]: the old key becomes the previous key when
    the slot was in use, counters and the replay window start again. *)
Definition init_session (s : peer_session) (a : sockaddr_in) (pub key : bytes) (rs : list ip_prefix)
    (out : bool) (expires sent handshake deadline : Z) : peer_session :=
  PeerSession true a pub key (if active s then session_key s else prev_session_key s) (active s)
    (if active s then expires else prev_key_expires s) 0 sent handshake deadline false 0
    replay_init rs out.

Definition cfg_routes (cfg : option peer_config) : list ip_prefix :=
  match cfg with Some c => pc_routes c | None => [] end.

Definition init_post (i : nat) (a : sockaddr_in) (pub key : bytes) (cfg : option peer_config)
    (out : bool) (o : os) (t : tables) (w' : world) : Prop :=
  exists s o' z0 z1 z2 z3, sessions t !! i = Some s /\ os_quiet o o' /\
    w' = World _ o' (set_sessions
           (<[i := init_session s a pub key (cfg_routes cfg) out z0 z1 z2 z3]> (sessions t)) t).

Lemma wp_session_open i pub o t s (Q : bool -> world -> Prop) :
  sessions t !! i = Some s ->
  Q (active s) (World _ o (set_sessions (<[i := set_static_pub pub (set_active true s)]> (sessions t)) t)) ->
  wp (session_open i pub) Q (World _ o t).
Proof.
  intros Hs HQ. apply wp_bind. eapply wp_session_at; [done|].
  apply wp_bind. eapply wp_upd_session; [done|]. by wp_step.
Qed.

(** The session after the part under [hot_lock]. *)
Definition rekeyed (s : peer_session) (a : sockaddr_in) (key : bytes) (was : bool) (expires sent : Z)
    : peer_session :=
  PeerSession (active s) a (static_pub s) key (if was then session_key s else prev_session_key s) was
    (if was then expires else prev_key_expires s) 0 sent (last_handshake s) (rekey_deadline s)
    (rekeying s) 0 replay_init (routes s) (is_outbound s).

Lemma wp_session_rekey i a key was o t s (Q : unit -> world -> Prop) :
  sessions t !! i = Some s ->
  (forall z0 z1 o', os_quiet o o' ->
     Q tt (World _ o' (set_sessions (<[i := rekeyed s a key was z0 z1]> (sessions t)) t))) ->
  wp (session_rekey i a key was) Q (World _ o t).
Proof.
  intros Hs HQ. apply wp_bind. eapply wp_session_at; [done|]. apply wp_bind, wp_tab. cbn [w_tab].
  apply wp_bind. destruct was.
  - apply wp_bind, wp_time. intros z0 o0 Hq0. wp_step. apply wp_bind, wp_time. intros z1 o1 Hq1.
    eapply wp_upd_session; [done|]. apply (HQ (z0 + cfg_prev_key_grace (timers t))). by etrans.
  - wp_step. apply wp_bind, wp_time. intros z1 o1 Hq1. eapply wp_upd_session; [done|]. by apply (HQ 0).
Qed.

(** The session after the last part. *)
Definition closed_with (s : peer_session) (rs : list ip_prefix) (out : bool) (handshake deadline : Z)
    : peer_session :=
  PeerSession (active s) (addr s) (static_pub s) (session_key s) (prev_session_key s)
    (prev_key_active s) (prev_key_expires s) (last_seen s) (last_sent s) handshake deadline false
    (send_seq s) (replay s) rs out.

Lemma wp_session_close i cfg out o t s (Q : unit -> world -> Prop) :
  sessions t !! i = Some s ->
  (forall z2 z3 o', os_quiet o o' ->
     Q tt (World _ o' (set_sessions (<[i := closed_with s (cfg_routes cfg) out z2 z3]> (sessions t)) t))) ->
  wp (session_close i cfg out) Q (World _ o t).
Proof.
  intros Hs HQ. apply wp_bind, wp_tab. cbn [w_tab]. apply wp_bind, wp_time. intros z2 o2 Hq2.
  apply wp_bind, wp_time. intros z3 o3 Hq3. eapply wp_upd_session; [done|]. apply HQ. by etrans.
Qed.

Lemma wp_session_init i a pub key cfg out o t :
  is_Some (sessions t !! i) ->
  wp (session_init i a pub key cfg out) (fun _ => init_post i a pub key cfg out o t) (World _ o t).
Proof.
  intros [s Hs]. pose proof (lookup_lt_Some _ _ _ Hs) as Hlt. unfold session_init.
  apply wp_bind. eapply wp_session_open; [done|].
  apply wp_bind. eapply wp_session_rekey; [by apply list_lookup_insert_eq|]. intros z0 z1 o1 Hq1.
  eapply wp_session_close; [cbn; apply list_lookup_insert_eq; by rewrite length_insert|].
  intros z2 z3 o2 Hq2. exists s, o2, z0, z1, z2, z3. split_and!; [done|by etrans|].
  unfold set_sessions. cbn. by rewrite !list_insert_insert_eq.
Qed.

Lemma inv_session_init c i a pub key cfg out o t w' :
  inv c (World _ o t) -> (i < session_slots t)%nat -> length pub = DH_PUBKEY_LEN ->
  length key = CRYPTO_KEY_LEN ->
  (exists cf, cfg = Some cf /\ cf ∈ peer_configs t /\ pc_pub cf = pub) ->
  (forall j b, sessions t !! j = Some b -> active b = true -> static_pub b = pub -> j = i) ->
  init_post i a pub key cfg out o t w' -> inv c w'.
Proof.
  intros Hinv Hi Hpub Hkey (cf & -> & Hcf & Hcp) Huniq (s & o' & z0 & z1 & z2 & z3 & Hs & Hq & ->).
  pose proof (inv_session_wf _ _ _ _ _ Hinv Hs) as Hsw.
  eapply inv_quiet in Hinv; [|done]. destruct Hinv as [[] Hk].
  cbn [w_tab] in *. pose proof (proj1 (Forall_forall _ _) wf_configs0 _ Hcf) as [].
  split; [|by apply (keys_wf_tables c o' t)]. constructor; cbn; try done.
  - destruct wf_slots0 as [Hlen Hb Hrest Hu]. constructor; cbn; try done.
    + by rewrite length_insert.
    + intros j b [[<- _]|[_ Hj]]%list_lookup_insert_Some ?; [lia|by apply (Hrest j)].
    + intros j k x y [[<- [<- _]]|[Hnj Hj]]%list_lookup_insert_Some
        [[<- [<- _]]|[Hnk Hk']]%list_lookup_insert_Some Hx Hy E; try done; cbn in E.
      * symmetry. by apply (Huniq k y).
      * by apply (Huniq j x).
      * by apply (Hu j k x y).
  - apply Forall_insert; [done|]. destruct Hsw. constructor; cbn; try done.
    + by destruct (active s).
    + eexists. apply refines_init.
  - intros j b [[<- [<- _]]|[_ Hj]]%list_lookup_insert_Some Ha; [by exists cf|by eapply wf_known0].
Qed.

(** ** Owned keys: given up, freed and taken *)

Lemma omap_insert {A B} (f : A -> option B) l j p p' :
  l !! j = Some p ->
  omap f (<[j := p']> l) = omap f (take j l) ++ option_list (f p') ++ omap f (drop (S j) l).
Proof.
  intros Hj. rewrite insert_take_drop by by eapply lookup_lt_Some.
  rewrite omap_app. cbn. by destruct (f p').
Qed.

(** The entry [j] of [pending_hs] contributes its key and nothing else. *)
Lemma owned_pending c t j p :
  pending_hs t !! j = Some p ->
  exists rest, owned c t ≡ₚ option_list (pending_key p) ++ rest /\
    forall p', owned c (set_pending_hs (<[j := p']> (pending_hs t)) t)
               ≡ₚ option_list (pending_key p') ++ rest.
Proof.
  intros Hj.
  exists (static_key c :: option_list (precomp_eph_key t) ++ omap pending_key (take j (pending_hs t))
          ++ omap pending_key (drop (S j) (pending_hs t))).
  assert (forall p', owned c (set_pending_hs (<[j := p']> (pending_hs t)) t)
    ≡ₚ option_list (pending_key p') ++ static_key c :: option_list (precomp_eph_key t) ++
       omap pending_key (take j (pending_hs t)) ++ omap pending_key (drop (S j) (pending_hs t))) as E.
  { intros p'. unfold owned. cbn. rewrite (omap_insert _ _ _ p) by done. solve_Permutation. }
  split; [|done]. specialize (E p). rewrite list_insert_id in E by done. by destruct t.
Qed.

Lemma keys_wf_forget c o t t' x :
  owned c t ≡ₚ option_list x ++ owned c t' -> keys_wf c o t -> keys_wf c o t'.
Proof.
  intros E [Hwf Hn Hl Hp]. rewrite E in Hn. apply NoDup_app in Hn as (_ & _ & Hn).
  constructor; try done. intros h Hh. apply Hl. rewrite E. by apply elem_of_app; right.
Qed.

Lemma keys_wf_free c o o' t t' h :
  owned c t ≡ₚ h :: owned c t' -> os_keys o' = delete h (os_keys o) -> os_wf o' ->
  keys_wf c o t -> keys_wf c o' t'.
Proof.
  intros E Hk Hwf' [Hwf Hn Hl Hp]. rewrite E in Hn. apply NoDup_cons in Hn as [Hh Hn].
  constructor; try done. intros h' Hh'. rewrite Hk, lookup_delete_ne by (by intros ->).
  apply Hl. rewrite E. by right.
Qed.

Lemma keys_wf_take c o o' t t' h k :
  owned c t' ≡ₚ h :: owned c t -> os_keys o !! h = None -> os_keys o' = <[h := k]> (os_keys o) ->
  os_wf o' -> keys_wf c o t -> keys_wf c o' t'.
Proof.
  intros E Hfresh Hk Hwf' [Hwf Hn Hl Hp].
  assert (h ∉ owned c t) by (intros [? Hs]%Hl; congruence).
  constructor; try done.
  - rewrite E. by apply NoDup_cons.
  - intros h'. rewrite E, Hk. intros [->|Hh']%elem_of_cons.
    + by rewrite lookup_insert_eq.
    + rewrite lookup_insert_ne by (by intros ->). by apply Hl.
Qed.

Lemma owned_live c o t h : keys_wf c o t -> Some h = precomp_eph_key t \/ h = static_key c ->
  is_Some (os_keys o !! h).
Proof.
  intros [] Hh. apply keys_live0. unfold owned. destruct Hh as [<-| ->]; [right; by left|by left].
Qed.

Lemma pending_live c o t j p :
  keys_wf c o t -> pending_hs t !! j = Some p -> p_active p = true -> live o (eph_key (hs_state p)).
Proof.
  intros [_ _ Hl _] Hj Ha. destruct (eph_key (hs_state p)) as [h|] eqn:E; [|done].
  apply Hl. unfold owned. right. apply elem_of_app. right. apply list_elem_of_omap.
  exists p. split; [by eapply list_elem_of_lookup_2|]. unfold pending_key. by rewrite Ha.
Qed.

Lemma tables_wf_pending t j p' :
  tables_wf t -> pending_wf (length (peer_configs t)) p' ->
  tables_wf (set_pending_hs (<[j := p']> (pending_hs t)) t).
Proof.
  intros [] Hp. constructor; cbn; try done; [by apply (slots_wf_ext t)|by rewrite length_insert|].
  by apply Forall_insert.
Qed.

(** ** Table operations of the handlers *)

Lemma wp_mark_rekeying c pub b (w : world) :
  inv c w ->
  wp (mark_rekeying pub b)
     (fun _ w' => inv c w' /\ exists l, w' = World _ (w_os w) (set_sessions l (w_tab w))) w.
Proof.
  destruct w as [o t]. intros Hinv. unfold mark_rekeying. apply wp_bind, wp_tab. cbn [w_tab].
  destruct (find_session_by_pub t pub) as [i|] eqn:E.
  2:{ wp_step. split; [done|]. exists (sessions t). by destruct t. }
  apply find_session_by_pub_Some in E as (s & [_ Hs]%slots_lookup & Ha & _).
  eapply wp_upd_session; [done|]. split; [|by eexists].
  eapply inv_session; [done..| |done]. by eapply session_wf_rekeying, inv_session_wf.
Qed.

(** What [alloc_slot] yields to its caller. *)
Definition alloc_post (pub : bytes) (c : loop_ctx) (o : os) (configs : list peer_config) (r : option nat) (w' : world) : Prop :=
  inv c w' /\ w_os w' = o /\ peer_configs (w_tab w') = configs /\
  forall i, r = Some i ->
    (i < session_slots (w_tab w'))%nat /\ is_Some (sessions (w_tab w') !! i) /\
    forall j b, sessions (w_tab w') !! j = Some b -> active b = true -> static_pub b = pub -> j = i.

Lemma wp_alloc_slot c pub a o t :
  inv c (World _ o t) -> length pub = DH_PUBKEY_LEN ->
  wp (alloc_slot pub a) (alloc_post pub c o (peer_configs t)) (World _ o t).
Proof.
  intros [Ht Hk] Hp. unfold alloc_slot. apply wp_bind, wp_tab. cbn [w_tab].
  destruct (alloc_session t pub a) as [[i|] t'] eqn:E.
  - apply wp_bind, wp_modify, wp_ret.
    destruct (alloc_session_inv _ _ _ _ _ Ht Hp E) as (Ht' & Hi & [s Hs] & Hu & Et').
    split_and!; [split; cbn; [done|]|done|by rewrite Et'|].
    + apply (keys_wf_tables c o t); [by rewrite Et'|done].
    + intros ? [= <-]. cbn. eauto.
  - pose proof (alloc_session_spec t pub a (wf_slots t Ht)) as Hs. rewrite E in Hs.
    destruct Hs as [-> _]. by apply wp_bind, wp_modify, wp_ret.
Qed.

(** What [session_init] may rely on after a handshake. *)
Definition granted (c : loop_ctx) (r : option grant) (w : world) : Prop :=
  inv c w /\ forall g, r = Some g ->
    (g_slot g < session_slots (w_tab w))%nat /\ is_Some (sessions (w_tab w) !! g_slot g) /\
    length (g_pub g) = DH_PUBKEY_LEN /\ length (g_key g) = CRYPTO_KEY_LEN /\
    g_cfg g ∈ peer_configs (w_tab w) /\ pc_pub (g_cfg g) = g_pub g /\
    forall j b, sessions (w_tab w) !! j = Some b -> active b = true -> static_pub b = g_pub g -> j = g_slot g.

Lemma granted_none c w : inv c w -> granted c None w.
Proof. by split. Qed.

(** Allocate a slot, as both handshake branches end. *)
Lemma wp_grant c pub a key cfg (w : world) :
  inv c w -> cfg ∈ peer_configs (w_tab w) -> pc_pub cfg = pub -> length key = CRYPTO_KEY_LEN ->
  wp (let! s := alloc_slot pub a in ret ((fun i => Grant i pub key cfg) <$> s)) (granted c) w.
Proof.
  destruct w as [o t]. intros Hinv Hin Hp Hkey.
  assert (length pub = DH_PUBKEY_LEN) as Hpl.
  { apply list_elem_of_lookup in Hin as [k Hk]. rewrite <- Hp. by eapply inv_config_wf. }
  apply wp_bind. eapply wp_conseq; [by apply wp_alloc_slot|].
  intros r w' (Hinv' & _ & Hcf & Hi). wp_step. split; [done|]. intros g Eg.
  destruct r as [i|]; simplify_eq/=. destruct (Hi i eq_refl) as (Hlt & Hs & Hu).
  split_and!; try done. by rewrite Hcf.
Qed.

Lemma wp_install c src out r (w : world) : granted c r w -> wp (install src out r) (fun _ => inv c) w.
Proof.
  destruct w as [o t]. intros [Hinv Hg]. destruct r as [g|]; cbn [install]; [|by wp_step].
  destruct (Hg g eq_refl) as (Hlt & Hs & Hpl & Hkey & Hin & Hp & Hu).
  eapply wp_conseq; [by apply wp_session_init|]. intros [] w' Hpost.
  apply (inv_session_init c (g_slot g) src (g_pub g) (g_key g) (Some (g_cfg g)) out o t); try done. by exists (g_cfg g).
Qed.

(** ** The handshake branches *)

Lemma find_pending_Some t a j :
  find_pending t a = Some j ->
  exists p, pending_hs t !! j = Some p /\ p_active p = true /\ server_addr p = a.
Proof.
  intros (p & Hp & [Ha Hb]%andb_true_iff & _)%first_index_Some.
  exists p. by rewrite same_addr_true in Hb.
Qed.

Lemma pending_config t j p :
  tables_wf t -> pending_hs t !! j = Some p -> p_active p = true ->
  exists cfg, peer_configs t !! cfg_idx p = Some cfg /\ config_wf cfg.
Proof.
  intros [] Hj Ha. eapply Forall_lookup_1 in wf_pending0; [|done].
  destruct (wf_pending0 Ha) as [Hi _]. apply lookup_lt_is_Some_2 in Hi as [cfg Hc].
  exists cfg. split; [done|]. by eapply Forall_lookup_1 in wf_configs0.
Qed.

(** Closing the pending entry [j]: with its key freed, or with its key as it is. *)
Lemma inv_close_pending c o o' t j p q :
  inv c (World _ o t) -> pending_hs t !! j = Some p -> p_active p = true -> p_active q = false ->
  (exists h, eph_key (hs_state p) = Some h /\ os_keys o' = delete h (os_keys o) /\ os_wf o') \/
  os_quiet o o' ->
  inv c (World _ o' (set_pending_hs (<[j := q]> (pending_hs t)) t)).
Proof.
  intros [Ht Hk] Hj Ha Hq Ho. destruct (owned_pending c t j p Hj) as (rest & E & E').
  specialize (E' q). unfold pending_key in E, E'. rewrite Hq in E'. rewrite Ha in E. cbn in E'.
  split; cbn.
  - apply tables_wf_pending; [done|]. intros ?. congruence.
  - rewrite <- E' in E. destruct Ho as [(h & Eh & Hdel & Hwf)|Hquiet].
    + rewrite Eh in E. by apply (keys_wf_free c o o' t _ h).
    + eapply keys_wf_quiet, keys_wf_forget; done.
Qed.

Lemma wp_accept_response c j src pkt o t p :
  inv c (World _ o t) -> pending_hs t !! j = Some p -> p_active p = true ->
  wp (accept_response c j src pkt) (granted c) (World _ o t).
Proof.
  intros Hinv Hj Ha. destruct Hinv as [Ht Hk]. unfold accept_response.
  apply wp_bind. eapply wp_pending_at; [done|].
  destruct (pending_config t j p Ht Hj Ha) as (cfg & Hc & Hcw).
  apply wp_bind. eapply wp_config_at; [done|].
  apply wp_bind. eapply wp_upd_pending; [done|]. cbn beta. apply wp_bind, wp_liftO.
  eapply wp_conseq; [apply wp_client_recv|].
  { apply Hk. } { by eapply owned_live; [|right]. } { by eapply pending_live. }
  intros [key st] o1 Hpost. apply wp_bind. eapply wp_upd_pending.
  { cbn. apply list_lookup_insert_eq. by eapply lookup_lt_Some. }
  match goal with |- wp _ _ ?w => assert (inv c w) as Hinv2 end.
  { unfold set_pending_hs at 1. cbn [timers peer_configs sessions session_slots pending_hs
      precomp_eph_key precomp_eph_pub set_pending_hs]. rewrite list_insert_insert_eq.
    apply (inv_close_pending c o o1 t j p); [done..|].
    unfold client_recv_post in Hpost. cbn in Hpost. destruct key as [key|].
    - left. destruct Hpost as (h & ? & ? & ? & ? & ? & ?). eauto.
    - right. apply Hpost. }
  destruct key as [key|].
  - apply wp_grant; try done; [by eapply list_elem_of_lookup_2|].
    by destruct Hpost as (h & ? & ? & _).
  - apply wp_bind. eapply wp_conseq; [by apply wp_mark_rekeying|]. intros ?? [? _]. wp_step. by apply granted_none.
Qed.

Lemma wp_tie_break c src o t :
  inv c (World _ o t) -> wp (tie_break c src) (fun _ => inv c) (World _ o t).
Proof.
  intros Hinv. unfold tie_break. apply wp_bind, wp_tab. cbn [w_tab].
  destruct (find_pending t src) as [j|] eqn:E; [|by wp_step].
  apply find_pending_Some in E as (p & Hj & Ha & _). pose proof Hinv as [Ht Hk].
  destruct (pending_config t j p Ht Hj Ha) as (cfg & Hc & Hcw).
  apply wp_bind. eapply wp_pending_at; [done|]. apply wp_bind. eapply wp_config_at; [done|].
  destruct (0 <? _); [by wp_step|].
  destruct (eph_key (hs_state p)) as [h|] eqn:Eh.
  2:{ destruct (Forall_lookup_1 _ _ _ _ (wf_pending t Ht) Hj Ha) as [_ [? ?]]. congruence. }
  pose proof (pending_live c o t j p Hk Hj Ha) as Hl. rewrite Eh in Hl. destruct Hl as [k Hkh].
  apply wp_bind, wp_liftO. eapply wp_pkey_free; [done|].
  apply wp_bind. eapply wp_upd_pending; [done|]. apply wp_bind.
  eapply wp_conseq; [apply (wp_mark_rekeying c)|].
  - apply (inv_close_pending c o _ t j p); try done. left. exists h. split_and!; [done..|].
    apply os_wf_delete; [apply Hk|done].
  - intros ?? [? _]. by wp_step.
Qed.

Lemma wp_refresh_precomp c o t :
  inv c (World _ o t) -> wp refresh_precomp_eph (fun _ => inv c) (World _ o t).
Proof.
  intros [Ht Hk]. unfold refresh_precomp_eph. apply wp_bind, wp_tab. cbv zeta. cbn [w_tab].
  apply wp_bind, wp_liftO. eapply wp_conseq; [apply wp_generate_eph_keypair, Hk|].
  intros [[nk pub]|] o1; cbn [keypair_post].
  2:{ intros Hq. wp_step. split; [done|]. by eapply keys_wf_quiet. }
  intros (k & Hfresh & Hkeys & Hpub & _ & _ & Hwf1 & _).
  apply wp_bind, wp_modify. apply wp_liftO. cbn [w_tab w_os].
  assert (tables_wf (set_precomp (Some nk) pub t)) as Ht'.
  { destruct Ht. constructor; cbn; try done; [by apply (slots_wf_ext t)|by eapply raw_public_size]. }
  destruct (precomp_eph_key t) as [old|] eqn:Eold.
  - assert (is_Some (os_keys o !! old)) as [ko Hold] by (eapply owned_live; [done|by left]).
    eapply wp_pkey_free.
    { rewrite Hkeys, lookup_insert_ne by congruence. done. }
    split; [done|]. cbn [w_os w_tab].
    set (rest := static_key c :: omap pending_key (pending_hs t)).
    assert (owned c t ≡ₚ old :: rest) as E.
    { unfold owned, rest. rewrite Eold. solve_Permutation. }
    set (t0 := set_precomp None pub t).
    assert (keys_wf c (Os _ (os_n o1) (delete old (os_keys o)) (os_next o1) (os_sent o1) (os_tun o1)) t0) as Hk0.
    { apply (keys_wf_free c o _ t t0 old); try done.
      intros h [k' Hk']. cbn in Hk' |- *. apply lookup_delete_Some in Hk' as [_ Hk'].
      apply Hwf1. rewrite Hkeys. rewrite lookup_insert_ne by congruence. eauto. }
    refine (keys_wf_take c _ _ t0 _ nk k _ _ _ _ Hk0); cbn.
    + unfold owned. cbn. solve_Permutation.
    + apply lookup_delete_None. by right.
    + rewrite Hkeys. rewrite delete_insert_ne by congruence. done.
    + by apply (os_wf_delete o1).
  - change (inv c (World _ o1 (set_precomp (Some nk) pub t))).
    split; [done|]. cbn [w_os w_tab].
    eapply (keys_wf_take c o o1 t _ nk k); try done.
    unfold owned. cbn. rewrite Eold. solve_Permutation.
Qed.

Lemma wp_in_cooldown c t0 now x o t :
  inv c (World _ o t) -> (forall i, x = Some i -> is_Some (sessions t !! i)) ->
  wp (in_cooldown t0 now x) (fun _ w' => w' = World _ o t) (World _ o t).
Proof.
  intros Hinv Hx. unfold in_cooldown. destruct x as [i|]; [|by wp_step].
  destruct (Hx i eq_refl) as [s Hs]. apply wp_bind. eapply wp_session_at; [done|]. by wp_step.
Qed.

Lemma find_session_by_addr_valid t a i :
  find_session_by_addr t a = Some i -> is_Some (sessions t !! i).
Proof. intros (s & [_ Hs]%slots_lookup & _)%find_session_by_addr_Some. eauto. Qed.

Lemma find_session_by_pub_valid t pub i :
  find_session_by_pub t pub = Some i -> is_Some (sessions t !! i).
Proof. intros (s & [_ Hs]%slots_lookup & _)%find_session_by_pub_Some. eauto. Qed.

Lemma wp_accept_initiation c src pkt now o t :
  inv c (World _ o t) -> wp (accept_initiation c src pkt now) (granted c) (World _ o t).
Proof.
  intros Hinv. pose proof Hinv as [Ht Hk]. unfold accept_initiation. apply wp_bind, wp_tab. cbn [w_tab].
  apply wp_bind. eapply wp_conseq; [eapply wp_in_cooldown; [done|]; apply find_session_by_addr_valid|].
  intros [] w' ->; [wp_step; by apply granted_none|]. apply wp_bind, wp_liftO. eapply wp_conseq.
  { apply wp_server_respond; [apply Hk| | |apply Hk|apply Ht].
    - by eapply owned_live; [|right].
    - destruct (precomp_eph_key t) eqn:E; [|done]. eapply owned_live; [done|by left]. }
  intros [[pub key]|] o1 (pkts & Hsends & Hr).
  2:{ wp_step. apply granted_none. eapply inv_same; [apply Hsends..|done]. }
  destruct (Hr _ _ eq_refl) as (_ & Hpub & Hkey).
  apply wp_bind. eapply wp_conseq.
  { apply (wp_refresh_precomp c). eapply inv_same; [apply Hsends..|done]. }
  intros [] [o2 t2] Hinv2. apply wp_bind, wp_tab. cbn [w_tab].
  destruct (find_peer_config t2 pub) as [k|] eqn:Ek; [|wp_step; by apply granted_none].
  apply find_peer_config_Some in Ek as (cfg & Hcfg & Hm).
  apply wp_bind. eapply wp_config_at; [done|]. apply wp_bind.
  eapply wp_conseq; [eapply wp_in_cooldown; [done|]; apply find_session_by_pub_valid|].
  intros [] w' ->; [wp_step; by apply granted_none|]. apply wp_grant; try done; [by eapply list_elem_of_lookup_2|].
  apply memcmp_eq; [|done]. rewrite Hpub. by eapply inv_config_wf.
Qed.

Lemma wp_on_handshake c src pkt now (w : world) :
  inv c w -> wp (on_handshake c src pkt now) (fun _ => inv c) w.
Proof.
  destruct w as [o t]. intros Hinv. unfold on_handshake. apply wp_bind, wp_tab. cbn [w_tab].
  destruct (find_pending t src) as [j|] eqn:E.
  - apply find_pending_Some in E as (p & Hj & Ha & _). apply wp_bind.
    eapply wp_conseq; [by eapply wp_accept_response|]. intros. by apply wp_install.
  - apply wp_bind. eapply wp_conseq; [by apply wp_tie_break|].
    intros [] [o' t'] Hinv'; [by wp_step|]. apply wp_bind.
    eapply wp_conseq; [by apply wp_accept_initiation|]. intros. by apply wp_install.
Qed.

(** ** Packets from the TUN device *)

Lemma route_lookup_valid t ip i :
  tables_wf t -> in_range 32 ip -> route_lookup t ip = Some i ->
  exists s, sessions t !! i = Some s /\ active s = true.
Proof.
  intros Ht Hip E. destruct (route_lookup_best t ip) as [b Hb]; [|done|].
  - intros k s [_ Hs]%slots_lookup.
    by apply (Forall_lookup_1 _ _ _ _ (wf_sessions t Ht)) in Hs as [].
  - rewrite E in Hb. cbn in Hb. destruct Hb as [(s & p & [_ Hs]%slots_lookup & Ha & _) _]. eauto.
Qed.

Lemma read_u32_range off pkt : (off + 4 <= length pkt)%nat -> in_range 32 (read_u32 off pkt).
Proof.
  intros Hl. unfold read_u32. pose proof (be_decode_range (slice off 4 pkt)) as Hr.
  by rewrite length_slice in Hr by done.
Qed.

Lemma is_ipv4_length pkt : is_ipv4 pkt = true -> (20 <= length pkt)%nat.
Proof. unfold is_ipv4. by intros [?%Nat.leb_le _]%andb_true_iff. Qed.

Lemma wp_on_tun c pkt enc (w : world) :
  inv c w -> (length pkt <= BUFFER_SIZE)%nat -> wp (on_tun pkt enc) (fun _ => inv c) w.
Proof.
  destruct w as [o t]. intros Hinv Hl. unfold on_tun.
  destruct (is_ipv4 pkt) eqn:E; [|by wp_step]. apply is_ipv4_length in E.
  cbv zeta. apply wp_bind, wp_tab. cbn [w_tab].
  destruct (route_lookup t _) as [i|] eqn:Er; [|by wp_step].
  apply route_lookup_valid in Er as (s & Hs & _); [|apply Hinv|apply read_u32_range; lia].
  eapply wp_conseq; [apply wp_forward; [apply Hinv|by eexists|done]|].
  intros ? w' Hp. by apply (inv_forward c i pkt o t).
Qed.

(** ** Data packets *)

(** Updates of the per-packet fields: membership, address, keys and routes stay,
    and the replay window forgets nothing it has seen. *)
Record hot_eq (s s' : peer_session) : Prop := {
  hot_active : active s' = active s;
  hot_addr : addr s' = addr s;
  hot_pub : static_pub s' = static_pub s;
  hot_routes : routes s' = routes s;
  hot_key : session_key s' = session_key s;
  hot_seen : forall a, refines (replay s) a ->
    exists a', refines (replay s') a' /\ abs_seen a ⊆ abs_seen a' /\ abs_highest a <= abs_highest a';
}.

#[export] Instance hot_eq_preorder : PreOrder hot_eq.
Proof.
  split.
  - intros s. constructor; try done. intros a Ha. exists a. split_and!; [done|done|lia].
  - intros s1 s2 s3 [] []. constructor; try congruence.
    intros a (a1 & H1r & H1s & H1h)%hot_seen0. destruct (hot_seen1 a1 H1r) as (a2 & ? & ? & ?).
    exists a2. split_and!; [done|by etrans|lia].
Qed.

Lemma hot_eq_same s s' :
  active s' = active s -> addr s' = addr s -> static_pub s' = static_pub s ->
  routes s' = routes s -> session_key s' = session_key s -> replay s' = replay s -> hot_eq s s'.
Proof. intros ? ? ? ? ? E. constructor; try done. intros a Ha. exists a. rewrite E. split_and!; [done|done|lia]. Qed.

(** The whole table under such updates. *)
Definition table_keeps (t t' : tables) : Prop :=
  session_slots t' = session_slots t /\ Forall2 hot_eq (sessions t) (sessions t').

#[export] Instance table_keeps_preorder : PreOrder table_keeps.
Proof.
  split.
  - intros t. split; reflexivity.
  - intros t1 t2 t3 [E1 F1] [E2 F2]. split; [congruence|].
    by etrans.
Qed.

Lemma table_keeps_upd t i s s' :
  sessions t !! i = Some s -> hot_eq s s' ->
  table_keeps t (set_sessions (<[i := s']> (sessions t)) t).
Proof.
  intros Hs E. split; [done|]. cbn. rewrite <- (list_insert_id (sessions t) i s) at 1 by done.
  by apply Forall2_insert.
Qed.

Lemma table_keeps_lookup t t' i s :
  table_keeps t t' -> sessions t !! i = Some s ->
  exists s', sessions t' !! i = Some s' /\ hot_eq s s'.
Proof. intros [_ F] Hs. eapply Forall2_lookup_l in F as (s' & ? & ?); eauto. Qed.

Definition hot_step (i : nat) (t t' : tables) : Prop :=
  exists s s', sessions t !! i = Some s /\ hot_eq s s' /\
    t' = set_sessions (<[i := s']> (sessions t)) t.

Lemma hot_step_refl i t : is_Some (sessions t !! i) -> hot_step i t t.
Proof.
  intros [s Hs]. exists s, s. split_and!; [done|reflexivity|]. rewrite list_insert_id by done. by destruct t.
Qed.

Lemma hot_step_trans i t1 t2 t3 : hot_step i t1 t2 -> hot_step i t2 t3 -> hot_step i t1 t3.
Proof.
  intros (s & s1 & Hs & E & ->) (s1' & s2 & Hs' & E' & ->). cbn in Hs'.
  rewrite list_lookup_insert_eq in Hs' by (by eapply lookup_lt_Some). simplify_eq.
  exists s, s2. split_and!; [done|by etrans|].
  unfold set_sessions. cbn. by rewrite list_insert_insert_eq.
Qed.

Lemma hot_step_keeps i t t' : hot_step i t t' -> table_keeps t t'.
Proof. intros (s & s' & Hs & E & ->). by eapply table_keeps_upd. Qed.

Lemma hot_step_upd i t s s' :
  sessions t !! i = Some s -> hot_eq s s' ->
  hot_step i t (set_sessions (<[i := s']> (sessions t)) t).
Proof. intros. by exists s, s'. Qed.

(** Routing sees none of it. *)
Definition route_view (s : peer_session) : bool * list ip_prefix := (active s, routes s).

Lemma route_loop_view ip l l' i best :
  route_view <$> l = route_view <$> l' -> route_loop ip l i best = route_loop ip l' i best.
Proof.
  revert l' i best. induction l as [|s l IH]; intros [|s' l'] i best E; try done.
  injection E as Ea Er El. cbn [route_loop]. rewrite Ea, Er. by apply IH.
Qed.

Lemma route_lookup_upd t i s s' ip :
  sessions t !! i = Some s -> active s' = active s -> routes s' = routes s ->
  route_lookup (set_sessions (<[i := s']> (sessions t)) t) ip = route_lookup t ip.
Proof.
  intros Hs Ea Er. unfold route_lookup, slots. cbn.
  f_equal. apply route_loop_view. rewrite !fmap_take, list_fmap_insert.
  rewrite list_insert_id; [done|]. rewrite list_lookup_fmap, Hs. cbn. unfold route_view. by rewrite Ea, Er.
Qed.

Lemma hot_step_route i t t' ip : hot_step i t t' -> route_lookup t' ip = route_lookup t ip.
Proof. intros (s & s' & Hs & [] & ->). by eapply route_lookup_upd. Qed.

Lemma hot_step_lookup i t t' j s :
  hot_step i t t' -> sessions t !! j = Some s ->
  exists s', sessions t' !! j = Some s' /\ hot_eq s s' /\ (j <> i -> s' = s).
Proof.
  intros (s1 & s2 & Hs & E & ->) Hj. cbn. destruct (decide (i = j)) as [->|Hne].
  - simplify_eq. exists s2. rewrite list_lookup_insert_eq by (by eapply lookup_lt_Some). done.
  - exists s. by rewrite list_lookup_insert_ne.
Qed.

(** [key] opens [pkt] to [plain]. *)
Definition opens (o : os) (key pkt plain : bytes) : Prop :=
  exists ctx ctx' cap, decrypt_packet ctx key pkt cap o = Ret (ctx', Some plain) o.

Lemma wp_decrypt_opens ctx key pkt o :
  (length pkt <= WIRE_CAP)%nat ->
  wp (decrypt_packet ctx key pkt PLAIN_CAP)
     (fun r o' => o' = o /\ forall plain, r.2 = Some plain ->
        opens o key pkt plain /\ (length plain + CRYPTO_OVERHEAD)%nat = length pkt) o.
Proof.
  intros Hl. destruct (wp_elim _ _ _ (wp_decrypt_packet ctx key pkt PLAIN_CAP o ltac:(sizes)))
    as ([ctx' r] & o' & E & -> & Hr). unfold wp. rewrite E. split; [done|].
  intros plain Hp. cbn in Hp. subst r. split; [by exists ctx, ctx', PLAIN_CAP|by apply Hr].
Qed.

(** The key that opened a packet: the current one, or the previous one while it
    is valid. *)
Definition opened_by (o : os) (s : peer_session) (now : Z) (pkt plain : bytes) (prev : bool) : Prop :=
  if prev then opens o (prev_session_key s) pkt plain /\
               prev_key_active s = true /\ now <= prev_key_expires s
  else opens o (session_key s) pkt plain.

Lemma wp_open_data c i s pkt now dec o t s0 :
  inv c (World _ o t) -> sessions t !! i = Some s0 -> replay s0 = replay s ->
  (length pkt <= WIRE_CAP)%nat ->
  wp (open_data i s pkt now dec)
     (fun r w' => exists t', w' = World _ o t' /\ inv c w' /\ hot_step i t t' /\
        (exists s', sessions t' !! i = Some s' /\ replay s' = replay s /\ send_seq s' = send_seq s0) /\
        forall plain prev, r.2 = Some (plain, prev) ->
          opened_by o s now pkt plain prev /\ (length plain + CRYPTO_OVERHEAD)%nat = length pkt)
     (World _ o t).
Proof.
  intros Hinv Hi Hre Hl. unfold open_data. apply wp_bind, wp_liftO.
  eapply wp_conseq; [by apply wp_decrypt_opens|]. intros [dec1 [plain|]] o' [-> Hp]; cbn [fst snd].
  - apply wp_bind. eapply wp_upd_session; [done|]. wp_step. eexists. split_and!; [done|..].
    + eapply inv_session; [done..| |done]. by eapply session_wf_prev_key_active, inv_session_wf.
    + by eapply hot_step_upd, hot_eq_same.
    + eexists. cbn. rewrite list_lookup_insert_eq by (by eapply lookup_lt_Some). done.
    + intros ?? [= <- <-]. by apply Hp.
  - destruct (prev_key_active s && _) eqn:Ep.
    + apply andb_true_iff in Ep as [Ea Ee%Z.leb_le]. apply wp_bind, wp_liftO.
      eapply wp_conseq; [by apply wp_decrypt_opens|]. intros [dec2 r] o' [-> Hp2]. wp_step.
      eexists. split_and!; [done|done|by apply hot_step_refl; eexists|by eexists|].
      intros plain prev E. cbn in E. destruct r; simplify_eq/=. by destruct (Hp2 _ eq_refl).
    + wp_step. eexists. split_and!; [done|done|by apply hot_step_refl; eexists|by eexists|done].
Qed.

(** A number the window will not accept any more. *)
Definition blocked (seq : Z) (s : peer_session) : Prop :=
  exists a, refines (replay s) a /\ abs_fresh seq a = false.

Lemma blocked_hot seq s s' : hot_eq s s' -> blocked seq s -> blocked seq s'.
Proof.
  intros Hh (a & Ha & Hf). destruct (hot_seen _ _ Hh a Ha) as (a' & Ha' & Hs & Hhi).
  exists a'. split; [done|]. unfold abs_fresh in *. apply andb_false_iff in Hf as [Hf|Hf].
  - apply bool_decide_eq_false in Hf. rewrite bool_decide_eq_false_2; [done|]. intros Hn. apply Hf. set_solver.
  - apply andb_false_iff. right. lia.
Qed.

Lemma blocked_check seq s :
  in_range 64 seq -> blocked seq s -> (check_replay seq (replay s)).1 < 0.
Proof.
  intros Hseq (a & Ha & Hf). destruct (check_replay_step _ _ _ Ha Hseq) as (c' & E & _).
  rewrite E. unfold abs_check. rewrite Hf. cbn. lia.
Qed.

(** After the test the number is blocked, whatever the outcome was. *)
Lemma check_blocks seq s r st s' :
  session_wf s -> in_range 64 seq -> check_replay seq (replay s) = (r, st) -> replay s' = st ->
  blocked seq s'.
Proof.
  intros [_ _ _ _ [a Ha] _ _] Hseq E Hs'. destruct (check_replay_step _ _ _ Ha Hseq) as (c' & E' & Hc').
  rewrite E in E'. injection E' as _ <-. exists (abs_check seq a).2. rewrite Hs'. split; [done|].
  unfold abs_check. destruct (abs_fresh seq a) eqn:Ef; cbn; [|done].
  unfold abs_fresh. cbn. rewrite bool_decide_eq_false_2; [done|]. set_solver.
Qed.

Lemma wp_replay_gate c i s seq prev o t s0 :
  inv c (World _ o t) -> sessions t !! i = Some s0 -> replay s0 = replay s -> in_range 64 seq ->
  wp (replay_gate i s seq prev)
     (fun r w' => exists t', w' = World _ o t' /\ inv c w' /\ hot_step i t t' /\
        (exists s', sessions t' !! i = Some s' /\ send_seq s' = send_seq s0 /\
           (prev = false -> blocked seq s')) /\
        (r = false -> prev = false -> (check_replay seq (replay s)).1 = 0)) (World _ o t).
Proof.
  intros Hinv Hi Hre Hseq. unfold replay_gate. destruct prev.
  { wp_step. exists t. split_and!; [done|done|by apply hot_step_refl; eexists|by eexists|done]. }
  pose proof (inv_session_wf _ _ _ _ _ Hinv Hi) as Hw.
  destruct (wf_replay _ Hw) as [a Ha]. rewrite Hre in Ha.
  destruct (check_replay_step _ _ _ Ha Hseq) as (r' & E & Hr'). rewrite E.
  apply wp_bind. eapply wp_upd_session; [done|]. wp_step. eexists. split_and!; [done|..].
  - eapply inv_session; [done..| |done]. apply session_wf_replay; [by eexists|done].
  - eapply hot_step_upd; [done|]. constructor; try done. cbn. rewrite Hre. intros b Hb.
    destruct (check_replay_step _ _ _ Hb Hseq) as (r'' & E' & Hr''). rewrite E in E'.
    injection E' as _ <-. exists (abs_check seq b).2. split; [done|].
    unfold abs_check. destruct (abs_fresh seq b); cbn; split; (set_solver || lia).
  - eexists. cbn. rewrite list_lookup_insert_eq by (by eapply lookup_lt_Some). split_and!; [done..|].
    intros _. eapply (check_blocks seq s0); [done..|by rewrite Hre|done].
  - destruct (abs_check seq a).1; done.
Qed.

(** A packet that is to be delivered: its plaintext, number, key and payload. *)
Definition admitted (o : os) (s : peer_session) (now : Z) (pkt : bytes) (seq : Z) (prev : bool)
    (payload : bytes) : Prop :=
  exists plain, opened_by o s now pkt plain prev /\ (length plain + CRYPTO_OVERHEAD)%nat = length pkt /\
    (HEADER_SIZE + SEQ_SIZE <= length plain)%nat /\ slice 0 HEADER_SIZE plain = pkt_header /\
    seq = be_decode (slice HEADER_SIZE SEQ_SIZE plain) /\
    payload = drop (HEADER_SIZE + SEQ_SIZE) plain /\
    (prev = false -> (check_replay seq (replay s)).1 = 0).

Lemma wp_receive c i s pkt now dec o t :
  inv c (World _ o t) -> sessions t !! i = Some s -> (length pkt <= WIRE_CAP)%nat ->
  wp (receive i pkt now dec)
     (fun r w' => exists t' s', w' = World _ o t' /\ inv c w' /\ hot_step i t t' /\
        sessions t' !! i = Some s' /\ send_seq s' = send_seq s /\
        forall seq prev payload, r.2 = Some (seq, prev, payload) ->
          admitted o s now pkt seq prev payload /\ (prev = false -> blocked seq s')) (World _ o t).
Proof.
  intros Hinv Hs Hl. unfold receive. pose proof (lookup_lt_Some _ _ _ Hs) as Hlt.
  apply wp_bind. eapply wp_session_at; [done|]. apply wp_bind. eapply wp_upd_session; [done|].
  assert (hot_step i t (set_sessions (<[i := set_last_seen now s]> (sessions t)) t)) as Hh1
    by by eapply hot_step_upd, hot_eq_same.
  apply wp_bind. eapply wp_conseq.
  { eapply (wp_open_data c i s pkt now dec o _ (set_last_seen now s)); [|by apply list_lookup_insert_eq|done..].
    eapply inv_session; [done..| |done]. by eapply session_wf_last_seen, inv_session_wf. }
  intros [dec1 r] w2 (t2 & -> & Hinv2 & Hh2 & (s2 & Hs2 & Hre2 & Hse2) & Hr); cbn [fst snd] in Hr |- *.
  assert (hot_step i t t2) as Hh by eauto using hot_step_trans.
  destruct r as [[plain prev]|]; [|wp_step; by exists t2, s2].
  destruct (Hr _ _ eq_refl) as [Hopen Hlen].
  destruct (Nat.ltb_spec (length plain) (HEADER_SIZE + SEQ_SIZE)) as [|H16]; cbn [orb];
    [wp_step; by exists t2, s2|].
  destruct (Z.eqb_spec (memcmp (slice 0 HEADER_SIZE plain) pkt_header) 0) as [Hm|]; cbn [negb];
    [|wp_step; by exists t2, s2].
  apply memcmp_eq in Hm; [|rewrite length_slice by sizes; done].
  cbv zeta. apply wp_bind. eapply wp_conseq.
  { eapply (wp_replay_gate c i s); [done..|]. pose proof (be_decode_range (slice HEADER_SIZE SEQ_SIZE plain)) as Hrg.
    rewrite length_slice in Hrg by sizes. done. }
  intros replayed w3 (t3 & -> & Hinv3 & Hh3 & (s3 & Hs3 & Hse3 & Hb3) & Hg). wp_step.
  exists t3, s3. split_and!; [done|done|by eapply hot_step_trans|done|by rewrite Hse3, Hse2|].
  intros seq prev' payload E. destruct replayed; [done|]. injection E as <- <- <-.
  split; [|done]. exists plain. split_and!; try done. by apply Hg.
Qed.

(** What leaves the process: nothing, the payload to the TUN device, or one
    sealed datagram to the session the payload is routed to. *)
Inductive output (i : nat) (payload : bytes) (o : os) (t : tables) (o' : os) : Prop :=
| out_none : os_sent o' = os_sent o -> os_tun o' = os_tun o -> output i payload o t o'
| out_tun : os_sent o' = os_sent o -> os_tun o' = os_tun o ++ [payload] -> output i payload o t o'
| out_relay f s wire :
    is_ipv4 payload = true -> route_lookup t (read_u32 16 payload) = Some f -> f <> i ->
    sessions t !! f = Some s ->
    os_sent o' = os_sent o ++ [(addr s, wire)] ->
    seals (session_key s) (data_plain (send_seq s) payload) wire ->
    os_tun o' = os_tun o -> output i payload o t o'.

(** [check_allowed_src] is asked about IPv4 payloads only. *)
Definition src_allowed (s : peer_session) (payload : bytes) : Prop :=
  routes s <> [] -> is_ipv4 payload = true -> check_allowed_src s (read_u32 12 payload) = true.

Lemma wp_tun_write pkt Q o :
  (forall o' b, os_keys o' = os_keys o -> os_next o' = os_next o -> os_sent o' = os_sent o ->
     os_tun o' = (if b : bool then os_tun o ++ [pkt] else os_tun o) -> Q b o') ->
  wp (tun_write pkt) Q o.
Proof.
  intros HQ. unfold wp, tun_write, bind, io, modify, ret. cbn.
  destruct (env_tun_write (os_n o) pkt); by apply HQ.
Qed.

Lemma forward_keeps i payload o t w' : forward_post i payload o t w' -> table_keeps t (w_tab w').
Proof. intros (s & o' & z & Hs & -> & _). by eapply table_keeps_upd, hot_eq_same. Qed.

Lemma wp_dispatch c i s payload o t :
  inv c (World _ o t) -> sessions t !! i = Some s ->
  wp (dispatch i payload)
     (fun v w' => w' = World _ o t /\ (v <> Drop -> payload <> [] /\ src_allowed s payload) /\
        forall f, v = Relay f -> is_ipv4 payload = true /\
          route_lookup t (read_u32 16 payload) = Some f /\ f <> i /\ is_Some (sessions t !! f))
     (World _ o t).
Proof.
  intros Hinv Hs. unfold dispatch.
  destruct (Nat.eqb_spec (length payload) 0) as [|Hne]; [by wp_step|].
  apply wp_bind. eapply wp_session_at; [done|].
  destruct ((0 <? length (routes s))%nat && is_ipv4 payload && negb _) eqn:Eallow; [by wp_step|].
  assert (payload <> [] /\ src_allowed s payload) as Hok.
  { split; [by intros ->|]. intros Hr H4. rewrite H4 in Eallow. destruct (routes s); [done|].
    cbn in Eallow. by apply negb_false_iff in Eallow. }
  apply wp_bind, wp_tab. cbn [w_tab].
  destruct (is_ipv4 payload) eqn:E4; [|by wp_step].
  destruct (route_lookup t (read_u32 16 payload)) as [f|] eqn:Ef; [|by wp_step].
  wp_step. split_and!; [done..|]. intros f'. destruct (Nat.eqb_spec f i) as [->|Hfi]; cbn; [done|].
  intros [= <-]. apply is_ipv4_length in E4 as H20.
  apply route_lookup_valid in Ef as Ef'; [|apply Hinv|apply read_u32_range; lia].
  destruct Ef' as (sf & Hsf & _). eauto.
Qed.

Lemma wp_deliver c i s payload enc o t :
  inv c (World _ o t) -> sessions t !! i = Some s -> (length payload <= BUFFER_SIZE)%nat ->
  wp (deliver i payload enc)
     (fun _ w' => inv c w' /\ table_keeps t (w_tab w') /\ output i payload o t (w_os w') /\
        (os_tun (w_os w') <> os_tun o \/ os_sent (w_os w') <> os_sent o ->
         payload <> [] /\ src_allowed s payload)) (World _ o t).
Proof.
  intros Hinv Hs Hl. apply wp_bind. eapply wp_conseq; [by apply (wp_dispatch c i s)|].
  intros v w1 (-> & Hok & Hrelay). destruct v as [|f|].
  - wp_step. split_and!; [done|reflexivity|by apply out_none|]. intros [|]; done.
  - destruct (Hrelay f eq_refl) as (E4 & Ef & Hfi & Hsf).
    eapply wp_conseq; [by apply wp_forward; [apply Hinv|..]|].
    intros e w' Hp. split_and!;
      [by eapply (inv_forward c f payload o t)|by eapply (forward_keeps f payload o t)| |
       by intros _; apply Hok].
    destruct Hp as (s' & o' & z & Hs' & -> & _ & _ & Ht & [Hse|(wire & Hse & _ & Hw)]);
      cbn [w_os]; [by apply out_none|by eapply out_relay].
  - apply wp_bind, wp_liftO, wp_tun_write. intros o' b Hk Hn Hse Ht. wp_step.
    split_and!; [|reflexivity| |by intros _; apply Hok].
    + apply (inv_same c o); [done| |done]. intros h. rewrite Hk, Hn. apply Hinv.
    + destruct b; [by apply out_tun|by apply out_none].
Qed.

(** A data packet that had an effect beyond the counters of its session. *)
Definition on_data_post (src : sockaddr_in) (pkt : bytes) (now : Z) (o : os) (t : tables) (o' : os) : Prop :=
  (os_sent o' = os_sent o /\ os_tun o' = os_tun o) \/
  exists i s plain prev,
    find_session_by_addr t src = Some i /\ sessions t !! i = Some s /\
    opened_by o s now pkt plain prev /\
    (HEADER_SIZE + SEQ_SIZE <= length plain)%nat /\ slice 0 HEADER_SIZE plain = pkt_header /\
    (prev = false -> (check_replay (be_decode (slice HEADER_SIZE SEQ_SIZE plain)) (replay s)).1 = 0) /\
    drop (HEADER_SIZE + SEQ_SIZE) plain <> [] /\
    src_allowed s (drop (HEADER_SIZE + SEQ_SIZE) plain) /\
    output i (drop (HEADER_SIZE + SEQ_SIZE) plain) o t o'.

Lemma output_hot i payload o t t' o' :
  hot_step i t t' -> output i payload o t' o' -> output i payload o t o'.
Proof.
  intros Hh [? ?|? ?|f s wire H4 Hr Hf Hs ? ? ?]; [by apply out_none|by apply out_tun|].
  rewrite (hot_step_route i t t') in Hr by done.
  destruct Hh as (s1 & s2 & _ & _ & ->). cbn in Hs.
  rewrite list_lookup_insert_ne in Hs by done. by eapply out_relay.
Qed.

Lemma wp_on_data c src pkt now enc dec o t :
  inv c (World _ o t) -> (length pkt <= WIRE_CAP)%nat ->
  wp (on_data src pkt now enc dec)
     (fun _ w' => inv c w' /\ table_keeps t (w_tab w') /\ on_data_post src pkt now o t (w_os w')) (World _ o t).
Proof.
  intros Hinv Hl. unfold on_data. apply wp_bind, wp_tab. cbn [w_tab].
  destruct (find_session_by_addr t src) as [i|] eqn:Ei; [|wp_step; split_and!; [done|reflexivity|by left]].
  apply find_session_by_addr_Some in Ei as Hi. destruct Hi as (s & [_ Hs]%slots_lookup & _).
  apply wp_bind. eapply wp_conseq; [by apply (wp_receive c i s)|].
  intros [dec1 r] w1 (t1 & s1 & -> & Hinv1 & Hh & Hs1 & _ & Hr). cbn [fst snd] in Hr |- *.
  pose proof (hot_step_keeps _ _ _ Hh) as Hk1.
  destruct r as [[[seq prev] payload]|]; [|wp_step; split_and!; [done|done|by left]].
  destruct (Hr _ _ _ eq_refl) as [(plain & Hopen & Hlen & H16 & Hm & -> & -> & Hg) _].
  apply wp_bind. eapply wp_conseq.
  { eapply (wp_deliver c i s1); [done..|]. rewrite length_drop. sizes. }
  intros enc' [o' t2] (Hinv2 & Hk2 & Hout & Hok). wp_step. cbn [w_os w_tab] in *.
  split_and!; [done|by etrans|].
  destruct (decide (os_tun o' = os_tun o /\ os_sent o' = os_sent o)) as [[??]|Hne]; [by left|right].
  destruct Hok as [Hp Ha].
  { destruct (decide (os_tun o' = os_tun o)); [right|by left]. naive_solver. }
  exists i, s, plain, prev. split_and!; try done; [|by eapply output_hot].
  destruct (hot_step_lookup i t t1 i s Hh Hs) as (s1' & Hs1' & Heq & _). simplify_eq.
  unfold src_allowed, check_allowed_src in *. by rewrite (hot_routes _ _ Heq) in Ha.
Qed.
End Inv.
