(* ===== verification/Safety.v ===== *)
(** * Safety of the threads

    Every run of a worker and of the housekeeping thread, from a state that
    satisfies the invariant, is defined and ends in one; what a data packet can
    cause; which handshakes change the session table. *)

From S2P Require Import Prelude Replay Platform Crypto Handshake Hex Cidr Session Peer Invariant.
From Stdlib Require Import Strings.Byte.

Section Safety.
Context `{OpenSSLSizes}.

Lemma inv_time c Q (w : world) :
  inv c w -> (forall z o', os_quiet (w_os w) o' -> inv c (World _ o' (w_tab w)) ->
                Q z (World _ o' (w_tab w))) ->
  wp (liftO c_time) Q w.
Proof.
  destruct w as [o t]. intros Hinv HQ. apply wp_time. intros z o' Hq. apply HQ; [done|].
  by eapply inv_quiet.
Qed.

(** ** Workers *)

Lemma wp_on_udp c src pkt enc dec (w : world) :
  inv c w -> (length pkt <= WIRE_CAP)%nat -> wp (on_udp c src pkt enc dec) (fun _ => inv c) w.
Proof.
  intros Hinv Hl. unfold on_udp. apply wp_bind, (inv_time c); [done|]. intros now o' _ Hinv'.
  destruct (_ && _).
  - apply wp_bind. eapply wp_conseq; [by apply wp_on_handshake|]. intros [] w' ?. by wp_step.
  - eapply wp_conseq; [by apply wp_on_data|]. by intros ?? [? _].
Qed.

Lemma wp_on_event c e ctxs (w : world) : inv c w -> wp (on_event c e ctxs) (fun _ => inv c) w.
Proof.
  intros Hinv. destruct e as [|[data|]|[[src data]|]]; cbn [on_event]; try by wp_step.
  - cbv zeta. destruct (length _ =? 0)%nat; [by wp_step|]. apply wp_bind.
    eapply wp_conseq; [apply wp_on_tun; [done|rewrite length_take; lia]|]. intros. by wp_step.
  - apply wp_bind. eapply wp_conseq; [apply wp_on_udp; [done|rewrite length_take; lia]|].
    intros. by wp_step.
Qed.

Lemma wp_on_events c es ctxs (w : world) : inv c w -> wp (on_events c es ctxs) (fun _ => inv c) w.
Proof.
  revert ctxs w. induction es as [|e es IH]; intros ctxs w Hinv; cbn [on_events]; [by wp_step|].
  apply wp_bind. eapply wp_conseq; [by apply wp_on_event|].
  intros [ctxs'|] w' Hinv'; [by apply IH|by wp_step].
Qed.

Lemma wp_worker_iter c ws ctxs (w : world) : inv c w -> wp (worker_iter c ws ctxs) (fun _ => inv c) w.
Proof.
  revert ctxs w. induction ws as [|[es| |] ws IH]; intros ctxs w Hinv; cbn [worker_iter];
    [by wp_step| |by apply IH|by wp_step].
  apply wp_bind. eapply wp_conseq; [by apply wp_on_events|].
  intros [ctxs'|] w' Hinv'; [by apply IH|by wp_step].
Qed.

Lemma wp_ctx_new c Q (w : world) :
  inv c w -> (forall r w', inv c w' -> Q r w') -> wp (liftO (io EVP_CIPHER_CTX_new)) Q w.
Proof.
  destruct w as [o t]. intros Hinv HQ. apply wp_liftO, io_quiet. intros o' Hq. apply HQ.
  by eapply inv_quiet.
Qed.

(** ** Housekeeping *)

Lemma wp_resolve_endpoint c i o t :
  inv c (World _ o t) -> is_Some (peer_configs t !! i) ->
  wp (resolve_endpoint i)
     (fun _ w' => inv c w' /\ sessions (w_tab w') = sessions t /\
        length (peer_configs (w_tab w')) = length (peer_configs t)) (World _ o t).
Proof.
  intros Hinv [cfg Hc]. unfold resolve_endpoint. apply wp_bind. eapply wp_config_at; [done|].
  apply wp_bind, wp_liftO, io_quiet. intros o' Hq. eapply inv_quiet in Hinv; [|done].
  destruct (env_getaddrinfo _ _ _) as [a|]; [|by wp_step].
  apply wp_bind. eapply wp_upd_config; [done|]. wp_step. split_and!; [|done|cbn; by rewrite length_insert].
  eapply inv_config_update; [done..| |done|done]. by eapply config_wf_endpoint, inv_config_wf.
Qed.

Lemma wp_initiate c i o t :
  inv c (World _ o t) -> is_Some (peer_configs t !! i) ->
  wp (initiate_outbound_handshake c i)
     (fun _ w' => inv c w' /\ sessions (w_tab w') = sessions t /\
        length (peer_configs (w_tab w')) = length (peer_configs t)) (World _ o t).
Proof.
  intros Hinv [cfg Hc]. unfold initiate_outbound_handshake.
  apply wp_bind, (inv_time c); [done|]. cbn [w_tab]. clear Hinv. intros z o1 _ Hinv.
  apply wp_bind. eapply wp_upd_config; [done|]. apply wp_bind, wp_tab. cbn [w_tab pending_hs set_peer_configs].
  set (cfg1 := set_last_attempt z cfg). set (t1 := set_peer_configs _ t).
  assert (inv c (World _ o1 t1)) as Hinv1.
  { eapply inv_config_update; [done..| |done|done]. by eapply config_wf_last_attempt, inv_config_wf. }
  assert (peer_configs t1 !! i = Some cfg1) as Hc1.
  { apply list_lookup_insert_eq. by eapply lookup_lt_Some. }
  assert (length (peer_configs t1) = length (peer_configs t)) as Hlen by apply length_insert.
  destruct (first_index _ _) as [j|] eqn:E; [|by wp_step].
  apply first_index_Some in E as (p & Hj & Hp%negb_true_iff & _).
  apply wp_bind. eapply wp_config_at; [done|]. apply wp_bind, wp_liftO.
  eapply wp_conseq; [apply wp_client_send; apply Hinv1|].
  intros [st|] o2; cbn [client_send_post].
  2:{ intros Hq. wp_step. split_and!; try done. by eapply inv_quiet. }
  intros (h & k & pkt & Hst & Hfresh & Hk & Hwf & _).
  apply wp_bind, wp_time. intros z' o3 Hq3. apply wp_bind.
  eapply wp_upd_pending; [exact Hj|]. wp_step. split_and!; try done.
  destruct Hinv1 as [Ht Hkw]. split; cbn [w_tab w_os].
  - apply tables_wf_pending; [done|]. intros _. cbn. rewrite Hst.
    split; [|by eexists]. by eapply lookup_lt_Some.
  - destruct (owned_pending c t1 j p Hj) as (rest & E1 & E2).
    unfold pending_key at 1 in E1. rewrite Hp in E1. cbn in E1.
    refine (keys_wf_quiet c o2 o3 _ Hq3 (keys_wf_take c o1 o2 t1 _ h k _ Hfresh Hk Hwf Hkw)).
    rewrite E2, E1. unfold pending_key. cbn. by rewrite Hst.
Qed.

Lemma wp_set_rekeying c k b o t :
  inv c (World _ o t) -> (forall i, k = Some i -> is_Some (sessions t !! i)) ->
  wp (match k with Some i => upd_session i (set_rekeying b) | None => ret tt end)
     (fun _ w' => inv c w' /\ w_os w' = o /\ peer_configs (w_tab w') = peer_configs t /\
        length (sessions (w_tab w')) = length (sessions t)) (World _ o t).
Proof.
  intros Hinv Hk. destruct k as [i|]; [|by wp_step]. destruct (Hk i eq_refl) as [s Hs].
  eapply wp_upd_session; [done|]. split_and!; [|done..|cbn; by rewrite length_insert].
  eapply inv_session; [done..| |done]. by eapply session_wf_rekeying, inv_session_wf.
Qed.

Lemma inv_session_valid c (w : world) j :
  inv c w -> (j < MAX_PEERS)%nat -> exists s, sessions (w_tab w) !! j = Some s.
Proof. intros [Ht _] Hj. apply lookup_lt_is_Some_2. by rewrite (slots_array _ (wf_slots _ Ht)). Qed.

Lemma wp_rekey_delay c t (w : world) :
  inv c w -> timers t = timers (w_tab w) -> wp (rekey_delay t) (fun _ w' => w' = w) w.
Proof.
  intros [[] _] E. unfold rekey_delay. rewrite E. cbv zeta. apply wp_bind, wp_guard; [lia|].
  by wp_step.
Qed.

Lemma wp_hk_connect c now i n (w : world) :
  inv c w -> length (peer_configs (w_tab w)) = n -> (i < n)%nat ->
  wp (hk_connect c now i) (fun _ w' => inv c w' /\ length (peer_configs (w_tab w')) = n) w.
Proof.
  destruct w as [o t]. cbn [w_tab]. intros Hinv Hn Hi. unfold hk_connect.
  destruct (lookup_lt_is_Some_2 (peer_configs t) i) as [cfg Hc]; [lia|].
  apply wp_bind. eapply wp_config_at; [done|]. destruct (has_endpoint cfg); cbn [negb]; [|by wp_step].
  apply wp_bind, wp_tab. cbv zeta. cbn [w_tab].
  pose proof (find_session_by_pub_valid t (pc_pub cfg)) as Hvalid.
  apply wp_bind, (wp_conseq _ (fun _ w' => w' = World _ o t)).
  { destruct (find_session_by_pub t (pc_pub cfg)) as [k|]; [|by wp_step].
    destruct (Hvalid k eq_refl) as [s Hs]. apply wp_bind. eapply wp_session_at; [done|].
    apply wp_bind. eapply wp_conseq; [by eapply wp_rekey_delay|]. intros ? w' ->. by wp_step. }
  intros needs w' ->. destruct (needs && _); [|by wp_step].
  apply wp_bind. eapply wp_conseq; [apply wp_resolve_endpoint; [done|by eexists]|].
  intros _ [o1 t1] (Hinv1 & Hs1 & Hn1). cbn [w_tab] in Hs1, Hn1.
  apply wp_bind. eapply wp_conseq; [apply (wp_set_rekeying c); [done|]; intros k Hk; rewrite Hs1; by apply Hvalid|].
  intros [] [o2 t2] (Hinv2 & _ & Hc2 & Hl2). cbn [w_tab] in Hc2, Hl2.
  apply wp_bind. eapply wp_conseq; [apply wp_initiate; [done|]; apply lookup_lt_is_Some_2; rewrite Hc2; lia|].
  intros [] [o3 t3] (Hinv3 & Hs3 & Hn3); cbn [w_tab] in Hs3, Hn3.
  - wp_step. split; [done|]. cbn. rewrite Hn3, Hc2. lia.
  - eapply wp_conseq; [apply (wp_set_rekeying c); [done|]|].
    + intros k Hk. destruct (Hvalid k Hk) as [s Hs]. apply lookup_lt_is_Some_2.
      rewrite Hs3, Hl2, Hs1. by eapply lookup_lt_Some.
    + intros [] w4 (Hinv4 & _ & Hc4 & _). split; [done|]. rewrite Hc4, Hn3, Hc2. lia.
Qed.

(** Pass 2 over entry [j]: afterwards it is not overdue, other entries and the
    timers are as they were. *)
Definition overdue (now : Z) (t : tables) (p : pending_hs_t) : Prop :=
  p_active p = true /\ cfg_handshake_timeout (timers t) <= now - sent_at p.

Definition pending_post (now : Z) (j : nat) (t t' : tables) : Prop :=
  timers t' = timers t /\ session_slots t' = session_slots t /\
  (forall k, k <> j -> pending_hs t' !! k = pending_hs t !! k) /\
  forall p, pending_hs t' !! j = Some p -> ~ overdue now t p.

Lemma wp_hk_pending c now j (w : world) :
  inv c w -> (j < MAX_PEERS)%nat ->
  wp (hk_pending now j) (fun _ w' => inv c w' /\ pending_post now j (w_tab w) (w_tab w')) w.
Proof.
  destruct w as [o t]. intros Hinv Hj. pose proof Hinv as [Ht Hk]. unfold hk_pending, pending_post.
  destruct (lookup_lt_is_Some_2 (pending_hs t) j) as [p Hp]; [by rewrite (wf_pending_array t Ht)|].
  apply wp_bind. eapply wp_pending_at; [done|]. apply wp_bind, wp_tab. cbn [w_tab].
  destruct (p_active p) eqn:Ha; cbn [negb orb].
  2:{ wp_step. split_and!; try done. intros q Hq [Hq' _]. cbn in Hq. congruence. }
  destruct (Z.ltb_spec (now - sent_at p) (cfg_handshake_timeout (timers t))) as [Hlt|Hge].
  { wp_step. split_and!; try done. intros q Hq [_ Hq']. cbn in Hq. simplify_eq. lia. }
  destruct (pending_config t j p Ht Hp Ha) as (cfg & Hc & _).
  apply wp_bind. eapply wp_config_at; [done|].
  destruct (Forall_lookup_1 _ _ _ _ (wf_pending t Ht) Hp Ha) as [_ [h Eh]].
  pose proof (pending_live c o t j p Hk Hp Ha) as Hl. rewrite Eh in Hl |- *. destruct Hl as [k Hkh].
  apply wp_bind, wp_liftO. eapply wp_pkey_free; [done|].
  apply wp_bind. eapply wp_upd_pending; [done|].
  eapply wp_conseq; [apply (wp_mark_rekeying c)|].
  - apply (inv_close_pending c o _ t j p); try done. left. exists h. split_and!; [done..|].
    apply os_wf_delete; [apply Hk|done].
  - intros [] w' [Hinv' [l ->]]. split_and!; try done; cbn.
    + intros k' ?. by rewrite list_lookup_insert_ne.
    + intros q. rewrite list_lookup_insert_eq by (by eapply lookup_lt_Some). by intros <-%(inj Some) [Hf _].
Qed.

(** Silent for longer than [session_expiry]. *)
Definition last_activity (s : peer_session) : Z :=
  if 0 <? last_seen s then last_seen s else last_handshake s.
Definition stale (now : Z) (t : tables) (s : peer_session) : Prop :=
  active s = true /\ cfg_session_expiry (timers t) < now - last_activity s.

(** Pass 3 over slot [j]. *)
Lemma wp_hk_expire c now j (w : world) :
  inv c w -> (j < MAX_PEERS)%nat ->
  wp (hk_expire now j)
     (fun _ w' => inv c w' /\ exists l, w' = World _ (w_os w) (set_sessions l (w_tab w)) /\
        (forall k, k <> j -> l !! k = sessions (w_tab w) !! k) /\
        forall s, l !! j = Some s -> ~ stale now (w_tab w) s) w.
Proof.
  intros Hinv Hj. destruct (inv_session_valid c w j Hinv Hj) as [s Hs]. destruct w as [o t].
  unfold hk_expire, hk_silent. apply wp_bind. apply wp_bind. eapply wp_session_at; [done|].
  apply wp_bind, wp_tab. cbn [w_os w_tab] in *.
  assert (~ stale now t s -> wp (ret tt)
     (fun _ w' => inv c w' /\ exists l, w' = World _ o (set_sessions l t) /\
        (forall k, k <> j -> l !! k = sessions t !! k) /\
        forall s, l !! j = Some s -> ~ stale now t s) (World _ o t)) as Hsame.
  { intros Hst. wp_step. split; [done|]. exists (sessions t). split_and!; [by destruct t|done|].
    intros s' Hs'. congruence. }
  destruct (active s) eqn:Ha; cbn [negb].
  2:{ wp_step. apply Hsame. intros [? _]. congruence. }
  cbv zeta. fold (last_activity s). wp_step.
  destruct (Z.leb_spec (now - last_activity s) (cfg_session_expiry (timers t))); cbn [negb].
  { apply Hsame. intros [_ ?]. lia. }
  eapply wp_upd_session; [done|]. split.
  - eapply inv_session; [done..| |done]. by eapply session_wf_active, inv_session_wf.
  - eexists. split_and!; [done| |].
    + intros k ?. by rewrite list_lookup_insert_ne.
    + intros s'. rewrite list_lookup_insert_eq by (by eapply lookup_lt_Some). by intros <-%(inj Some) [Hf _].
Qed.

(** Pass 4: only [send_seq] and [last_sent] change. *)
Lemma wp_hk_keepalive c now enc j (w : world) :
  inv c w -> (j < MAX_PEERS)%nat ->
  wp (hk_keepalive c now enc j)
     (fun _ w' => inv c w' /\ exists l o', w' = World _ o' (set_sessions l (w_tab w)) /\
        forall k s', l !! k = Some s' -> exists s, sessions (w_tab w) !! k = Some s /\
          active s' = active s /\ last_activity s' = last_activity s) w.
Proof.
  intros Hinv Hj. destruct (inv_session_valid c w j Hinv Hj) as [s Hs]. destruct w as [o t].
  assert (inv c (World _ o t) /\ exists l o', World _ o t = World _ o' (set_sessions l t) /\
    forall k s', l !! k = Some s' -> exists s, sessions t !! k = Some s /\
      active s' = active s /\ last_activity s' = last_activity s) as Hsame.
  { split; [done|]. exists (sessions t), o. split; [by destruct t|eauto]. }
  unfold hk_keepalive. apply wp_bind. eapply wp_session_at; [done|].
  destruct (active s); cbn [negb]; [|by wp_step].
  apply wp_bind. unfold hk_due. apply wp_bind. eapply wp_session_at; [done|]. wp_step.
  destruct (_ <=? _); [|by wp_step].
  eapply wp_conseq; [apply wp_forward; [apply Hinv|by eexists|cbn; lia]|].
  intros e w' Hp. split; [by apply (inv_forward c j [] o t)|].
  destruct Hp as (s1 & o' & z & Hs1 & -> & _). eexists _, o'. split; [done|].
  intros k s' [[<- [<- _]]|[_ Hk]]%list_lookup_insert_Some; eauto.
Qed.

Lemma wp_hk_handshakes c now (w : world) :
  inv c w ->
  wp (hk_handshakes c now)
     (fun n w' => n = session_slots (w_tab w') /\ inv c w' /\
        forall j p, (j < MAX_PEERS)%nat -> pending_hs (w_tab w') !! j = Some p ->
          ~ overdue now (w_tab w') p) w.
Proof.
  intros Hinv. unfold hk_handshakes. apply wp_bind, wp_tab.
  apply wp_bind, (wp_conseq _ (fun _ w' => inv c w' /\
    length (peer_configs (w_tab w')) = length (peer_configs (w_tab w)))).
  { apply wp_foldM; [done|]. intros i _ w' Hi%elem_of_seq [Hinv' Hn].
    by apply wp_hk_connect; [..|lia]. }
  intros [] w1 [Hinv1 _]. clear w Hinv. apply wp_bind.
  eapply wp_conseq.
  { apply (wp_foldM_seq _ (fun n w' => inv c w' /\
      forall j p, (j < n)%nat -> pending_hs (w_tab w') !! j = Some p -> ~ overdue now (w_tab w') p));
      [split; [done|]; lia|].
    intros i _ w' Hi [Hinv' Hp]. eapply wp_conseq; [by apply (wp_hk_pending c)|].
    intros [] w2 (Hinv2 & Et & _ & Hne & Hj). split; [done|].
    intros j p Hlt Hjp. unfold overdue. rewrite Et. destruct (decide (j = i)) as [->|]; [by apply Hj|].
    rewrite Hne in Hjp by done. apply (Hp j p); [lia|done]. }
  intros [] w2 [Hinv2 Hpend]. apply wp_bind, wp_tab. by wp_step.
Qed.

Lemma wp_housekeeping_tick c now enc (w : world) :
  inv c w ->
  wp (housekeeping_tick c now enc)
     (fun _ w' => inv c w' /\
        (forall j p, pending_hs (w_tab w') !! j = Some p -> ~ overdue now (w_tab w') p) /\
        (forall j s, sessions (w_tab w') !! j = Some s -> ~ stale now (w_tab w') s)) w.
Proof.
  intros Hinv. unfold housekeeping_tick. apply wp_bind.
  eapply wp_conseq; [by apply wp_hk_handshakes|]. clear w Hinv. intros ? w2 (-> & Hinv2 & Hpend).
  pose proof (slots_bound _ (wf_slots _ (proj1 Hinv2))) as Hb.
  set (P := fun n (w' : world) => inv c w' /\
    (exists l, w_tab w' = set_sessions l (w_tab w2)) /\
    forall j s, (j < n)%nat -> sessions (w_tab w') !! j = Some s -> ~ stale now (w_tab w') s).
  apply wp_bind, (wp_conseq _ (fun _ => P (session_slots (w_tab w2)))).
  { apply (wp_foldM_seq _ P).
    - split_and!; [done| |lia]. exists (sessions (w_tab w2)). by destruct (w_tab w2).
    - intros i _ w' Hi (Hinv' & [l El] & Hs). eapply wp_conseq; [apply (wp_hk_expire c); [done|lia]|].
      intros [] w3 (Hinv3 & l' & -> & Hne & Hj). split_and!; [done|by exists l'; cbn; rewrite El|].
      cbn [w_tab sessions set_sessions]. intros j s Hlt Hjs. change (~ stale now (w_tab w') s).
      destruct (decide (j = i)) as [->|]; [by apply Hj|].
      rewrite Hne in Hjs by done. apply (Hs j s); [lia|done]. }
  intros [] w3 (Hinv3 & [l3 E3] & Hs3).
  eapply (wp_conseq _ (fun _ w' => inv c w' /\ (exists l, w_tab w' = set_sessions l (w_tab w2)) /\
    forall j s, sessions (w_tab w') !! j = Some s -> ~ stale now (w_tab w') s)).
  - apply wp_foldM.
    + split_and!; [done|by eexists|]. intros j s Hj. destruct (decide (j < session_slots (w_tab w2))%nat).
      * by apply (Hs3 j).
      * intros [Ha _]. rewrite (slots_rest _ (wf_slots _ (proj1 Hinv3)) j s) in Ha; [done|done|].
        rewrite E3. cbn. lia.
    + intros j e w' [_ Hj]%elem_of_seq (Hinv' & [l El] & Hs). eapply wp_conseq; [apply wp_hk_keepalive; [done|lia]|].
      intros e' w4 (Hinv4 & l' & o' & -> & Hl'). split_and!; [done|by exists l'; cbn; rewrite El|].
      cbn [w_tab sessions set_sessions]. intros k s' Hk [Ha Hst].
      destruct (Hl' k s' Hk) as (s & Hks & Ea & El2). apply (Hs k s Hks). split; [congruence|]. by rewrite <- El2.
  - intros e w' (Hinv' & [l El] & Hs). split_and!; [done| |done].
    intros j p Hj. rewrite El in Hj |- *. cbn in Hj. apply (Hpend j p); [|done].
    rewrite <- (wf_pending_array _ (proj1 Hinv2)). by eapply lookup_lt_Some.
Qed.

Lemma wp_housekeeping_iter c n last enc (w : world) :
  inv c w -> wp (housekeeping_iter c n last enc) (fun _ => inv c) w.
Proof.
  revert last enc w. induction n as [|n IH]; intros last enc w Hinv; cbn [housekeeping_iter]; [by wp_step|].
  apply wp_bind, (inv_time c); [done|]. intros now o' _ Hinv'. destruct (_ <=? _); [|by apply IH].
  apply wp_bind. eapply wp_conseq; [by apply wp_housekeeping_tick|]. intros e w' [? _]. by apply IH.
Qed.

(** ** The process

    Workers and the housekeeping thread take turns: an event handled by some
    worker, with whatever its cipher contexts hold, or a tick. *)

Inductive step (c : loop_ctx) (w : world) : world -> Prop :=
| step_event e ctxs r w' : on_event c e ctxs w = Ret r w' -> step c w w'
| step_tick now enc r w' : housekeeping_tick c now enc w = Ret r w' -> step c w w'.

(** The state [main] hands to [start_peer]: the tables of the configuration,
    everything else zero. *)
Definition boot (o : os) (tm : timing) (cfgs : list peer_config) : world :=
  World _ o (Tables tm cfgs (replicate MAX_PEERS zero_session) 0 (replicate MAX_PEERS zero_pending)
               None zero_key).

(** A configuration [main] accepts and a static key that was loaded; the bound
    on [rekey_after] is the largest that does not overflow an [int]. *)
Record boot_ok (c : loop_ctx) (o : os) (tm : timing) (cfgs : list peer_config) : Prop := {
  boot_os : os_wf o;
  boot_key : is_Some (os_keys o !! static_key c);
  boot_pub : length (ctx_static_pub c) = DH_PUBKEY_LEN;
  boot_count : (length cfgs <= MAX_PEERS)%nat;
  boot_cfgs : Forall config_wf cfgs;
  boot_rekey : 0 < cfg_rekey_after tm <= 2 ^ 29 - 1;
}.

(** States after [start_peer] has prepared its ephemeral key. *)
Definition reachable (c : loop_ctx) (o : os) (tm : timing) (cfgs : list peer_config) (w : world) : Prop :=
  exists w0, refresh_precomp_eph (boot o tm cfgs) = Ret tt w0 /\ rtc (step c) w0 w.

Lemma zero_session_wf : session_wf zero_session.
Proof. constructor; try done; [eexists; apply refines_init|cbn; lia]. Qed.

Lemma keys_boot c o tm cfgs :
  os_wf o -> is_Some (os_keys o !! static_key c) -> length (ctx_static_pub c) = DH_PUBKEY_LEN ->
  keys_wf c o (w_tab (boot o tm cfgs)).
Proof.
  intros. assert (owned c (w_tab (boot o tm cfgs)) = [static_key c]) as E by done.
  constructor; try done; rewrite E; [apply NoDup_singleton|]. intros h ->%list_elem_of_singleton. done.
Qed.

Lemma inv_boot c o tm cfgs : boot_ok c o tm cfgs -> inv c (boot o tm cfgs).
Proof.
  intros []. split; [|by apply keys_boot]. constructor; cbn -[replicate]; try done.
  - constructor; cbn -[replicate]; [by rewrite length_replicate|lia|..].
    + by intros i s [-> _]%lookup_replicate.
    + by intros i j a b [-> _]%lookup_replicate.
  - apply Forall_replicate, zero_session_wf.
  - by apply Forall_replicate.
  - by intros i s [-> _]%lookup_replicate.
Qed.

Lemma step_inv c w w' : inv c w -> step c w w' -> inv c w'.
Proof.
  intros Hinv [e ctxs r w1 E|now enc r w1 E].
  - by apply (wp_run _ _ _ _ _ (wp_on_event c e ctxs w Hinv) E).
  - by destruct (wp_run _ _ _ _ _ (wp_housekeeping_tick c now enc w Hinv) E).
Qed.

Lemma reachable_inv c o tm cfgs w : boot_ok c o tm cfgs -> reachable c o tm cfgs w -> inv c w.
Proof.
  intros Hb (w0 & E & Hr). assert (inv c w0) as Hinv0.
  { apply (wp_run _ _ _ _ _ (wp_refresh_precomp c _ _ (inv_boot c o tm cfgs Hb)) E). }
  clear E. induction Hr; [done|]. eauto using step_inv.
Qed.

Lemma wp_not_UB {S A} (m : M S A) Q s : wp m Q s -> m s <> UB.
Proof. unfold wp. by destruct (m s). Qed.

(** No run of the process is undefined.  From every reachable state, any
    sequence of wake-ups of a worker, with any packets on the socket and the TUN
    device, and any number of iterations of the housekeeping thread stays inside
    every buffer and array, uses and frees no dead key and overflows no [int]. *)
Theorem threads_never_undefined c o tm cfgs w :
  boot_ok c o tm cfgs -> reachable c o tm cfgs w ->
  (forall epoll_ok ws, worker_loop c epoll_ok ws w <> UB) /\
  (forall n, housekeeping_loop c n w <> UB).
Proof.
  intros Hb Hr. pose proof (reachable_inv _ _ _ _ _ Hb Hr) as Hinv. split.
  - intros ok ws. apply (wp_not_UB _ (fun _ => inv c)). unfold worker_loop.
    apply wp_bind, (wp_ctx_new c); [done|]. intros enc w1 Hi1.
    apply wp_bind, (wp_ctx_new c); [done|]. intros dec w2 Hi2.
    destruct enc as [enc|], dec as [dec|]; try by wp_step.
    destruct ok; cbn [negb]; [by apply wp_worker_iter|by wp_step].
  - intros n. apply (wp_not_UB _ (fun _ => inv c)). unfold housekeeping_loop.
    apply wp_bind, (wp_ctx_new c); [done|]. intros [enc|] w1 Hi1; [|by wp_step].
    by apply wp_housekeeping_iter.
Qed.

(** C20: The session table of a reachable state.  At most 64 slots are in use; an
    active session belongs to a configured peer and routes exactly the prefixes
    of that peer; no two active sessions have the same public key; and what the
    replay window of a session records is a set of received numbers. *)
Theorem session_table_invariant c o tm cfgs w :
  boot_ok c o tm cfgs -> reachable c o tm cfgs w ->
  (session_slots (w_tab w) <= MAX_PEERS)%nat /\
  forall i s, sessions (w_tab w) !! i = Some s -> active s = true ->
    (i < session_slots (w_tab w))%nat /\
    (exists cfg, cfg ∈ peer_configs (w_tab w) /\ pc_pub cfg = static_pub s /\ pc_routes cfg = routes s) /\
    (forall j s', sessions (w_tab w) !! j = Some s' -> active s' = true ->
       static_pub s' = static_pub s -> j = i) /\
    exists a, refines (replay s) a.
Proof.
  intros Hb Hr. destruct (reachable_inv _ _ _ _ _ Hb Hr) as [[[Hl Hbd Hrest Hu] Hs _ _ _ _ _ _ Hkn] _].
  split; [done|]. intros i s Hi Ha. split_and!.
  - destruct (decide (i < session_slots (w_tab w))%nat); [done|].
    rewrite (Hrest i s) in Ha; [done|done|lia].
  - by eapply Hkn.
  - intros j s' Hj Ha' E. by apply (Hu j i s' s).
  - by apply (Forall_lookup_1 _ _ _ _ Hs Hi).
Qed.

(** C21: A tick of the housekeeping thread always completes, and after it no
    handshake is pending beyond [handshake_timeout] and no session is active
    that was silent for longer than [session_expiry]. *)
Theorem housekeeping_expires c o tm cfgs w now enc :
  boot_ok c o tm cfgs -> reachable c o tm cfgs w ->
  exists e w', housekeeping_tick c now enc w = Ret e w' /\
    (forall j p, pending_hs (w_tab w') !! j = Some p -> p_active p = true ->
       now - sent_at p < cfg_handshake_timeout (timers (w_tab w'))) /\
    (forall j s, sessions (w_tab w') !! j = Some s -> active s = true ->
       now - last_activity s <= cfg_session_expiry (timers (w_tab w'))).
Proof.
  intros Hb Hr. pose proof (reachable_inv _ _ _ _ _ Hb Hr) as Hinv.
  destruct (wp_elim _ _ _ (wp_housekeeping_tick c now enc w Hinv)) as (e & w' & E & _ & Hp & Hs).
  exists e, w'. split_and!; [done|..].
  - intros j p Hj Ha. apply Z.nle_gt. intros ?. by apply (Hp j p Hj).
  - intros j s Hj Ha. apply Z.nlt_ge. intros ?. by apply (Hs j s Hj).
Qed.

(** C9: What a data packet can cause.  The handler always completes, and it
    changes what was sent or written only if the packet came from the address of
    an active session, opened under the session's current key (or under the
    previous key within its grace period), carried the header, passed the replay
    test when it was under the current key, had a payload, and, for an IPv4
    payload of a session with routes, had an allowed source address; then the
    effect is one write of exactly the payload to the TUN device or one datagram,
    the payload sealed under the key and the next number of the other session it
    is routed to, for the address of that session. *)
Theorem data_output_authorised c o tm cfgs w src pkt now enc dec :
  boot_ok c o tm cfgs -> reachable c o tm cfgs w -> (length pkt <= WIRE_CAP)%nat ->
  exists r w', on_data src pkt now enc dec w = Ret r w' /\
    on_data_post src pkt now (w_os w) (w_tab w) (w_os w').
Proof.
  intros Hb Hr Hl. pose proof (reachable_inv _ _ _ _ _ Hb Hr) as Hinv. destruct w as [o1 t1].
  destruct (wp_elim _ _ _ (wp_on_data c src pkt now enc dec o1 t1 Hinv Hl)) as (r & w' & E & _ & _ & Hp).
  eauto.
Qed.

(** The tie-breaking of simultaneous handshakes never decides anything: a
    handshake packet from the address of a pending handshake is always taken for
    the response, so the loop that compares the public keys is only reached when
    there is nothing to compare. *)
Theorem tie_break_is_dead c src pkt now w :
  on_handshake c src pkt now w =
  match find_pending (w_tab w) src with
  | Some j => on_response c j src pkt w
  | None => on_initiation c src pkt now w
  end.
Proof.
  unfold on_handshake, tie_break, bind, tab, gets.
  destruct (find_pending (w_tab w) src) eqn:E; [done|]. by rewrite E.
Qed.

(** A packet that is not a valid response closes the pending handshake it
    was taken for, and its ephemeral key stays allocated with nothing left that
    refers to it. *)
Theorem failed_response_leaks_key c o tm cfgs w src pkt now j p cfg st o1 :
  boot_ok c o tm cfgs -> reachable c o tm cfgs w ->
  find_pending (w_tab w) src = Some j -> pending_hs (w_tab w) !! j = Some p ->
  peer_configs (w_tab w) !! cfg_idx p = Some cfg ->
  handshake_client_recv pkt (psk_key c) (Some (static_key c)) (ctx_static_pub c) (pc_pub cfg)
    (hs_state p) (w_os w) = Ret (None, st) o1 ->
  exists h w', eph_key (hs_state p) = Some h /\
    on_handshake c src pkt now w = Ret tt w' /\
    is_Some (os_keys (w_os w') !! h) /\ h ∉ owned c (w_tab w').
Proof.
  intros Hb Hr Hf Hj Hc E. pose proof (reachable_inv _ _ _ _ _ Hb Hr) as Hinv.
  destruct w as [o0 t]. cbn [w_tab w_os] in *. pose proof Hinv as [Ht Hk].
  apply find_pending_Some in Hf as Hf'. destruct Hf' as (p' & Hp' & Ha & _).
  assert (p' = p) as -> by congruence.
  destruct (Forall_lookup_1 _ _ _ _ (wf_pending t Ht) Hj Ha) as [_ [h Eh]].
  pose proof (pending_live c o0 t j p Hk Hj Ha) as Hl. rewrite Eh in Hl. cbn in Hl.
  pose proof (wp_client_recv pkt (psk_key c) (Some (static_key c)) (ctx_static_pub c) (pc_pub cfg)
    (hs_state p) o0 (keys_os _ _ _ Hk) ltac:(by eapply owned_live; [|right]) ltac:(by rewrite Eh)) as Hw.
  unfold wp in Hw. rewrite E in Hw. destruct Hw as [Hq Est]. cbn in Est. subst st.
  set (q := set_hs_state (hs_state p) (set_p_active false p)).
  set (t1 := set_pending_hs (<[j := q]> (pending_hs t)) t).
  assert (inv c (World _ o1 t1)) as Hinv1.
  { apply (inv_close_pending c o0 o1 t j p); try done. by right. }
  enough (wp (on_handshake c src pkt now)
    (fun _ w' => is_Some (os_keys (w_os w') !! h) /\ h ∉ owned c (w_tab w')) (World _ o0 t)) as Hwp.
  { destruct (wp_elim _ _ _ Hwp) as ([] & w' & ? & ? & ?). eauto 10. }
  unfold on_handshake. apply wp_bind, wp_tab. cbn [w_tab]. rewrite Hf. unfold on_response, accept_response.
  apply wp_bind, wp_bind. eapply wp_pending_at; [done|]. apply wp_bind. eapply wp_config_at; [done|].
  apply wp_bind. eapply wp_upd_pending; [done|]. apply wp_bind, wp_liftO.
  eapply wp_of_run; [exact E|]. apply wp_bind. eapply wp_upd_pending.
  { cbn. apply list_lookup_insert_eq. by eapply lookup_lt_Some. }
  unfold set_pending_hs. cbn [timers peer_configs sessions session_slots pending_hs
    precomp_eph_key precomp_eph_pub]. rewrite list_insert_insert_eq.
  apply wp_bind. eapply wp_conseq; [by apply (wp_mark_rekeying c)|]. intros [] w' [_ [l ->]]. wp_step. cbn [install]. wp_step. split.
  - cbn. by rewrite (quiet_keys _ _ Hq).
  - change (h ∉ owned c t1). destruct (owned_pending c t j p Hj) as (rest & E1 & E2).
    intros Hin. unfold t1 in Hin. rewrite E2 in Hin. cbn in Hin.
    pose proof (keys_nodup _ _ _ Hk) as Hn. cbn in Hn. rewrite E1 in Hn.
    unfold pending_key in Hn. rewrite Ha, Eh in Hn. apply NoDup_cons in Hn as [? _]. done.
Qed.

(** A handshake packet is ignored during the cooldown.  When the address has
    a session whose last handshake is less than [handshake_cooldown] ago and no
    handshake with that address is pending, the packet changes nothing and
    nothing is sent. *)
Theorem cooldown_ignores_handshake c src pkt now w i s :
  find_pending (w_tab w) src = None ->
  find_session_by_addr (w_tab w) src = Some i -> sessions (w_tab w) !! i = Some s ->
  now - last_handshake s < cfg_handshake_cooldown (timers (w_tab w)) ->
  on_handshake c src pkt now w = Ret tt w.
Proof.
  intros Hp Hf Hs Hlt.
  enough (wp (on_handshake c src pkt now) (fun _ w' => w' = w) w) as Hwp.
  { by destruct (wp_elim _ _ _ Hwp) as ([] & w' & E & ->). }
  unfold on_handshake. apply wp_bind, wp_tab. rewrite Hp.
  unfold tie_break. apply wp_bind, wp_bind, wp_tab. rewrite Hp. wp_step.
  unfold on_initiation, accept_initiation. apply wp_bind, wp_bind, wp_tab. rewrite Hf. cbn [in_cooldown].
  apply wp_bind, wp_bind. eapply wp_session_at; [done|]. wp_step.
  replace (_ <? _) with true by lia. wp_step. cbn [install]. by wp_step.
Qed.

Lemma wp_refresh_frame c o t :
  keys_wf c o t ->
  wp refresh_precomp_eph
     (fun _ w' => os_sent (w_os w') = os_sent o /\
        exists k pub, w_tab w' = set_precomp k pub t) (World _ o t).
Proof.
  intros Hk. unfold refresh_precomp_eph. apply wp_bind, wp_tab. cbv zeta. cbn [w_tab].
  apply wp_bind, wp_liftO. eapply wp_conseq; [apply wp_generate_eph_keypair, Hk|].
  intros [[nk pub]|] o1; cbn [keypair_post].
  2:{ intros Hq. wp_step. split; [apply Hq|]. exists (precomp_eph_key t), (precomp_eph_pub t). by destruct t. }
  intros (k & Hfresh & Hkeys & _ & Hs & _). apply wp_bind, wp_modify, wp_liftO. cbn [w_tab w_os].
  destruct (precomp_eph_key t) as [old|] eqn:Eold.
  - assert (is_Some (os_keys o !! old)) as [ko Hold] by (eapply owned_live; [done|by left]).
    eapply wp_pkey_free; [rewrite Hkeys, lookup_insert_ne by congruence; done|].
    split; [done|]. by eexists _, _.
  - split; [done|]. by eexists _, _.
Qed.

(** The responder answers before it knows whether it will accept.  For a
    valid initiation by a peer that is not configured the response goes out and
    no session is made. *)
Theorem unknown_peer_is_answered c o tm cfgs w src pkt now pub key o1 :
  boot_ok c o tm cfgs -> reachable c o tm cfgs w ->
  find_pending (w_tab w) src = None -> find_session_by_addr (w_tab w) src = None ->
  handshake_server_respond pkt src (psk_key c) (Some (static_key c)) (ctx_static_pub c)
    (precomp_eph_key (w_tab w)) (precomp_eph_pub (w_tab w)) (w_os w) = Ret (Some (pub, key)) o1 ->
  find_peer_config (w_tab w) pub = None ->
  exists resp w', on_handshake c src pkt now w = Ret tt w' /\
    os_sent (w_os w') = os_sent (w_os w) ++ [(src, resp)] /\ length resp = hs_size (psk_key c) /\
    sessions (w_tab w') = sessions (w_tab w).
Proof.
  intros Hb Hr Hp Hf E Hcfg. pose proof (reachable_inv _ _ _ _ _ Hb Hr) as Hinv.
  destruct w as [o0 t]. cbn [w_tab w_os] in *. pose proof Hinv as [Ht Hk].
  assert (live o0 (Some (static_key c))) as Hsk by (by eapply owned_live; [|right]).
  assert (live o0 (precomp_eph_key t)) as Hek.
  { destruct (precomp_eph_key t) eqn:Ee; [|done]. eapply owned_live; [done|by left]. }
  pose proof (wp_server_respond pkt src (psk_key c) _ (ctx_static_pub c) _ (precomp_eph_pub t) o0
    (keys_os _ _ _ Hk) Hsk Hek (keys_static_pub _ _ _ Hk) (wf_precomp_pub _ Ht)) as Hw.
  unfold wp in Hw. rewrite E in Hw. destruct Hw as (pkts & Hsends & Hlen).
  destruct (Hlen _ _ eq_refl) as (H1len & _). destruct pkts as [|resp [|]]; try done.
  destruct Hsends as [Hkeys Htun Hwf Hsent _ Hsize]. apply Forall_cons in Hsize as [Hsize _].
  enough (wp (on_handshake c src pkt now)
    (fun _ w' => os_sent (w_os w') = os_sent o1 /\ sessions (w_tab w') = sessions t)
    (World _ o0 t)) as Hwp.
  { destruct (wp_elim _ _ _ Hwp) as ([] & w' & ? & Hs' & ?). exists resp, w'.
    split_and!; [done|by rewrite Hs', Hsent|exact Hsize|done]. }
  unfold on_handshake. apply wp_bind, wp_tab. cbn [w_tab]. rewrite Hp.
  unfold tie_break. apply wp_bind, wp_bind, wp_tab. cbn [w_tab]. rewrite Hp. wp_step.
  unfold on_initiation, accept_initiation. apply wp_bind, wp_bind, wp_tab. cbn [w_tab]. rewrite Hf. cbn [in_cooldown].
  apply wp_bind, wp_ret, wp_bind, wp_liftO. eapply wp_of_run; [exact E|].
  apply wp_bind. eapply wp_conseq.
  { apply (wp_refresh_frame c). by eapply keys_wf_same. }
  intros [] w2 (Hs2 & Ht2). apply wp_bind, wp_tab.
  destruct Ht2 as (k & ep & Ht2). rewrite Ht2. unfold find_peer_config in Hcfg |- *.
  cbn [peer_configs set_precomp]. rewrite Hcfg. wp_step. cbn [install]. wp_step. by rewrite Ht2.
Qed.
End Safety.

(** ** Concrete runs *)

#[local] Existing Instance Toy.ssl.
#[local] Existing Instance Toy.env.
#[local] Existing Instance Toy.ssl_sizes.

Definition toy_peer : loop_ctx := LoopCtx 0 (Toy.pub_of toy_ks) None 25.
Definition toy_peer_os : os := Os _ 0 {[0%nat := toy_ks]} 1 [] [].
Definition toy_peer_cfg : peer_config :=
  PeerConfig (Toy.pub_of toy_kc) [route_a] true (SockAddr 0x7f000001 5040) EmptyString 5040 0.

Lemma toy_boot_ok : boot_ok toy_peer toy_peer_os default_timing [toy_peer_cfg].
Proof.
  constructor.
  - intros h [k Hk]. cbn in Hk. apply lookup_singleton_Some in Hk as [<- _]. cbn. lia.
  - by eexists.
  - reflexivity.
  - apply Nat.leb_le. reflexivity.
  - repeat constructor; cbn; (done || lia).
  - cbn. unfold REKEY_AFTER_SECS. lia.
Qed.

(** After [start_peer]; after a first tick, which starts a handshake. *)
Definition toy_boot : world := boot toy_peer_os default_timing [toy_peer_cfg].
Definition toy_started : world := run_end (refresh_precomp_eph toy_boot) toy_boot.
Definition toy_connecting : world :=
  run_end (housekeeping_tick toy_peer 1000 toy_ctx toy_started) toy_started.

Lemma toy_started_reachable :
  reachable toy_peer toy_peer_os default_timing [toy_peer_cfg] toy_started.
Proof. exists toy_started. split; [apply run_eta; vm_compute; reflexivity|apply rtc_refl]. Qed.

Lemma toy_connecting_reachable :
  reachable toy_peer toy_peer_os default_timing [toy_peer_cfg] toy_connecting.
Proof.
  exists toy_started. split; [apply run_eta; vm_compute; reflexivity|]. apply rtc_once.
  destruct (run_res (housekeeping_tick toy_peer 1000 toy_ctx toy_started)) as [a|] eqn:E;
    [by eapply step_tick, run_eta|]. vm_compute in E. discriminate.
Qed.

(** An initiation by the configured peer, and a packet for one of its routes. *)
Definition toy_friend : os := Os _ 0 {[0%nat := toy_kc]} 1 [] [].
Definition toy_init : bytes :=
  match os_sent (run_end (handshake_client_send zero_addr None (Toy.pub_of toy_kc)
                            (Some (Toy.pub_of toy_ks)) toy_friend) toy_friend) with
  | (_, pkt) :: _ => pkt
  | [] => []
  end.
Definition toy_ip : bytes := Byte.x45 :: replicate 15 Byte.x00 ++ [Byte.x0a; Byte.x00; Byte.x00; Byte.x05].

(** The peer has answered the initiation; then a packet under the new key arrives. *)
Definition toy_knock : event := EvUdp (Some (SockAddr 9 9, toy_init)).
Definition toy_connected : world := run_end (on_event toy_peer toy_knock (toy_ctx, toy_ctx) toy_started) toy_started.
Definition toy_link_key : bytes := session_key (default zero_session (sessions (w_tab toy_connected) !! 0%nat)).
Definition toy_inner : bytes := Byte.x45 :: replicate 11 Byte.x00 ++ [Byte.x0a; Byte.x00; Byte.x00; Byte.x05] ++
  [Byte.xc0; Byte.xa8; Byte.x00; Byte.x01].
Definition toy_datagram : bytes :=
  default [] (default (toy_ctx, None) (run_res (encrypt_packet toy_ctx toy_link_key (data_plain 0 toy_inner) WIRE_CAP toy_os))).2.

Lemma toy_connected_reachable :
  reachable toy_peer toy_peer_os default_timing [toy_peer_cfg] toy_connected.
Proof.
  exists toy_started. split; [apply run_eta; vm_compute; reflexivity|]. apply rtc_once.
  destruct (run_res (on_event toy_peer toy_knock (toy_ctx, toy_ctx) toy_started)) as [a|] eqn:E;
    [by eapply step_event, run_eta|]. vm_compute in E. discriminate.
Qed.

Lemma threads_never_undefined_witness :
  (forall epoll_ok ws, worker_loop toy_peer epoll_ok ws toy_connecting <> UB) /\
  (forall n, housekeeping_loop toy_peer n toy_connecting <> UB).
Proof.
  exact (threads_never_undefined toy_peer toy_peer_os default_timing [toy_peer_cfg] toy_connecting
           toy_boot_ok toy_connecting_reachable).
Defined.

Lemma session_table_invariant_witness :
  (session_slots (w_tab toy_connected) <= MAX_PEERS)%nat /\
  forall i s, sessions (w_tab toy_connected) !! i = Some s -> active s = true ->
    (i < session_slots (w_tab toy_connected))%nat /\
    (exists cfg, cfg ∈ peer_configs (w_tab toy_connected) /\ pc_pub cfg = static_pub s /\
       pc_routes cfg = routes s) /\
    (forall j s', sessions (w_tab toy_connected) !! j = Some s' -> active s' = true ->
       static_pub s' = static_pub s -> j = i) /\
    exists a, refines (replay s) a.
Proof.
  exact (session_table_invariant toy_peer toy_peer_os default_timing [toy_peer_cfg] toy_connected
           toy_boot_ok toy_connected_reachable).
Defined.

Lemma housekeeping_expires_witness :
  exists e w', housekeeping_tick toy_peer 2000 toy_ctx toy_connecting = Ret e w' /\
    (forall j p, pending_hs (w_tab w') !! j = Some p -> p_active p = true ->
       2000 - sent_at p < cfg_handshake_timeout (timers (w_tab w'))) /\
    (forall j s, sessions (w_tab w') !! j = Some s -> active s = true ->
       2000 - last_activity s <= cfg_session_expiry (timers (w_tab w'))).
Proof.
  exact (housekeeping_expires toy_peer toy_peer_os default_timing [toy_peer_cfg] toy_connecting
           2000 toy_ctx toy_boot_ok toy_connecting_reachable).
Defined.

Lemma data_output_authorised_witness :
  exists r w', on_data (SockAddr 9 9) toy_datagram 1010 toy_ctx toy_ctx toy_connected = Ret r w' /\
    os_tun (w_os w') = [toy_inner] /\
    on_data_post (SockAddr 9 9) toy_datagram 1010 (w_os toy_connected) (w_tab toy_connected) (w_os w').
Proof.
  destruct (data_output_authorised toy_peer toy_peer_os default_timing [toy_peer_cfg] toy_connected
           (SockAddr 9 9) toy_datagram 1010 toy_ctx toy_ctx toy_boot_ok toy_connected_reachable)
    as (r & w' & E & Hp); [apply Nat.leb_le; vm_compute; reflexivity|].
  exists r, w'. split; [exact E|]. split; [|exact Hp].
  assert (w' = run_end (on_data (SockAddr 9 9) toy_datagram 1010 toy_ctx toy_ctx toy_connected) toy_connected)
    as -> by (rewrite E; reflexivity).
  vm_compute. reflexivity.
Defined.

Lemma cooldown_ignores_handshake_witness :
  on_handshake toy_peer zero_addr toy_pkt 3 (World _ toy_peer_os toy_routes)
  = Ret tt (World _ toy_peer_os toy_routes).
Proof.
  apply (cooldown_ignores_handshake toy_peer zero_addr toy_pkt 3 (World _ toy_peer_os toy_routes)
           0%nat (routed route_a)); reflexivity.
Defined.

(** A handshake packet that answers nothing. *)
Definition toy_noise : bytes := pkt_header ++ replicate 80 Byte.x00.
Definition toy_pending : pending_hs_t := default zero_pending (pending_hs (w_tab toy_connecting) !! 0%nat).
Definition toy_connecting_cfg : peer_config :=
  default zero_config (peer_configs (w_tab toy_connecting) !! 0%nat).
Abbreviation toy_failed :=
  (handshake_client_recv toy_noise (psk_key toy_peer) (Some (static_key toy_peer))
    (ctx_static_pub toy_peer) (pc_pub toy_connecting_cfg) (hs_state toy_pending)
    (w_os toy_connecting)).

Lemma toy_failed_run :
  toy_failed = Ret (None, hs_state toy_pending) (run_end toy_failed (w_os toy_connecting)).
Proof. apply run_eta. vm_compute. reflexivity. Qed.

Lemma failed_response_leaks_key_witness :
  exists h w', eph_key (hs_state toy_pending) = Some h /\
    on_handshake toy_peer (SockAddr 0x7f000001 5040) toy_noise 1001 toy_connecting = Ret tt w' /\
    is_Some (os_keys (w_os w') !! h) /\ h ∉ owned toy_peer (w_tab w').
Proof.
  apply (failed_response_leaks_key toy_peer toy_peer_os default_timing [toy_peer_cfg] toy_connecting
    (SockAddr 0x7f000001 5040) toy_noise 1001 0%nat toy_pending toy_connecting_cfg
    (hs_state toy_pending) (run_end toy_failed (w_os toy_connecting))
    toy_boot_ok toy_connecting_reachable);
    [vm_compute; reflexivity..|].
  exact toy_failed_run.
Defined.

(** An initiation by a peer whose key is not configured. *)
Definition toy_stranger : os := Os _ 0 {[0%nat := toy_ke]} 1 [] [].
Definition toy_hello : bytes :=
  match os_sent (run_end (handshake_client_send zero_addr None (Toy.pub_of toy_ke)
                            (Some (Toy.pub_of toy_ks)) toy_stranger) toy_stranger) with
  | (_, pkt) :: _ => pkt
  | [] => []
  end.
Abbreviation toy_answer :=
  (handshake_server_respond toy_hello (SockAddr 2 2) (psk_key toy_peer) (Some (static_key toy_peer))
    (ctx_static_pub toy_peer) (precomp_eph_key (w_tab toy_started)) (precomp_eph_pub (w_tab toy_started)) (w_os toy_started)).
Definition toy_answer_key : bytes :=
  match run_res toy_answer with Some (Some (_, k)) => k | _ => [] end.

Lemma toy_answer_run :
  toy_answer = Ret (Some (Toy.pub_of toy_ke, toy_answer_key)) (run_end toy_answer (w_os toy_started)).
Proof. apply run_eta. vm_compute. reflexivity. Qed.

Lemma unknown_peer_is_answered_witness :
  exists resp w', on_handshake toy_peer (SockAddr 2 2) toy_hello 1001 toy_started = Ret tt w' /\
    os_sent (w_os w') = os_sent (w_os toy_started) ++ [(SockAddr 2 2, resp)] /\
    length resp = hs_size (psk_key toy_peer) /\ sessions (w_tab w') = sessions (w_tab toy_started).
Proof.
  apply (unknown_peer_is_answered toy_peer toy_peer_os default_timing [toy_peer_cfg] toy_started
    (SockAddr 2 2) toy_hello 1001 (Toy.pub_of toy_ke) toy_answer_key
    (run_end toy_answer (w_os toy_started)) toy_boot_ok toy_started_reachable);
    [vm_compute; reflexivity..| |vm_compute; reflexivity].
  exact toy_answer_run.
Defined.
