(* ===== verification/Frames.v ===== *)
(** * What the handlers leave alone

    The fields of a session by the lock that guards them, and for every piece of a
    handler which of them it may change.  Used for the threads (Interleave) and for
    replays (Tunnel). *)

From S2P Require Import Prelude Replay Platform Crypto Handshake Hex Cidr Session Peer Invariant Safety.

(** ** The fields of [peer_session_t] by the lock that guards them *)

Definition structural (s : peer_session) :=
  (active s, static_pub s, routes s, is_outbound s, rekeying s, rekey_deadline s, last_handshake s).

Definition hot_part (s : peer_session) :=
  (addr s, send_seq s, replay s, session_key s, prev_session_key s, prev_key_active s,
   prev_key_expires s, last_seen s, last_sent s).

Section Frames.
Context `{Env}.

(** No per-packet field of any session changes. *)
Definition cold (t t' : tables) : Prop := hot_part <$> sessions t' = hot_part <$> sessions t.

(** No key and no replay window of any session changes. *)
Definition vault (t t' : tables) : Prop :=
  (fun s => (session_key s, replay s)) <$> sessions t' = (fun s => (session_key s, replay s)) <$> sessions t.

(** Only per-packet fields of session [i] change. *)
Definition only (i : nat) (t t' : tables) : Prop :=
  exists l, t' = set_sessions l t /\ structural <$> l = structural <$> sessions t /\
    forall j, j <> i -> l !! j = sessions t !! j.

#[export] Instance cold_preorder : PreOrder cold.
Proof. split; [done|]. intros ??? E1 E2. red. by rewrite E2. Qed.

#[export] Instance vault_preorder : PreOrder vault.
Proof. split; [done|]. intros ??? E1 E2. red. by rewrite E2. Qed.

Lemma vault_cold t t' : cold t t' -> vault t t'.
Proof.
  intros E%(f_equal (fmap (fun h => let '(_, _, r, k, _, _, _, _, _) := h in (k, r)))).
  rewrite <- !list_fmap_compose in E. exact E.
Qed.

#[export] Instance only_preorder i : PreOrder (only i).
Proof.
  split.
  - intros t. exists (sessions t). split_and!; [by destruct t|done..].
  - intros t1 t2 t3 (l & -> & Es & Ej) (l' & -> & Es' & Ej'). exists l'. cbn in *.
    split_and!; [done|congruence|]. intros j Hj. by rewrite Ej', Ej.
Qed.

(** A computation that relates the tables before and after by [R]. *)
Definition frame {A} (R : tables -> tables -> Prop) (m : M world A) : Prop :=
  forall w, match m w with Ret _ w' => R (w_tab w) (w_tab w') | UB => True end.

Lemma frame_weaken {A} (R R' : tables -> tables -> Prop) (m : M world A) :
  (forall t t', R t t' -> R' t t') -> frame R m -> frame R' m.
Proof. intros HR Hm w. specialize (Hm w). destruct (m w); [by apply HR|done]. Qed.

Section Rules.
Context (R : tables -> tables -> Prop) `{!PreOrder R}.

Lemma frame_ret {A} (a : A) : frame R (ret a).
Proof. intros w. cbn. reflexivity. Qed.

Lemma frame_bind {A B} (m : M world A) (f : A -> M world B) :
  frame R m -> (forall a, frame R (f a)) -> frame R (bind m f).
Proof.
  intros Hm Hf w. unfold bind. specialize (Hm w). destruct (m w) as [a w1|]; [|done].
  specialize (Hf a w1). destruct (f a w1); [|done]. by etrans.
Qed.

Lemma frame_liftO {A} (m : M os A) : frame R (liftO m).
Proof. intros w. unfold liftO, zoom. destruct (m (w_os w)); cbn; [reflexivity|done]. Qed.

Lemma frame_tab : frame R tab.
Proof. intros w. cbn. reflexivity. Qed.

Lemma frame_guard b : frame R (guard b).
Proof. intros w. unfold guard. destruct b; cbn; [reflexivity|done]. Qed.

Lemma frame_at_index {A} (l : list A) i : frame R (at_index l i).
Proof. intros w. unfold at_index. destruct (l !! i); cbn; [reflexivity|done]. Qed.

Lemma frame_foldM {A X} (f : A -> X -> M world A) l a :
  (forall a x, frame R (f a x)) -> frame R (foldM f l a).
Proof.
  intros Hf. revert a. induction l as [|x l IH]; intros a; cbn [foldM]; [apply frame_ret|].
  by apply frame_bind.
Qed.

Lemma frame_mod_tab f : (forall t, R t (f t)) -> frame R (mod_tab f).
Proof. intros Hf [o t]. apply Hf. Qed.

Lemma frame_session_at i : frame R (session_at i).
Proof. apply frame_bind; [apply frame_tab|]. intros t. apply frame_at_index. Qed.
Lemma frame_config_at i : frame R (config_at i).
Proof. apply frame_bind; [apply frame_tab|]. intros t. apply frame_at_index. Qed.
Lemma frame_pending_at i : frame R (pending_at i).
Proof. apply frame_bind; [apply frame_tab|]. intros t. apply frame_at_index. Qed.

Lemma frame_upd_session i f :
  (forall t s, sessions t !! i = Some s -> R t (set_sessions (<[i := f s]> (sessions t)) t)) ->
  frame R (upd_session i f).
Proof.
  intros Hf [o t]. unfold upd_session, session_at, bind, tab, gets, at_index. cbn.
  destruct (sessions t !! i) as [s|] eqn:E; [|done]. by apply Hf.
Qed.
End Rules.

Lemma cold_update t i s s' :
  sessions t !! i = Some s -> hot_part s' = hot_part s ->
  cold t (set_sessions (<[i := s']> (sessions t)) t).
Proof.
  intros Hs E. red. cbn. rewrite list_fmap_insert, E. apply list_insert_id. by rewrite list_lookup_fmap, Hs.
Qed.

Lemma only_update t i s s' :
  sessions t !! i = Some s -> structural s' = structural s ->
  only i t (set_sessions (<[i := s']> (sessions t)) t).
Proof.
  intros Hs E. eexists. split_and!; [done|..].
  - rewrite list_fmap_insert, E. apply list_insert_id. by rewrite list_lookup_fmap, Hs.
  - intros j Hj. by rewrite list_lookup_insert_ne.
Qed.

Lemma frame_cold_session i f : (forall s, hot_part (f s) = hot_part s) -> frame cold (upd_session i f).
Proof. intros Hf. apply frame_upd_session. intros t s Hs. by eapply cold_update. Qed.
Lemma frame_vault_session i f :
  (forall s, session_key (f s) = session_key s /\ replay (f s) = replay s) -> frame vault (upd_session i f).
Proof.
  intros Hf. apply frame_upd_session. intros t s Hs. destruct (Hf s) as [Ek Er]. red. cbn.
  rewrite list_fmap_insert, Ek, Er. apply list_insert_id. by rewrite list_lookup_fmap, Hs.
Qed.
Lemma frame_only_session i f : (forall s, structural (f s) = structural s) -> frame (only i) (upd_session i f).
Proof. intros Hf. apply frame_upd_session. intros t s Hs. by eapply only_update. Qed.
Lemma frame_cold_config i f : frame cold (upd_config i f).
Proof. apply frame_bind; [apply _|apply frame_config_at, _|]. intros x. by apply frame_mod_tab. Qed.
Lemma frame_cold_pending i f : frame cold (upd_pending i f).
Proof. apply frame_bind; [apply _|apply frame_pending_at, _|]. intros x. by apply frame_mod_tab. Qed.

Lemma frame_alloc_slot pub a : frame cold (alloc_slot pub a).
Proof.
  intros [o t]. unfold alloc_slot, bind, tab, gets, mod_tab, modify. cbn.
  destruct (alloc_session t pub a) as [i t'] eqn:E. cbn. red. f_equal.
  revert E. unfold alloc_session. repeat case_match; by intros [= <- <-].
Qed.
End Frames.

(** Decompose a computation; what remains are its updates. *)
Ltac frames :=
  repeat (intros; cbv zeta;
    first [ apply frame_ret, _ | apply frame_liftO, _ | apply frame_tab, _ | apply frame_guard, _
          | apply frame_session_at, _ | apply frame_config_at, _ | apply frame_pending_at, _
          | apply frame_cold_config | apply frame_cold_pending | apply frame_alloc_slot
          | apply frame_cold_session; done | apply frame_vault_session; done | apply frame_only_session; done
          | apply frame_mod_tab; done
          | apply frame_foldM; [apply _|] | apply frame_bind; [apply _|..]
          | progress case_match ]).

Section Writers.
Context `{Env}.

Lemma accept_response_cold c j src pkt : frame cold (accept_response c j src pkt).
Proof. unfold accept_response. frames. Qed.
Lemma tie_break_cold c src : frame cold (tie_break c src).
Proof. unfold tie_break. frames. Qed.
Lemma refresh_precomp_cold : frame cold refresh_precomp_eph.
Proof. unfold refresh_precomp_eph. frames. Qed.
Lemma accept_initiation_cold c src pkt now : frame cold (accept_initiation c src pkt now).
Proof. unfold accept_initiation, in_cooldown. frames. Qed.
Lemma hk_handshakes_cold c now : frame cold (hk_handshakes c now).
Proof. unfold hk_handshakes, hk_pending. frames. Qed.
Lemma session_open_cold i pub : frame cold (session_open i pub).
Proof. unfold session_open. frames. Qed.
Lemma session_close_cold i cfg out : frame cold (session_close i cfg out).
Proof. unfold session_close. frames. Qed.
Lemma session_rekey_only i a key was : frame (only i) (session_rekey i a key was).
Proof. unfold session_rekey. frames. Qed.
Lemma seal_for_only i enc payload : frame (only i) (seal_for i enc payload).
Proof. unfold seal_for. frames. Qed.
Lemma stamp_sent_only i : frame (only i) (stamp_sent i).
Proof. unfold stamp_sent. frames. Qed.
Lemma receive_only i pkt now dec : frame (only i) (receive i pkt now dec).
Proof. unfold receive, open_data, replay_gate. frames. Qed.
End Writers.
