(* ===== verification/Tunnel.v ===== *)
(** * The tunnel end to end

    Two peers that share a session key, with OpenSSL working as documented: what
    one forwards, the other writes to its TUN device, once. *)

From S2P Require Import Prelude Replay Platform Crypto Handshake Hex Cidr Session Peer Invariant Safety Frames.
From Stdlib Require Import Strings.Byte.

Section Tunnel.
Context `{OpenSSLOk}.

(** What a packet contains under a key. *)
Definition packet_open (key pkt : bytes) : option bytes :=
  if (length pkt <? CRYPTO_OVERHEAD)%nat then None else
  gcm_open key (slice 0 CRYPTO_IV_LEN pkt)
    (slice CRYPTO_IV_LEN (length pkt - CRYPTO_OVERHEAD) pkt)
    (slice (length pkt - CRYPTO_TAG_LEN) CRYPTO_TAG_LEN pkt).

(** [decrypt_packet] computes it, whatever the context holds. *)
Lemma wp_decrypt_det ctx key pkt o :
  length key = CRYPTO_KEY_LEN -> (length pkt <= WIRE_CAP)%nat ->
  wp (decrypt_packet ctx key pkt PLAIN_CAP) (fun r o' => o' = o /\ r.2 = packet_open key pkt) o.
Proof.
  intros Hk Hl. unfold packet_open. destruct (Nat.ltb_spec (length pkt) CRYPTO_OVERHEAD) as [Hs|Hs].
  - unfold decrypt_packet. rewrite (proj2 (Nat.ltb_lt _ _) Hs). by wp_step.
  - apply wp_decrypt_packet_ok; [done|done|sizes].
Qed.

Lemma packet_open_length (o : os) key pkt plain :
  length key = CRYPTO_KEY_LEN -> (length pkt <= WIRE_CAP)%nat ->
  packet_open key pkt = Some plain -> (length plain + CRYPTO_OVERHEAD)%nat = length pkt.
Proof.
  intros Hk Hl E. destruct (ok_cipher_ctx 0) as [ctx _].
  destruct (wp_elim _ _ _ (wp_decrypt_det ctx key pkt o Hk Hl)) as ([ctx' r] & o' & Er & -> & Hr).
  pose proof (wp_run _ _ _ _ _ (wp_decrypt_opens ctx key pkt o Hl) Er) as [_ Hp].
  cbn in Hr, Hp. rewrite E in Hr. by apply Hp.
Qed.

Lemma packet_open_seal key iv plain ct tag :
  length key = CRYPTO_KEY_LEN -> length iv = CRYPTO_IV_LEN -> gcm_seal key iv plain = (ct, tag) ->
  packet_open key (iv ++ ct ++ tag) = Some plain.
Proof.
  intros Hk Hi Hs. destruct (gcm_sizes key iv plain ct tag Hk Hi Hs) as [Hc Ht].
  assert (length (iv ++ ct ++ tag) = (length plain + CRYPTO_OVERHEAD)%nat) as Hlen
    by (rewrite !length_app; sizes).
  unfold packet_open. rewrite Hlen. destruct (Nat.ltb_spec (length plain + CRYPTO_OVERHEAD) CRYPTO_OVERHEAD); [lia|].
  apply ok_seal_open. rewrite slice_head, slice_mid by sizes.
  by rewrite app_assoc, slice_tail by (rewrite ?length_app; sizes).
Qed.

Lemma data_plain_fields seq payload :
  in_range 64 seq ->
  (HEADER_SIZE + SEQ_SIZE <= length (data_plain seq payload))%nat /\
  slice 0 HEADER_SIZE (data_plain seq payload) = pkt_header /\
  be_decode (slice HEADER_SIZE SEQ_SIZE (data_plain seq payload)) = seq /\
  drop (HEADER_SIZE + SEQ_SIZE) (data_plain seq payload) = payload.
Proof.
  intros Hseq. unfold data_plain. pose proof (length_be_encode SEQ_SIZE seq) as Hl. split_and!.
  - rewrite !length_app, Hl, length_pkt_header. lia.
  - by apply slice_head.
  - rewrite slice_mid by (done || by rewrite Hl). rewrite be_decode_encode. by apply (wrap_small 64).
  - rewrite app_assoc, drop_app_length'; [done|]. by rewrite length_app, Hl, length_pkt_header.
Qed.

(** ** Sending *)

Lemma wp_seal_ok i enc payload o t s :
  sessions t !! i = Some s -> length (session_key s) = CRYPTO_KEY_LEN ->
  (length payload <= BUFFER_SIZE)%nat ->
  wp (seal_for i enc payload)
     (fun r w' => exists o' wire, r.2 = Some (addr s, wire) /\ os_quiet o o' /\
        w' = World _ o' (set_sessions (<[i := numbered s]> (sessions t)) t) /\
        length wire = (length payload + WIRE_OVERHEAD)%nat /\
        packet_open (session_key s) wire = Some (data_plain (send_seq s) payload)) (World _ o t).
Proof.
  intros Hs Hk Hlen. unfold seal_for.
  apply wp_bind. eapply wp_session_at; [done|]. cbv zeta.
  apply wp_bind. eapply wp_upd_session; [done|]. apply wp_bind. wp_fits.
  fold (data_plain (send_seq s) payload).
  assert (length (data_plain (send_seq s) payload) = (HEADER_SIZE + SEQ_SIZE + length payload)%nat) as Hpl.
  { unfold data_plain. rewrite !length_app, length_be_encode, length_pkt_header. lia. }
  apply wp_bind, wp_liftO. eapply wp_conseq; [apply wp_encrypt_packet_ok; [done|sizes]|].
  intros [enc' r] o1 [Hq1 (iv & ct & tag & Hiv & Hseal & Hr)]. cbn in Hr. subst r. wp_step.
  destruct (gcm_sizes _ _ _ _ _ Hk Hiv Hseal) as [Hct Htag].
  exists o1, (iv ++ ct ++ tag). split_and!; [done..| |by apply packet_open_seal].
  rewrite !length_app. sizes.
Qed.

Lemma wp_forward_ok i enc payload o t s :
  sessions t !! i = Some s -> length (session_key s) = CRYPTO_KEY_LEN ->
  (length payload <= BUFFER_SIZE)%nat ->
  wp (forward_to_peer i enc payload)
     (fun _ w' => (exists n a p, env_sendto n a p = false) \/
        exists wire, os_sent (w_os w') = os_sent o ++ [(addr s, wire)] /\
          length wire = (length payload + WIRE_OVERHEAD)%nat /\
          packet_open (session_key s) wire = Some (data_plain (send_seq s) payload)) (World _ o t).
Proof.
  intros Hs Hk Hlen. unfold forward_to_peer.
  apply wp_bind. eapply wp_conseq; [by apply wp_seal_ok|].
  intros [enc' r] w1 (o1 & wire & Hr & Hq1 & -> & Hl & Hop). cbn in Hr. subst r.
  apply wp_bind, wp_liftO, wp_sendto; intros Hsend.
  - apply wp_bind. eapply wp_stamp; [cbn; apply list_lookup_insert_eq; by eapply lookup_lt_Some|].
    intros z o2 Hq2. wp_step. right. exists wire. cbn [w_os]. rewrite (quiet_sent _ _ Hq2). cbn.
    by rewrite (quiet_sent _ _ Hq1).
  - wp_step. left. eauto.
Qed.

(** ** Receiving *)

(** A packet that opens under the current key of the session at its source. *)
Lemma wp_open_current c i s pkt now dec o t s0 plain :
  inv c (World _ o t) -> sessions t !! i = Some s0 -> length (session_key s) = CRYPTO_KEY_LEN ->
  (length pkt <= WIRE_CAP)%nat -> packet_open (session_key s) pkt = Some plain ->
  wp (open_data i s pkt now dec)
     (fun r w' => r.2 = Some (plain, false) /\
        w' = World _ o (set_sessions (<[i := set_prev_key_active false s0]> (sessions t)) t))
     (World _ o t).
Proof.
  intros Hinv Hi Hk Hl Hop. unfold open_data. apply wp_bind, wp_liftO.
  eapply wp_conseq; [by apply wp_decrypt_det|]. intros [dec1 r] o' [-> Hr]. cbn in Hr. rewrite Hop in Hr.
  subst r. cbn [fst snd]. apply wp_bind. eapply wp_upd_session; [done|]. by wp_step.
Qed.

Lemma wp_on_data_current c src pkt now enc dec o t i s seq payload r st (Q : _ -> world -> Prop) :
  inv c (World _ o t) -> (length pkt <= WIRE_CAP)%nat ->
  find_session_by_addr t src = Some i -> sessions t !! i = Some s ->
  packet_open (session_key s) pkt = Some (data_plain seq payload) -> in_range 64 seq ->
  check_replay seq (replay s) = (r, st) ->
  let w2 := World _ o (set_sessions
    (<[i := set_replay st (set_prev_key_active false (set_last_seen now s))]> (sessions t)) t) in
  (r < 0 -> forall dec', Q (enc, dec') w2) ->
  (0 <= r -> wp (deliver i payload enc) (fun enc' w' => forall dec', Q (enc', dec') w') w2) ->
  wp (on_data src pkt now enc dec) Q (World _ o t).
Proof.
  intros Hinv Hl Hf Hs Hop Hseq Hck w2 Hneg Hpos.
  destruct (inv_session_wf _ _ _ _ _ Hinv Hs) as [_ Hk _ _ _ _ _].
  pose proof (lookup_lt_Some _ _ _ Hs) as Hlt.
  unfold on_data. apply wp_bind, wp_tab. cbn [w_tab]. rewrite Hf. unfold receive. apply wp_bind.
  apply wp_bind. eapply wp_session_at; [done|]. apply wp_bind. eapply wp_upd_session; [done|].
  apply wp_bind. eapply wp_conseq.
  { eapply (wp_open_current c i s); [|by apply list_lookup_insert_eq|done|done|done].
    eapply inv_session; [done..| |done]. by eapply session_wf_last_seen, inv_session_wf. }
  intros [dec1 r1] w1 [Hr ->]. cbn in Hr. subst r1. cbn [fst snd].
  destruct (data_plain_fields seq payload Hseq) as (H16 & Hh & Hd & Hp).
  rewrite (proj2 (Nat.ltb_ge _ _) H16), Hh, memcmp_refl. cbn [orb negb Z.eqb]. cbv zeta.
  rewrite Hd, Hp. apply wp_bind. unfold replay_gate. rewrite Hck. apply wp_bind.
  eapply wp_upd_session; [cbn; rewrite list_lookup_insert_eq; [done|by rewrite length_insert]|].
  wp_step. unfold set_sessions at 1. cbn [timers peer_configs sessions session_slots pending_hs
    precomp_eph_key precomp_eph_pub set_sessions]. rewrite !list_insert_insert_eq.
  destruct (Z.ltb_spec r 0) as [Hr|Hr].
  - wp_step. by apply Hneg.
  - apply wp_bind. eapply wp_conseq; [by apply Hpos|]. intros enc' w' HQ. wp_step. apply HQ.
Qed.

Lemma table_keeps_addr t t' a : table_keeps t t' -> find_session_by_addr t' a = find_session_by_addr t a.
Proof.
  intros [Hn Hs]. unfold find_session_by_addr, slots. rewrite Hn.
  apply (first_index_ext hot_eq); [|by apply Forall2_take].
  intros s s' []. by rewrite hot_active, hot_addr.
Qed.

(** What may happen between two arrivals of a packet for session [i]: data from any
    address, packets of the TUN device, ticks of the housekeeping thread, and
    handshakes that leave session [i] as it is. *)
Inductive traffic (c : loop_ctx) (i : nat) (w : world) : world -> Prop :=
| traffic_data src pkt now enc dec r w' :
    (length pkt <= WIRE_CAP)%nat -> on_data src pkt now enc dec w = Ret r w' -> traffic c i w w'
| traffic_tun pkt enc r w' :
    (length pkt <= BUFFER_SIZE)%nat -> on_tun pkt enc w = Ret r w' -> traffic c i w w'
| traffic_tick now enc r w' : housekeeping_tick c now enc w = Ret r w' -> traffic c i w w'
| traffic_handshake src pkt now w' :
    on_handshake c src pkt now w = Ret tt w' ->
    sessions (w_tab w') !! i = sessions (w_tab w) !! i -> traffic c i w w'.

Lemma wp_on_tun_keeps c pkt enc o t :
  inv c (World _ o t) -> (length pkt <= BUFFER_SIZE)%nat ->
  wp (on_tun pkt enc) (fun _ w' => table_keeps t (w_tab w')) (World _ o t).
Proof.
  intros Hinv Hl. unfold on_tun. destruct (is_ipv4 pkt) eqn:E; [|wp_step; reflexivity].
  apply is_ipv4_length in E. cbv zeta. apply wp_bind, wp_tab. cbn [w_tab].
  destruct (route_lookup t _) as [i|] eqn:Er; [|wp_step; reflexivity].
  apply route_lookup_valid in Er as (s & Hs & _); [|apply Hinv|apply read_u32_range; lia].
  eapply wp_conseq; [apply wp_forward; [apply Hinv|by eexists|done]|].
  intros ? w' Hp. by eapply (forward_keeps i pkt o t).
Qed.

(** Session [i] keeps its key, and what its window blocks stays blocked. *)
Definition guarded (i : nat) (t t' : tables) : Prop :=
  forall s, sessions t !! i = Some s -> exists s', sessions t' !! i = Some s' /\
    session_key s' = session_key s /\ forall q, blocked q s -> blocked q s'.

#[local] Instance guarded_preorder i : PreOrder (guarded i).
Proof.
  split; [by intros t s Hs; exists s|]. intros t1 t2 t3 H12 H23 s Hs.
  destruct (H12 s Hs) as (s2 & Hs2 & Ek2 & Hb2), (H23 s2 Hs2) as (s3 & Hs3 & Ek3 & Hb3).
  exists s3. split_and!; [done|congruence|auto].
Qed.

Lemma guarded_keeps i t t' : table_keeps t t' -> guarded i t t'.
Proof.
  intros Hk s Hs. destruct (table_keeps_lookup _ _ i s Hk Hs) as (s' & Hs' & Hh).
  exists s'. split_and!; [done|apply Hh|]. intros q. by apply blocked_hot.
Qed.

(** A tick changes no key and no window. *)
Lemma tick_vault c now enc : frame vault (housekeeping_tick c now enc).
Proof.
  unfold housekeeping_tick, hk_expire, hk_silent, hk_keepalive, hk_due, forward_to_peer, seal_for, stamp_sent.
  apply frame_bind; [apply _|apply (frame_weaken cold); [apply vault_cold|apply hk_handshakes_cold]|].
  frames.
Qed.

Lemma guarded_vault i t t' : vault t t' -> guarded i t t'.
Proof.
  intros E s Hs. apply (f_equal (fun l => l !! i)) in E. rewrite !list_lookup_fmap, Hs in E.
  destruct (sessions t' !! i) as [s'|]; [|done]. injection E as Ek Er. exists s'. split_and!; [done..|].
  intros q (a & Ha & Hf). exists a. by rewrite Er.
Qed.

Lemma traffic_guarded c i w w' : inv c w -> traffic c i w w' -> inv c w' /\ guarded i (w_tab w) (w_tab w').
Proof.
  destruct w as [o t]. intros Hinv [src pkt now enc dec r w1 Hl E|pkt enc r w1 Hl E|now enc r w1 E|src pkt now w1 E Ei].
  - destruct (wp_run _ _ _ _ _ (wp_on_data c src pkt now enc dec o t Hinv Hl) E) as (? & ? & _).
    split; [done|by apply guarded_keeps].
  - split; [by apply (wp_run _ _ _ _ _ (wp_on_tun c pkt enc _ Hinv Hl) E)|].
    apply guarded_keeps, (wp_run _ _ _ _ _ (wp_on_tun_keeps c pkt enc o t Hinv Hl) E).
  - split; [by apply (wp_run _ _ _ _ _ (wp_housekeeping_tick c now enc _ Hinv) E)|].
    pose proof (tick_vault c now enc (World _ o t)) as Hv. rewrite E in Hv. by apply guarded_vault.
  - split; [by apply (wp_run _ _ _ _ _ (wp_on_handshake c src pkt now _ Hinv) E)|].
    intros s Hs. exists s. by rewrite Ei.
Qed.

Lemma rtc_traffic_guarded c i w w' :
  inv c w -> rtc (traffic c i) w w' -> inv c w' /\ guarded i (w_tab w) (w_tab w').
Proof.
  intros Hinv Hr. induction Hr as [w|w1 w2 w3 Ht Hr IH]; [split; [done|reflexivity]|].
  destruct (traffic_guarded c i w1 w2 Hinv Ht) as [Hinv2 Hk]. destruct (IH Hinv2). split; [done|]. by etrans.
Qed.

(** Handling a packet under the current key blocks its number. *)
Lemma wp_on_data_blocks c src pkt now enc dec o t i s seq payload :
  inv c (World _ o t) -> (length pkt <= WIRE_CAP)%nat ->
  find_session_by_addr t src = Some i -> sessions t !! i = Some s ->
  packet_open (session_key s) pkt = Some (data_plain seq payload) -> in_range 64 seq ->
  wp (on_data src pkt now enc dec)
     (fun _ w' => exists s', sessions (w_tab w') !! i = Some s' /\ blocked seq s') (World _ o t).
Proof.
  intros Hinv Hl Hf Hs Hop Hseq.
  pose proof (inv_session_wf _ _ _ _ _ Hinv Hs) as Hsw. pose proof (lookup_lt_Some _ _ _ Hs) as Hlt.
  destruct (check_replay seq (replay s)) as [rc st] eqn:Eck.
  set (s2 := set_replay st (set_prev_key_active false (set_last_seen now s))).
  set (t2 := set_sessions (<[i := s2]> (sessions t)) t).
  assert (sessions t2 !! i = Some s2) as Hs2 by by apply list_lookup_insert_eq.
  assert (blocked seq s2) as Hb2 by by eapply check_blocks.
  assert (inv c (World _ o t2)) as Hinv2.
  { eapply inv_session; [done..| |done].
    apply session_wf_replay; [destruct Hb2 as (a & ? & _); by exists a|].
    by apply session_wf_prev_key_active, session_wf_last_seen. }
  eapply (wp_on_data_current c src pkt now enc dec o t i s); try done; cbv zeta; fold s2 t2.
  - intros _ dec1. by exists s2.
  - intros _. eapply wp_conseq; [eapply (wp_deliver c i s2); [done..|]|].
    + apply (packet_open_length o) in Hop; [|apply Hsw|done].
      destruct (data_plain_fields seq payload Hseq) as (_ & _ & _ & Hd).
      rewrite <- Hd, length_drop. sizes.
    + intros enc1 w' (_ & Hk & _) dec1. destruct (table_keeps_lookup _ _ i s2 Hk Hs2) as (s3 & ? & ?).
      exists s3. split; [done|]. by eapply blocked_hot.
Qed.

(** C12: A data packet is let out at most once under one key.  After a packet that
    opens under the current key of session [i] was handled, the same packet from the
    same address causes no write to the TUN device and no datagram, whatever data
    packets, TUN packets, ticks, and handshakes that leave session [i] as it is came
    in between, as long as no other session has taken over the address.  (After a
    rekey of the session the packet is one under the previous key; see
    [prev_key_packet_delivered_again].) *)
Theorem replayed_packet_dropped c w0 src pkt i s seq payload now enc dec r w1 w2 now' enc' dec' :
  inv c w0 -> (length pkt <= WIRE_CAP)%nat ->
  find_session_by_addr (w_tab w0) src = Some i -> sessions (w_tab w0) !! i = Some s ->
  packet_open (session_key s) pkt = Some (data_plain seq payload) -> in_range 64 seq ->
  on_data src pkt now enc dec w0 = Ret r w1 -> rtc (traffic c i) w1 w2 ->
  (forall k, find_session_by_addr (w_tab w2) src = Some k -> k = i) ->
  exists r' w3, on_data src pkt now' enc' dec' w2 = Ret r' w3 /\
    os_tun (w_os w3) = os_tun (w_os w2) /\ os_sent (w_os w3) = os_sent (w_os w2).
Proof.
  destruct w0 as [o0 t0], w2 as [o2 t2]. cbn [w_tab].
  intros Hinv Hl Hf Hs Hop Hseq E Hr Hf2.
  destruct (wp_run _ _ _ _ _ (wp_on_data c src pkt now enc dec o0 t0 Hinv Hl) E) as (Hinv1 & Hk1 & _).
  destruct (wp_run _ _ _ _ _ (wp_on_data_blocks c src pkt now enc dec o0 t0 i s seq payload
    Hinv Hl Hf Hs Hop Hseq) E) as (s1 & Hs1 & Hb1).
  destruct (rtc_traffic_guarded c i w1 _ Hinv1 Hr) as [Hinv2 Hg2].
  destruct (Hg2 s1 Hs1) as (s2 & Hs2 & Ek2 & Hb2). cbn [w_tab] in Hs2.
  destruct (table_keeps_lookup _ _ i s Hk1 Hs) as (s1' & Hs1' & Hh1). simplify_eq.
  pose proof (blocked_check seq s2 Hseq (Hb2 _ Hb1)) as Hneg.
  destruct (check_replay seq (replay s2)) as [rc st] eqn:Eck. cbn in Hneg.
  assert (wp (on_data src pkt now' enc' dec') (fun _ w3 => os_tun (w_os w3) = os_tun o2 /\
    os_sent (w_os w3) = os_sent o2) (World _ o2 t2)) as Hwp.
  { destruct (find_session_by_addr t2 src) as [k|] eqn:Ef.
    - rewrite (Hf2 k eq_refl) in Ef.
      eapply (wp_on_data_current c src pkt now' enc' dec' o2 t2 i s2); try done; [|intros; lia].
      by rewrite Ek2, (hot_key _ _ Hh1).
    - unfold on_data. apply wp_bind, wp_tab. cbn [w_tab]. rewrite Ef. by wp_step. }
  destruct (wp_elim _ _ _ Hwp) as (r' & w3 & ? & ? & ?). eauto.
Qed.

(** ** Delivery *)

Lemma wp_deliver_tun i s payload enc o t :
  sessions t !! i = Some s -> payload <> [] -> src_allowed s payload ->
  (is_ipv4 payload = true -> forall f, route_lookup t (read_u32 16 payload) = Some f -> f = i) ->
  (forall n p, env_tun_write n p = true) ->
  wp (deliver i payload enc) (fun _ w' => os_tun (w_os w') = os_tun o ++ [payload] /\
    os_sent (w_os w') = os_sent o /\ w_tab w' = t) (World _ o t).
Proof.
  intros Hs Hne Hok Hroute Hw. unfold deliver.
  apply wp_bind, (wp_conseq _ (fun v w' => v = ToTun /\ w' = World _ o t)).
  2:{ intros ? ? [-> ->]. apply wp_bind, wp_liftO. unfold wp, tun_write, bind, io, modify, ret. cbn. by rewrite Hw. }
  unfold dispatch. rewrite (proj2 (Nat.eqb_neq _ _)) by (by destruct payload).
  apply wp_bind. eapply wp_session_at; [done|].
  destruct ((0 <? length (routes s))%nat && is_ipv4 payload && negb _) eqn:Eallow.
  { exfalso. rewrite !andb_true_iff in Eallow. destruct Eallow as [[Hr%Nat.ltb_lt H4] Hn%negb_true_iff].
    rewrite (Hok ltac:(by intros E; rewrite E in Hr; cbn in Hr; lia) H4) in Hn. done. }
  apply wp_bind, wp_tab. cbn [w_tab]. destruct (is_ipv4 payload); [|by wp_step].
  destruct (route_lookup t _) as [f|]; [|by wp_step]. rewrite (Hroute eq_refl f eq_refl), Nat.eqb_refl.
  by wp_step.
Qed.

(** A packet under the current key, new to the window, allowed and not for another
    session, is written to the TUN device. *)
Lemma wp_on_data_delivers c src wire now enc dec o t j r seq payload :
  inv c (World _ o t) -> find_session_by_addr t src = Some j -> sessions t !! j = Some r ->
  (length wire <= WIRE_CAP)%nat -> packet_open (session_key r) wire = Some (data_plain seq payload) ->
  in_range 64 seq -> (check_replay seq (replay r)).1 = 0 -> payload <> [] ->
  (forall n p, env_tun_write n p = true) -> src_allowed r payload ->
  (is_ipv4 payload = true -> forall f, route_lookup t (read_u32 16 payload) = Some f -> f = j) ->
  wp (on_data src wire now enc dec)
     (fun _ w' => os_tun (w_os w') = os_tun o ++ [payload] /\ os_sent (w_os w') = os_sent o) (World _ o t).
Proof.
  intros Hinv Hf Hr Hl Hop Hseq Hck Hne Hwrite Hallow Hroute.
  destruct (check_replay seq (replay r)) as [rc st] eqn:Eck. cbn in Hck. subst rc.
  eapply (wp_on_data_current c src wire now enc dec o t j r seq payload); try done. intros _.
  eapply wp_conseq; [apply (wp_deliver_tun j (set_replay st (set_prev_key_active false (set_last_seen now r)))); try done|].
  - apply list_lookup_insert_eq. by eapply lookup_lt_Some.
  - intros H4 f. rewrite (route_lookup_upd t j r) by done. by apply Hroute.
  - by intros e' w' (? & ? & _) dec1.
Qed.

(** C11: The tunnel delivers.  What a peer forwards over a session is one datagram
    to the session's address; the peer that holds the same session key for the
    address it comes from writes exactly the payload to its TUN device, provided
    the sequence number is new to its window, the source address is allowed, and
    the payload is not for another of its sessions. *)
Theorem tunnel_delivers cs ws i s payload enc cr wr j r src :
  inv cs ws -> sessions (w_tab ws) !! i = Some s ->
  payload <> [] -> (length payload <= BUFFER_SIZE)%nat ->
  (forall n a p, env_sendto n a p = true) -> (forall n p, env_tun_write n p = true) ->
  inv cr wr -> find_session_by_addr (w_tab wr) src = Some j -> sessions (w_tab wr) !! j = Some r ->
  session_key r = session_key s -> (check_replay (send_seq s) (replay r)).1 = 0 ->
  src_allowed r payload ->
  (is_ipv4 payload = true ->
     forall f, route_lookup (w_tab wr) (read_u32 16 payload) = Some f -> f = j) ->
  exists e ws' wire, forward_to_peer i enc payload ws = Ret e ws' /\
    os_sent (w_os ws') = os_sent (w_os ws) ++ [(addr s, wire)] /\
    forall now enc' dec', exists x wr', on_data src wire now enc' dec' wr = Ret x wr' /\
      os_tun (w_os wr') = os_tun (w_os wr) ++ [payload] /\ os_sent (w_os wr') = os_sent (w_os wr).
Proof.
  destruct ws as [o t], wr as [o2 t2]. cbn [w_tab w_os].
  intros Hinv Hs Hne Hl Hsend Hwrite Hinv2 Hf Hr Hkey Hck Hallow Hroute.
  destruct (inv_session_wf _ _ _ _ _ Hinv Hs) as [_ Hk _ Hseq _ _ _].
  destruct (wp_elim _ _ _ (wp_forward_ok i enc payload o t s Hs Hk Hl)) as (e & ws' & E & Hpost).
  destruct Hpost as [(n & a & p & Hn)|(wire & Hse & Hw & Hop)]; [by rewrite Hsend in Hn|].
  exists e, ws', wire. split_and!; [done|done|]. intros now enc' dec'.
  destruct (wp_elim _ _ _ (wp_on_data_delivers cr src wire now enc' dec' o2 t2 j r (send_seq s) payload
    Hinv2 Hf Hr ltac:(rewrite Hw; sizes) ltac:(by rewrite Hkey) Hseq Hck Hne Hwrite Hallow Hroute)) as (x & wr' & ? & ? & ?).
  eauto.
Qed.

(** ** Packets under the previous key *)

(** The session a packet under the previous key belongs to, and where it goes. *)
Record old_packet (t : tables) (src : sockaddr_in) (pkt : bytes) (i : nat) (s : peer_session)
    (seq : Z) (payload : bytes) : Prop := {
  old_session : find_session_by_addr t src = Some i /\ sessions t !! i = Some s;
  old_valid : prev_key_active s = true;
  old_key : packet_open (session_key s) pkt = None /\
    packet_open (prev_session_key s) pkt = Some (data_plain seq payload);
  old_payload : payload <> [] /\ src_allowed s payload;
  old_route : is_ipv4 payload = true ->
    forall f, route_lookup t (read_u32 16 payload) = Some f -> f = i;
}.

Lemma wp_receive_prev i s pkt now dec o t seq payload :
  session_wf s -> sessions t !! i = Some s -> (length pkt <= WIRE_CAP)%nat -> in_range 64 seq ->
  prev_key_active s = true -> now <= prev_key_expires s -> packet_open (session_key s) pkt = None ->
  packet_open (prev_session_key s) pkt = Some (data_plain seq payload) ->
  wp (receive i pkt now dec) (fun r w' => r.2 = Some (seq, true, payload) /\
    w' = World _ o (set_sessions (<[i := set_last_seen now s]> (sessions t)) t)) (World _ o t).
Proof.
  intros [_ Hk Hpk _ _ _ _] Hs Hl Hseq Ha Hexp Hc Hp. unfold receive.
  apply wp_bind. eapply wp_session_at; [done|]. apply wp_bind. eapply wp_upd_session; [done|].
  unfold open_data. apply wp_bind, wp_bind, wp_liftO.
  eapply wp_conseq; [by apply wp_decrypt_det|]. intros [dec1 r1] o1 [-> Hr1]. cbn in Hr1. rewrite Hc in Hr1.
  subst r1. rewrite Ha, (proj2 (Z.leb_le _ _) Hexp). cbn [andb]. apply wp_bind, wp_liftO.
  eapply wp_conseq; [by apply wp_decrypt_det|]. intros [dec2 r2] o2 [-> Hr2]. cbn in Hr2. rewrite Hp in Hr2.
  subst r2. wp_step. destruct (data_plain_fields seq payload Hseq) as (H16 & Hh & Hd & Hpl).
  cbn [fmap option_fmap option_map].
  rewrite (proj2 (Nat.ltb_ge _ _) H16), Hh, memcmp_refl. cbn [orb negb Z.eqb]. cbv zeta.
  rewrite Hd, Hpl. apply wp_bind. unfold replay_gate. wp_step. by wp_step.
Qed.

Lemma wp_on_data_prev c src pkt now enc dec o t i s seq payload :
  inv c (World _ o t) -> old_packet t src pkt i s seq payload -> (length pkt <= WIRE_CAP)%nat ->
  in_range 64 seq -> now <= prev_key_expires s -> (forall n p, env_tun_write n p = true) ->
  wp (on_data src pkt now enc dec) (fun _ w' => os_tun (w_os w') = os_tun o ++ [payload] /\
    inv c w' /\ old_packet (w_tab w') src pkt i (set_last_seen now s) seq payload) (World _ o t).
Proof.
  intros Hinv [[Hf Hs] Ha [Hc Hp] [Hne Hok] Hroute] Hl Hseq Hexp Htun.
  pose proof (inv_session_wf _ _ _ _ _ Hinv Hs) as Hsw. pose proof (lookup_lt_Some _ _ _ Hs) as Hlt.
  set (s1 := set_last_seen now s). set (t1 := set_sessions (<[i := s1]> (sessions t)) t).
  assert (sessions t1 !! i = Some s1) as Hs1 by by apply list_lookup_insert_eq.
  assert (table_keeps t t1) as Hk by by eapply table_keeps_upd, hot_eq_same.
  assert (forall ip, route_lookup t1 ip = route_lookup t ip) as Hr by (intros; by eapply route_lookup_upd).
  assert (wp (on_data src pkt now enc dec) (fun _ w' => os_tun (w_os w') = os_tun o ++ [payload] /\
    w_tab w' = t1) (World _ o t)) as Hw.
  { apply wp_bind, wp_tab. cbn [w_tab]. rewrite Hf. apply wp_bind.
    eapply wp_conseq; [by apply (wp_receive_prev i s pkt now dec o t seq payload)|].
    intros [dec' r] w1 [Er ->]. cbn in Er. subst r. apply wp_bind. fold s1 t1.
    eapply wp_conseq; [apply (wp_deliver_tun i s1); try done; intros H4 f; rewrite Hr; by apply Hroute|].
    intros e w' (? & _ & ?). by wp_step. }
  destruct (wp_elim _ _ _ Hw) as (r & w' & E & Ht & Et). apply (wp_of_run _ _ _ _ _ E).
  split; [done|]. split; [by apply (wp_run _ _ _ _ _ (wp_on_data c src pkt now enc dec o t Hinv Hl) E)|].
  rewrite Et. constructor; try done; [split; [|done]; by rewrite (table_keeps_addr t t1)|].
  intros H4 f. rewrite Hr. by apply Hroute.
Qed.

(** C24: Packets under the previous key are not tested for replays: within the grace
    period after a rekey, a packet that the previous key opens and the current one
    does not is written to the TUN device every time it arrives. *)
Theorem prev_key_packet_delivered_again c w0 src pkt i s seq payload now enc dec now' enc' dec' :
  inv c w0 -> old_packet (w_tab w0) src pkt i s seq payload -> (length pkt <= WIRE_CAP)%nat ->
  in_range 64 seq -> now <= prev_key_expires s -> now' <= prev_key_expires s ->
  (forall n p, env_tun_write n p = true) ->
  exists r w1 r' w2, on_data src pkt now enc dec w0 = Ret r w1 /\ on_data src pkt now' enc' dec' w1 = Ret r' w2 /\
    os_tun (w_os w2) = os_tun (w_os w0) ++ [payload; payload].
Proof.
  intros Hinv Hold Hl Hseq Hn Hn' Htun. destruct w0 as [o t].
  destruct (wp_elim _ _ _ (wp_on_data_prev c src pkt now enc dec o t i s seq payload Hinv Hold Hl Hseq Hn Htun))
    as (r & [o1 t1] & E & Ht & Hinv1 & Hold1).
  destruct (wp_elim _ _ _ (wp_on_data_prev c src pkt now' enc' dec' o1 t1 i _ seq payload Hinv1 Hold1 Hl Hseq Hn' Htun))
    as (r' & w2 & E' & Ht' & _).
  exists r, (World _ o1 t1), r', w2. split_and!; [done..|]. rewrite Ht'. cbn in Ht |- *. by rewrite Ht, <- app_assoc.
Qed.
End Tunnel.

(** ** Concrete runs *)

#[local] Existing Instance Toy.ssl.
#[local] Existing Instance Toy.env.
#[local] Existing Instance Toy.ssl_ok.

(** A peer with one established session, for its configured peer. *)
Definition toy_far : sockaddr_in := SockAddr 9 9.
Definition toy_link (key : bytes) : M world unit :=
  let! g := (let! s := alloc_slot (pc_pub toy_peer_cfg) toy_far in
             ret ((fun i => Grant i (pc_pub toy_peer_cfg) key toy_peer_cfg) <$> s)) in
  install toy_far true g.
Definition toy_linked : world := run_end (toy_link toy_key toy_started) toy_started.
Definition toy_session : peer_session := default zero_session (sessions (w_tab toy_linked) !! 0%nat).
Definition toy_payload : bytes := [Byte.x01; Byte.x02].

Lemma toy_link_inv key w :
  length key = CRYPTO_KEY_LEN -> inv toy_peer w -> peer_configs (w_tab w) !! 0%nat = Some toy_peer_cfg ->
  wp (toy_link key) (fun _ => inv toy_peer) w.
Proof.
  intros Hk Hinv Hc. apply wp_bind.
  eapply wp_conseq; [apply (wp_grant toy_peer)|intros g w'; apply wp_install]; try done.
  by eapply list_elem_of_lookup_2.
Qed.

Lemma toy_linked_inv : inv toy_peer toy_linked.
Proof.
  refine (wp_run _ _ _ _ _ (toy_link_inv toy_key toy_started eq_refl _ _)
            (run_eta (toy_link toy_key toy_started) toy_started tt _)).
  - exact (reachable_inv _ _ _ _ _ toy_boot_ok toy_started_reachable).
  - vm_compute. reflexivity.
  - vm_compute. reflexivity.
Qed.

Lemma toy_session_at : sessions (w_tab toy_linked) !! 0%nat = Some toy_session.
Proof. vm_compute. reflexivity. Qed.

Lemma toy_found : find_session_by_addr (w_tab toy_linked) toy_far = Some 0%nat.
Proof. vm_compute. reflexivity. Qed.

Lemma tunnel_delivers_witness :
  exists e ws' wire, forward_to_peer 0 toy_ctx toy_payload toy_linked = Ret e ws' /\
    os_sent (w_os ws') = os_sent (w_os toy_linked) ++ [(addr toy_session, wire)] /\
    forall now enc' dec', exists x wr', on_data toy_far wire now enc' dec' toy_linked = Ret x wr' /\
      os_tun (w_os wr') = os_tun (w_os toy_linked) ++ [toy_payload] /\
      os_sent (w_os wr') = os_sent (w_os toy_linked).
Proof.
  apply (tunnel_delivers toy_peer toy_linked 0%nat toy_session toy_payload toy_ctx
           toy_peer toy_linked 0%nat toy_session toy_far toy_linked_inv toy_session_at);
    [discriminate | apply Nat.leb_le; reflexivity | reflexivity | reflexivity | exact toy_linked_inv
    | exact toy_found | exact toy_session_at | reflexivity | vm_compute; reflexivity
    | discriminate | discriminate].
Defined.

(** The datagram of that session's first packet, and the first time it arrives. *)
Definition toy_wire : bytes :=
  match last (os_sent (w_os (run_end (forward_to_peer 0 toy_ctx toy_payload toy_linked) toy_linked))) with
  | Some (_, wire) => wire
  | None => []
  end.
Abbreviation toy_arrival := (on_data toy_far toy_wire 1010 toy_ctx toy_ctx toy_linked).
Definition toy_arrival_ctxs : evp_cipher_ctx * evp_cipher_ctx :=
  default (toy_ctx, toy_ctx) (run_res toy_arrival).

Lemma toy_arrival_run : toy_arrival = Ret toy_arrival_ctxs (run_end toy_arrival toy_linked).
Proof. apply run_eta. vm_compute. reflexivity. Qed.

(** A tick of the housekeeping thread before it arrives again. *)
Definition toy_arrived : world := run_end toy_arrival toy_linked.
Definition toy_ticked : world := run_end (housekeeping_tick toy_peer 1015 toy_ctx toy_arrived) toy_arrived.

Lemma toy_tick_traffic : traffic toy_peer 0 toy_arrived toy_ticked.
Proof.
  destruct (run_res (housekeeping_tick toy_peer 1015 toy_ctx toy_arrived)) as [e|] eqn:E;
    [by eapply traffic_tick, run_eta|]. vm_compute in E. discriminate.
Qed.

Lemma replayed_packet_dropped_witness :
  exists r' w3, on_data toy_far toy_wire 1020 toy_ctx toy_ctx toy_ticked = Ret r' w3 /\
    os_tun (w_os w3) = os_tun (w_os toy_ticked) /\ os_sent (w_os w3) = os_sent (w_os toy_ticked).
Proof.
  apply (replayed_packet_dropped toy_peer toy_linked toy_far toy_wire 0%nat toy_session 0 toy_payload
           1010 toy_ctx toy_ctx toy_arrival_ctxs toy_arrived toy_ticked 1020 toy_ctx toy_ctx toy_linked_inv);
    [apply Nat.leb_le; vm_compute; reflexivity | exact toy_found | exact toy_session_at
    | vm_compute; reflexivity | apply in_range_0; lia | exact toy_arrival_run | apply rtc_once, toy_tick_traffic
    | intros k Hk; vm_compute in Hk; by injection Hk].
Defined.

(** The same session after a rekey, and that datagram again. *)
Definition toy_rekey : bytes := replicate 31 Byte.x07 ++ [Byte.x08].
Definition toy_relinked : world := run_end (toy_link toy_rekey toy_linked) toy_linked.
Definition toy_resession : peer_session := default zero_session (sessions (w_tab toy_relinked) !! 0%nat).

Lemma toy_relinked_inv : inv toy_peer toy_relinked.
Proof.
  refine (wp_run _ _ _ _ _ (toy_link_inv toy_rekey toy_linked eq_refl toy_linked_inv _)
            (run_eta (toy_link toy_rekey toy_linked) toy_linked tt _)); vm_compute; reflexivity.
Qed.

Lemma prev_key_packet_delivered_again_witness :
  exists r w1 r' w2, on_data toy_far toy_wire 1010 toy_ctx toy_ctx toy_relinked = Ret r w1 /\
    on_data toy_far toy_wire 1020 toy_ctx toy_ctx w1 = Ret r' w2 /\
    os_tun (w_os w2) = os_tun (w_os toy_relinked) ++ [toy_payload; toy_payload].
Proof.
  apply (prev_key_packet_delivered_again toy_peer toy_relinked toy_far toy_wire 0%nat toy_resession 0 toy_payload
           1010 toy_ctx toy_ctx 1020 toy_ctx toy_ctx toy_relinked_inv);
    [constructor; [split; vm_compute; reflexivity|vm_compute; reflexivity|split; vm_compute; reflexivity|..]
    |apply Nat.leb_le; vm_compute; reflexivity|apply in_range_0; lia|apply Z.leb_le; vm_compute; reflexivity
    |apply Z.leb_le; vm_compute; reflexivity|reflexivity].
  - split; [discriminate|]. intros _ E. vm_compute in E. discriminate.
  - intros E. vm_compute in E. discriminate.
Defined.
