(* ===== verification/Connect.v ===== *)
(** * Two peers that connect

    The handshake through the handlers of both peers: the housekeeping thread of
    one sends the initiation, a worker of the other answers it and sets up its
    session, a worker of the first takes the answer and sets up the other end.
    Afterwards both ends hold the same key and packets go both ways. *)

From S2P Require Import Prelude Replay Platform Crypto Handshake Hex Cidr Session Peer Invariant Safety Frames Tunnel.
From Stdlib Require Import Strings.Byte.

(** No other peer has a session at the address. *)
Definition addr_free (t : tables) (a : sockaddr_in) (pub : bytes) : Prop :=
  forall i s, sessions t !! i = Some s -> active s = true -> addr s = a -> static_pub s = pub.

(** The last handshakes of the sessions at the address or of the peer are old
    enough. *)
Definition cooled (t : tables) (now : Z) (a : sockaddr_in) (pub : bytes) : Prop :=
  forall i s, sessions t !! i = Some s -> active s = true -> addr s = a \/ static_pub s = pub ->
    cfg_handshake_cooldown (timers t) <= now - last_handshake s.

(** The session at the address [a], just set up with [key] for the peer [pub]. *)
Record joined (t : tables) (a : sockaddr_in) (pub key : bytes) (rs : list ip_prefix) (i : nat) : Prop := {
  join_found : find_session_by_addr t a = Some i;
  join_session : exists s, sessions t !! i = Some s /\ active s = true /\ addr s = a /\ static_pub s = pub /\
    session_key s = key /\ routes s = rs /\ send_seq s = 0 /\ replay s = replay_init;
}.

Section Connect.
Context `{OpenSSLOk}.
Hypothesis socket_up : forall n a p, env_sendto n a p = true.

(** ** Setting up a session *)

Lemma wp_alloc_exact pub a o t :
  slots_wf t -> is_Some (alloc_session t pub a).1 -> addr_free t a pub ->
  wp (alloc_slot pub a) (fun r w' => is_Some r /\ w_os w' = o /\ addr_free (w_tab w') a pub) (World _ o t).
Proof.
  intros Hwf Hs Hf. unfold alloc_slot. apply wp_bind, wp_tab. cbn [w_tab].
  pose proof (alloc_session_spec t pub a Hwf) as Hspec.
  destruct (alloc_session t pub a) as [[i|] t'] eqn:E; [|by destruct Hs].
  apply wp_bind, wp_modify, wp_ret. split_and!; [done..|]. cbn [w_tab].
  destruct Hspec as (_ & _ & _ & _ & Es & _). intros j s. rewrite Es. apply Hf.
Qed.

(** [session_init] makes the session the one that is found at the address. *)
Lemma wp_install_joined c src out g (w : world) :
  granted c (Some g) w -> addr_free (w_tab w) src (g_pub g) ->
  wp (install src out (Some g))
     (fun _ w' => joined (w_tab w') src (g_pub g) (g_key g) (pc_routes (g_cfg g)) (g_slot g) /\
        os_sent (w_os w') = os_sent (w_os w)) w.
Proof.
  destruct w as [o t]. intros [Hinv Hg] Hf. destruct (Hg g eq_refl) as (Hlt & Hs & _ & _ & _ & _ & Hu).
  cbn [install w_tab] in *. eapply wp_conseq; [by apply wp_session_init|].
  intros [] w' (s & o' & z0 & z1 & z2 & z3 & Hs' & Hq & ->). cbn [w_tab w_os].
  split; [|apply Hq]. pose proof (lookup_lt_Some _ _ _ Hs') as Hl.
  set (s' := init_session _ _ _ _ _ _ _ _ _ _). split.
  - apply (first_index_intro _ _ _ s').
    + unfold slots. rewrite lookup_take_lt by done. cbn. by apply list_lookup_insert_eq.
    + cbn. by apply same_addr_true.
    + intros j b Hj [_ Hb]%slots_lookup. cbn in Hb. rewrite list_lookup_insert_ne in Hb by lia.
      destruct (active b) eqn:Ea; [|done]. cbn. destruct (same_addr (addr b) src) eqn:Eb; [|done].
      apply same_addr_true in Eb. pose proof (Hu j b Hb Ea (Hf j b Hb Ea Eb)). lia.
  - exists s'. split_and!; try done. cbn. by apply list_lookup_insert_eq.
Qed.

(** A new ephemeral key changes nothing else of the tables. *)
Lemma wp_refresh_shape c o t :
  inv c (World _ o t) ->
  wp refresh_precomp_eph (fun _ w' => os_sent (w_os w') = os_sent o /\ exists k pub, w_tab w' = set_precomp k pub t) (World _ o t).
Proof.
  intros [Ht Hk]. unfold refresh_precomp_eph. apply wp_bind, wp_tab. cbv zeta. cbn [w_tab].
  apply wp_bind, wp_liftO. eapply wp_conseq; [apply wp_generate_eph_keypair, Hk|].
  intros [[nk pub]|] o1; cbn [keypair_post].
  2:{ intros Hq. wp_step. split; [apply Hq|]. exists (precomp_eph_key t), (precomp_eph_pub t). by destruct t. }
  intros (k & Hfresh & Hkeys & _ & Hsent & _). apply wp_bind, wp_modify, wp_liftO. cbn [w_tab w_os].
  destruct (precomp_eph_key t) as [old|] eqn:Eold; [|split; [done|by eauto]].
  assert (is_Some (os_keys o !! old)) as [ko Hold] by (eapply owned_live; [done|by left]).
  eapply wp_pkey_free; [|split; [done|by eauto]]. by rewrite Hkeys, lookup_insert_ne by congruence.
Qed.

(** ** The answer of the responder *)

Lemma wp_cooled t now x pub a o :
  cooled t now a pub ->
  (forall i, x = Some i -> exists s, sessions t !! i = Some s /\ active s = true /\ (addr s = a \/ static_pub s = pub)) ->
  wp (in_cooldown t now x) (fun b w' => b = false /\ w' = World _ o t) (World _ o t).
Proof.
  intros Hc Hx. unfold in_cooldown. destruct x as [i|]; [|by wp_step].
  destruct (Hx i eq_refl) as (s & Hs & Ha & Hm). apply wp_bind. eapply wp_session_at; [done|]. wp_step.
  split; [|done]. apply Z.ltb_ge. by eapply Hc.
Qed.

(** What the responder has: its static key and a prepared ephemeral one. *)
Record responder (c : loop_ctx) (o : os) (t : tables) (ks ke : evp_pkey) : Prop := {
  resp_static : owns o (static_key c) ks;
  resp_pub : ctx_static_pub c = public ks;
  resp_eph : exists he, precomp_eph_key t = Some he /\ owns o he ke;
  resp_eph_pub : precomp_eph_pub t = public ke;
}.

(** It may set up a session for the peer [pub] at the address, with [cfg]. *)
Record admits (t : tables) (a : sockaddr_in) (pub : bytes) (cfg : peer_config) : Prop := {
  adm_pending : find_pending t a = None;
  adm_addr : addr_free t a pub;
  adm_room : is_Some (alloc_session t pub a).1;
  adm_cfg : exists n, find_peer_config t pub = Some n /\ peer_configs t !! n = Some cfg;
}.

Abbreviation server_key ke ks k kc :=
  (derive_session_key (dh ke (public k)) (dh ke (public kc)) (dh ks (public k))
     (public k) (public ke) (public kc) (public ks)).

Lemma alloc_room_ext t t' pub a :
  sessions t' = sessions t -> session_slots t' = session_slots t ->
  (alloc_session t' pub a).1 = (alloc_session t pub a).1.
Proof.
  intros Es En. unfold alloc_session, find_session_by_pub, find_session_by_addr, slots. rewrite Es, En.
  by repeat case_match.
Qed.

Lemma wp_accept_initiation_ok c src now kc k ks ke enc cfg o t :
  inv c (World _ o t) -> responder c o t ks ke -> admits t src (public kc) cfg ->
  cooled t now src (public kc) -> is_keypair kc -> is_keypair k -> sealed (dh k (public ks)) (public kc) enc ->
  wp (accept_initiation c src (hs_message (psk_key c) (public k) enc) now)
     (fun r w' => addr_free (w_tab w') src (public kc) /\
        exists enc' i, r = Some (Grant i (public kc) (server_key ke ks k kc) cfg) /\
          sealed (dh ke (public k)) (public ks) enc' /\
          os_sent (w_os w') = os_sent o ++ [(src, hs_message (psk_key c) (public ke) enc')]) (World _ o t).
Proof.
  intros Hinv [Hst Hsp (he & Ehe & Heph) Hep] [_ Hf Hroom (n & Hn & Hcfg)] Hcool Hkc Hk Hsealed.
  pose proof Hinv as [Ht Hkw]. unfold accept_initiation. apply wp_bind, wp_tab. cbn [w_tab].
  apply wp_bind. eapply wp_conseq; [apply (wp_cooled t now _ (public kc) src); [done|]|].
  { intros i (s & [_ Hs]%slots_lookup & Ha & Hm)%find_session_by_addr_Some. eauto. }
  intros b w' [-> ->]. rewrite Ehe, Hep, Hsp. apply wp_bind, wp_liftO.
  eapply wp_conseq.
  { apply wp_and; [apply wp_server_respond|by apply (wp_server_respond_ok socket_up _ _ _ _ ks ke kc k enc); try apply (keys_os _ _ _ Hkw)].
    - apply (keys_os _ _ _ Hkw).
    - destruct Hst. by eexists.
    - destruct Heph. by eexists.
    - rewrite <- Hsp. apply (keys_static_pub _ _ _ Hkw).
    - rewrite <- Hep. apply (wf_precomp_pub _ Ht). }
  intros r o1 [(pkts & Hsends & Hr) (enc' & -> & Hkeys & Hsealed' & Hsent)].
  assert (inv c (World _ o1 t)) as Hinv1 by (eapply inv_same; [apply Hsends..|done]).
  apply wp_bind. eapply wp_conseq; [by apply (wp_refresh_shape c)|].
  intros [] [o2 t2] (Hsent2 & pk & pub & E). cbn [w_tab w_os] in *. subst t2. apply wp_bind, wp_tab. cbn [w_tab].
  change (find_peer_config (set_precomp pk pub t) (public kc)) with (find_peer_config t (public kc)). rewrite Hn.
  apply wp_bind. eapply wp_config_at; [done|].
  apply wp_bind. eapply wp_conseq; [apply (wp_cooled (set_precomp pk pub t) now _ (public kc) src); [exact Hcool|]|].
  { intros i (s & [_ Hs]%slots_lookup & Ha & Hm%memcmp_eq)%find_session_by_pub_Some; [by eauto|].
    rewrite (length_public kc Hkc). by eapply wf_static_pub, inv_session_wf. }
  intros b w' [-> ->]. apply wp_bind. eapply wp_conseq; [apply wp_alloc_exact|].
  { by apply (slots_wf_ext t), Ht. } { by rewrite (alloc_room_ext t). } { exact Hf. }
  intros x [o3 t3] ([i ->] & Ho & Hf3). cbn [w_os w_tab] in *. subst o3. wp_step. split; [done|].
  exists enc', i. split_and!; [done..|]. cbn [w_os]. congruence.
Qed.

(** The responder answers an initiation and sets up its end. *)
Lemma wp_answer c src now kc k ks ke enc cfg o t :
  inv c (World _ o t) -> responder c o t ks ke -> admits t src (public kc) cfg ->
  cooled t now src (public kc) -> is_keypair kc -> is_keypair k -> sealed (dh k (public ks)) (public kc) enc ->
  wp (on_handshake c src (hs_message (psk_key c) (public k) enc) now)
     (fun _ w' => inv c w' /\ exists enc' i, sealed (dh ke (public k)) (public ks) enc' /\
        os_sent (w_os w') = os_sent o ++ [(src, hs_message (psk_key c) (public ke) enc')] /\
        joined (w_tab w') src (public kc) (server_key ke ks k kc) (pc_routes cfg) i) (World _ o t).
Proof.
  intros Hinv Hr Ha Hcool Hkc Hk Hsealed. unfold on_handshake. apply wp_bind, wp_tab. cbn [w_tab].
  rewrite (adm_pending _ _ _ _ Ha). apply wp_bind. unfold tie_break. apply wp_bind, wp_tab. cbn [w_tab].
  rewrite (adm_pending _ _ _ _ Ha). apply wp_ret, wp_bind.
  eapply wp_conseq; [apply wp_and; [by apply wp_accept_initiation|by apply wp_accept_initiation_ok]|].
  intros r w1 (Hg & Hf & enc' & i & -> & Hsealed' & Hsent).
  eapply wp_conseq; [apply wp_and; [by apply wp_install|by eapply wp_install_joined]|].
  intros [] w2 (Hinv2 & Hj & Hs2). split; [done|]. exists enc', i. by rewrite Hs2.
Qed.

(** ** The initiator *)

(** What the initiator has while it waits for the answer from [a]. *)
Record awaiting (c : loop_ctx) (w : world) (a : sockaddr_in) (kc ks k : evp_pkey) (rs : list ip_prefix) : Prop := {
  await_static : owns (w_os w) (static_key c) kc;
  await_pub : ctx_static_pub c = public kc;
  await_entry : exists j p h cfg, find_pending (w_tab w) a = Some j /\ pending_hs (w_tab w) !! j = Some p /\
    hs_state p = HsState (Some h) (public k) (dh k (public ks)) /\ owns (w_os w) h k /\
    peer_configs (w_tab w) !! cfg_idx p = Some cfg /\ pc_pub cfg = public ks /\ pc_routes cfg = rs;
}.

Lemma find_pending_insert t slot p :
  find_pending t (server_addr p) = None -> p_active p = true -> (slot < length (pending_hs t))%nat ->
  find_pending (set_pending_hs (<[slot := p]> (pending_hs t)) t) (server_addr p) = Some slot.
Proof.
  intros Hn Ha Hl. apply (first_index_intro _ _ _ p); cbn.
  - by apply list_lookup_insert_eq.
  - rewrite Ha. by apply same_addr_true.
  - intros j b Hj. rewrite list_lookup_insert_ne by lia. by apply (proj1 (first_index_None _ _) Hn).
Qed.

(** [initiate_outbound_handshake] sends the initiation and waits. *)
Lemma wp_initiate_ok c idx kc ks cfg o t :
  inv c (World _ o t) -> owns o (static_key c) kc -> ctx_static_pub c = public kc -> is_keypair ks ->
  peer_configs t !! idx = Some cfg -> pc_pub cfg = public ks -> find_pending t (endpoint cfg) = None ->
  is_Some (first_index (fun p => negb (p_active p)) (pending_hs t)) ->
  wp (initiate_outbound_handshake c idx)
     (fun r w' => r = true /\ sessions (w_tab w') = sessions t /\ session_slots (w_tab w') = session_slots t /\
        exists k enc, is_keypair k /\ sealed (dh k (public ks)) (public kc) enc /\
          os_sent (w_os w') = os_sent o ++ [(endpoint cfg, hs_message (psk_key c) (public k) enc)] /\
          awaiting c w' (endpoint cfg) kc ks k (pc_routes cfg)) (World _ o t).
Proof.
  intros [Ht Hkw] [Hst Hkc] Hpub Hks Hc Hcp Hn [slot Hslot]. unfold initiate_outbound_handshake.
  apply wp_bind, wp_time. intros z o1 Hq1. apply wp_bind. eapply wp_upd_config; [done|].
  apply wp_bind, wp_tab. cbn [w_tab pending_hs set_peer_configs]. rewrite Hslot.
  pose proof (lookup_lt_Some _ _ _ Hc) as Hlt.
  apply wp_bind. eapply wp_config_at; [by apply list_lookup_insert_eq|]. cbn [endpoint pc_pub set_last_attempt].
  rewrite Hpub, Hcp. apply wp_bind, wp_liftO.
  eapply wp_conseq; [apply (wp_client_send_ok socket_up _ _ kc ks); [by eapply os_quiet_wf, keys_os|done|done]|].
  intros r o2 (h & k & enc & -> & Hk & Hfresh & Hkeys & Hwf & Hsealed & Hsent).
  apply wp_bind, wp_time. intros sent o3 Hq3. apply first_index_Some in Hslot as (p & Hp & _).
  pose proof (lookup_lt_Some _ _ _ Hp) as Hsl. apply wp_bind. eapply wp_upd_pending; [done|]. apply wp_ret.
  split_and!; [done..|]. exists k, enc. cbn [w_os w_tab].
  rewrite (quiet_keys _ _ Hq1) in Hfresh, Hkeys. rewrite (quiet_sent _ _ Hq1) in Hsent.
  split_and!; [done|done|by rewrite (quiet_sent _ _ Hq3)|]. split; cbn [w_os w_tab].
  - split; [|done]. rewrite (quiet_keys _ _ Hq3), Hkeys, lookup_insert_ne by congruence. done.
  - done.
  - match goal with |- context [<[slot := ?q]> _] => exists slot, q, h, (set_last_attempt z cfg) end.
    split_and!; [by apply (find_pending_insert (set_peer_configs _ t) slot (PendingHs _ _ _ _ _))|..]; try done; cbn.
    + by apply list_lookup_insert_eq.
    + split; [|done]. by rewrite (quiet_keys _ _ Hq3), Hkeys, lookup_insert_eq.
    + by apply list_lookup_insert_eq.
Qed.

Lemma wp_accept_response_ok c a kc ks ke k enc rs j p h cfg o t :
  inv c (World _ o t) -> owns o (static_key c) kc -> ctx_static_pub c = public kc ->
  pending_hs t !! j = Some p -> hs_state p = HsState (Some h) (public k) (dh k (public ks)) -> owns o h k ->
  peer_configs t !! cfg_idx p = Some cfg -> pc_pub cfg = public ks -> pc_routes cfg = rs ->
  is_keypair ks -> is_keypair ke -> sealed (dh ke (public k)) (public ks) enc ->
  addr_free t a (public ks) -> is_Some (alloc_session t (public ks) a).1 ->
  wp (accept_response c j a (hs_message (psk_key c) (public ke) enc))
     (fun r w' => addr_free (w_tab w') a (public ks) /\ os_sent (w_os w') = os_sent o /\
        exists i, r = Some (Grant i (public ks) (server_key ke ks k kc) cfg)) (World _ o t).
Proof.
  intros [Ht Hkw] Hst Hpub Hj Hhs Hh Hc Hcp Hrs Hks Hke Hsealed Hf Hroom. unfold accept_response.
  apply wp_bind. eapply wp_pending_at; [done|]. apply wp_bind. eapply wp_config_at; [done|].
  pose proof (lookup_lt_Some _ _ _ Hj) as Hlt. apply wp_bind. eapply wp_upd_pending; [done|].
  rewrite Hhs, Hpub, Hcp. apply wp_bind, wp_liftO.
  eapply wp_conseq; [apply (wp_client_recv_ok _ _ h kc k ks ke); try done; apply (keys_os _ _ _ Hkw)|].
  intros r o1 (-> & _ & Hsent). apply wp_bind. eapply wp_upd_pending; [by apply list_lookup_insert_eq|].
  apply wp_bind. eapply wp_conseq; [apply wp_alloc_exact|].
  { by apply (slots_wf_ext t), Ht. } { by rewrite (alloc_room_ext t). } { exact Hf. }
  intros x [o2 t2] ([i ->] & Ho & Hf2). cbn [w_os w_tab] in *. subst o2. apply wp_ret. split_and!; [done|done|].
  exists i. cbn. destruct Hst as [_ Hkc], Hh as [_ Hk]. by rewrite (ok_dh k ke), (ok_dh kc ke), (ok_dh k ks).
Qed.

(** The initiator takes the answer and sets up its end. *)
Lemma wp_take_answer c a now kc ks ke k enc rs o t :
  inv c (World _ o t) -> awaiting c (World _ o t) a kc ks k rs -> is_keypair ks -> is_keypair ke ->
  sealed (dh ke (public k)) (public ks) enc -> addr_free t a (public ks) ->
  is_Some (alloc_session t (public ks) a).1 ->
  wp (on_handshake c a (hs_message (psk_key c) (public ke) enc) now)
     (fun _ w' => inv c w' /\ os_sent (w_os w') = os_sent o /\
        exists i, joined (w_tab w') a (public ks) (server_key ke ks k kc) rs i) (World _ o t).
Proof.
  intros Hinv [Hst Hpub (j & p & h & cfg & Hfp & Hj & Hhs & Hh & Hc & Hcp & Hrs)] Hks Hke Hsealed Hf Hroom.
  cbn [w_os w_tab] in *. unfold on_handshake. apply wp_bind, wp_tab. cbn [w_tab]. rewrite Hfp. apply wp_bind.
  apply find_pending_Some in Hfp as (p' & Hj' & Ha & _). simplify_eq.
  eapply wp_conseq; [apply wp_and; [by eapply wp_accept_response|by eapply wp_accept_response_ok]|].
  intros r w1 (Hg & Hf1 & Hs1 & i & ->).
  eapply wp_conseq; [apply wp_and; [by apply wp_install|by eapply wp_install_joined]|].
  intros [] w2 (Hinv2 & Hjn & Hs2). split_and!; [done|by rewrite Hs2|by exists i].
Qed.

(** ** Traffic *)

(** What is forwarded over session [i] of one peer is written to the TUN device of
    the other, where it comes from [src] and belongs to session [j]. *)
Definition carries (ws : world) (i : nat) (wr : world) (src : sockaddr_in) (j : nat) : Prop :=
  forall payload enc now enc' dec', payload <> [] -> (length payload <= BUFFER_SIZE)%nat ->
    (forall r, sessions (w_tab wr) !! j = Some r -> src_allowed r payload) ->
    (is_ipv4 payload = true ->
       forall f, route_lookup (w_tab wr) (read_u32 16 payload) = Some f -> f = j) ->
    exists e ws' a wire x wr', forward_to_peer i enc payload ws = Ret e ws' /\
      os_sent (w_os ws') = os_sent (w_os ws) ++ [(a, wire)] /\
      on_data src wire now enc' dec' wr = Ret x wr' /\ os_tun (w_os wr') = os_tun (w_os wr) ++ [payload].

Lemma joined_carries cs ws a pub rs i cr wr src pub' rs' j key :
  (forall n p, env_tun_write n p = true) ->
  inv cs ws -> joined (w_tab ws) a pub key rs i -> inv cr wr -> joined (w_tab wr) src pub' key rs' j ->
  carries ws i wr src j.
Proof.
  intros Htun Hinv [_ (s & Hs & _ & _ & _ & Hk & _ & Hseq & _)] Hinv' [Hf (r & Hr & _ & _ & _ & Hk' & _ & _ & Hrep)].
  destruct ws as [o t], wr as [o2 t2]. cbn [w_tab w_os] in *. intros payload enc now enc' dec' Hne Hl Hallow Hroute.
  destruct (inv_session_wf _ _ _ _ _ Hinv Hs) as [_ Hkl _ Hrange _ _ _].
  destruct (wp_elim _ _ _ (wp_forward_ok i enc payload o t s Hs Hkl Hl)) as (e & ws' & E & Hpost).
  destruct Hpost as [(n & b & p & Hn)|(wire & Hse & Hw & Hop)]; [by rewrite socket_up in Hn|].
  assert ((check_replay (send_seq s) (replay r)).1 = 0) as Hck by (rewrite Hseq, Hrep; vm_compute; reflexivity).
  destruct (wp_elim _ _ _ (wp_on_data_delivers cr src wire now enc' dec' o2 t2 j r (send_seq s) payload
    Hinv' Hf Hr ltac:(rewrite Hw; sizes) ltac:(by rewrite Hk', <- Hk) Hrange Hck Hne Htun (Hallow _ Hr) Hroute))
    as (x & wr' & ? & ? & ?).
  eexists e, ws', _, wire, x, wr'. split_and!; [done|exact Hse|done|done].
Qed.

(** ** The connection *)

(** What the initiator has before it starts: its static key, the peer it is
    configured with, a free entry for the handshake and a slot for the session. *)
Record initiator (c : loop_ctx) (w : world) (idx : nat) (kc ks : evp_pkey) (cfg : peer_config) : Prop := {
  ini_static : owns (w_os w) (static_key c) kc;
  ini_pub : ctx_static_pub c = public kc;
  ini_cfg : peer_configs (w_tab w) !! idx = Some cfg;
  ini_peer : pc_pub cfg = public ks;
  ini_pending : find_pending (w_tab w) (endpoint cfg) = None;
  ini_entry : is_Some (first_index (fun p => negb (p_active p)) (pending_hs (w_tab w)));
  ini_addr : addr_free (w_tab w) (endpoint cfg) (public ks);
  ini_room : is_Some (alloc_session (w_tab w) (public ks) (endpoint cfg)).1;
}.
End Connect.

(** C10: Peers connect.  When each peer is configured with the other's public key and
    both with the same pre-shared key, the initiation that the one sends, handled by
    the other, and its answer, handled by the one, set up a session at both ends,
    each found at the address of the other, with one key and fresh counters, whether
    or not there was a session before; and packets then go both ways. *)
Theorem peers_connect `{OpenSSLOk} ca wa idx kc cfga cb wb ks ke cfgb src now now' :
  (forall n a p, env_sendto n a p = true) -> (forall n p, env_tun_write n p = true) ->
  inv ca wa -> inv cb wb -> psk_key ca = psk_key cb ->
  initiator ca wa idx kc ks cfga -> responder cb (w_os wb) (w_tab wb) ks ke ->
  admits (w_tab wb) src (public kc) cfgb -> cooled (w_tab wb) now src (public kc) ->
  exists wa1 msg wb1 resp wa2 key i j,
    initiate_outbound_handshake ca idx wa = Ret true wa1 /\
    os_sent (w_os wa1) = os_sent (w_os wa) ++ [(endpoint cfga, msg)] /\
    on_handshake cb src msg now wb = Ret tt wb1 /\
    os_sent (w_os wb1) = os_sent (w_os wb) ++ [(src, resp)] /\
    on_handshake ca (endpoint cfga) resp now' wa1 = Ret tt wa2 /\
    joined (w_tab wa2) (endpoint cfga) (public ks) key (pc_routes cfga) i /\
    joined (w_tab wb1) src (public kc) key (pc_routes cfgb) j /\
    carries wa2 i wb1 src j /\ carries wb1 j wa2 (endpoint cfga) i.
Proof.
  destruct wa as [oa ta], wb as [ob tb]. intros Hup Htun Hia Hib Hpsk [Hst Hpub Hc Hcp Hfp He Hf Hroom] Hr Ha Hcool.
  cbn [w_os w_tab] in *. pose proof Hr as [[_ Hks] _ (he & _ & _ & Hke) _]. pose proof Hst as [_ Hkc].
  destruct (wp_elim _ _ _ (wp_and _ _ _ _ (wp_initiate ca idx oa ta Hia (ex_intro _ _ Hc))
    (wp_initiate_ok Hup ca idx kc ks cfga oa ta Hia Hst Hpub Hks Hc Hcp Hfp He)))
    as (b & [o1 t1] & E1 & (Hi1 & _) & -> & Hs1 & Hn1 & k & enc & Hk & Hsealed & Hsent1 & Hawait).
  destruct (wp_elim _ _ _ (wp_answer Hup cb src now kc k ks ke enc cfgb ob tb Hib Hr Ha Hcool Hkc Hk Hsealed))
    as ([] & wb1 & E2 & Hi2 & enc' & j & Hsealed' & Hsent2 & Hj).
  cbn [w_os w_tab] in *.
  destruct (wp_elim _ _ _ (wp_take_answer ca (endpoint cfga) now' kc ks ke k enc' _ o1 t1 Hi1 Hawait Hks Hke Hsealed'
    ltac:(unfold addr_free; rewrite Hs1; exact Hf) ltac:(by rewrite (alloc_room_ext ta))))
    as ([] & wa2 & E3 & Hi3 & _ & i & Hj').
  exists (World _ o1 t1). eexists _, wb1, _, wa2, _, i, j. rewrite Hpsk in *.
  split_and!; [exact E1|exact Hsent1|exact E2|exact Hsent2|exact E3|exact Hj'|exact Hj|..];
    by eapply joined_carries.
Qed.

(** ** Witness: the peer of Safety and the one it is configured with *)

#[local] Existing Instance Toy.ssl.
#[local] Existing Instance Toy.env.
#[local] Existing Instance Toy.ssl_ok.

Definition toy_dialer : loop_ctx := LoopCtx 0 (Toy.pub_of toy_kc) None 25.
Definition toy_dialer_os : os := Os _ 0 {[0%nat := toy_kc]} 1 [] [].
Definition toy_dialer_cfg : peer_config :=
  PeerConfig (Toy.pub_of toy_ks) [route_b] true (SockAddr 5 5) EmptyString 5040 0.
Definition toy_dialer_boot : world := boot toy_dialer_os default_timing [toy_dialer_cfg].
Definition toy_dialer_started : world := run_end (refresh_precomp_eph toy_dialer_boot) toy_dialer_boot.

Lemma toy_dialer_ok : boot_ok toy_dialer toy_dialer_os default_timing [toy_dialer_cfg].
Proof.
  constructor.
  - intros h [k Hk]. cbn in Hk. apply lookup_singleton_Some in Hk as [<- _]. cbn. lia.
  - by eexists.
  - reflexivity.
  - apply Nat.leb_le. reflexivity.
  - repeat constructor; cbn; (done || lia).
  - cbn. unfold REKEY_AFTER_SECS. lia.
Qed.

Lemma toy_dialer_inv : inv toy_dialer toy_dialer_started.
Proof.
  refine (reachable_inv _ _ _ _ _ toy_dialer_ok _).
  exists toy_dialer_started. split; [apply run_eta; vm_compute; reflexivity|apply rtc_refl].
Qed.

Lemma toy_started_inv : inv toy_peer toy_started.
Proof. exact (reachable_inv _ _ _ _ _ toy_boot_ok toy_started_reachable). Qed.

(** No slot is in use yet. *)
Lemma none_active (t : tables) i s :
  forallb (fun s => negb (active s)) (sessions t) = true -> sessions t !! i = Some s -> active s = false.
Proof.
  intros Ha Hs. rewrite forallb_forall in Ha. apply negb_true_iff, Ha, list_elem_of_In.
  by eapply list_elem_of_lookup_2.
Qed.

Lemma toy_initiator : initiator toy_dialer toy_dialer_started 0 toy_kc toy_ks toy_dialer_cfg.
Proof.
  split; [split; [vm_compute; reflexivity|exact I]|reflexivity|vm_compute; reflexivity|reflexivity
    |vm_compute; reflexivity|vm_compute; by eexists| |vm_compute; by eexists].
  intros i s Hs Ha. rewrite (none_active (w_tab toy_dialer_started) i s) in Ha; [done|by vm_compute|done].
Qed.

Definition toy_eph : evp_pkey :=
  default toy_ke (os_keys (w_os toy_started) !! default 0%nat (precomp_eph_key (w_tab toy_started))).

Lemma toy_responder : responder toy_peer (w_os toy_started) (w_tab toy_started) toy_ks toy_eph.
Proof.
  split; [split; [vm_compute; reflexivity|exact I]|reflexivity| |vm_compute; reflexivity].
  eexists. split; [vm_compute; reflexivity|]. split; [vm_compute; reflexivity|exact I].
Qed.

Lemma toy_admits : admits (w_tab toy_started) (SockAddr 9 9) (Toy.pub_of toy_kc) toy_peer_cfg.
Proof.
  split; [vm_compute; reflexivity| |vm_compute; by eexists|exists 0%nat; split; vm_compute; reflexivity].
  intros i s Hs Ha. rewrite (none_active (w_tab toy_started) i s) in Ha; [done|by vm_compute|done].
Qed.

Lemma peers_connect_witness :
  exists wa1 msg wb1 resp wa2 key i j,
    initiate_outbound_handshake toy_dialer 0 toy_dialer_started = Ret true wa1 /\
    os_sent (w_os wa1) = os_sent (w_os toy_dialer_started) ++ [(SockAddr 5 5, msg)] /\
    on_handshake toy_peer (SockAddr 9 9) msg 1000 toy_started = Ret tt wb1 /\
    os_sent (w_os wb1) = os_sent (w_os toy_started) ++ [(SockAddr 9 9, resp)] /\
    on_handshake toy_dialer (SockAddr 5 5) resp 1001 wa1 = Ret tt wa2 /\
    joined (w_tab wa2) (SockAddr 5 5) (Toy.pub_of toy_ks) key [route_b] i /\
    joined (w_tab wb1) (SockAddr 9 9) (Toy.pub_of toy_kc) key [route_a] j /\
    carries wa2 i wb1 (SockAddr 9 9) j /\ carries wb1 j wa2 (SockAddr 5 5) i.
Proof.
  apply (@peers_connect Toy.ssl Toy.env Toy.ssl_ok toy_dialer toy_dialer_started 0%nat toy_kc toy_dialer_cfg toy_peer toy_started toy_ks toy_eph
           toy_peer_cfg (SockAddr 9 9) 1000 1001);
    [reflexivity|reflexivity|exact toy_dialer_inv|exact toy_started_inv|reflexivity|exact toy_initiator
    |exact toy_responder|exact toy_admits|].
  intros i s Hs Ha. rewrite (none_active (w_tab toy_started) i s) in Ha; [discriminate|vm_compute; reflexivity|exact Hs].
Defined.
