(* ===== verification/Threads.v ===== *)
(** * The threads of src/peer.c and their locks

    The handlers of the workers and of the housekeeping thread, cut at every
    operation on [table_lock] and on the [hot_lock] of a session; the threads take
    turns between the pieces.  Log output is left out: it touches nothing of the
    state here, but all threads share the static buffer of [log_timestamp] without
    a lock; Logging models that buffer and its race on its own.  Theorems are in
    Interleave and ThreadSafety. *)

From S2P Require Import Prelude Replay Platform Crypto Handshake Hex Cidr Session Peer.

(** ** The flags and the signal handler *)

Record flags := Flags { stop_flag : bool; print_sessions_flag : bool }.

Inductive signal := SIGTERM | SIGINT | SIGUSR1.

Definition handle_signal (sig : signal) (f : flags) : flags :=
  match sig with
  | SIGUSR1 => Flags (stop_flag f) true
  | _ => Flags true (print_sessions_flag f)
  end.

(** ** The record of a run

    Not state of the program: what the pieces that matter for the counters of
    session [i] were given and returned.  [Sealed]: a payload, and the datagram made
    of it with its destination, [None] when the encryption failed; [Accepted]: a
    datagram under the current key that the replay test let pass, and the number
    that was tested; [Rekeyed]: the session has a new key. *)
Inductive note :=
| Sealed (i : nat) (payload : bytes) (out : option (sockaddr_in * bytes))
| Accepted (i : nat) (seq : Z) (pkt : bytes)
| Rekeyed (i : nat).

Section Threads.
Context `{Env}.

(** What a thread still has to do.  [Act] is a piece without lock operations; the
    three loop heads are where [stop_flag] is read, and [EpollWait] is a worker
    blocked in [epoll_wait]. *)
Inductive code :=
| Done
| WorkerLoop (ctxs : evp_cipher_ctx * evp_cipher_ctx)
| EpollWait (ctxs : evp_cipher_ctx * evp_cipher_ctx)
| HouseLoop (last_check : Z) (enc_ctx : evp_cipher_ctx)
| Rdlock (k : code)
| Wrlock (k : code)
| Unlock (k : code)
| Lock (i : nat) (k : code)
| UnlockHot (i : nat) (k : code)
| Act (A : Type) (m : M world A) (notes : A -> list note) (k : A -> code).
Arguments Act {A}.

Definition quiet {A} (_ : A) : list note := [].

(** ** Pieces shared by the handlers *)

(** [forward_to_peer]; the caller holds [table_lock]. *)
Definition forward_code (i : nat) (enc_ctx : evp_cipher_ctx) (payload : bytes)
    (k : evp_cipher_ctx -> code) : code :=
  Lock i (Act (seal_for i enc_ctx payload) (fun r => [Sealed i payload r.2]) (fun sealed =>
  UnlockHot i
    match sealed with
    | (enc_ctx, None) => k enc_ctx
    | (enc_ctx, Some (dest, wire_buf)) =>
        Act (liftO (sendto dest wire_buf)) quiet (fun ok : bool =>
        if ok then
          Lock i (Act (stamp_sent i) quiet (fun _ =>
          UnlockHot i (k enc_ctx)))
        else k enc_ctx)
    end)).

(** [print_sessions], over the slots [js]; what is printed goes to the log. *)
Fixpoint print_slots (js : list nat) (k : code) : code :=
  match js with
  | [] => k
  | j :: js' =>
      Act (session_at j) quiet (fun s =>
      if negb (active s) then print_slots js' k else
      Lock j (Act (let! s := session_at j in ret (addr s)) quiet (fun _ =>
      UnlockHot j (print_slots js' k))))
  end.

Definition print_sessions (k : code) : code :=
  Act (let! t := tab in ret (session_slots t)) quiet (fun n => print_slots (seq 0 n) k).

(** ** A worker *)

Definition tun_code (buffer : bytes) (enc_ctx : evp_cipher_ctx) (k : evp_cipher_ctx -> code) : code :=
  if is_ipv4 buffer then
    Rdlock (Act (let! t := tab in ret (route_lookup t (read_u32 16 buffer))) quiet (fun s =>
    match s with
    | Some i => forward_code i enc_ctx buffer (fun enc_ctx => Unlock (k enc_ctx))
    | None => Unlock (k enc_ctx)
    end))
  else k enc_ctx.

(** [session_init] and [print_sessions]. *)
Definition install_code (src : sockaddr_in) (is_out : bool) (g : option grant) (k : code) : code :=
  match g with
  | None => k
  | Some g =>
      Act (session_open (g_slot g) (g_pub g)) quiet (fun was_active =>
      Lock (g_slot g) (Act (session_rekey (g_slot g) src (g_key g) was_active)
                           (fun _ => [Rekeyed (g_slot g)]) (fun _ =>
      UnlockHot (g_slot g) (Act (session_close (g_slot g) (Some (g_cfg g)) is_out) quiet (fun _ =>
      print_sessions k)))))
  end.

Definition handshake_code (c : loop_ctx) (src : sockaddr_in) (pkt : bytes) (now : Z) (k : code) : code :=
  Wrlock (Act (let! t := tab in ret (find_pending t src)) quiet (fun p =>
  match p with
  | Some j =>
      Act (accept_response c j src pkt) quiet (fun g => install_code src true g (Unlock k))
  | None =>
      Act (tie_break c src) quiet (fun skip : bool =>
      if skip then Unlock k else
      Act (accept_initiation c src pkt now) quiet (fun g => install_code src false g (Unlock k)))
  end)).

(** The note of a packet the replay test let pass. *)
Definition accepted (i : nat) (pkt : bytes) (r : evp_cipher_ctx * option (Z * bool * bytes)) : list note :=
  match r.2 with
  | Some (seq, false, _) => [Accepted i seq pkt]
  | _ => []
  end.

Definition data_code (src : sockaddr_in) (pkt : bytes) (now : Z) (enc_ctx dec_ctx : evp_cipher_ctx)
    (k : evp_cipher_ctx * evp_cipher_ctx -> code) : code :=
  Rdlock (Act (let! t := tab in ret (find_session_by_addr t src)) quiet (fun s =>
  match s with
  | None => Unlock (k (enc_ctx, dec_ctx))
  | Some i =>
      Lock i (Act (receive i pkt now dec_ctx) (accepted i pkt) (fun opened =>
      UnlockHot i
        match opened with
        | (dec_ctx, None) => Unlock (k (enc_ctx, dec_ctx))
        | (dec_ctx, Some (_, _, payload)) =>
            Act (dispatch i payload) quiet (fun v =>
            match v with
            | Drop => Unlock (k (enc_ctx, dec_ctx))
            | Relay fwd =>
                forward_code fwd enc_ctx payload (fun enc_ctx => Unlock (k (enc_ctx, dec_ctx)))
            | ToTun =>
                Unlock (Act (liftO (tun_write payload)) quiet (fun _ => k (enc_ctx, dec_ctx)))
            end)
        end))
  end)).

Definition udp_code (c : loop_ctx) (src : sockaddr_in) (pkt : bytes) (enc_ctx dec_ctx : evp_cipher_ctx)
    (k : evp_cipher_ctx * evp_cipher_ctx -> code) : code :=
  Act (liftO c_time) quiet (fun now =>
  if (length pkt =? hs_size (psk_key c))%nat &&
     (memcmp (slice 0 HEADER_SIZE pkt) pkt_header =? 0)
  then handshake_code c src pkt now (k (enc_ctx, dec_ctx))
  else data_code src pkt now enc_ctx dec_ctx k).

(** [Done] stands for [goto done]: nothing after the label takes a lock. *)
Definition event_code (c : loop_ctx) (e : event) (ctxs : evp_cipher_ctx * evp_cipher_ctx)
    (k : evp_cipher_ctx * evp_cipher_ctx -> code) : code :=
  match e with
  | EvHangup => Done
  | EvTun None => Done
  | EvTun (Some data) =>
      let buffer := take BUFFER_SIZE data in
      if (length buffer =? 0)%nat then Done else
      tun_code buffer ctxs.1 (fun enc_ctx => k (enc_ctx, ctxs.2))
  | EvUdp None => Done
  | EvUdp (Some (src, data)) => udp_code c src (take WIRE_CAP data) ctxs.1 ctxs.2 k
  end.

Fixpoint events_code (c : loop_ctx) (es : list event) (ctxs : evp_cipher_ctx * evp_cipher_ctx) : code :=
  match es with
  | [] => WorkerLoop ctxs
  | e :: es' => event_code c e ctxs (events_code c es')
  end.

(** What [epoll_wait] returned. *)
Definition wake_code (c : loop_ctx) (wk : wake) (ctxs : evp_cipher_ctx * evp_cipher_ctx) : code :=
  match wk with
  | Events es => events_code c es ctxs
  | Interrupted => WorkerLoop ctxs
  | EpollError => Done
  end.

Definition worker_start (epoll_ok : bool) : code :=
  Act (liftO (io EVP_CIPHER_CTX_new)) quiet (fun enc =>
  Act (liftO (io EVP_CIPHER_CTX_new)) quiet (fun dec =>
  match enc, dec with
  | Some enc_ctx, Some dec_ctx => if negb epoll_ok then Done else WorkerLoop (enc_ctx, dec_ctx)
  | _, _ => Done
  end)).

(** ** The housekeeping thread *)

Fixpoint expire_slots (now : Z) (js : list nat) (k : code) : code :=
  match js with
  | [] => k
  | j :: js' =>
      Act (hk_silent now j) quiet (fun silent : bool =>
      if silent then
        Lock j (Act (let! s := session_at j in ret (addr s)) quiet (fun _ =>
        UnlockHot j (Act (upd_session j (set_active false)) quiet (fun _ =>
        expire_slots now js' k))))
      else expire_slots now js' k)
  end.

Fixpoint keepalive_slots (c : loop_ctx) (now : Z) (js : list nat) (enc_ctx : evp_cipher_ctx)
    (k : evp_cipher_ctx -> code) : code :=
  match js with
  | [] => k enc_ctx
  | j :: js' =>
      Act (session_at j) quiet (fun s =>
      if negb (active s) then keepalive_slots c now js' enc_ctx k else
      Lock j (Act (hk_due c now j) quiet (fun due : bool =>
      UnlockHot j
        (if due then forward_code j enc_ctx [] (fun enc_ctx => keepalive_slots c now js' enc_ctx k)
         else keepalive_slots c now js' enc_ctx k))))
  end.

Definition tick_code (c : loop_ctx) (now : Z) (enc_ctx : evp_cipher_ctx)
    (k : evp_cipher_ctx -> code) : code :=
  Wrlock (Act (hk_handshakes c now) quiet (fun n =>
  expire_slots now (seq 0 n)
    (keepalive_slots c now (seq 0 n) enc_ctx (fun enc_ctx => Unlock (k enc_ctx))))).

(** One turn of the loop; [print] is [print_sessions_flag]. *)
Definition house_code (c : loop_ctx) (print : bool) (last_check : Z) (enc_ctx : evp_cipher_ctx) : code :=
  let rest :=
    Act (liftO c_time) quiet (fun now =>
    if 10 <=? now - last_check then tick_code c now enc_ctx (HouseLoop now)
    else HouseLoop last_check enc_ctx) in
  if print then Rdlock (print_sessions (Unlock rest)) else rest.

Definition house_start : code :=
  Act (liftO (io EVP_CIPHER_CTX_new)) quiet (fun enc =>
  match enc with
  | None => Done
  | Some enc_ctx => HouseLoop 0 enc_ctx
  end).

(** ** Threads and locks

    [table_lock] is a [pthread_rwlock_t], each [hot_lock] a [pthread_mutex_t]; who
    holds them is recorded with the threads.  Releasing a lock that the thread does
    not hold is undefined.  A thread that reads and takes the read lock again would
    be granted it; as the holders are not counted here, that is [Undefined] too,
    and no thread does it. *)

Inductive mode := Free | Reading | Writing.

Record thread := Thread { t_code : code; t_table : mode; t_hot : list nat }.

Record conf := Conf { threads : list thread; c_world : world; c_flags : flags; trace : list note }.

#[export] Instance mode_eq_dec : EqDecision mode.
Proof. solve_decision. Defined.

Definition can_read (ts : list thread) : bool :=
  forallb (fun t => bool_decide (t_table t <> Writing)) ts.
Definition can_write (ts : list thread) : bool :=
  forallb (fun t => bool_decide (t_table t = Free)) ts.
Definition can_lock (i : nat) (ts : list thread) : bool :=
  forallb (fun t => bool_decide (i ∉ t_hot t)) ts.

(** What may happen: thread [n] goes on, [epoll_wait] returns to worker [n], or a
    signal arrives. *)
Inductive move :=
| Run (n : nat)
| Wake (n : nat) (wk : wake)
| Signal (sig : signal).

(** [Blocked]: the move is not possible now. *)
Inductive result :=
| Blocked
| Undefined
| Next (cf : conf).

Definition with_thread (n : nat) (th : thread) (cf : conf) : conf :=
  Conf (<[n := th]> (threads cf)) (c_world cf) (c_flags cf) (trace cf).

Definition put (n : nat) (k : code) (m : mode) (h : list nat) (cf : conf) : result :=
  Next (with_thread n (Thread k m h) cf).

(** The newest note comes first. *)
Definition put_act (n : nat) (th : thread) (r : outcome world (list note * code)) (cf : conf) : result :=
  match r with
  | UB => Undefined
  | Ret (l, k) w =>
      Next (Conf (<[n := Thread k (t_table th) (t_hot th)]> (threads cf)) w (c_flags cf)
                 (rev l ++ trace cf))
  end.

Definition run_thread (c : loop_ctx) (n : nat) (th : thread) (cf : conf) : result :=
  match t_code th with
  | Done => Blocked
  | WorkerLoop ctxs =>
      put n (if stop_flag (c_flags cf) then Done else EpollWait ctxs) (t_table th) (t_hot th) cf
  | EpollWait _ => Blocked
  | HouseLoop last_check enc_ctx =>
      if stop_flag (c_flags cf) then put n Done (t_table th) (t_hot th) cf else
      put n (house_code c (print_sessions_flag (c_flags cf)) last_check enc_ctx) (t_table th) (t_hot th)
        (Conf (threads cf) (c_world cf) (Flags (stop_flag (c_flags cf)) false) (trace cf))
  | Rdlock k =>
      match t_table th with
      | Reading => Undefined
      | _ => if can_read (threads cf) then put n k Reading (t_hot th) cf else Blocked
      end
  | Wrlock k => if can_write (threads cf) then put n k Writing (t_hot th) cf else Blocked
  | Unlock k => match t_table th with Free => Undefined | _ => put n k Free (t_hot th) cf end
  | Lock i k =>
      if can_lock i (threads cf) then put n k (t_table th) (i :: t_hot th) cf else Blocked
  | UnlockHot i k =>
      if decide (i ∈ t_hot th)
      then put n k (t_table th) (filter (fun j => j <> i) (t_hot th)) cf else Undefined
  | Act m notes k =>
      put_act n th ((let! a := m in ret (notes a, k a)) (c_world cf)) cf
  end.

Definition fire (c : loop_ctx) (mv : move) (cf : conf) : result :=
  match mv with
  | Run n =>
      match threads cf !! n with
      | Some th => run_thread c n th cf
      | None => Blocked
      end
  | Wake n wk =>
      match threads cf !! n with
      | Some (Thread (EpollWait ctxs) m h) => put n (wake_code c wk ctxs) m h cf
      | _ => Blocked
      end
  | Signal sig => Next (Conf (threads cf) (c_world cf) (handle_signal sig (c_flags cf)) (trace cf))
  end.

(** A schedule. *)
Fixpoint run (c : loop_ctx) (mvs : list move) (cf : conf) : result :=
  match mvs with
  | [] => Next cf
  | mv :: mvs' =>
      match fire c mv cf with
      | Next cf' => run c mvs' cf'
      | r => r
      end
  end.

(** After the [pthread_create]s of [start_peer]: [epoll_oks] has an entry per
    worker, the outcome of its [epoll_create1]. *)
Definition spawn (epoll_oks : list bool) (w : world) : conf :=
  Conf (((fun ok => Thread (worker_start ok) Free []) <$> epoll_oks) ++ [Thread house_start Free []])
       w (Flags false false) [].
End Threads.
Arguments Act {_ _} m notes k.
