(* ===== verification/Interleave.v ===== *)
(** * A logic for the threads

    What a thread may rely on while it holds its locks, what each of its pieces
    guarantees to the others, and that threads which keep to this stay safe under
    every interleaving. *)

From S2P Require Import Prelude Replay Platform Crypto Handshake Hex Cidr Session Peer Invariant Safety Frames Threads.

(** ** The record of a run against the counters *)

(** What was sealed, and what was let pass, since the last rekey of session [j]. *)
Fixpoint sealed_in (j : nat) (tr : list note) : list (bytes * option (sockaddr_in * bytes)) :=
  match tr with
  | [] => []
  | Sealed i p out :: tr' => if (i =? j)%nat then (p, out) :: sealed_in j tr' else sealed_in j tr'
  | Accepted _ _ _ :: tr' => sealed_in j tr'
  | Rekeyed i :: tr' => if (i =? j)%nat then [] else sealed_in j tr'
  end.

Fixpoint accepted_in (j : nat) (tr : list note) : list (Z * bytes) :=
  match tr with
  | [] => []
  | Sealed _ _ _ :: tr' => accepted_in j tr'
  | Accepted i q pkt :: tr' => if (i =? j)%nat then (q, pkt) :: accepted_in j tr' else accepted_in j tr'
  | Rekeyed i :: tr' => if (i =? j)%nat then [] else accepted_in j tr'
  end.

Section Counters.
Context `{Env}.

(** The datagram [out] is the payload under number [seq], sealed with the key of the
    session and meant for its address. *)
Definition carries (s : peer_session) (seq : Z) (payload : bytes) (out : option (sockaddr_in * bytes)) : Prop :=
  forall dest wire, out = Some (dest, wire) ->
    dest = addr s /\ seals (session_key s) (data_plain seq payload) wire.

(** The datagram [pkt] opens under the key of the session as a packet with number [seq]. *)
Definition bears (s : peer_session) (seq : Z) (pkt : bytes) : Prop :=
  exists o plain, opens o (session_key s) pkt plain /\ slice 0 HEADER_SIZE plain = pkt_header /\
    seq = be_decode (slice HEADER_SIZE SEQ_SIZE plain).

Record counters (tr : list note) (j : nat) (s : peer_session) : Prop := {
  count_sent : send_seq s = u64 (Z.of_nat (length (sealed_in j tr)));
  count_order k p out : reverse (sealed_in j tr) !! k = Some (p, out) -> carries s (u64 (Z.of_nat k)) p out;
  count_once : NoDup (accepted_in j tr).*1;
  count_blocked : Forall (fun q => blocked q s) (accepted_in j tr).*1;
  count_bears : Forall (fun x => bears s x.1 x.2) (accepted_in j tr);
}.

Definition recorded (tr : list note) (t : tables) : Prop :=
  forall j s, sessions t !! j = Some s -> counters tr j s.

(** What a step may do to the counters of session [j], by what it records. *)
Definition forgets_nothing (s s' : peer_session) : Prop := forall q, blocked q s -> blocked q s'.

(** Key and address stay, and the window forgets nothing. *)
Definition linked (s s' : peer_session) : Prop :=
  session_key s' = session_key s /\ addr s' = addr s /\ forgets_nothing s s'.

Definition note_slot (n : note) : nat :=
  match n with Sealed i _ _ | Accepted i _ _ | Rekeyed i => i end.

Inductive effect (j : nat) (s s' : peer_session) : list note -> Prop :=
| eff_quiet : send_seq s' = send_seq s -> linked s s' -> effect j s s' []
| eff_other n : note_slot n <> j -> send_seq s' = send_seq s -> linked s s' -> effect j s s' [n]
| eff_sealed p out : send_seq s' = u64 (send_seq s + 1) -> linked s s' -> carries s (send_seq s) p out ->
    effect j s s' [Sealed j p out]
| eff_accepted q pkt : ~ blocked q s -> blocked q s' -> bears s q pkt -> send_seq s' = send_seq s ->
    linked s s' -> effect j s s' [Accepted j q pkt]
| eff_rekeyed : send_seq s' = 0 -> effect j s s' [Rekeyed j].

Definition ledger (l : list note) (t t' : tables) : Prop :=
  length (sessions t') = length (sessions t) /\
  forall j s s', sessions t !! j = Some s -> sessions t' !! j = Some s' -> effect j s s' l.

Lemma u64_succ z : u64 (u64 z + 1) = u64 (z + 1).
Proof. unfold wrap. by rewrite Zplus_mod_idemp_l. Qed.

#[export] Instance linked_preorder : PreOrder linked.
Proof.
  split; [intros s; split_and!; [done..|by intros q]|]. intros s1 s2 s3 (Ek & Ea & Hf) (Ek' & Ea' & Hf'). split_and!; try congruence.
  intros q Hq. by apply Hf', Hf.
Qed.

Lemma carries_linked s s' q p out : linked s s' -> carries s q p out -> carries s' q p out.
Proof. intros (Ek & Ea & _). unfold carries. by rewrite Ek, Ea. Qed.

(** The record of a session stands as long as its key, address and window do. *)
Lemma counters_linked tr j s s' :
  linked s s' -> send_seq s' = send_seq s -> counters tr j s -> counters tr j s'.
Proof.
  intros Hl E [Hc Ho Hn Hb Hp]. constructor; [congruence| |done|..].
  - intros k p out Hk. by eapply carries_linked, Ho.
  - eapply Forall_impl; [done|]. intros q. apply Hl.
  - eapply Forall_impl; [done|]. intros x. unfold bears. by rewrite (proj1 Hl).
Qed.

Lemma counters_skip tr n j s : note_slot n <> j -> counters tr j s -> counters (n :: tr) j s.
Proof.
  intros Hn [Hc Ho Hd Hb Hp].
  destruct n as [i p out|i q pkt|i]; cbn in Hn; constructor; cbn;
    rewrite ?(proj2 (Nat.eqb_neq i j) Hn); done.
Qed.

Lemma counters_sealed tr j s s' p out :
  linked s s' -> send_seq s' = u64 (send_seq s + 1) -> carries s (send_seq s) p out ->
  counters tr j s -> counters (Sealed j p out :: tr) j s'.
Proof.
  intros Hl E Hout [Hc Ho Hn Hb Hp].
  constructor; cbn [sealed_in accepted_in]; rewrite ?Nat.eqb_refl; [| |done|..].
  - rewrite E, Hc, u64_succ. cbn. f_equal. lia.
  - intros k p' out'. rewrite reverse_cons. intros [Hk|[Hk Hq]]%lookup_app_Some;
      [by eapply carries_linked, Ho|].
    rewrite length_reverse in Hk, Hq. apply list_lookup_singleton_Some in Hq as [Hz [= <- <-]].
    replace k with (length (sealed_in j tr)) by lia. rewrite <- Hc. by eapply carries_linked.
  - eapply Forall_impl; [done|]. intros q. apply Hl.
  - eapply Forall_impl; [done|]. intros x. unfold bears. by rewrite (proj1 Hl).
Qed.

Lemma counters_effect tr j s s' l :
  effect j s s' l -> counters tr j s -> counters (rev l ++ tr) j s'.
Proof.
  intros He Hco. destruct He as [E Hl|n Hne E Hl|p out E Hl Hout|q pkt Hq Hq' Hbe E Hl|E]; cbn [rev app].
  - by eapply counters_linked.
  - by eapply counters_skip, counters_linked.
  - by eapply counters_sealed.
  - destruct (counters_linked _ _ _ _ Hl E Hco) as [Hc Ho Hn Hb Hp].
    constructor; cbn; rewrite ?Nat.eqb_refl; [done|done| |by constructor|].
    + constructor; [|done]. intros Hin. pose proof (count_blocked _ _ _ Hco) as Hb0.
      rewrite Forall_forall in Hb0. by apply Hq, Hb0.
    + constructor; [|done]. cbn. unfold bears. by rewrite (proj1 Hl).
  - constructor; cbn; rewrite ?Nat.eqb_refl; try done. apply NoDup_nil_2.
Qed.

Lemma recorded_ledger tr l t t' : ledger l t t' -> recorded tr t -> recorded (rev l ++ tr) t'.
Proof.
  intros [Hlen He] Hr j s' Hs'. destruct (lookup_lt_is_Some_2 (sessions t) j) as [s Hs].
  { rewrite <- Hlen. by eapply lookup_lt_Some. }
  eapply counters_effect; [by eapply He|by apply Hr].
Qed.

Lemma ledger_refl t : ledger [] t t.
Proof. split; [done|]. intros j s s' Hs Hs'. simplify_eq. by apply eff_quiet; [|reflexivity]. Qed.

Lemma ledger_cold t t' : cold t t' -> ledger [] t t'.
Proof.
  intros E. split; [by rewrite <- (length_fmap hot_part (sessions t')), E, length_fmap|].
  intros j s s' Hs Hs'. apply (f_equal (fun l => l !! j)) in E. rewrite !list_lookup_fmap, Hs, Hs' in E.
  injection E as Ea E Er Ek _ _ _ _ _. apply eff_quiet; [done|]. split_and!; [done..|].
  intros q (a & Ha & Hf). exists a. by rewrite Er.
Qed.

(** An update of one session. *)
Lemma ledger_update l t i s s' :
  sessions t !! i = Some s -> effect i s s' l ->
  (l = [] \/ exists n, l = [n] /\ note_slot n = i) ->
  ledger l t (set_sessions (<[i := s']> (sessions t)) t).
Proof.
  intros Hs He Hl. split; [cbn; by rewrite length_insert|]. cbn. intros j a b Ha Hb.
  destruct (decide (i = j)) as [->|Hne].
  - rewrite list_lookup_insert_eq in Hb by (by eapply lookup_lt_Some). by simplify_eq.
  - rewrite list_lookup_insert_ne in Hb by done. simplify_eq.
    destruct Hl as [->|(n & -> & Hn)]; [by apply eff_quiet; [|reflexivity]|].
    apply eff_other; [congruence|done|reflexivity].
Qed.
End Counters.

(** ** Rely and guarantee *)

Section Logic.
Context `{OpenSSLSizes} (c : loop_ctx).

Lemma hot_eq_linked s s' : hot_eq s s' -> linked s s'.
Proof. intros Hh. split_and!; [apply Hh..|]. intros q. by apply blocked_hot. Qed.

(** Keys stay as they are, addresses of keys may have been handed out. *)
Definition os_shift (o o' : os) : Prop := os_keys o' = os_keys o /\ (os_next o <= os_next o')%nat.

#[local] Instance os_shift_preorder : PreOrder os_shift.
Proof. split; [done|]. intros ??? [] []. split; [congruence|lia]. Qed.

Lemma os_quiet_shift o o' : os_quiet o o' -> os_shift o o'.
Proof. by intros []. Qed.

Lemma inv_shift o o' t : os_shift o o' -> inv c (World _ o t) -> inv c (World _ o' t).
Proof.
  intros [Hk Hn] Hinv. eapply inv_same; [done| |done]. intros h. rewrite Hk.
  intros ?%(keys_os _ _ _ (proj2 Hinv)). cbn in *. lia.
Qed.

(** What the other threads may have done meanwhile, to a thread that holds
    [table_lock] in mode [m] and the locks of the sessions [hs]. *)
Definition rely (m : mode) (hs : list nat) (w w' : world) : Prop :=
  match m with
  | Free => True
  | Reading => inv c w' /\ table_keeps (w_tab w) (w_tab w') /\
      forall i, i ∈ hs -> sessions (w_tab w') !! i = sessions (w_tab w) !! i
  | Writing => w_tab w' = w_tab w /\ os_shift (w_os w) (w_os w')
  end.

(** What a piece may write under its locks. *)
Definition writes (m : mode) (hs : list nat) (t t' : tables) : Prop :=
  match m, hs with
  | Writing, [] => cold t t'
  | Reading, [i] => only i t t' /\ hot_step i t t'
  | Writing, [i] => only i t t'
  | _, _ => t' = t
  end.

Record guarantee (m : mode) (hs : list nat) (w w' : world) (l : list note) : Prop := {
  g_writes : writes m hs (w_tab w) (w_tab w');
  g_ledger : ledger l (w_tab w) (w_tab w');
  g_os : m <> Writing -> os_shift (w_os w) (w_os w');
  g_inv : m = Reading -> inv c w';
}.

(** [safe m hs k w]: from [w], with these locks, a thread that continues with [k]
    is never undefined, takes and releases its locks in order, and each of its
    pieces keeps the guarantee. *)
Fixpoint safe (m : mode) (hs : list nat) (k : code) (w : world) {struct k} : Prop :=
  match k with
  | Done | WorkerLoop _ | EpollWait _ | HouseLoop _ _ => m = Free /\ hs = []
  | Rdlock k => m = Free /\ hs = [] /\ forall w', inv c w' -> safe Reading [] k w'
  | Wrlock k => m = Free /\ hs = [] /\ forall w', inv c w' -> safe Writing [] k w'
  | Unlock k => m <> Free /\ hs = [] /\ (forall w', rely m [] w w' -> inv c w') /\
      forall w', safe Free [] k w'
  | Lock i k => m <> Free /\ hs = [] /\ forall w', rely m [] w w' -> safe m [i] k w'
  | UnlockHot i k => m <> Free /\ hs = [i] /\ forall w', rely m [i] w w' -> safe m [] k w'
  | Act f notes k => forall w', rely m hs w w' ->
      wp f (fun a w'' => guarantee m hs w' w'' (notes a) /\ safe m hs (k a) w'') w'
  end.

Lemma rely_trans m hs w1 w2 w3 : rely m hs w1 w2 -> rely m hs w2 w3 -> rely m hs w1 w3.
Proof.
  destruct m; cbn; [done|..].
  - intros (_ & Hk & Hs) (Hi & Hk' & Hs'). split_and!; [done|by etrans|]. intros i Hin. by rewrite Hs', Hs.
  - intros [E Ho] [E' Ho']. split; [congruence|by etrans].
Qed.

Lemma rely_refl m hs w : (m = Reading -> inv c w) -> rely m hs w w.
Proof. intros Hi. destruct m; cbn; [done|split_and!; [by apply Hi|reflexivity|done]|done]. Qed.

Lemma safe_rely m hs k w w' : rely m hs w w' -> safe m hs k w -> safe m hs k w'.
Proof.
  intros Hr. destruct k; cbn; try done.
  - intros (? & -> & Hi & Hk). split_and!; try done. intros w2 ?. eapply Hi, rely_trans; done.
  - intros (? & -> & Hk). split_and!; try done. intros w2 ?. eapply Hk, rely_trans; done.
  - intros (? & -> & Hk). split_and!; try done. intros w2 ?. eapply Hk, rely_trans; done.
  - intros Hk w2 ?. eapply Hk, rely_trans; done.
Qed.

(** A thread that holds [table_lock] sees the invariant and its session again. *)
Lemma rely_held m hs w w' :
  m <> Free -> inv c w -> rely m hs w w' -> inv c w' /\ table_keeps (w_tab w) (w_tab w').
Proof.
  destruct m; [done|by intros _ _ (? & ? & _)|]. intros _ Hinv [E Ho]. rewrite E. split; [|reflexivity].
  destruct w as [o t], w' as [o' t']. cbn in *. subst t'. by eapply inv_shift.
Qed.
End Logic.
