(* ===== verification/Locking.v ===== *)
(** * The handlers keep the locking discipline

    Every handler of Threads is safe in the logic of Interleave, from the loop
    head it starts at to the one it returns to. *)

From S2P Require Import Prelude Replay Platform Crypto Handshake Hex Cidr Session Peer Invariant Safety Frames Threads Interleave.

Lemma wp_frame `{Env} {A} R (m : M world A) Q (w : world) :
  frame R m -> wp m Q w -> wp m (fun a w' => Q a w' /\ R (w_tab w) (w_tab w')) w.
Proof. intros Hf. unfold wp. specialize (Hf w). by destruct (m w). Qed.

Section Locking.
Context `{OpenSSLSizes} (c : loop_ctx).
Abbreviation safe := (safe c).
Abbreviation guarantee := (guarantee c).
Abbreviation rely := (rely c).

(** ** Guarantees *)

Lemma writes_refl m hs t : (forall i, i ∈ hs -> is_Some (sessions t !! i)) -> writes m hs t t.
Proof.
  intros Hs. destruct m, hs as [|i [|]]; cbn; try done.
  split; [reflexivity|]. apply hot_step_refl, Hs. set_solver.
Qed.

(** A piece that only reads the tables. *)
Lemma guarantee_os m hs o o' t :
  (forall i, i ∈ hs -> is_Some (sessions t !! i)) -> (m = Reading -> inv c (World _ o t)) ->
  os_shift o o' -> guarantee m hs (World _ o t) (World _ o' t) [].
Proof.
  intros Hs Hinv Ho. constructor; cbn; [by apply writes_refl|apply ledger_refl|done|].
  intros Hm. apply (inv_shift c o); [done|]. by apply Hinv.
Qed.

Lemma guarantee_refl m hs w :
  (forall i, i ∈ hs -> is_Some (sessions (w_tab w) !! i)) -> (m = Reading -> inv c w) ->
  guarantee m hs w w [].
Proof. destruct w as [o t]. intros. by apply guarantee_os. Qed.

(** A piece that writes under the lock of session [i]. *)
Lemma guarantee_hot m i s s' o o' t l :
  m <> Free -> sessions t !! i = Some s -> structural s' = structural s -> hot_eq s s' ->
  effect i s s' l -> (l = [] \/ exists n, l = [n] /\ note_slot n = i) -> os_shift o o' ->
  (m = Reading -> inv c (World _ o (set_sessions (<[i := s']> (sessions t)) t))) ->
  guarantee m [i] (World _ o t) (World _ o' (set_sessions (<[i := s']> (sessions t)) t)) l.
Proof.
  intros Hm Hs Est Hh He Hl Ho Hinv. constructor; cbn.
  - destruct m; [done| |by eapply only_update]. split; [by eapply only_update|by eapply hot_step_upd].
  - by eapply ledger_update.
  - done.
  - intros ->. apply (inv_shift c o); [done|]. by apply Hinv.
Qed.

(** A piece that writes under the write lock alone. *)
Lemma guarantee_cold {A} (m : M world A) Q (w : world) :
  frame cold m -> wp m Q w -> wp m (fun a w' => guarantee Writing [] w w' [] /\ Q a w') w.
Proof.
  intros Hf Hw. eapply wp_conseq; [by apply (wp_frame cold)|]. intros a w' [HQ Hc].
  split; [|done]. constructor; [done|by apply ledger_cold|done|done].
Qed.

(** ** Pieces shared by the handlers *)

(** While [table_lock] is held, between two pieces. *)
Definition seen (w w' : world) : Prop := inv c w' /\ table_keeps (w_tab w) (w_tab w').

Lemma seen_session w w' i s :
  seen w w' -> sessions (w_tab w) !! i = Some s ->
  exists s', sessions (w_tab w') !! i = Some s' /\ hot_eq s s'.
Proof. intros [_ Hk]. by apply table_keeps_lookup. Qed.

Lemma seen_trans w1 w2 w3 : seen w1 w2 -> seen w2 w3 -> seen w1 w3.
Proof. intros [_ Hk] [Hi Hk']. split; [done|]. by etrans. Qed.

Lemma seen_refl w : inv c w -> seen w w.
Proof. split; [done|reflexivity]. Qed.

(** A piece that reads. *)
Lemma safe_look {A} m (f : M world A) k w :
  m <> Free -> inv c w ->
  (forall w1, seen w w1 -> wp f (fun a w2 => w2 = w1 /\ safe m [] (k a) w1) w1) ->
  safe m [] (Act f quiet k) w.
Proof.
  intros Hm Hinv Hf w1 Hr. pose proof (rely_held _ _ _ _ _ Hm Hinv Hr) as Hs.
  eapply wp_conseq; [by apply Hf|]. intros a w2 [-> Hk]. split; [|done].
  apply guarantee_refl; [by intros ? ?%elem_of_nil|by intros _; apply Hs].
Qed.

(** A critical section under the [hot_lock] of session [i]. *)
Lemma safe_section {A} m i (f : M world A) notes k w :
  m <> Free -> inv c w ->
  (forall w1, seen w w1 ->
     wp f (fun a w2 => guarantee m [i] w1 w2 (notes a) /\ seen w1 w2 /\
             forall w3, seen w w3 -> safe m [] (k a) w3) w1) ->
  safe m [] (Lock i (Act f notes (fun a => UnlockHot i (k a)))) w.
Proof.
  intros Hm Hinv Hf. split_and!; [done..|]. intros w0 Hr0 w1 Hr1.
  pose proof (rely_held _ _ _ _ _ Hm Hinv Hr0) as Hs0.
  pose proof (rely_held _ _ _ _ _ Hm (proj1 Hs0) Hr1) as Hs1.
  eapply wp_conseq; [apply Hf; by eapply seen_trans|]. intros a w2 (Hg & Hs2 & Hk).
  split; [done|]. split_and!; [done..|]. intros w3 Hr3. pose proof (rely_held _ _ _ _ _ Hm (proj1 Hs2) Hr3) as Hs3.
  apply Hk. eauto using seen_trans.
Qed.

(** A piece that asks the system, with or without [table_lock]. *)
Lemma safe_sys {A} (f : M os A) m k w :
  m <> Free -> inv c w -> (forall o, wp f (fun _ o' => os_shift o o') o) ->
  (forall a w', seen w w' -> safe m [] (k a) w') ->
  safe m [] (Act (liftO f) quiet k) w.
Proof.
  intros Hm Hinv Hf Hk [o1 t1] Hr. pose proof (rely_held _ _ _ _ _ Hm Hinv Hr) as Hs.
  apply wp_liftO. eapply wp_conseq; [apply Hf|]. intros a o2 Ho. split.
  - apply guarantee_os; [by intros ? ?%elem_of_nil|by intros _; apply Hs|done].
  - apply Hk. eapply seen_trans; [done|]. split; [|reflexivity]. apply (inv_shift c o1); [done|apply Hs].
Qed.

Lemma safe_sys_free {A} (f : M os A) k w :
  (forall o, wp f (fun _ o' => os_shift o o') o) -> (forall a w', safe Free [] (k a) w') ->
  safe Free [] (Act (liftO f) quiet k) w.
Proof.
  intros Hf Hk [o1 t1] _. apply wp_liftO. eapply wp_conseq; [apply Hf|]. intros a o2 Ho. split; [|done].
  by apply guarantee_os; [intros ? ?%elem_of_nil|..].
Qed.

Lemma safe_unlock m k w :
  m <> Free -> inv c w -> (forall w', safe Free [] k w') -> safe m [] (Unlock k) w.
Proof. intros Hm Hinv Hk. split_and!; [done..| |done]. intros w' Hr. by eapply rely_held. Qed.

Lemma shift_io {A} (f : nat -> A) o : wp (io f) (fun _ o' => os_shift o o') o.
Proof. by apply wp_io. Qed.

Lemma shift_sendto dest pkt o : wp (sendto dest pkt) (fun _ o' => os_shift o o') o.
Proof. apply wp_sendto; by intros _. Qed.

Lemma shift_tun_write pkt o : wp (tun_write pkt) (fun _ o' => os_shift o o') o.
Proof. apply wp_tun_write. intros o' b Hk Hn _ _. split; [done|lia]. Qed.

(** The session of a piece under its [hot_lock], updated. *)
Lemma section_update m i s s' o o' t l w :
  w = World _ o' (set_sessions (<[i := s']> (sessions t)) t) ->
  m <> Free -> inv c (World _ o t) -> sessions t !! i = Some s -> structural s' = structural s ->
  hot_eq s s' -> session_wf s' -> os_shift o o' -> effect i s s' l ->
  (l = [] \/ exists n, l = [n] /\ note_slot n = i) ->
  guarantee m [i] (World _ o t) w l /\ seen (World _ o t) w.
Proof.
  intros -> Hm Hinv Hs Est Hh Hwf Ho He Hl.
  assert (inv c (World _ o (set_sessions (<[i := s']> (sessions t)) t))) as Hinv'.
  { eapply inv_session; [done..|]. intros Ha. destruct Hh. split_and!; congruence. }
  split; [by eapply guarantee_hot|]. split; [by apply (inv_shift c o)|]. by eapply table_keeps_upd.
Qed.

Lemma safe_forward m i enc payload k w :
  m <> Free -> inv c w -> is_Some (sessions (w_tab w) !! i) -> (length payload <= BUFFER_SIZE)%nat ->
  (forall e w', seen w w' -> safe m [] (k e) w') ->
  safe m [] (forward_code i enc payload k) w.
Proof.
  intros Hm Hinv [s Hs] Hl Hk. unfold forward_code.
  assert (forall e w1, seen w w1 ->
    safe m [] (Lock i (Act (stamp_sent i) quiet (fun _ => UnlockHot i (k e)))) w1) as Hstamp.
  { intros e w1 Hw1. apply safe_section; [done|apply Hw1|]. intros w2 Hw2.
    pose proof (seen_trans _ _ _ Hw1 Hw2) as Hw.
    destruct (seen_session _ _ _ _ Hw Hs) as (s2 & Hs2 & _), w2 as [o2 t2].
    eapply wp_stamp; [exact Hs2|]. intros z o3 Ho3. apply and_assoc. split.
    - eapply section_update; [done|done|apply Hw|exact Hs2|done|by apply hot_eq_same| |by apply os_quiet_shift| |by left].
      + eapply session_wf_last_sent, inv_session_wf; [apply Hw|done].
      + by apply eff_quiet; [|apply hot_eq_linked, hot_eq_same].
    - intros w3 Hw3. apply Hk. exact (seen_trans _ _ _ Hw1 Hw3). }
  apply safe_section; [done..|]. intros w1 Hw1.
  destruct (seen_session _ _ _ _ Hw1 Hs) as (s1 & Hs1 & _), w1 as [o1 t1].
  eapply wp_conseq; [by apply wp_seal|]. intros [e r] w2 (o2 & Hq2 & E2 & Hout). cbn [snd] in Hout.
  apply and_assoc. split.
  - eapply section_update; [done|done|apply Hw1|exact Hs1|done|by apply hot_eq_same| |by apply os_quiet_shift| |].
    + apply session_wf_send_seq; [by apply wrap_range|]. eapply inv_session_wf; [apply Hw1|done].
    + apply eff_sealed; [done|by apply hot_eq_linked, hot_eq_same|].
      intros dest wire E. by destruct (Hout _ _ E) as (-> & _ & ?).
    + right. by eexists.
  - intros w3 Hw3. destruct r as [[dest wire]|]; [|by apply Hk].
    apply safe_sys; [done|apply Hw3|apply shift_sendto|]. intros [] w4 Hw4.
    + apply Hstamp. by eapply seen_trans.
    + apply Hk. by eapply seen_trans.
Qed.

(** A critical section that only reads, as before a log line. *)
Lemma safe_peek {A} m i (f : peer_session -> A) k w :
  m <> Free -> inv c w -> (i < MAX_PEERS)%nat -> (forall a w', seen w w' -> safe m [] (k a) w') ->
  safe m [] (Lock i (Act (let! s := session_at i in ret (f s)) quiet (fun a => UnlockHot i (k a)))) w.
Proof.
  intros Hm Hinv Hi Hk. apply safe_section; [done..|]. intros w1 Hw1.
  destruct (inv_session_valid c w1 i) as [s Hs]; [apply Hw1|done|].
  apply wp_bind. eapply wp_session_at; [done|]. wp_step. split_and!; [|by apply seen_refl, Hw1|by apply Hk].
  apply guarantee_refl; [|by intros _; apply Hw1]. intros ? ->%list_elem_of_singleton. by eexists.
Qed.

Lemma safe_print m k w :
  m <> Free -> inv c w -> (forall w', seen w w' -> safe m [] k w') -> safe m [] (print_sessions k) w.
Proof.
  intros Hm Hinv Hk. apply safe_look; [done..|]. intros w1 Hw1. apply wp_bind, wp_tab. wp_step. split; [done|].
  assert (forall js w', (forall j, j ∈ js -> (j < MAX_PEERS)%nat) -> seen w w' ->
    safe m [] (print_slots js k) w') as Hslots.
  { induction js as [|j js IH]; intros w2 Hjs Hw2; cbn [print_slots]; [by apply Hk|].
    assert (forall w', seen w w' -> safe m [] (print_slots js k) w') as Hrest by
      (intros; apply IH; [intros; apply Hjs; set_solver|done]).
    assert (j < MAX_PEERS)%nat as Hj by (apply Hjs; set_solver).
    apply safe_look; [done|apply Hw2|]. intros w3 Hw3.
    destruct (inv_session_valid c w3 j) as [s Hs]; [apply Hw3|done|].
    eapply wp_session_at; [done|]. split; [done|].
    pose proof (seen_trans _ _ _ Hw2 Hw3) as Hw. destruct (negb (active s)); [by apply Hrest|].
    apply (safe_peek m j addr); [done|apply Hw|done|].
    intros _ w5 Hw5. apply Hrest. exact (seen_trans _ _ _ Hw Hw5). }
  apply Hslots; [|done]. intros j [_ Hj]%elem_of_seq.
  pose proof (slots_bound _ (wf_slots _ (proj1 (proj1 Hw1)))). lia.
Qed.

(** ** A worker *)

Lemma safe_rdlock k w : (forall w', inv c w' -> safe Reading [] k w') -> safe Free [] (Rdlock k) w.
Proof. done. Qed.

Lemma safe_wrlock k w : (forall w', inv c w' -> safe Writing [] k w') -> safe Free [] (Wrlock k) w.
Proof. done. Qed.

Lemma safe_tun pkt enc k w :
  (length pkt <= BUFFER_SIZE)%nat -> (forall e w', safe Free [] (k e) w') ->
  safe Free [] (tun_code pkt enc k) w.
Proof.
  intros Hl Hk. unfold tun_code. destruct (is_ipv4 pkt) eqn:E4; [|done]. apply is_ipv4_length in E4.
  apply safe_rdlock. intros w1 Hinv1. apply safe_look; [done..|]. intros w2 [Hinv2 _].
  apply wp_bind, wp_tab. wp_step. split; [done|].
  destruct (route_lookup (w_tab w2) _) as [i|] eqn:Er; [|by apply safe_unlock].
  apply route_lookup_valid in Er as (s & Hs & _); [|apply Hinv2|apply read_u32_range; lia].
  apply safe_forward; [done|done|by eexists|done|]. intros e w3 [Hinv3 _]. by apply safe_unlock.
Qed.

(** The critical section of a data packet. *)
Lemma receive_section i s pkt now dec (w w1 : world) k :
  seen w w1 -> sessions (w_tab w) !! i = Some s -> (length pkt <= WIRE_CAP)%nat ->
  (forall dec' r, (forall seq prev payload, r = Some (seq, prev, payload) ->
      (length payload <= BUFFER_SIZE)%nat) ->
    forall w3, seen w w3 -> safe Reading [] (k (dec', r)) w3) ->
  wp (receive i pkt now dec) (fun a w2 => guarantee Reading [i] w1 w2 (accepted i pkt a) /\ seen w1 w2 /\
    forall w3, seen w w3 -> safe Reading [] (k a) w3) w1.
Proof.
  intros Hw1 Hs Hl Hk. destruct (seen_session _ _ _ _ Hw1 Hs) as (s1 & Hs1 & _).
  destruct w1 as [o1 t1]. cbn [w_tab] in Hs1.
  eapply wp_conseq; [apply (wp_frame (only i)); [apply receive_only|apply (wp_receive c i s1); [apply Hw1|done..]]|].
  intros [dec' r] w2 [(t2 & s2 & -> & Hinv2 & Hh & Hs2 & Eseq & Hr) Ho]. cbn [fst snd w_tab] in *.
  destruct (hot_step_lookup i t1 t2 i s1 Hh Hs1) as (s2' & ? & Heq & _). simplify_eq. split_and!.
  - constructor; cbn [w_tab w_os]; [done| |done|done].
    destruct Hh as (a & b & Ha & _ & ->). cbn in Hs2.
    rewrite list_lookup_insert_eq in Hs2 by (by eapply lookup_lt_Some). simplify_eq.
    unfold accepted. cbn [snd]. destruct r as [[[seq []] payload]|]; eapply ledger_update; try done;
      try (by left); try (by apply eff_quiet; [|apply hot_eq_linked]); [|right; by eexists].
    destruct (Hr _ _ _ eq_refl) as [(plain & Hop & _ & H16 & Hhd & -> & _ & Hck) Hb].
    apply eff_accepted; [|by apply Hb|by exists o1, plain|done|by apply hot_eq_linked].
    intros Hbl. apply blocked_check in Hbl; [rewrite Hck in Hbl; [lia|done]|].
    pose proof (be_decode_range (slice HEADER_SIZE SEQ_SIZE plain)) as Hrg.
    by rewrite length_slice in Hrg by sizes.
  - split; [done|]. by eapply hot_step_keeps.
  - apply Hk. intros seq prev payload ->. destruct (Hr _ _ _ eq_refl) as [(plain & _ & ? & ? & _ & _ & -> & _) _].
    rewrite length_drop. sizes.
Qed.

Lemma safe_data src pkt now enc dec k w :
  (length pkt <= WIRE_CAP)%nat -> (forall x w', safe Free [] (k x) w') ->
  safe Free [] (data_code src pkt now enc dec k) w.
Proof.
  intros Hl Hk. apply safe_rdlock. intros w1 Hinv1. apply safe_look; [done..|]. intros w2 [Hinv2 _].
  apply wp_bind, wp_tab. wp_step. split; [done|].
  destruct (find_session_by_addr (w_tab w2) src) as [i|] eqn:Ei; [|by apply safe_unlock].
  apply find_session_by_addr_Some in Ei as (s & [_ Hs]%slots_lookup & _).
  apply safe_section; [done..|]. intros w3 Hw3. eapply receive_section; [done..|].
  intros dec' [[[seq prev] payload]|] Hp w4 Hw4; [|by apply safe_unlock; [|apply Hw4|]].
  specialize (Hp _ _ _ eq_refl). destruct (seen_session _ _ _ _ Hw4 Hs) as (s4 & Hs4 & _).
  apply safe_look; [done|apply Hw4|]. intros w5 Hw5.
  destruct (seen_session _ _ _ _ Hw5 Hs4) as (s5 & Hs5 & _), w5 as [o5 t5].
  eapply wp_conseq; [apply (wp_dispatch c i s5); [apply Hw5|done]|].
  intros v w6 (-> & _ & Hrelay). split; [done|]. destruct v as [|f|].
  - by apply safe_unlock; [|apply Hw5|].
  - destruct (Hrelay f eq_refl) as (_ & _ & _ & Hf).
    apply safe_forward; [done|apply Hw5|done|done|]. intros e w7 [Hinv7 _]. by apply safe_unlock.
  - apply safe_unlock; [done|apply Hw5|]. intros w7. apply safe_sys_free; [apply shift_tun_write|done].
Qed.

(** A piece under the write lock alone. *)
Lemma safe_write {A} (f : M world A) k w :
  frame cold f ->
  (forall o, os_shift (w_os w) o ->
     wp f (fun a w' => safe Writing [] (k a) w') (World _ o (w_tab w))) ->
  safe Writing [] (Act f quiet k) w.
Proof.
  intros Hf Hw [o1 t1] [E Ho]. cbn in E, Ho. subst t1. apply guarantee_cold; [done|]. by apply Hw.
Qed.

Lemma granted_shift g w o : granted c g w -> os_shift (w_os w) o -> granted c g (World _ o (w_tab w)).
Proof.
  destruct w as [o0 t]. intros [Hinv Hg] Ho. split; [by apply (inv_shift c o0)|]. done.
Qed.

(** Between [session_open] and [session_close] the table is not well-formed, but
    only this thread sees it. *)
Lemma safe_install src out g k w :
  granted c g w -> (forall w', inv c w' -> safe Writing [] k w') ->
  safe Writing [] (install_code src out g k) w.
Proof.
  intros Hg Hk. destruct g as [g|]; cbn [install_code]; [|apply Hk, Hg].
  apply safe_write; [apply session_open_cold|]. intros o1 Ho1.
  apply (granted_shift _ _ _ Hg) in Ho1 as [Hinv1 Hg1]. clear Hg. set (t := w_tab w) in *.
  destruct (Hg1 g eq_refl) as (Hlt & [s Hs] & Hpl & Hkl & Hin & Hp & Hu). cbn [w_tab] in *.
  pose proof (lookup_lt_Some _ _ _ Hs) as Hlen.
  eapply wp_session_open; [done|]. split_and!; [done..|]. intros [o2 t2] [E2 Ho2] [o3 t3] [E3 Ho3].
  cbn in E2, E3, Ho2, Ho3. subst t2 t3. assert (os_shift o1 o3) as Ho13 by (destruct Ho2, Ho3; split; [congruence|lia]).
  eapply wp_session_rekey; [by apply list_lookup_insert_eq|]. intros z0 z1 o4 Hq4%os_quiet_shift. split.
  { constructor; cbn; [|by eapply ledger_update; [by apply list_lookup_insert_eq|by apply eff_rekeyed|right; eexists]|done|done].
    eapply only_update; [by apply list_lookup_insert_eq|done]. }
  split_and!; [done..|]. intros [o5 t5] [E5 Ho5]. cbn in E5, Ho5. subst t5.
  apply safe_write; [apply session_close_cold|]. cbn [w_os w_tab]. intros o6 Ho6.
  eapply wp_session_close; [cbn; apply list_lookup_insert_eq; by rewrite length_insert|].
  intros z2 z3 o7 Hq7%os_quiet_shift.
  assert (os_shift o1 o7) as Ho17 by (destruct Ho13, Hq4, Ho5, Ho6, Hq7; split; [congruence|lia]).
  apply safe_print; [done| |by intros w' [? _]; apply Hk].
  eapply (inv_session_init c (g_slot g) src (g_pub g) (g_key g) (Some (g_cfg g)) out o7 t); try done.
  - by apply (inv_shift c o1).
  - by eexists.
  - exists s, o7, z0, z1, z2, z3. split_and!; [done..|].
    unfold set_sessions. cbn. by rewrite !list_insert_insert_eq.
Qed.

Lemma safe_handshake src pkt now k w :
  (forall w', safe Free [] k w') -> safe Free [] (handshake_code c src pkt now k) w.
Proof.
  intros Hk. apply safe_wrlock. intros w1 Hinv1. apply safe_look; [done..|].
  intros w2 [Hinv2 _]. apply wp_bind, wp_tab. wp_step. split; [done|].
  assert (forall g out w', granted c g w' -> safe Writing [] (install_code src out g (Unlock k)) w') as Hins.
  { intros g out w' Hg. apply safe_install; [done|]. intros. by apply safe_unlock. }
  assert (forall o, os_shift (w_os w2) o -> inv c (World _ o (w_tab w2))) as Hshift.
  { intros o Ho. destruct w2 as [o2 t2]. by apply (inv_shift c o2). }
  destruct (find_pending (w_tab w2) src) as [j|] eqn:Ej.
  - apply safe_write; [apply accept_response_cold|]. intros o Ho.
    apply find_pending_Some in Ej as (p & Hj & Ha & _).
    eapply wp_conseq; [eapply wp_accept_response; [by apply Hshift|done..]|]. intros. by apply Hins.
  - apply safe_write; [apply tie_break_cold|]. intros o Ho.
    eapply wp_conseq; [apply wp_tie_break; by apply Hshift|]. intros [] [o3 t3] Hinv3; [by apply safe_unlock|].
    apply safe_write; [apply accept_initiation_cold|]. cbn [w_os w_tab]. intros o4 Ho4.
    eapply wp_conseq; [apply wp_accept_initiation; by apply (inv_shift c o3)|]. intros. by apply Hins.
Qed.

Lemma safe_wake wk ctxs w : safe Free [] (wake_code c wk ctxs) w.
Proof.
  destruct wk as [es| |]; cbn; [|done..]. revert ctxs w.
  induction es as [|e es IH]; intros ctxs w; cbn [events_code]; [done|].
  destruct e as [|[data|]|[[src data]|]]; cbn [event_code]; try done.
  - cbv zeta. destruct (length _ =? 0)%nat; [done|].
    apply safe_tun; [rewrite length_take; lia|]. intros. apply IH.
  - apply safe_sys_free; [intros; apply shift_io|]. intros now w1. destruct (_ && _).
    + apply safe_handshake. intros. apply IH.
    + apply safe_data; [rewrite length_take; lia|]. intros. apply IH.
Qed.

Lemma safe_worker_start ok w : safe Free [] (worker_start ok) w.
Proof.
  apply safe_sys_free; [intros; apply shift_io|]. intros enc w1.
  apply safe_sys_free; [intros; apply shift_io|]. intros dec w2. by repeat case_match.
Qed.

(** ** The housekeeping thread *)

Lemma wp_hk_silent now j (w : world) :
  is_Some (sessions (w_tab w) !! j) -> wp (hk_silent now j) (fun _ w' => w' = w) w.
Proof.
  intros [s Hs]. apply wp_bind. eapply wp_session_at; [done|]. apply wp_bind, wp_tab.
  destruct (negb _); by wp_step.
Qed.

Lemma safe_expire now js k w :
  (forall j, j ∈ js -> (j < MAX_PEERS)%nat) -> inv c w -> (forall w', inv c w' -> safe Writing [] k w') ->
  safe Writing [] (expire_slots now js k) w.
Proof.
  revert w. induction js as [|j js IH]; intros w Hjs Hinv Hk; cbn [expire_slots]; [by apply Hk|].
  assert (j < MAX_PEERS)%nat as Hj by (apply Hjs; set_solver).
  assert (forall w', inv c w' -> safe Writing [] (expire_slots now js k) w') as Hrest.
  { intros w' Hw'. apply IH; [|done..]. intros; apply Hjs; set_solver. }
  apply safe_look; [done..|]. intros w1 [Hinv1 _].
  eapply wp_conseq; [by apply wp_hk_silent, (inv_session_valid c)|]. intros [] w1' ->; split; try done; [|by apply Hrest].
  apply (safe_peek Writing j addr); [done..|]. intros _ w3 Hw3. apply safe_write; [by apply frame_cold_session|]. intros o Ho.
  destruct (inv_session_valid c w3 j) as [s3 Hs3]; [apply Hw3|done|]. destruct w3 as [o3 t3].
  eapply wp_upd_session; [done|]. apply Hrest.
  assert (inv c (World _ o t3)) as Hinv3 by (apply (inv_shift c o3); [done|apply Hw3]).
  eapply inv_session; [done..| |done]. by eapply session_wf_active, inv_session_wf.
Qed.

Lemma safe_keepalive now js enc k w :
  (forall j, j ∈ js -> (j < MAX_PEERS)%nat) -> inv c w ->
  (forall e w', inv c w' -> safe Writing [] (k e) w') ->
  safe Writing [] (keepalive_slots c now js enc k) w.
Proof.
  revert enc w. induction js as [|j js IH]; intros enc w Hjs Hinv Hk; cbn [keepalive_slots]; [by apply Hk|].
  assert (j < MAX_PEERS)%nat as Hj by (apply Hjs; set_solver).
  assert (forall e w', inv c w' -> safe Writing [] (keepalive_slots c now js e k) w') as Hrest.
  { intros e w' Hw'. apply IH; [|done..]. intros; apply Hjs; set_solver. }
  apply safe_look; [done..|]. intros w1 [Hinv1 _]. destruct (inv_session_valid c w1 j) as [s Hs]; [done..|].
  eapply wp_session_at; [done|]. split; [done|]. destruct (negb _); [by apply Hrest|].
  apply (safe_peek Writing j (fun s => keepalive_interval c <=? now - last_sent s)); [done..|].
  intros due w2 Hw2. destruct due; [|by apply Hrest, Hw2].
  apply safe_forward; [done|apply Hw2| |cbn; lia|by intros e w3 [? _]; apply Hrest].
  eapply (inv_session_valid c); [apply Hw2|done].
Qed.

Lemma safe_tick now enc k w :
  (forall e w', safe Free [] (k e) w') -> safe Free [] (tick_code c now enc k) w.
Proof.
  intros Hk. apply safe_wrlock. intros [o1 t1] Hinv1.
  apply safe_write; [apply hk_handshakes_cold|]. cbn [w_os w_tab]. intros o2 Ho2.
  eapply wp_conseq; [apply wp_hk_handshakes; by apply (inv_shift c o1)|]. intros n w2 (-> & Hinv2 & _).
  assert (forall j, j ∈ seq 0 (session_slots (w_tab w2)) -> (j < MAX_PEERS)%nat) as Hjs.
  { intros j [_ Hj]%elem_of_seq. pose proof (slots_bound _ (wf_slots _ (proj1 Hinv2))). lia. }
  apply safe_expire; [done..|]. intros w3 Hinv3. apply safe_keepalive; [done..|].
  intros e w4 Hinv4. by apply safe_unlock.
Qed.

Lemma safe_house print last enc w : safe Free [] (house_code c print last enc) w.
Proof.
  unfold house_code. cbv zeta. set (rest := Act (liftO c_time) _ _).
  assert (forall w', safe Free [] rest w') as Hrest.
  { intros w'. apply safe_sys_free; [intros; apply shift_io|]. intros now w1.
    destruct (_ <=? _); [|done]. by apply safe_tick. }
  destruct print; [|apply Hrest]. apply safe_rdlock. intros w1 Hinv1.
  apply safe_print; [done..|]. intros w2 [Hinv2 _]. by apply safe_unlock.
Qed.

Lemma safe_house_start w : safe Free [] house_start w.
Proof. apply safe_sys_free; [intros; apply shift_io|]. intros enc w1. by case_match. Qed.
End Locking.
