(* ===== verification/ThreadSafety.v ===== *)
(** * All interleavings of the threads

    From the state after [start_peer] has created its threads: no schedule is
    undefined, no thread waits for ever, the fields of a session change only under
    the lock that guards them, the counters of a session are right whatever the
    workers do at the same time, and [stop_flag] ends every thread. *)

From S2P Require Import Prelude Replay Platform Crypto Handshake Hex Cidr Session Peer Invariant Safety Frames Threads Interleave Locking.

Section ThreadSafety.
Context `{OpenSSLSizes} (c : loop_ctx).

(** ** Who holds which lock *)

Record exclusive (ts : list thread) : Prop := {
  ex_table n m a b : n <> m -> ts !! n = Some a -> ts !! m = Some b ->
    t_table a = Writing -> t_table b = Free;
  ex_hot n m a b i : n <> m -> ts !! n = Some a -> ts !! m = Some b ->
    i ∈ t_hot a -> i ∉ t_hot b;
}.

(** Thread [n] may hold these locks beside the others. *)
Definition compat (ts : list thread) (n : nat) (m : mode) (hs : list nat) : Prop :=
  forall j b, j <> n -> ts !! j = Some b ->
    (m = Writing -> t_table b = Free) /\ (t_table b = Writing -> m = Free) /\
    (forall i, i ∈ hs -> i ∉ t_hot b).

Lemma compat_self ts n th : exclusive ts -> ts !! n = Some th -> compat ts n (t_table th) (t_hot th).
Proof.
  intros [Ht Hh] Hn j b Hj Hb. split_and!.
  - intros E. by apply (Ht n j th b).
  - intros E. by apply (Ht j n b th).
  - intros i Hi. by apply (Hh n j th b).
Qed.

Lemma exclusive_put ts n k m hs :
  exclusive ts -> compat ts n m hs -> exclusive (<[n := Thread k m hs]> ts).
Proof.
  intros [Ht Hh] Hc. split.
  - intros x y a b Hxy [[<- [<- _]]|[Hx Ha]]%list_lookup_insert_Some
      [[Ey [<- _]]|[Hy Hb]]%list_lookup_insert_Some; cbn; try done.
    + by apply Hc with y.
    + subst y. by apply Hc with x.
    + by apply (Ht x y).
  - intros x y a b i Hxy [[<- [<- _]]|[Hx Ha]]%list_lookup_insert_Some
      [[Ey [<- _]]|[Hy Hb]]%list_lookup_insert_Some; cbn; try done.
    + by apply Hc with y.
    + subst y. intros Hi Hi'. destruct (Hc x a Hxy Ha) as (_ & _ & Hn). by apply (Hn i).
    + by apply (Hh x y).
Qed.

Lemma compat_free ts n m hs : compat ts n m hs -> compat ts n Free hs.
Proof. intros Hc j b Hj Hb. destruct (Hc j b Hj Hb) as (_ & _ & Hi). done. Qed.

Lemma compat_subset ts n m hs hs' : hs' ⊆ hs -> compat ts n m hs -> compat ts n m hs'.
Proof. intros Hs Hc j b Hj Hb. destruct (Hc j b Hj Hb) as (? & ? & Hi). split_and!; auto. Qed.

Lemma can_read_true ts : can_read ts = true <-> forall n th, ts !! n = Some th -> t_table th <> Writing.
Proof. apply (forallb_lookup (fun t => t_table t <> Writing)). Qed.
Lemma can_write_true ts : can_write ts = true <-> forall n th, ts !! n = Some th -> t_table th = Free.
Proof. apply (forallb_lookup (fun t => t_table t = Free)). Qed.
Lemma can_lock_true i ts : can_lock i ts = true <-> forall n th, ts !! n = Some th -> i ∉ t_hot th.
Proof. apply (forallb_lookup (fun t => i ∉ t_hot t)). Qed.

(** ** The invariant of a run *)

Record conf_ok (cf : conf) : Prop := {
  ok_exclusive : exclusive (threads cf);
  ok_safe n th : threads cf !! n = Some th ->
    safe c (t_table th) (t_hot th) (t_code th) (c_world cf);
  ok_order n th : threads cf !! n = Some th -> t_hot th = [] \/ t_table th <> Free;
  ok_inv : can_read (threads cf) = true -> inv c (c_world cf);
  ok_trace : recorded (trace cf) (w_tab (c_world cf));
}.

(** A reader sees the invariant. *)
Lemma reading_inv cf n th :
  conf_ok cf -> threads cf !! n = Some th -> t_table th = Reading -> inv c (c_world cf).
Proof.
  intros Hok Hn Hm. apply (ok_inv _ Hok), can_read_true. intros j b Hj Ew.
  destruct (decide (j = n)) as [->|Hne]; [by simplify_eq; congruence|].
  pose proof (ex_table _ (ok_exclusive _ Hok) j n b th Hne Hj Hn Ew). congruence.
Qed.

Lemma writes_held m hs t t' :
  m <> Writing -> writes m hs t t' -> t' = t \/ exists i, m = Reading /\ i ∈ hs /\ hot_step i t t'.
Proof.
  intros Hm. destruct m, hs as [|i [|? ?]]; cbn; auto; try done.
  intros [_ Hh]. right. exists i. split_and!; [done|set_solver|done].
Qed.

(** What a piece of one thread is to another thread that holds its locks. *)
Lemma guarantee_rely cf n th j b w' l :
  conf_ok cf -> threads cf !! n = Some th -> threads cf !! j = Some b -> j <> n ->
  guarantee c (t_table th) (t_hot th) (c_world cf) w' l ->
  rely c (t_table b) (t_hot b) (c_world cf) w'.
Proof.
  intros Hok Hn Hj Hne [Hw _ Ho Hi].
  pose proof (ex_table _ (ok_exclusive _ Hok) n j th b (not_eq_sym Hne) Hn Hj) as Hx.
  pose proof (ex_table _ (ok_exclusive _ Hok) j n b th Hne Hj Hn) as Hx'.
  destruct (t_table b) eqn:Eb; cbn; [done|..].
  - assert (t_table th <> Writing) as Hth by (intros E; by specialize (Hx E)).
    pose proof (reading_inv cf j b Hok Hj Eb) as Hinv. apply writes_held in Hw; [|done].
    destruct (c_world cf) as [o t], w' as [o' t']. cbn [w_os w_tab] in *.
    destruct Hw as [->|(i & Em & Hi' & Hh)].
    + split_and!; [by apply (inv_shift c o); [apply Ho|]|reflexivity|done].
    + split_and!; [by apply Hi|by eapply hot_step_keeps|]. intros k Hk.
      pose proof (ex_hot _ (ok_exclusive _ Hok) j n b th k Hne Hj Hn Hk) as Hki.
      destruct Hh as (s & s' & _ & _ & ->). cbn. apply list_lookup_insert_ne. intros ->. done.
  - specialize (Hx' eq_refl). rewrite Hx' in Hw, Ho. split; [by destruct (t_hot th)|by apply Ho].
Qed.

(** Thread [n] moves, everything else stays. *)
Lemma conf_ok_put cf n th k m hs :
  conf_ok cf -> threads cf !! n = Some th -> safe c m hs k (c_world cf) ->
  compat (threads cf) n m hs -> (hs = [] \/ m <> Free) ->
  (t_table th <> Writing \/ m = Writing \/ inv c (c_world cf)) ->
  conf_ok (with_thread n (Thread k m hs) cf).
Proof.
  intros Hok Hn Hs Hc Ho Hi. constructor; cbn [threads c_world trace with_thread].
  - apply exclusive_put; [apply Hok|done].
  - intros j b [[<- [<- _]]|[Hne Hj]]%list_lookup_insert_Some; [done|by eapply ok_safe].
  - intros j b [[<- [<- _]]|[Hne Hj]]%list_lookup_insert_Some; [done|by eapply (ok_order _ Hok)].
  - intros Hr. rewrite can_read_true in Hr. pose proof (lookup_lt_Some _ _ _ Hn) as Hlt.
    pose proof (Hr n _ (list_lookup_insert_eq _ _ _ Hlt)) as Hm. cbn in Hm.
    destruct Hi as [Hi|[Hi|Hi]]; [|done..]. apply (ok_inv _ Hok), can_read_true. intros j b Hj.
    destruct (decide (j = n)) as [->|Hne]; [by simplify_eq|].
    apply (Hr j). by rewrite list_lookup_insert_ne.
  - apply Hok.
Qed.

Lemma conf_ok_flags cf fl : conf_ok cf -> conf_ok (Conf (threads cf) (c_world cf) fl (trace cf)).
Proof. by intros []. Qed.

(** A move that is not undefined and ends in [P], if it is possible. *)
Definition ends (P : conf -> Prop) (r : result) : Prop :=
  match r with Blocked => True | Undefined => False | Next cf => P cf end.

(** Thread [n] runs a piece. *)
Lemma conf_ok_act cf n th {A} (f : M world A) notes k :
  conf_ok cf -> threads cf !! n = Some th -> t_code th = Act f notes k ->
  ends conf_ok (put_act n th ((let! a := f in ret (notes a, k a)) (c_world cf)) cf).
Proof.
  intros Hok Hn Ek. pose proof (ok_safe _ Hok n th Hn) as Hs. rewrite Ek in Hs.
  destruct (wp_elim _ _ _ (Hs (c_world cf) (rely_refl c _ _ _ (reading_inv cf n th Hok Hn))))
    as (a & w' & E & Hg & Hk).
  unfold bind. rewrite E. cbn [ret put_act ends]. constructor; cbn [threads c_world trace].
  - apply exclusive_put; [apply Hok|]. by apply compat_self; [apply Hok|].
  - intros j b [[<- [<- _]]|[Hne Hj]]%list_lookup_insert_Some; [done|].
    eapply safe_rely; [|by eapply ok_safe]. by eapply (guarantee_rely cf n th j b).
  - intros j b [[<- [<- _]]|[Hne Hj]]%list_lookup_insert_Some;
      [exact (ok_order _ Hok n th Hn)|by eapply (ok_order _ Hok)].
  - intros Hr. rewrite can_read_true in Hr. pose proof (lookup_lt_Some _ _ _ Hn) as Hlt.
    pose proof (Hr n _ (list_lookup_insert_eq _ _ _ Hlt)) as Hm. cbn in Hm.
    assert (inv c (c_world cf)) as Hinv.
    { apply (ok_inv _ Hok), can_read_true. intros j b Hj.
      destruct (decide (j = n)) as [->|Hne]; [by simplify_eq|]. apply (Hr j). by rewrite list_lookup_insert_ne. }
    destruct Hg as [Hw _ Ho Hi]. destruct (t_table th) eqn:Em; [|by apply Hi|done].
    destruct (c_world cf) as [o t], w' as [o' t']. cbn in Hw. replace t' with t by (by destruct (t_hot th)).
    apply (inv_shift c o); [by apply Ho|done].
  - apply (recorded_ledger _ _ (w_tab (c_world cf))); [apply Hg|apply Hok].
Qed.

Lemma run_thread_ok cf n th :
  conf_ok cf -> threads cf !! n = Some th -> ends conf_ok (run_thread c n th cf).
Proof.
  intros Hok Hn. pose proof (ok_safe _ Hok n th Hn) as Hs.
  pose proof (compat_self _ _ _ (ok_exclusive _ Hok) Hn) as Hc.
  unfold run_thread. destruct (t_code th) as [|ctxs|ctxs|last enc|k|k|k|i k|i k|A f notes k] eqn:Ek; cbn in Hs.
  - done.
  - destruct Hs as [Em Eh]. eapply conf_ok_put; [done..| |done|by left|left; congruence].
    by destruct (stop_flag _).
  - done.
  - destruct Hs as [Em Eh]. rewrite Em, Eh in *. destruct (stop_flag _).
    + by apply (conf_ok_put cf n th); [..|left|left; congruence].
    + eapply (conf_ok_put (Conf _ _ _ _)); [by apply conf_ok_flags|done|apply safe_house|done|by left|left; congruence].
  - destruct Hs as (Em & Eh & Hk). rewrite Em. destruct (can_read _) eqn:Er; [|done].
    eapply conf_ok_put; [done..| | |by right|left; congruence].
    + rewrite Eh. apply Hk. by apply (ok_inv _ Hok).
    + intros j b Hj Hb. split_and!; [done| |by apply Hc with j].
      rewrite can_read_true in Er. intros E. by destruct (Er j b Hb).
  - destruct Hs as (Em & Eh & Hk). destruct (can_write _) eqn:Ew; [|done]. rewrite can_write_true in Ew.
    eapply conf_ok_put; [done..| | |by right|by right; left].
    + rewrite Eh. apply Hk, (ok_inv _ Hok), can_read_true. intros j b Hj. by rewrite (Ew j b Hj).
    + intros j b Hj Hb. split_and!; [by intros _; apply (Ew j)| |by apply Hc with j].
      intros E. by rewrite (Ew j b Hb) in E.
  - destruct Hs as (Em & Eh & Hi & Hk).
    assert (inv c (c_world cf)) as Hinv by (apply Hi, rely_refl; by apply (reading_inv cf n th)).
    destruct (t_table th) eqn:Et; [done|..];
      (eapply conf_ok_put; [done..|rewrite Eh; apply Hk|by eapply compat_free|by left|by right; right]).
  - destruct Hs as (Em & Eh & Hk). destruct (can_lock _ _) eqn:El; [|done]. rewrite can_lock_true in El.
    eapply conf_ok_put; [done..| | |by right|].
    + rewrite Eh. apply Hk, rely_refl. by apply (reading_inv cf n th).
    + intros j b Hj Hb. destruct (Hc j b Hj Hb) as (? & ? & Hd). split_and!; [done..|].
      intros x [->|Hx]%elem_of_cons; [by eapply El|by apply Hd].
    + destruct (t_table th); auto.
  - destruct Hs as (Em & Eh & Hk). rewrite decide_True by (rewrite Eh; set_solver).
    eapply conf_ok_put; [done..| |eapply compat_subset; [|done]; intros x [_ ?]%list_elem_of_filter; done|by right|].
    + rewrite Eh, filter_cons_False by auto. apply Hk, rely_refl. by apply (reading_inv cf n th).
    + destruct (t_table th); auto.
  - by apply conf_ok_act.
Qed.

Lemma fire_ok cf mv : conf_ok cf -> ends conf_ok (fire c mv cf).
Proof.
  intros Hok. destruct mv as [n|n wk|sig]; cbn [fire].
  - destruct (threads cf !! n) as [th|] eqn:Hn; [by apply run_thread_ok|done].
  - destruct (threads cf !! n) as [[k m hs]|] eqn:Hn; [|done]. destruct k; try done.
    pose proof (ok_safe _ Hok _ _ Hn) as [Em Eh]. cbn in Em, Eh. subst m hs.
    eapply conf_ok_put; [done..|apply safe_wake| |by left|by left].
    by apply (compat_self _ _ _ (ok_exclusive _ Hok) Hn).
  - by apply conf_ok_flags.
Qed.

Lemma run_ok mvs cf : conf_ok cf -> ends conf_ok (run c mvs cf).
Proof.
  revert cf. induction mvs as [|mv mvs IH]; intros cf Hok; cbn; [done|].
  pose proof (fire_ok cf mv Hok) as Hf. destruct (fire c mv cf); [done|done|]. by apply IH.
Qed.

Lemma spawn_ok oks w :
  inv c w -> (forall j s, sessions (w_tab w) !! j = Some s -> send_seq s = 0) -> conf_ok (spawn oks w).
Proof.
  intros Hinv Hz.
  assert (forall n th, threads (spawn oks w) !! n = Some th -> t_table th = Free /\ t_hot th = [] /\
    safe c Free [] (t_code th) w) as Hall.
  { intros n th Hn. cbn in Hn. apply lookup_app_Some in Hn as [Hn|[_ [_ <-]%list_lookup_singleton_Some]].
    - apply list_lookup_fmap_Some in Hn as (ok & -> & _). split_and!; [done..|apply safe_worker_start].
    - split_and!; [done..|apply safe_house_start]. }
  constructor; cbn [c_world trace].
  - split; intros n m a b.
    + intros _ Hn%Hall _ E. destruct Hn as (E' & _). congruence.
    + intros i _ Hn%Hall _. destruct Hn as (_ & -> & _). by intros ?%elem_of_nil.
  - intros n th Hn. by destruct (Hall n th Hn) as (-> & -> & ?).
  - intros n th Hn. left. by destruct (Hall n th Hn) as (_ & ? & _).
  - done.
  - intros j s Hj. constructor; try done; [by apply Hz in Hj|apply NoDup_nil_2].
Qed.

(** The states of the process under any schedule, from the tables of a
    configuration: [start_peer] prepares an ephemeral key and starts the threads. *)
Definition started (o : os) (tm : timing) (cfgs : list peer_config) (oks : list bool) (cf : conf) : Prop :=
  exists w0 mvs, refresh_precomp_eph (boot o tm cfgs) = Ret tt w0 /\ run c mvs (spawn oks w0) = Next cf.

Lemma booted_ok o tm cfgs oks w0 :
  boot_ok c o tm cfgs -> refresh_precomp_eph (boot o tm cfgs) = Ret tt w0 -> conf_ok (spawn oks w0).
Proof.
  intros Hb E. apply spawn_ok.
  - apply (wp_run _ _ _ _ _ (wp_refresh_precomp c _ _ (inv_boot c o tm cfgs Hb)) E).
  - pose proof (refresh_precomp_cold (boot o tm cfgs)) as Hc. rewrite E in Hc.
    intros j s Hj. apply (f_equal (fun l => l !! j)) in Hc. rewrite !list_lookup_fmap, Hj in Hc.
    cbn -[replicate] in Hc. destruct (replicate MAX_PEERS zero_session !! j) eqn:Ez; [|done].
    apply lookup_replicate in Ez as [-> _]. injection Hc. done.
Qed.

Lemma started_ok o tm cfgs oks cf :
  boot_ok c o tm cfgs -> started o tm cfgs oks cf -> conf_ok cf.
Proof.
  intros Hb (w0 & mvs & E & Er). pose proof (run_ok mvs _ (booted_ok _ _ _ oks _ Hb E)) as Hr.
  by rewrite Er in Hr.
Qed.

(** C7: With a well-formed configuration and a [rekey_after] below 2^29, which [main]
    does not check, no schedule of the pieces of [Threads], with any packets,
    wake-ups and signals at any time, is undefined: no index leaves a table or a
    buffer, no key is used after it was freed, the product with [rekey_after] does
    not overflow, and no thread releases a lock it does not hold; times are numbers
    without a bound.  Whenever no thread holds [table_lock] for writing the
    invariant of the tables holds.  Log output is not part of the pieces; its
    static buffer is raced ([Logging.timestamps_mix]). *)
Theorem interleavings_never_undefined o tm cfgs oks cf :
  boot_ok c o tm cfgs -> started o tm cfgs oks cf ->
  (forall mvs, run c mvs cf <> Undefined) /\
  ((forall n th, threads cf !! n = Some th -> t_table th <> Writing) -> inv c (c_world cf)).
Proof.
  intros Hb Hs. pose proof (started_ok _ _ _ _ _ Hb Hs) as Hok. split.
  - intros mvs E. pose proof (run_ok mvs cf Hok) as Hr. by rewrite E in Hr.
  - intros Hw. by apply (ok_inv _ Hok), can_read_true.
Qed.

(** C6: The numbers of a session across all threads.  Since a session got its key,
    whatever the threads did at the same time: the [k]-th payload given to the
    encryption, in the order of the [hot_lock], got number [k] modulo 2^64, and
    the datagram made of it, if the encryption did not fail, is that number and
    that payload sealed under the session key, for the address of the session; the
    next number comes next; every datagram the replay test let pass opens under the
    session key as a packet with the number that was tested, and no number was let
    pass twice. *)
Theorem counters_across_threads o tm cfgs oks cf j s :
  boot_ok c o tm cfgs -> started o tm cfgs oks cf ->
  sessions (w_tab (c_world cf)) !! j = Some s ->
  (forall k payload dest wire,
     reverse (sealed_in j (trace cf)) !! k = Some (payload, Some (dest, wire)) ->
     dest = addr s /\ seals (session_key s) (data_plain (u64 (Z.of_nat k)) payload) wire) /\
  send_seq s = u64 (Z.of_nat (length (sealed_in j (trace cf)))) /\
  (forall q pkt, (q, pkt) ∈ accepted_in j (trace cf) -> bears s q pkt) /\
  NoDup (accepted_in j (trace cf)).*1.
Proof.
  intros Hb Hs Hj. destruct (ok_trace _ (started_ok _ _ _ _ _ Hb Hs) j s Hj) as [Hc Ho Hn _ Hp].
  split_and!; [|done| |done].
  - intros k p dest wire Hk. by apply (Ho k p (Some (dest, wire)) Hk).
  - intros q pkt Hin. by apply (proj1 (Forall_forall _ _) Hp (q, pkt)).
Qed.

(** ** The fields and their locks *)

(** What a move of thread [n] may write. *)
Lemma run_thread_writes cf n th cf' :
  conf_ok cf -> threads cf !! n = Some th -> run_thread c n th cf = Next cf' ->
  writes (t_table th) (t_hot th) (w_tab (c_world cf)) (w_tab (c_world cf')) \/
  w_tab (c_world cf') = w_tab (c_world cf).
Proof.
  intros Hok Hn E. pose proof (ok_safe _ Hok n th Hn) as Hs. revert E.
  unfold run_thread, put, with_thread. destruct (t_code th) as [| | | | | | | | |A f notes k] eqn:Ek;
    try (repeat case_match; intros [= <-]; by right).
  destruct (wp_elim _ _ _ (Hs (c_world cf) (rely_refl c _ _ _ (reading_inv cf n th Hok Hn))))
    as (a & w' & E & Hg & _).
  unfold bind. rewrite E. intros [= <-]. left. apply Hg.
Qed.

Lemma fire_writes cf mv cf' :
  conf_ok cf -> fire c mv cf = Next cf' ->
  w_tab (c_world cf') = w_tab (c_world cf) \/
  exists n th, mv = Run n /\ threads cf !! n = Some th /\
    writes (t_table th) (t_hot th) (w_tab (c_world cf)) (w_tab (c_world cf')).
Proof.
  intros Hok. destruct mv as [n|n wk|sig]; cbn [fire].
  - destruct (threads cf !! n) as [th|] eqn:Hn; [|done]. intros E.
    destruct (run_thread_writes _ _ _ _ Hok Hn E); [right|by left]. by exists n, th.
  - repeat case_match; intros [= <-]; by left.
  - intros [= <-]. by left.
Qed.

Definition by_the_rules (m : mode) (hs : list nat) (t t' : tables) : Prop :=
  (m = Free -> t' = t) /\
  (m <> Writing -> t' = set_sessions (sessions t') t) /\
  forall j s s', sessions t !! j = Some s -> sessions t' !! j = Some s' ->
    (structural s' <> structural s -> m = Writing) /\
    (hot_part s' <> hot_part s -> m <> Free /\ hs = [j]) /\
    (addr s' <> addr s \/ session_key s' <> session_key s -> m = Writing).

Lemma rules_same m hs t : by_the_rules m hs t t.
Proof. split_and!; [done|by destruct t|]. intros. simplify_eq. split_and!; [done|done|by intros []]. Qed.

Lemma rules_only m i t t' :
  m <> Free -> only i t t' -> (m = Reading -> hot_step i t t') -> by_the_rules m [i] t t'.
Proof.
  intros Hm (l & -> & Est & Hne) Hh. split_and!; [done|done|]. cbn. intros j s s' Hj Hj'.
  apply (f_equal (fun l => l !! j)) in Est. rewrite !list_lookup_fmap, Hj, Hj' in Est. apply (inj Some) in Est.
  split_and!; [done| |].
  - intros Hp. split; [done|]. destruct (decide (j = i)) as [->|Hji]; [done|].
    rewrite (Hne j Hji) in Hj'. by simplify_eq.
  - intros Ha. destruct m; [done| |done]. exfalso.
    destruct (hot_step_lookup i t _ j s (Hh eq_refl) Hj) as (s2 & Hs2 & [] & _). cbn in Hs2.
    simplify_eq. naive_solver.
Qed.

Lemma writes_rules m hs t t' : writes m hs t t' -> by_the_rules m hs t t'.
Proof.
  destruct m, hs as [|i [|? ?]]; cbn; try (intros ->; apply rules_same).
  - intros [Ho Hh]. by apply rules_only.
  - intros Hc. split_and!; [done|done|]. intros j s s' Hj Hj'. split_and!; [done| |done].
    intros Hp. exfalso. apply Hp. apply (f_equal (fun l => l !! j)) in Hc.
    rewrite !list_lookup_fmap, Hj, Hj' in Hc. by apply (inj Some) in Hc.
  - intros Ho. by apply rules_only.
Qed.

(** C16: The locking rules stated with [peer_session_t] and [table_lock].  A thread
    changes the tables only while it holds [table_lock], and anything but sessions
    only for writing; membership, routes and handshake state of a session change
    only under the write lock, keys, counters, times and the address only under the
    [hot_lock] of that session as well, and address and key need both. *)
Theorem locking_rules o tm cfgs oks cf n th cf' :
  boot_ok c o tm cfgs -> started o tm cfgs oks cf ->
  threads cf !! n = Some th -> fire c (Run n) cf = Next cf' ->
  let t := w_tab (c_world cf) in
  let t' := w_tab (c_world cf') in
  (t_table th = Free -> t' = t) /\
  (t_table th <> Writing -> t' = set_sessions (sessions t') t) /\
  forall j s s', sessions t !! j = Some s -> sessions t' !! j = Some s' ->
    (structural s' <> structural s -> t_table th = Writing) /\
    (hot_part s' <> hot_part s -> t_table th <> Free /\ t_hot th = [j]) /\
    (addr s' <> addr s \/ session_key s' <> session_key s -> t_table th = Writing).
Proof.
  intros Hb Hs Hn E. cbn in E. rewrite Hn in E.
  destruct (run_thread_writes _ _ _ _ (started_ok _ _ _ _ _ Hb Hs) Hn E) as [Hw|Hw];
    [by apply writes_rules|cbv zeta; rewrite Hw; apply rules_same].
Qed.

(** C17: What the locks protect.  Whatever any other thread does: the tables do not
    change while a thread holds [table_lock] for writing, no session appears,
    disappears or changes its peer, routes, address or key while a thread holds it
    for reading, and a session does not change at all while a thread holds its
    [hot_lock]. *)
Theorem locks_protect o tm cfgs oks cf mv n th cf' :
  boot_ok c o tm cfgs -> started o tm cfgs oks cf ->
  threads cf !! n = Some th -> mv <> Run n -> fire c mv cf = Next cf' ->
  let t := w_tab (c_world cf) in
  let t' := w_tab (c_world cf') in
  (t_table th = Writing -> t' = t) /\
  (t_table th = Reading -> t' = set_sessions (sessions t') t /\
     forall j s s', sessions t !! j = Some s -> sessions t' !! j = Some s' ->
       structural s' = structural s /\ addr s' = addr s /\ session_key s' = session_key s) /\
  (forall j, j ∈ t_hot th -> sessions t' !! j = sessions t !! j).
Proof.
  intros Hb Hs Hn Hmv E. cbv zeta. pose proof (started_ok _ _ _ _ _ Hb Hs) as Hok.
  destruct (fire_writes cf mv cf' Hok E) as [->|(m & a & -> & Ha & Hw)].
  { split_and!; [done| |done]. intros _. split; [by destruct (w_tab _)|]. intros. by simplify_eq. }
  assert (m <> n) as Hne by congruence. pose proof (ok_exclusive _ Hok) as Hx.
  pose proof (ex_table _ Hx m n a th Hne Ha Hn) as Hx1.
  assert (t_table th <> Free -> t_table a <> Writing) as Hx2 by auto.
  split_and!.
  - intros Em. pose proof (ex_table _ Hx n m th a (not_eq_sym Hne) Hn Ha Em) as Ef.
    destruct (writes_rules _ _ _ _ Hw) as (Hf & _). by apply Hf.
  - intros Em. assert (t_table a <> Writing) as Hna by (apply Hx2; congruence).
    destruct (writes_rules _ _ _ _ Hw) as (_ & Hset & Hr). split; [by apply Hset|].
    intros j s s' Hj Hj'. destruct (Hr j s s' Hj Hj') as (H2 & _ & H3). split_and!.
    + destruct (decide (structural s' = structural s)); [done|]. by destruct Hna, H2.
    + destruct (decide (addr s' = addr s)); [done|]. by destruct Hna, H3; [left|].
    + destruct (decide (session_key s' = session_key s)); [done|]. by destruct Hna, H3; [right|].
  - intros j Hj. destruct (ok_order _ Hok n th Hn) as [E0|Hf]; [rewrite E0 in Hj; by apply elem_of_nil in Hj|].
    destruct (writes_held _ _ _ _ (Hx2 Hf) Hw) as [->|(i & _ & Hi & s & s' & _ & _ & ->)]; [done|].
    cbn. apply list_lookup_insert_ne. intros ->. by apply (ex_hot _ Hx m n a th j Hne Ha Hn Hi).
Qed.

(** ** Waiting *)

(** Thread [n] waits for a lock that thread [m] holds. *)
Definition waits (cf : conf) (n m : nat) : Prop :=
  exists a b, threads cf !! n = Some a /\ threads cf !! m = Some b /\
    match t_code a with
    | Rdlock _ => t_table b = Writing
    | Wrlock _ => t_table b <> Free
    | Lock i _ => i ∈ t_hot b
    | _ => False
    end.

(** Thread [n] can go on, or [epoll_wait] can return to it. *)
Definition enabled (cf : conf) (n : nat) : Prop :=
  exists mv cf', (mv = Run n \/ exists wk, mv = Wake n wk) /\ fire c mv cf = Next cf'.

Lemma run_enabled cf n th :
  conf_ok cf -> threads cf !! n = Some th -> run_thread c n th cf <> Blocked -> enabled cf n.
Proof.
  intros Hok Hn Hr. pose proof (run_thread_ok cf n th Hok Hn) as He.
  destruct (run_thread c n th cf) as [| |cf'] eqn:E; [done..|].
  exists (Run n), cf'. split; [by left|]. cbn. by rewrite Hn.
Qed.

Lemma enabled_or_waits cf n th :
  conf_ok cf -> threads cf !! n = Some th -> t_code th <> Done -> enabled cf n \/ exists m, waits cf n m.
Proof.
  intros Hok Hn Hd. pose proof (run_enabled cf n th Hok Hn) as Hen.
  unfold run_thread in Hen. pose proof (ok_safe _ Hok n th Hn) as Hs. unfold waits.
  destruct (t_code th) as [|ctxs|ctxs|last enc|k|k|k|i k|i k|A f notes k] eqn:Ek; cbn in Hs.
  - done.
  - left. by apply Hen.
  - left. exists (Wake n Interrupted). destruct th as [k m hs]. cbn in Ek. subst k.
    eexists. split; [eauto|]. cbn. by rewrite Hn.
  - left. apply Hen. by case_match.
  - destruct Hs as (Em & _). rewrite Em in Hen. destruct (can_read (threads cf)) eqn:E; [left; by apply Hen|right].
    destruct (forallb_false _ _ E) as (m & b & Hm & Hb%bool_decide_eq_false%dec_stable). by exists m, th, b; rewrite Ek.
  - destruct (can_write (threads cf)) eqn:E; [left; by apply Hen|right].
    destruct (forallb_false _ _ E) as (m & b & Hm & Hb%bool_decide_eq_false). by exists m, th, b; rewrite Ek.
  - left. apply Hen. by destruct (t_table th).
  - destruct (can_lock i (threads cf)) eqn:E; [left; by apply Hen|right].
    destruct (forallb_false _ _ E) as (m & b & Hm & Hb%bool_decide_eq_false%dec_stable). by exists m, th, b; rewrite Ek.
  - left. apply Hen. by case_decide.
  - left. apply Hen. unfold put_act. by repeat case_match.
Qed.

(** A thread that holds a [hot_lock] waits for nothing. *)
Lemma hot_enabled cf n th :
  conf_ok cf -> threads cf !! n = Some th -> t_hot th <> [] -> enabled cf n.
Proof.
  intros Hok Hn Hh. pose proof (ok_safe _ Hok n th Hn) as Hs.
  destruct (enabled_or_waits cf n th Hok Hn) as [|(m & a & b & Ha & _ & Hw)]; [|done|].
  - intros E. rewrite E in Hs. by destruct Hs.
  - simplify_eq. destruct (t_code th); cbn in Hs; try done; by destruct Hs as (_ & ? & _).
Qed.

Lemma blocked_on_enabled cf n th :
  conf_ok cf -> threads cf !! n = Some th -> t_code th <> Done ->
  enabled cf n \/ exists m, waits cf n m /\ (enabled cf m \/ exists m', waits cf m m' /\ enabled cf m').
Proof.
  intros Hok Hn Hd.
  destruct (enabled_or_waits cf n th Hok Hn Hd) as [|(m & Hw)]; [by left|right]. exists m. split; [done|].
  destruct Hw as (a & b & Ha & Hm & Hw). simplify_eq.
  assert (i_hot : t_hot b <> [] -> enabled cf m) by by apply hot_enabled.
  destruct (decide (t_hot b = [])) as [Eh|Hne]; [|by left; apply i_hot].
  assert (t_table b <> Free) as Ht.
  { destruct (t_code th); try done; [congruence|]. rewrite Eh in Hw. by apply elem_of_nil in Hw. }
  pose proof (ok_safe _ Hok m b Hm) as Hsb.
  destruct (enabled_or_waits cf m b Hok Hm) as [|(m' & Hw')]; [|by left|right; exists m'; split; [done|]].
  - intros E. rewrite E in Hsb. by destruct Hsb.
  - destruct Hw' as (b' & d & Hb' & Hm' & Hw'). simplify_eq. apply (hot_enabled cf m' d); [done..|].
    intros Ed. rewrite Ed in Hw'. destruct (t_code b); cbn in Hsb; try done; [by destruct Hsb as (? & _)..|].
    by apply elem_of_nil in Hw'.
Qed.

(** C18: No deadlock.  A thread that has not returned can go on, or it waits for a lock
    whose holder can go on, or for a holder of [table_lock] that waits for a
    [hot_lock] whose holder can go on. *)
Theorem no_deadlock o tm cfgs oks cf n th :
  boot_ok c o tm cfgs -> started o tm cfgs oks cf ->
  threads cf !! n = Some th -> t_code th <> Done ->
  enabled cf n \/ exists m, waits cf n m /\ (enabled cf m \/ exists m', waits cf m m' /\ enabled cf m').
Proof.
  intros Hb Hs. apply blocked_on_enabled. by eapply started_ok.
Qed.

(** ** Shutdown *)

(** A move of a thread. *)
Definition progress (cf cf' : conf) : Prop :=
  exists n mv, (mv = Run n \/ exists wk, mv = Wake n wk) /\ fire c mv cf = Next cf'.

Lemma live_progress cf n th :
  conf_ok cf -> threads cf !! n = Some th -> t_code th <> Done -> exists cf', progress cf cf'.
Proof.
  intros Hok Hn Hd. assert (exists m, enabled cf m) as (m & mv & cf' & Hmv & E).
  { destruct (blocked_on_enabled cf n th Hok Hn Hd) as [?|(m & _ & [?|(m' & _ & ?)])]; eauto. }
  exists cf', m, mv. done.
Qed.

(** What is left of a thread after a move, once [stop_flag] is set. *)
Definition remains (k' k : code) : Prop :=
  match k with
  | Done => False
  | WorkerLoop _ | HouseLoop _ _ => k' = Done
  | EpollWait ctxs => exists wk, k' = wake_code c wk ctxs
  | Rdlock k | Wrlock k | Unlock k | Lock _ k | UnlockHot _ k => k' = k
  | Act _ _ k => exists a, k' = k a
  end.

(** No [epoll_wait] before the next loop head. *)
Fixpoint settled (k : code) : Prop :=
  match k with
  | Done | WorkerLoop _ | HouseLoop _ _ => True
  | EpollWait _ => False
  | Rdlock k | Wrlock k | Unlock k | Lock _ k | UnlockHot _ k => settled k
  | Act _ _ k => forall a, settled (k a)
  end.

Lemma settled_forward i enc payload k :
  (forall e, settled (k e)) -> settled (forward_code i enc payload k).
Proof. intros Hk. cbn. intros [enc' [[dest wire]|]]; [intros []; cbn; auto|cbn; auto]. Qed.

Lemma settled_print k : settled k -> settled (print_sessions k).
Proof.
  intros Hk n. generalize (seq 0 n). intros js. induction js as [|j js IH]; cbn; [done|].
  intros s. destruct (negb _); cbn; auto.
Qed.

Lemma settled_install src out g k : settled k -> settled (install_code src out g k).
Proof. intros Hk. destruct g as [g|]; [|done]. intros was [] []. by apply settled_print. Qed.

Lemma settled_wake wk ctxs : settled (wake_code c wk ctxs).
Proof.
  destruct wk as [es| |]; cbn; [|done..]. revert ctxs.
  induction es as [|e es IH]; intros ctxs; cbn [events_code]; [done|].
  destruct e as [|[data|]|[[src data]|]]; cbn [event_code]; try done.
  - cbv zeta. destruct (length _ =? 0)%nat; [done|]. unfold tun_code. destruct (is_ipv4 _); [|apply IH].
    intros [i|]; [|apply IH]. apply settled_forward. intros. apply IH.
  - intros now. destruct (_ && _).
    + intros [j|]; [intros g; apply settled_install, IH|].
      intros []; [apply IH|]. intros g. apply settled_install, IH.
    + intros [i|]; [|apply IH]. intros [dec [[[sq prev] payload]|]]; [|apply IH].
      intros [|f|]; [apply IH| |intros _; apply IH]. apply settled_forward. intros. apply IH.
Qed.

Lemma remains_done : Acc remains Done.
Proof. constructor. intros ? []. Qed.

Lemma remains_settled k : settled k -> Acc remains k.
Proof.
  induction k as [|ctxs|ctxs|last enc|k IH|k IH|k IH|i k IH|i k IH|A f notes k IH]; cbn [settled]; intros Hk;
    [apply remains_done| |destruct Hk|..]; constructor; cbn [remains].
  1-2: intros ? ->; apply remains_done.
  1-5: intros ? ->; auto.
  intros ? [a ->]. auto.
Qed.

Lemma remains_wf k : Acc remains k.
Proof.
  induction k as [|ctxs|ctxs|last enc|k IH|k IH|k IH|i k IH|i k IH|A f notes k IH];
    [apply remains_done|..]; constructor; cbn [remains].
  - intros ? ->. apply remains_done.
  - intros ? [wk ->]. apply remains_settled, settled_wake.
  - intros ? ->. apply remains_done.
  - intros ? ->. exact IH.
  - intros ? ->. exact IH.
  - intros ? ->. exact IH.
  - intros ? ->. exact IH.
  - intros ? ->. exact IH.
  - intros ? [a ->]. apply IH.
Qed.

(** One entry of a list goes down. *)
Definition one_down {A} (R : A -> A -> Prop) (l' l : list A) : Prop :=
  exists n x x', l !! n = Some x /\ R x' x /\ l' = <[n := x']> l.

Lemma one_down_wf {A} (R : A -> A -> Prop) l : (forall x, Acc R x) -> Acc (one_down R) l.
Proof.
  intros Hwf. induction l as [|x l IH]; [constructor; by intros ? (n & ? & ? & ? & _)|].
  revert l IH. induction (Hwf x) as [x _ IHx]. intros l IHl. induction IHl as [l Hl IHl].
  constructor. intros l' ([|n] & y & y' & Hn & Hy & ->); cbn in *; simplify_eq.
  - apply IHx; [done|]. by constructor.
  - apply IHl. by exists n, y, y'.
Qed.

Lemma progress_remains cf cf' :
  stop_flag (c_flags cf) = true -> progress cf cf' ->
  stop_flag (c_flags cf') = true /\ one_down remains (t_code <$> threads cf') (t_code <$> threads cf).
Proof.
  intros Hst (n & mv & Hmv & E).
  assert (exists th k' m hs, threads cf !! n = Some th /\ remains k' (t_code th) /\
    threads cf' = <[n := Thread k' m hs]> (threads cf) /\ c_flags cf' = c_flags cf) as
    (th & k' & m & hs & Hn & Hr & Ets & Efl).
  { destruct Hmv as [->|[wk ->]]; cbn in E.
    - destruct (threads cf !! n) as [th|] eqn:Hn; [|done]. exists th.
      unfold run_thread, put_act, bind, put in E.
      destruct (t_code th) eqn:Ek; rewrite ?Hst in E; repeat case_match; simplify_eq/=;
        (do 3 eexists; split_and!; [reflexivity| |reflexivity|reflexivity]; cbn; eauto).
      match goal with E : ret _ _ = _ |- _ => injection E as _ <- _ end. eauto.
    - destruct (threads cf !! n) as [[k m hs]|] eqn:Hn; [|done]. destruct k; try done.
      injection E as <-. eexists _, _, m, hs. split_and!; [done| |done|done]. cbn. eauto. }
  rewrite Efl. split; [done|]. exists n, (t_code th), k'. rewrite list_lookup_fmap, Hn, Ets, list_fmap_insert. done.
Qed.

(** C15: Shutdown.  After [stop_flag] is set, in whatever the threads are doing then:
    every way of running them comes to an end, and it ends with all threads
    returned, so the joins of [start_peer] return. *)
Theorem shutdown_completes o tm cfgs oks cf :
  boot_ok c o tm cfgs -> started o tm cfgs oks cf -> stop_flag (c_flags cf) = true ->
  Acc (fun x y => progress y x) cf /\
  forall cf', rtc progress cf cf' -> (forall x, ~ progress cf' x) ->
    forall n th, threads cf' !! n = Some th -> t_code th = Done.
Proof.
  intros Hb Hs Hst. split.
  - clear Hb Hs. remember (t_code <$> threads cf) as l eqn:El.
    assert (Acc (one_down remains) l) as Ha by apply one_down_wf, remains_wf.
    revert cf El Hst. induction Ha as [l _ IH]. intros cf -> Hst. constructor. intros cf' Hp.
    destruct (progress_remains _ _ Hst Hp) as [Hst' Hd]. by eapply IH.
  - intros cf' Hr Hno n th Hn. apply (started_ok _ _ _ _ _ Hb) in Hs as Hok.
    assert (conf_ok cf') as Hok'.
    { clear Hs Hst Hno Hn. induction Hr as [|x y z (? & mv & _ & E) _ IH]; [done|]. apply IH.
      pose proof (fire_ok x mv Hok) as He. by rewrite E in He. }
    destruct (t_code th) eqn:Ek; [done|..]; exfalso;
      (destruct (live_progress cf' n th) as [x Hx]; [done|done|congruence|by eapply Hno]).
Qed.
End ThreadSafety.

(** ** Concrete schedules *)

#[local] Existing Instance Toy.ssl.
#[local] Existing Instance Toy.env.
#[local] Existing Instance Toy.ssl_sizes.

(** The configuration at the end of a schedule. *)
Definition conf_end (r : result) (d : conf) : conf := match r with Next cf => cf | _ => d end.
Definition is_next (r : result) : bool := match r with Next _ => true | _ => false end.

Lemma conf_end_eta r d : is_next r = true -> r = Next (conf_end r d).
Proof. by destruct r. Qed.

(** Two workers and the housekeeping thread start; worker 0 answers the
    initiation; then both workers have a packet for the new session, and worker 1
    gets its [hot_lock] first. *)
Definition toy_spawned : conf := spawn [true; true] toy_started.
Definition toy_meet : list move :=
  replicate 3 (Run 0) ++ replicate 3 (Run 1) ++ [Run 2] ++
  Wake 0 (Events [EvUdp (Some (SockAddr 9 9, toy_init))]) :: replicate 17 (Run 0).
Definition toy_race : list move :=
  [Wake 0 (Events [EvTun (Some toy_ip)]); Wake 1 (Events [EvTun (Some toy_ip)])] ++
  [Run 0; Run 1; Run 0; Run 1; Run 1].
Definition toy_met : conf := conf_end (run toy_peer toy_meet toy_spawned) toy_spawned.
Definition toy_racing : conf := conf_end (run toy_peer (toy_meet ++ toy_race) toy_spawned) toy_spawned.
Definition toy_stopping : conf :=
  conf_end (run toy_peer (toy_meet ++ toy_race ++ [Run 1; Signal SIGTERM]) toy_spawned) toy_spawned.

Lemma toy_schedule_started mvs :
  is_next (run toy_peer mvs toy_spawned) = true ->
  started toy_peer toy_peer_os default_timing [toy_peer_cfg] [true; true]
    (conf_end (run toy_peer mvs toy_spawned) toy_spawned).
Proof.
  intros E. exists toy_started, mvs. split; [apply run_eta; vm_compute; reflexivity|]. by apply conf_end_eta.
Qed.

Lemma toy_racing_started :
  started toy_peer toy_peer_os default_timing [toy_peer_cfg] [true; true] toy_racing.
Proof. apply toy_schedule_started. vm_compute. reflexivity. Qed.

Lemma toy_stopping_started :
  started toy_peer toy_peer_os default_timing [toy_peer_cfg] [true; true] toy_stopping.
Proof. apply toy_schedule_started. vm_compute. reflexivity. Qed.

Lemma interleavings_never_undefined_witness :
  (forall mvs, run toy_peer mvs toy_racing <> Undefined) /\
  ((forall n th, threads toy_racing !! n = Some th -> t_table th <> Writing) -> inv toy_peer (c_world toy_racing)).
Proof.
  exact (interleavings_never_undefined toy_peer toy_peer_os default_timing [toy_peer_cfg] [true; true]
           toy_racing toy_boot_ok toy_racing_started).
Defined.

Definition toy_raced : peer_session := default zero_session (sessions (w_tab (c_world toy_stopping)) !! 0%nat).

(** One packet was sealed since the session got its key. *)
Lemma toy_stopping_trace : exists wire, sealed_in 0 (trace toy_stopping) = [(toy_ip, Some (SockAddr 9 9, wire))].
Proof. eexists. vm_compute. reflexivity. Qed.

Lemma counters_across_threads_witness :
  (exists wire, sealed_in 0 (trace toy_stopping) = [(toy_ip, Some (SockAddr 9 9, wire))] /\
     seals (session_key toy_raced) (data_plain 0 toy_ip) wire) /\
  send_seq toy_raced = u64 1 /\ NoDup (accepted_in 0 (trace toy_stopping)).*1.
Proof.
  destruct toy_stopping_trace as [wire Hw].
  destruct (counters_across_threads toy_peer toy_peer_os default_timing [toy_peer_cfg] [true; true]
           toy_stopping 0%nat toy_raced toy_boot_ok toy_stopping_started) as (Hsealed & Hseq & _ & Hacc).
  { vm_compute. reflexivity. }
  rewrite Hw in Hsealed, Hseq. split_and!; [|exact Hseq|exact Hacc].
  exists wire. split; [exact Hw|]. apply (Hsealed 0%nat toy_ip (SockAddr 9 9) wire). reflexivity.
Defined.

(** Worker 0 waits for the lock, worker 1 is about to write under it. *)
Definition toy_thread (n : nat) : thread := default (Thread Done Free []) (threads toy_racing !! n).
Definition toy_after : conf := conf_end (fire toy_peer (Run 1) toy_racing) toy_racing.

Lemma toy_thread_at n : (n < 3)%nat -> threads toy_racing !! n = Some (toy_thread n).
Proof.
  intros Hn. unfold toy_thread. destruct (threads toy_racing !! n) eqn:E; [done|].
  apply lookup_ge_None in E. assert (length (threads toy_racing) = 3%nat) as El by (vm_compute; reflexivity). lia.
Qed.

Lemma toy_fire : fire toy_peer (Run 1) toy_racing = Next toy_after.
Proof. apply conf_end_eta. vm_compute. reflexivity. Qed.

Lemma locking_rules_witness :
  let t := w_tab (c_world toy_racing) in
  let t' := w_tab (c_world toy_after) in
  (t_table (toy_thread 1) = Free -> t' = t) /\
  (t_table (toy_thread 1) <> Writing -> t' = set_sessions (sessions t') t) /\
  forall j s s', sessions t !! j = Some s -> sessions t' !! j = Some s' ->
    (structural s' <> structural s -> t_table (toy_thread 1) = Writing) /\
    (hot_part s' <> hot_part s -> t_table (toy_thread 1) <> Free /\ t_hot (toy_thread 1) = [j]) /\
    (addr s' <> addr s \/ session_key s' <> session_key s -> t_table (toy_thread 1) = Writing).
Proof.
  exact (locking_rules toy_peer toy_peer_os default_timing [toy_peer_cfg] [true; true] toy_racing 1%nat
           (toy_thread 1) toy_after toy_boot_ok toy_racing_started
           (toy_thread_at 1 ltac:(lia)) toy_fire).
Defined.

Lemma locks_protect_witness :
  let t := w_tab (c_world toy_racing) in
  let t' := w_tab (c_world toy_after) in
  (t_table (toy_thread 0) = Writing -> t' = t) /\
  (t_table (toy_thread 0) = Reading -> t' = set_sessions (sessions t') t /\
     forall j s s', sessions t !! j = Some s -> sessions t' !! j = Some s' ->
       structural s' = structural s /\ addr s' = addr s /\ session_key s' = session_key s) /\
  (forall j, j ∈ t_hot (toy_thread 0) -> sessions t' !! j = sessions t !! j).
Proof.
  exact (locks_protect toy_peer toy_peer_os default_timing [toy_peer_cfg] [true; true] toy_racing (Run 1) 0%nat
           (toy_thread 0) toy_after toy_boot_ok toy_racing_started
           (toy_thread_at 0 ltac:(lia)) ltac:(discriminate) toy_fire).
Defined.

Definition locking (k : code) : bool := match k with Lock _ _ => true | _ => false end.

Lemma locking_live k : locking k = true -> k <> Done.
Proof. by destruct k. Qed.

Lemma toy_not_done : t_code (toy_thread 0) <> Done.
Proof. apply locking_live. vm_compute. reflexivity. Qed.

Lemma no_deadlock_witness :
  enabled toy_peer toy_racing 0 \/
  exists m, waits toy_racing 0 m /\
    (enabled toy_peer toy_racing m \/ exists m', waits toy_racing m m' /\ enabled toy_peer toy_racing m').
Proof.
  exact (no_deadlock toy_peer toy_peer_os default_timing [toy_peer_cfg] [true; true] toy_racing 0%nat
           (toy_thread 0) toy_boot_ok toy_racing_started (toy_thread_at 0 ltac:(lia)) toy_not_done).
Defined.

Lemma shutdown_completes_witness :
  Acc (fun x y => progress toy_peer y x) toy_stopping /\
  forall cf', rtc (progress toy_peer) toy_stopping cf' -> (forall x, ~ progress toy_peer cf' x) ->
    forall n th, threads cf' !! n = Some th -> t_code th = Done.
Proof.
  apply (shutdown_completes toy_peer toy_peer_os default_timing [toy_peer_cfg] [true; true] toy_stopping
           toy_boot_ok toy_stopping_started).
  vm_compute. reflexivity.
Defined.
