(* ===== verification/Sequential.v ===== *)
(** * A thread that runs alone

    With the locks left out, the pieces of a handler compute what the handler of
    Peer does in one step: the two models of the same code agree.  And a worker
    that is not disturbed runs through its pieces to the end. *)

From S2P Require Import Prelude Replay Platform Crypto Handshake Hex Cidr Session Peer Invariant Safety Frames Threads Interleave Locking ThreadSafety.

(** Run the pieces one after the other, up to a loop head. *)
Fixpoint alone `{Env} (k : code) : M world code :=
  match k with
  | Rdlock k | Wrlock k | Unlock k | Lock _ k | UnlockHot _ k => alone k
  | Act f _ k => let! a := f in alone (k a)
  | k => ret k
  end.

Section Sequential.
Context `{OpenSSLSizes} (c : loop_ctx).

Lemma session_at_eq i (w : world) :
  session_at i w = match sessions (w_tab w) !! i with Some s => Ret s w | None => UB end.
Proof. unfold session_at, bind, tab, gets, at_index. by destruct (sessions _ !! i). Qed.

Lemma alone_forward i enc payload k (w : world) :
  alone (forward_code i enc payload k) w
  = (let! e := forward_to_peer i enc payload in alone (k e)) w.
Proof.
  cbn [alone forward_code]. unfold forward_to_peer. rewrite bind_assoc.
  apply bind_ext. intros [e [[dest wire]|]] w1; [|done].
  cbn. rewrite bind_assoc. apply bind_ext. intros [] w2; [|done]. cbn. by rewrite bind_assoc.
Qed.

Lemma alone_print k (w : world) : inv c w -> alone (print_sessions k) w = alone k w.
Proof.
  intros Hinv. cbn [alone print_sessions]. unfold bind, tab, gets, ret. cbn.
  assert (forall js, (forall j, j ∈ js -> (j < MAX_PEERS)%nat) -> alone (print_slots js k) w = alone k w) as Hs.
  { induction js as [|j js IH]; intros Hjs; cbn [alone print_slots]; [done|]. unfold bind.
    destruct (inv_session_valid c w j Hinv) as [s Hs]; [apply Hjs; set_solver|].
    rewrite session_at_eq, Hs. destruct (negb _); cbn [alone].
    - apply IH. intros; apply Hjs; set_solver.
    - unfold bind. rewrite session_at_eq, Hs. cbn. apply IH. intros; apply Hjs; set_solver. }
  apply Hs. intros j [_ Hj]%elem_of_seq. pose proof (slots_bound _ (wf_slots _ (proj1 Hinv))). lia.
Qed.

Lemma alone_install src out g k (w w' : world) :
  install src out g w = Ret tt w' -> inv c w' -> alone (install_code src out g k) w = alone k w'.
Proof.
  intros E Hinv. destruct g as [g|]; cbn [install_code install] in *; [|by injection E as <-].
  unfold session_init in E. cbn [alone]. revert E. unfold bind.
  destruct (session_open _ _ w) as [was w1|]; [|done]. destruct (session_rekey _ _ _ _ w1) as [[] w2|]; [|done].
  intros ->. by apply alone_print.
Qed.

Lemma alone_tun pkt enc k (w : world) :
  alone (tun_code pkt enc k) w = (let! e := on_tun pkt enc in alone (k e)) w.
Proof.
  unfold tun_code, on_tun. destruct (is_ipv4 pkt); [|done]. cbn [alone]. rewrite !bind_assoc.
  apply bind_ext. intros t w1. unfold bind at 1. cbn [ret]. destruct (route_lookup t _); [|done].
  by rewrite alone_forward.
Qed.

Lemma alone_data src pkt now enc dec k (w : world) :
  alone (data_code src pkt now enc dec k) w = (let! x := on_data src pkt now enc dec in alone (k x)) w.
Proof.
  unfold data_code, on_data. cbn [alone]. rewrite !bind_assoc. apply bind_ext. intros t w1.
  unfold bind at 1. cbn [ret]. destruct (find_session_by_addr t src) as [i|]; [|done]. cbn [alone].
  rewrite bind_assoc. apply bind_ext. intros [dec' [[[sq prev] payload]|]] w2; cbn [alone]; [|done].
  rewrite bind_assoc. unfold deliver. rewrite bind_assoc. apply bind_ext. intros [|f|] w3; [done| |].
  - rewrite alone_forward. by apply bind_ext.
  - cbn [alone]. by rewrite bind_assoc.
Qed.

Lemma alone_handshake src pkt now k (w : world) :
  inv c w -> alone (handshake_code c src pkt now k) w
             = (let! _ := on_handshake c src pkt now in alone k) w.
Proof.
  intros Hinv. destruct (wp_elim _ _ _ (wp_on_handshake c src pkt now w Hinv)) as ([] & w' & E & Hinv').
  unfold bind at 1. rewrite E. revert E. unfold handshake_code, on_handshake. cbn [alone].
  unfold bind, tab, gets, ret. destruct (find_pending (w_tab w) src) as [j|]; cbn [alone].
  - unfold on_response, bind. destruct (accept_response c j src pkt w) as [g w1|]; [|done].
    intros E. by rewrite (alone_install src true g _ _ _ E Hinv').
  - unfold bind. destruct (tie_break c src w) as [[] w1|]; [by intros [= <-]| |done]. cbn [alone].
    unfold on_initiation, bind. destruct (accept_initiation c src pkt now w1) as [g w2|]; [|done].
    intros E. by rewrite (alone_install src false g _ _ _ E Hinv').
Qed.

Lemma alone_event e ctxs k (w : world) :
  inv c w -> alone (event_code c e ctxs k) w
             = (let! r := on_event c e ctxs in
                match r with Some x => alone (k x) | None => ret Done end) w.
Proof.
  intros Hinv. destruct e as [|[data|]|[[src data]|]]; cbn [event_code on_event]; try done.
  - cbv zeta. destruct (length _ =? 0)%nat; [done|]. by rewrite alone_tun, bind_assoc.
  - unfold udp_code, on_udp. cbn [alone]. rewrite !bind_assoc.
    destruct (wp_elim _ _ _ (inv_time c (fun _ => inv c) w Hinv (fun _ _ _ Hi => Hi))) as (now & w1 & E & Hinv1).
    rewrite !(bind_Ret _ _ _ _ _ E). destruct (_ && _).
    + rewrite alone_handshake by done. by rewrite !bind_assoc.
    + by rewrite alone_data.
Qed.

Lemma alone_events es ctxs (w : world) :
  inv c w -> alone (events_code c es ctxs) w
             = (let! r := on_events c es ctxs in
                ret (match r with Some x => WorkerLoop x | None => Done end)) w.
Proof.
  revert ctxs w. induction es as [|e es IH]; intros ctxs w Hinv; [done|]. cbn [events_code on_events].
  rewrite alone_event, bind_assoc by done.
  destruct (wp_elim _ _ _ (wp_on_event c e ctxs w Hinv)) as (r & w1 & E & Hinv1).
  rewrite !(bind_Ret _ _ _ _ _ E). destruct r as [x|]; [by apply IH|done].
Qed.

Lemma hk_silent_session now j (w w' : world) b :
  hk_silent now j w = Ret b w' -> w' = w /\ exists s, sessions (w_tab w) !! j = Some s.
Proof.
  unfold hk_silent, bind. rewrite session_at_eq. destruct (sessions _ !! j) as [s|]; [|done]. cbn.
  destruct (negb _); intros [= _ <-]; eauto.
Qed.

Lemma alone_expire now js k (w : world) :
  alone (expire_slots now js k) w = (let! _ := foldM (fun _ j => hk_expire now j) js tt in alone k) w.
Proof.
  revert w. induction js as [|j js IH]; intros w; cbn [expire_slots foldM]; [done|]. cbn [alone].
  rewrite bind_assoc. unfold hk_expire at 1. rewrite bind_assoc.
  destruct (hk_silent now j w) as [b w1|] eqn:E; [|unfold bind; by rewrite E].
  rewrite !(bind_Ret _ _ _ _ _ E). apply hk_silent_session in E as [-> [s Hs]].
  destruct b; [|apply IH]. cbn [alone]. rewrite bind_assoc. unfold bind at 1.
  rewrite session_at_eq, Hs. cbn [bind ret]. apply bind_ext. intros [] w2. apply IH.
Qed.

Lemma alone_keepalive now js enc k (w : world) :
  alone (keepalive_slots c now js enc k) w
  = (let! e := foldM (hk_keepalive c now) js enc in alone (k e)) w.
Proof.
  revert enc w. induction js as [|j js IH]; intros enc w; cbn [keepalive_slots foldM]; [done|]. cbn [alone].
  rewrite bind_assoc. unfold hk_keepalive at 1. rewrite bind_assoc. apply bind_ext. intros s w1.
  destruct (negb _); [apply IH|]. cbn [alone]. rewrite bind_assoc. apply bind_ext. intros [] w2; [|apply IH].
  rewrite alone_forward. apply bind_ext. intros e w3. apply IH.
Qed.

Lemma alone_tick now enc k (w : world) :
  alone (tick_code c now enc k) w = (let! e := housekeeping_tick c now enc in alone (k e)) w.
Proof.
  unfold tick_code, housekeeping_tick. cbn [alone]. rewrite bind_assoc. apply bind_ext. intros n w1.
  rewrite alone_expire, bind_assoc. apply bind_ext. intros [] w2. by rewrite alone_keepalive.
Qed.

(** ** A schedule for one thread *)

(** The other threads hold no lock. *)
Definition undisturbed (n : nat) (cf : conf) : Prop :=
  forall j b, j <> n -> threads cf !! j = Some b -> t_table b = Free /\ t_hot b = [].

(** Thread [n] runs until it has [k'] left, with the world then [w']. *)
Definition finishes (n : nat) (cf : conf) (k' : code) (w' : world) : Prop :=
  exists cnt l, run c (replicate cnt (Run n)) cf
    = Next (Conf (<[n := Thread k' Free []]> (threads cf)) w' (c_flags cf) (l ++ trace cf)).

Lemma finishes_step n cf th w l k' w' :
  fire c (Run n) cf = Next (Conf (<[n := th]> (threads cf)) w (c_flags cf) (l ++ trace cf)) ->
  finishes n (Conf (<[n := th]> (threads cf)) w (c_flags cf) (l ++ trace cf)) k' w' ->
  finishes n cf k' w'.
Proof.
  intros E (cnt & l' & Er). exists (S cnt), (l' ++ l). cbn [replicate run]. rewrite E, Er.
  cbn. by rewrite list_insert_insert_eq, app_assoc.
Qed.

Lemma undisturbed_put n cf th w fl tr : undisturbed n cf -> undisturbed n (Conf (<[n := th]> (threads cf)) w fl tr).
Proof. intros Hu j b Hj. cbn. rewrite list_lookup_insert_ne by done. by apply Hu. Qed.

(** One move, then the rest. *)
Lemma finishes_next n cf k1 m1 hs1 w1 l k' w' :
  conf_ok c cf -> undisturbed n cf -> is_Some (threads cf !! n) ->
  fire c (Run n) cf = Next (Conf (<[n := Thread k1 m1 hs1]> (threads cf)) w1 (c_flags cf) (l ++ trace cf)) ->
  (forall cf1, conf_ok c cf1 -> threads cf1 !! n = Some (Thread k1 m1 hs1) -> undisturbed n cf1 ->
     c_world cf1 = w1 -> finishes n cf1 k' w') ->
  finishes n cf k' w'.
Proof.
  intros Hok Hu [th Hn] E Hrest. eapply finishes_step; [done|]. apply Hrest; [|cbn|by apply undisturbed_put|done].
  - pose proof (fire_ok c cf (Run n) Hok) as Hf. by rewrite E in Hf.
  - apply list_lookup_insert_eq. by eapply lookup_lt_Some.
Qed.

Lemma undisturbed_all n cf th (P : thread -> Prop) `{!forall x, Decision (P x)} :
  undisturbed n cf -> threads cf !! n = Some th -> P th ->
  (forall b, t_table b = Free -> t_hot b = [] -> P b) ->
  forallb (fun b => bool_decide (P b)) (threads cf) = true.
Proof.
  intros Hu Hn Hth Hb. apply forallb_lookup. intros j b Hj.
  destruct (decide (j = n)) as [->|Hne]; [by simplify_eq|]. destruct (Hu j b Hne Hj). by apply Hb.
Qed.

Lemma alone_finishes n k m hs cf k' w' :
  conf_ok c cf -> threads cf !! n = Some (Thread k m hs) -> undisturbed n cf ->
  alone k (c_world cf) = Ret k' w' -> finishes n cf k' w'.
Proof.
  revert m hs cf. induction k as [|ctxs|ctxs|last enc|k IH|k IH|k IH|i k IH|i k IH|A f notes k IH];
    intros m hs cf Hok Hn Hu E; pose proof (ok_safe _ _ Hok _ _ Hn) as Hs; cbn in Hs, E;
    pose proof (fun k1 m1 hs1 w1 l => finishes_next n cf k1 m1 hs1 w1 l k' w' Hok Hu (mk_is_Some _ _ Hn)) as Hgo;
    cbn [fire] in Hgo; rewrite Hn in Hgo; unfold run_thread in Hgo; cbn [t_code t_table t_hot] in Hgo.
  1-4: destruct Hs as [-> ->]; injection E as <- <-; exists 0%nat, []; cbn;
    rewrite list_insert_id by done; by destruct cf.
  - destruct Hs as (-> & -> & _). apply (Hgo k Reading [] (c_world cf) []); [|by intros cf1 ? ? ? Ew; eapply IH; [done..|rewrite Ew]].
    unfold can_read. rewrite (undisturbed_all n cf _ (fun t => t_table t <> Writing) Hu Hn); [done|done|]. congruence.
  - destruct Hs as (-> & -> & _). apply (Hgo k Writing [] (c_world cf) []); [|by intros cf1 ? ? ? Ew; eapply IH; [done..|rewrite Ew]].
    unfold can_write. by rewrite (undisturbed_all n cf _ (fun t => t_table t = Free) Hu Hn).
  - destruct Hs as (Hm & -> & _). apply (Hgo k Free [] (c_world cf) []); [by destruct m|by intros cf1 ? ? ? Ew; eapply IH; [done..|rewrite Ew]].
  - destruct Hs as (Hm & -> & _). apply (Hgo k m [i] (c_world cf) []); [|by intros cf1 ? ? ? Ew; eapply IH; [done..|rewrite Ew]].
    unfold can_lock. rewrite (undisturbed_all n cf _ (fun t => i ∉ t_hot t) Hu Hn); [done|..];
      [by intros ?%elem_of_nil|intros b _ ->; by intros ?%elem_of_nil].
  - destruct Hs as (Hm & -> & _). apply (Hgo k m [] (c_world cf) []); [|by intros cf1 ? ? ? Ew; eapply IH; [done..|rewrite Ew]].
    rewrite decide_True by set_solver. by rewrite filter_cons_False by auto.
  - unfold bind in E. destruct (f (c_world cf)) as [a w1|] eqn:Ef; [|done].
    apply (Hgo (k a) m hs w1 (rev (notes a))); [unfold bind; by rewrite Ef|]. by intros cf1 ? ? ? Ew; eapply IH; [done..|rewrite Ew].
Qed.

(** C19: A worker that is not disturbed.  When [epoll_wait] returns the events [es] to
    worker [n] and no other thread holds a lock, the pieces of its handlers, taken
    one after the other, lead exactly to what [on_events] computes in one step, and
    back to the head of the loop (or out of it). *)
Theorem worker_alone_is_atomic o tm cfgs oks cf n ctxs es :
  boot_ok c o tm cfgs -> started c o tm cfgs oks cf ->
  threads cf !! n = Some (Thread (EpollWait ctxs) Free []) -> undisturbed n cf ->
  exists r w' cnt l, on_events c es ctxs (c_world cf) = Ret r w' /\
    run c (Wake n (Events es) :: replicate cnt (Run n)) cf
    = Next (Conf (<[n := Thread (match r with Some x => WorkerLoop x | None => Done end) Free []]> (threads cf))
                 w' (c_flags cf) (l ++ trace cf)).
Proof.
  intros Hb Hs Hn Hu. pose proof (started_ok _ _ _ _ _ _ Hb Hs) as Hok.
  assert (inv c (c_world cf)) as Hinv.
  { apply (ok_inv _ _ Hok), can_read_true. intros j b Hj. destruct (decide (j = n)) as [->|Hne]; [by simplify_eq|].
    destruct (Hu j b Hne Hj). congruence. }
  destruct (wp_elim _ _ _ (wp_on_events c es ctxs _ Hinv)) as (r & w' & E & _).
  pose proof (fire_ok c cf (Wake n (Events es)) Hok) as Hf. cbn [fire run] in *. rewrite Hn in Hf |- *.
  set (cf1 := with_thread n (Thread (wake_code c (Events es) ctxs) Free []) cf) in *.
  assert (finishes n cf1 (match r with Some x => WorkerLoop x | None => Done end) w') as (cnt & l & Er).
  { eapply alone_finishes; [exact Hf|apply list_lookup_insert_eq; by eapply lookup_lt_Some|by apply undisturbed_put|].
    cbn [wake_code]. rewrite alone_events by done. by rewrite (bind_Ret _ _ _ _ _ E). }
  exists r, w', cnt, l. split; [done|]. unfold put. fold cf1. rewrite Er. cbn. by rewrite list_insert_insert_eq.
Qed.
End Sequential.

(** ** A concrete schedule *)

#[local] Existing Instance Toy.ssl.
#[local] Existing Instance Toy.env.
#[local] Existing Instance Toy.ssl_sizes.

Lemma toy_met_started :
  started toy_peer toy_peer_os default_timing [toy_peer_cfg] [true; true] toy_met.
Proof. apply toy_schedule_started. vm_compute. reflexivity. Qed.

Lemma toy_met_undisturbed : undisturbed 0 toy_met.
Proof.
  intros j b _ Hj.
  assert (Forall (fun b => t_table b = Free /\ t_hot b = []) (threads toy_met)) as Hf.
  { unfold toy_met. set (r := run toy_peer toy_meet toy_spawned).
    assert (forallb (fun b => bool_decide (t_table b = Free /\ t_hot b = []))
              (threads (conf_end r toy_spawned)) = true) as E by (vm_compute; reflexivity).
    apply Forall_lookup. intros n x. by apply (proj1 (forallb_lookup _ _) E). }
  by eapply Forall_lookup_1 in Hf.
Qed.

(** The contexts of a worker that waits and holds no lock. *)
Definition polling (th : option thread) : option (evp_cipher_ctx * evp_cipher_ctx) :=
  match th with
  | Some (Thread (EpollWait ctxs) Free []) => Some ctxs
  | _ => None
  end.

Lemma polling_thread th ctxs : polling th = Some ctxs -> th = Some (Thread (EpollWait ctxs) Free []).
Proof. unfold polling. repeat case_match; by intros [= <-]. Qed.

Lemma worker_alone_is_atomic_witness :
  exists r w' cnt l, on_events toy_peer [EvTun (Some toy_ip)] (toy_ctx, toy_ctx) (c_world toy_met) = Ret r w' /\
    run toy_peer (Wake 0 (Events [EvTun (Some toy_ip)]) :: replicate cnt (Run 0)) toy_met
    = Next (Conf (<[0%nat := Thread (match r with Some x => WorkerLoop x | None => Done end) Free []]> (threads toy_met))
                 w' (c_flags toy_met) (l ++ trace toy_met)).
Proof.
  apply (worker_alone_is_atomic toy_peer toy_peer_os default_timing [toy_peer_cfg] [true; true] toy_met 0%nat
           (toy_ctx, toy_ctx) [EvTun (Some toy_ip)] toy_boot_ok toy_met_started); [|exact toy_met_undisturbed].
  apply polling_thread. vm_compute. reflexivity.
Defined.
