(* ===== verification/Config.v ===== *)
(** * The configuration file: [load_config] and the checks of [main]

    libyaml turns the file into a stream of events; the stream is the input of
    the model.  [load_config] is the state machine peer.c runs over it. *)

From S2P Require Import Prelude Replay Platform Crypto Handshake Hex Cidr Session.
From Stdlib Require Import Ascii Strings.Byte.

(** The events of libyaml that [load_config] tells apart. *)
Inductive yaml_event :=
| YAML_SCALAR (v : string)
| YAML_SEQUENCE_START
| YAML_SEQUENCE_END
| YAML_MAPPING_START
| YAML_MAPPING_END
| YAML_STREAM_END
| YAML_OTHER.

Inductive cfg_state :=
| S_ROOT | S_ROOT_VAL | S_PEERS_SEQ | S_PEER_MAP | S_PEER_VAL | S_ALLOWED_IPS_SEQ.

(** The variables of [main] that [load_config] fills, and [log_level]. *)
Record settings := Settings {
  tunnel : string;
  address : string;
  port : Z;
  keepalive : Z;
  keyfile : string;
  psk : string;
  has_psk : bool;
  log_level : Z;
}.

(** The local variables of [load_config]; [ld_set] what its pointers refer to. *)
Record loader := Loader {
  ld_state : cfg_state;
  ld_key : string;
  ld_peer_key : string;
  ld_set : settings;
}.

Definition IF_NAMESIZE : nat := 16.

(** [strncpy(dst, src, n)] into a buffer of [n + 1] zero bytes, or into one that
    an earlier such copy filled: what a reader of [dst] sees. *)
Definition strncpy (src : string) (n : nat) : string := of_chars (take n (chars (c_str src))).

(** [strrchr]: the text before the last [code] and the text after it. *)
Fixpoint split_last (code : Z) (s : list ascii) : option (list ascii * list ascii) :=
  match s with
  | [] => None
  | c :: s' =>
      match split_last code s' with
      | Some (before, after) => Some (c :: before, after)
      | None => if char_code c =? code then Some ([], s') else None
      end
  end.

Definition set_state (q : cfg_state) (l : loader) : loader :=
  Loader q (ld_key l) (ld_peer_key l) (ld_set l).
Definition set_timers (tm : timing) (t : tables) : tables :=
  Tables tm (peer_configs t) (sessions t) (session_slots t) (pending_hs t)
    (precomp_eph_key t) (precomp_eph_pub t).

(** The scalar [v] for the key [key] at the root. *)
Definition root_scalar (key v : string) (s : settings) (tm : timing) : settings * timing :=
  let '(Settings tu ad po ke kf ps hp lg) := s in
  let '(Timing ra ri se pg ht hc wt) := tm in
  let n := atoi (chars v) in
  if decide (key = "interface") then (Settings (strncpy v (IF_NAMESIZE - 1)) ad po ke kf ps hp lg, tm)
  else if decide (key = "address") then (Settings tu (strncpy v 63) po ke kf ps hp lg, tm)
  else if decide (key = "port") then (Settings tu ad n ke kf ps hp lg, tm)
  else if decide (key = "keepalive_interval") then (Settings tu ad po n kf ps hp lg, tm)
  else if decide (key = "rekey_after") then (s, Timing n ri se pg ht hc wt)
  else if decide (key = "reconnect_interval") then (s, Timing ra n se pg ht hc wt)
  else if decide (key = "session_expiry") then (s, Timing ra ri n pg ht hc wt)
  else if decide (key = "prev_key_grace") then (s, Timing ra ri se n ht hc wt)
  else if decide (key = "handshake_timeout") then (s, Timing ra ri se pg n hc wt)
  else if decide (key = "handshake_cooldown") then (s, Timing ra ri se pg ht n wt)
  else if decide (key = "worker_threads") then (s, Timing ra ri se pg ht hc n)
  else if decide (key = "private_key_file") then (Settings tu ad po ke (strncpy v 255) ps hp lg, tm)
  else if decide (key = "verbose" /\ c_str v = "true") then (Settings tu ad po ke kf ps hp 1, tm)
  else if decide (key = "pre_shared_key") then (Settings tu ad po ke kf (strncpy v 255) true lg, tm)
  else (s, tm).

Definition set_pub (pub : bytes) (c : peer_config) : peer_config :=
  PeerConfig pub (pc_routes c) (has_endpoint c) (endpoint c) (endpoint_host c) (endpoint_port c)
    (last_attempt c).
Definition add_route (p : ip_prefix) (c : peer_config) : peer_config :=
  PeerConfig (pc_pub c) (pc_routes c ++ [p]) (has_endpoint c) (endpoint c) (endpoint_host c)
    (endpoint_port c) (last_attempt c).
Definition set_endpoint_host (host : string) (eport : Z) (c : peer_config) : peer_config :=
  PeerConfig (pc_pub c) (pc_routes c) (has_endpoint c) (SockAddr (sin_addr (endpoint c)) eport)
    host eport (last_attempt c).
Definition set_has_endpoint (c : peer_config) : peer_config :=
  PeerConfig (pc_pub c) (pc_routes c) true (endpoint c) (endpoint_host c) (endpoint_port c)
    (last_attempt c).

Section Config.
Context `{Env}.

(** The value of [endpoint]: [host:port], split at the last colon.  [buf] is not
    initialised: without a terminator in the first 255 bytes [strrchr] reads
    past what [strncpy] wrote. *)
Definition peer_endpoint (k : nat) (v : string) : M world bool :=
  guard (strlen (c_str v) <? 255)%nat ;;;
  match split_last 58 (chars (c_str v)) with
  | None => ret false
  | Some (host, rest) =>
      if (length host =? 0)%nat then ret false else
      let eport := atoi rest in
      if (eport <=? 0) || (65535 <? eport) then ret false else
      upd_config k (set_endpoint_host (of_chars host) eport) ;;;
      let! ok := resolve_endpoint k in
      if negb ok then ret false else
      upd_config k set_has_endpoint ;;;
      ret true
  end.

(** The scalar [v] for the key [key] of the last peer; [false] for [ok = 0]. *)
Definition peer_scalar (key v : string) : M world bool :=
  let! t := tab in
  let k := (length (peer_configs t) - 1)%nat in
  let! _ := config_at k in
  if decide (key = "public_key") then
    match hex_to_bytes (c_str v) DH_PUBKEY_LEN with
    | None => ret false
    | Some pub => upd_config k (set_pub pub) ;;; ret true
    end
  else if decide (key = "endpoint") then peer_endpoint k v
  else ret true.

(** One entry of [allowed_ips]. *)
Definition peer_allowed_ip (v : string) : M world bool :=
  let! t := tab in
  let k := (length (peer_configs t) - 1)%nat in
  let! pc := config_at k in
  if (MAX_ROUTES_PER_PEER <=? length (pc_routes pc))%nat then ret false else
  match parse_cidr (c_str v) with
  | None => ret false
  | Some p => upd_config k (add_route p) ;;; ret true
  end.

(** The [switch] over the state; [None] for [ok = 0]. *)
Definition cfg_step (e : yaml_event) (l : loader) : M world (option loader) :=
  match ld_state l, e with
  | S_ROOT, YAML_SCALAR v =>
      ret (Some (Loader S_ROOT_VAL (strncpy v 63) (ld_peer_key l) (ld_set l)))
  | S_ROOT_VAL, YAML_SCALAR v =>
      let! t := tab in
      let '(s, tm) := root_scalar (ld_key l) v (ld_set l) (timers t) in
      mod_tab (set_timers tm) ;;;
      ret (Some (Loader S_ROOT (ld_key l) (ld_peer_key l) s))
  | S_ROOT_VAL, YAML_SEQUENCE_START =>
      if decide (ld_key l = "peers") then ret (Some (set_state S_PEERS_SEQ l)) else ret (Some l)
  | S_PEERS_SEQ, YAML_SEQUENCE_END => ret (Some (set_state S_ROOT l))
  | S_PEERS_SEQ, YAML_MAPPING_START =>
      let! t := tab in
      if (MAX_PEERS <=? length (peer_configs t))%nat then ret None else
      mod_tab (fun t => set_peer_configs (peer_configs t ++ [zero_config]) t) ;;;
      ret (Some (set_state S_PEER_MAP l))
  | S_PEER_MAP, YAML_MAPPING_END => ret (Some (set_state S_PEERS_SEQ l))
  | S_PEER_MAP, YAML_SCALAR v =>
      ret (Some (Loader S_PEER_VAL (ld_key l) (strncpy v 63) (ld_set l)))
  | S_PEER_VAL, YAML_SCALAR v =>
      let! ok := peer_scalar (ld_peer_key l) v in
      ret (if ok : bool then Some (set_state S_PEER_MAP l) else None)
  | S_PEER_VAL, YAML_SEQUENCE_START =>
      if decide (ld_peer_key l = "allowed_ips") then ret (Some (set_state S_ALLOWED_IPS_SEQ l))
      else ret (Some l)
  | S_ALLOWED_IPS_SEQ, YAML_SEQUENCE_END => ret (Some (set_state S_PEER_MAP l))
  | S_ALLOWED_IPS_SEQ, YAML_SCALAR v =>
      let! ok := peer_allowed_ip v in
      ret (if ok : bool then Some l else None)
  | _, _ => ret (Some l)
  end.

(** The loop, over the events up to the end of the stream; the end of the list is
    an event libyaml could not parse.  [None] for -1. *)
Fixpoint cfg_loop (es : list yaml_event) (l : loader) : M world (option loader) :=
  match es with
  | [] => ret None
  | e :: es' =>
      let! r := cfg_step e l in
      match r with
      | None => ret None
      | Some l' => match e with YAML_STREAM_END => ret (Some l') | _ => cfg_loop es' l' end
      end
  end.

(** [file] is [None] when the file or the parser could not be opened. *)
Definition load_config (file : option (list yaml_event)) (s : settings) : M world (option settings) :=
  match file with
  | None => ret None
  | Some es =>
      let! r := cfg_loop es (Loader S_ROOT EmptyString EmptyString s) in
      ret (ld_set <$> r)
  end.

Definition default_settings : settings :=
  Settings EmptyString EmptyString 5040 KEEPALIVE_INTERVAL_SECS "peer.key" EmptyString false 0.

(** The checks of [main], in its order; [false] for [exit(EXIT_FAILURE)]. *)
Definition check_settings (s : settings) (t : tables) : bool :=
  let tm := timers t in
  negb (strlen (tunnel s) =? 0)%nat &&
  negb (length (peer_configs t) =? 0)%nat &&
  negb ((port s <=? 0) || (65535 <? port s)) &&
  negb (keepalive s <=? 0) &&
  negb (cfg_rekey_after tm <=? 0) &&
  negb (cfg_reconnect_interval tm <=? 0) &&
  negb (cfg_session_expiry tm <=? cfg_rekey_after tm) &&
  negb (cfg_prev_key_grace tm <=? 0) &&
  negb (cfg_handshake_timeout tm <=? 0) &&
  negb (cfg_handshake_cooldown tm <=? 0) &&
  negb (cfg_worker_threads tm <? 0) &&
  negb (MAX_WORKER_THREADS <? cfg_worker_threads tm).

(** 0 stands for [min(4, nproc)]; [nproc] is what [sysconf] returns. *)
Definition worker_count (nproc : Z) (tm : timing) : Z :=
  if cfg_worker_threads tm =? 0 then
    (if (0 <? nproc) && (nproc <? DEFAULT_WORKER_THREADS) then nproc else DEFAULT_WORKER_THREADS)
  else cfg_worker_threads tm.

Definition set_worker_threads (n : Z) (tm : timing) : timing :=
  Timing (cfg_rekey_after tm) (cfg_reconnect_interval tm) (cfg_session_expiry tm)
    (cfg_prev_key_grace tm) (cfg_handshake_timeout tm) (cfg_handshake_cooldown tm) n.

(** Static storage as the process starts. *)
Definition initial_tables : tables :=
  Tables default_timing [] (replicate MAX_PEERS zero_session) 0 (replicate MAX_PEERS zero_pending)
    None zero_key.

(** [main] up to the loading of the key: [None] when it exits. *)
Definition configure (file : option (list yaml_event)) (nproc : Z) : M world (option settings) :=
  let! r := load_config file default_settings in
  match r with
  | None => ret None
  | Some s =>
      let! t := tab in
      if negb (check_settings s t) then ret None else
      mod_tab (fun t => set_timers (set_worker_threads (worker_count nproc (timers t)) (timers t)) t) ;;;
      ret (Some s)
  end.
End Config.
