(* ===== verification/Startup.v ===== *)
(** * Startup: [start_peer], [main] and what a loaded configuration satisfies *)

From S2P Require Import Prelude Replay Platform Crypto Handshake Hex Cidr Keys Session Peer Config Invariant Safety.
From Stdlib Require Import Ascii Strings.Byte.

(** ** The code *)

(** What the system answers while [start_peer] sets up: [open] and [ioctl] of the
    TUN device, with the name the kernel gives to the interface that is asked for,
    [socket] and [bind].  Negative answers are failures. *)
Record setup := Setup {
  tun_open : Z; tun_ioctl : Z; tun_name : string -> string; socket_ret : Z; bind_ret : Z
}.
(** The kernel terminates [ifr_name], an array of 16 characters. *)
Definition names_fit (u : setup) : Prop := forall x, (strlen (tun_name u x) < IF_NAMESIZE)%nat.

(** The descriptors that are open. *)
Definition fd_open (fd : Z) : M (list Z) unit := modify (cons fd).
Definition fd_close (fd : Z) : M (list Z) unit := modify (filter (fun x => x <> fd)).

(** The descriptor, or a negative number, and the name in [dev], a buffer of
    [IF_NAMESIZE] characters. *)
Definition alloc_tunnel (u : setup) (dev : string) : M (list Z) (Z * string) :=
  if tun_open u <? 0 then ret (tun_open u, dev) else
  fd_open (tun_open u) ;;;
  let ifr_name := if (strlen dev =? 0)%nat then EmptyString else strncpy dev IF_NAMESIZE in
  if tun_ioctl u <? 0 then fd_close (tun_open u) ;;; ret (tun_ioctl u, dev) else
  guard (strlen (tun_name u ifr_name) <? IF_NAMESIZE)%nat ;;;
  ret (tun_open u, tun_name u ifr_name).

Definition open_tunnel (u : setup) (tunnel : string) : M (list Z) Z :=
  let! (tun_fd, _) := alloc_tunnel u tunnel in
  ret tun_fd.

(** [socket]; a negative answer opens nothing. *)
Definition open_socket (u : setup) : M (list Z) Z :=
  if socket_ret u <? 0 then ret (socket_ret u) else
  fd_open (socket_ret u) ;;; ret (socket_ret u).

(** The two descriptors of [start_peer], in its order; [None] when it exits. *)
Definition open_descriptors (u : setup) (tunnel : string) : M (list Z) (option (Z * Z)) :=
  let! tun_fd := open_tunnel u tunnel in
  if tun_fd <? 0 then ret None else
  let! sock_fd := open_socket u in
  if sock_fd <? 0 then ret None else ret (Some (tun_fd, sock_fd)).

(** The address and the descriptors of a running peer: the TUN device, the socket,
    and all that were open when its threads were started. *)
Record listener := Listener { l_addr : sockaddr_in; l_tun : Z; l_sock : Z; l_open : list Z }.

Section Code.
Context `{Env}.

(** [start_peer] up to the threads: [None] when it exits. *)
Definition start_peer (u : setup) (tunnel address : string) (port : Z) : M world (option listener) :=
  match open_descriptors u tunnel [] with
  | UB => undefined
  | Ret None _ => ret None
  | Ret (Some (tun_fd, sock_fd)) open =>
      match (if (strlen address =? 0)%nat then Some 0 else inet_pton (chars address)) with
      | None => ret None
      | Some ip =>
          if bind_ret u <? 0 then ret None else
          refresh_precomp_eph ;;;
          ret (Some (Listener (SockAddr ip (wrap 16 port)) tun_fd sock_fd open))
      end
  end.

(** [main] up to the threads: the context they get, the number of workers and
    the descriptors; [None] when the process exits. *)
Definition main (file : option (list yaml_event)) (nproc : Z) (pem : option (option evp_pkey))
    (u : setup) : M world (option (loop_ctx * Z * listener)) :=
  let! r := configure file nproc in
  match r with
  | None => ret None
  | Some s =>
      let! k := liftO (load_static_key pem) in
      match k with
      | None => ret None
      | Some (static_key, static_pub) =>
          let psk_key := if has_psk s then Some (derive_key (psk s)) else None in
          let c := LoopCtx static_key static_pub psk_key (keepalive s) in
          let! b := start_peer u (tunnel s) (address s) (port s) in
          match b with
          | None => ret None
          | Some a =>
              let! t := tab in
              ret (Some (c, cfg_worker_threads (timers t), a))
          end
      end
  end.

(** The process before [main]. *)
Definition process (o : os) : world := World _ o initial_tables.
End Code.

(** ** Loading a configuration *)

(** What [load_config] keeps true of the tables: bounded, well-formed peers and
    nothing else touched. *)
Record peers_wf (t : tables) : Prop := {
  pw_count : (length (peer_configs t) <= MAX_PEERS)%nat;
  pw_peers : Forall (fun c => config_wf c /\
    (has_endpoint c = true -> 1 <= endpoint_port c <= 65535 /\ endpoint_host c <> EmptyString))
    (peer_configs t);
  pw_rest : t = set_timers (timers t) (set_peer_configs (peer_configs t) initial_tables);
}.

(** In the states inside a peer there is a last peer. *)
Definition loader_ok (l : loader) (t : tables) : Prop :=
  match ld_state l with
  | S_PEER_MAP | S_PEER_VAL | S_ALLOWED_IPS_SEQ => (1 <= length (peer_configs t))%nat
  | _ => True
  end.

(** No scalar too long for [buf] in [peer_endpoint]. *)
Definition scalars_fit (es : list yaml_event) : Prop :=
  Forall (fun e => match e with YAML_SCALAR v => (strlen (c_str v) < 255)%nat | _ => True end) es.

Section Load.
Context `{OpenSSLSizes}.

(** The state of the process while a configuration is read from [o]. *)
Definition loading (o : os) (w : world) : Prop := os_quiet o (w_os w) /\ peers_wf (w_tab w).

Lemma peers_wf_update t k c c' :
  peers_wf t -> peer_configs t !! k = Some c -> config_wf c' ->
  (has_endpoint c' = true -> 1 <= endpoint_port c' <= 65535 /\ endpoint_host c' <> EmptyString) ->
  peers_wf (set_peer_configs (<[k := c']> (peer_configs t)) t).
Proof.
  intros [Hn Hp Hr] Hk Hc He. constructor; cbn; [by rewrite length_insert|by apply Forall_insert|].
  rewrite Hr. done.
Qed.

Lemma peers_wf_lookup t k c :
  peers_wf t -> peer_configs t !! k = Some c -> config_wf c /\
    (has_endpoint c = true -> 1 <= endpoint_port c <= 65535 /\ endpoint_host c <> EmptyString).
Proof. intros [_ Hp _] Hk. by apply (Forall_lookup_1 _ _ _ _ Hp Hk). Qed.

(** One update of the last peer. *)
Lemma wp_load_upd o k c f (Q : unit -> world -> Prop) (w : world) :
  loading o w -> peer_configs (w_tab w) !! k = Some c -> config_wf (f c) ->
  (has_endpoint (f c) = true ->
     1 <= endpoint_port (f c) <= 65535 /\ endpoint_host (f c) <> EmptyString) ->
  (forall w', loading o w' -> length (peer_configs (w_tab w')) = length (peer_configs (w_tab w)) ->
     peer_configs (w_tab w') !! k = Some (f c) -> Q tt w') ->
  wp (upd_config k f) Q w.
Proof.
  destruct w as [o1 t]. intros [Hq Hp] Hk Hc He HQ. eapply wp_upd_config; [done|]. apply HQ.
  - split; [done|]. by eapply peers_wf_update.
  - cbn. by rewrite length_insert.
  - cbn. rewrite list_lookup_insert_eq; [done|]. by eapply lookup_lt_Some.
Qed.

Definition load_post (o : os) (n : nat) (w' : world) : Prop :=
  loading o w' /\ length (peer_configs (w_tab w')) = n.

Lemma split_last_nonempty code s b a :
  split_last code s = Some (b, a) -> (length b =? 0)%nat = false -> of_chars b <> EmptyString.
Proof. destruct b; done. Qed.

Lemma wp_peer_endpoint o k v (w : world) :
  loading o w -> is_Some (peer_configs (w_tab w) !! k) -> (strlen (c_str v) < 255)%nat ->
  wp (peer_endpoint k v) (fun _ => load_post o (length (peer_configs (w_tab w)))) w.
Proof.
  intros Hw [c Hk] Hv. unfold peer_endpoint. apply wp_bind, wp_guard; [by apply Nat.ltb_lt|].
  destruct (split_last 58 _) as [[host rest]|] eqn:E; [|by wp_step].
  destruct (length host =? 0)%nat eqn:Eh; [by wp_step|]. cbv zeta.
  destruct (Z.leb_spec (atoi rest) 0), (Z.ltb_spec 65535 (atoi rest)); cbn [orb]; try by wp_step.
  destruct (peers_wf_lookup _ _ _ (proj2 Hw) Hk) as [[Hc1 Hc2 Hc3] He].
  assert (1 <= atoi rest <= 65535 /\ of_chars host <> EmptyString) as Hok.
  { split; [lia|]. by eapply split_last_nonempty. }
  apply wp_bind. eapply (wp_load_upd o); [done|done|by constructor|done|]. intros w1 Hw1 Hl1 Hk1.
  apply wp_bind. unfold resolve_endpoint. apply wp_bind. eapply wp_config_at; [done|].
  destruct w1 as [o1 t1]. apply wp_bind, wp_liftO, io_quiet. intros o2 Hq2.
  assert (loading o (World _ o2 t1)) as Hw2 by (destruct Hw1; split; [by etrans|done]).
  destruct (env_getaddrinfo _ _ _) as [a|]; [|apply wp_ret; cbn [negb]; by apply wp_ret].
  apply wp_bind. eapply (wp_load_upd o); [done|done|by constructor|done|]. intros w3 Hw3 Hl3 Hk3.
  wp_step. cbn [negb]. apply wp_bind.
  eapply (wp_load_upd o); [done|done|by constructor|done|]. intros w4 Hw4 Hl4 Hk4.
  wp_step. split; [done|]. cbn in *. congruence.
Qed.

Lemma last_config t :
  (1 <= length (peer_configs t))%nat -> is_Some (peer_configs t !! (length (peer_configs t) - 1)%nat).
Proof. intros. apply lookup_lt_is_Some_2. lia. Qed.

Lemma wp_peer_scalar o key v (w : world) :
  loading o w -> (1 <= length (peer_configs (w_tab w)))%nat -> (strlen (c_str v) < 255)%nat ->
  wp (peer_scalar key v) (fun _ => load_post o (length (peer_configs (w_tab w)))) w.
Proof.
  intros Hw Hn Hv. unfold peer_scalar. apply wp_bind, wp_tab. cbv zeta.
  destruct (last_config _ Hn) as [c Hk]. apply wp_bind. eapply wp_config_at; [done|].
  destruct (peers_wf_lookup _ _ _ (proj2 Hw) Hk) as [[Hc1 Hc2 Hc3] He].
  case_decide; [|case_decide; [by apply wp_peer_endpoint|by wp_step]].
  destruct (hex_to_bytes _ _) as [pub|] eqn:E; [|by wp_step]. apply length_hex_to_bytes in E.
  apply wp_bind. eapply (wp_load_upd o); [done|done|by constructor|done|]. intros w1 Hw1 Hl1 _.
  by wp_step.
Qed.

Lemma wp_peer_allowed_ip o v (w : world) :
  loading o w -> (1 <= length (peer_configs (w_tab w)))%nat ->
  wp (peer_allowed_ip v) (fun _ => load_post o (length (peer_configs (w_tab w)))) w.
Proof.
  intros Hw Hn. unfold peer_allowed_ip. apply wp_bind, wp_tab. cbv zeta.
  destruct (last_config _ Hn) as [c Hk]. apply wp_bind. eapply wp_config_at; [done|].
  destruct (peers_wf_lookup _ _ _ (proj2 Hw) Hk) as [[Hc1 Hc2 Hc3] He].
  destruct (Nat.leb_spec MAX_ROUTES_PER_PEER (length (pc_routes c))); [by wp_step|].
  destruct (parse_cidr _) as [p|] eqn:E; [|by wp_step]. apply parse_cidr_wf in E.
  apply wp_bind. eapply (wp_load_upd o); [done|done| |done|intros w1 Hw1 Hl1 _; by wp_step].
  constructor; cbn; [done|by apply Forall_app; split; [|apply Forall_singleton]|].
  rewrite length_app. cbn. lia.
Qed.

Lemma zero_config_wf : config_wf zero_config.
Proof. constructor; [done|constructor|cbn; lia]. Qed.

Lemma wp_cfg_step o e l (w : world) :
  loading o w -> loader_ok l (w_tab w) -> scalars_fit [e] ->
  wp (cfg_step e l)
     (fun r w' => loading o w' /\ forall l', r = Some l' -> loader_ok l' (w_tab w')) w.
Proof.
  intros Hw Hl Hfit. apply Forall_cons in Hfit as [Hfit _]. unfold cfg_step.
  destruct l as [q key pkey s]. unfold loader_ok in *. cbn [ld_state ld_key ld_peer_key ld_set] in *.
  destruct q, e as [v| | | | | |]; try by (wp_step; split; [done|]; intros l' [= <-]).
  - apply wp_bind, wp_tab. destruct (root_scalar _ _ _ _) as [s' tm]. apply wp_bind, wp_modify, wp_ret.
    destruct Hw as [Hq [Hn Hp Hr]]. split; [|by intros l' [= <-]]. split; [done|].
    constructor; cbn; try done. by rewrite Hr.
  - case_decide; wp_step; (split; [done|]); by intros l' [= <-].
  - apply wp_bind, wp_tab. destruct (Nat.leb_spec MAX_PEERS (length (peer_configs (w_tab w)))); [by wp_step|].
    apply wp_bind, wp_modify, wp_ret. destruct Hw as [Hq [Hn Hp Hr]]. split.
    + split; [done|]. constructor; cbn.
      * rewrite length_app. cbn. lia.
      * apply Forall_app. split; [done|]. apply Forall_singleton. split; [apply zero_config_wf|done].
      * by rewrite Hr.
    + intros l' [= <-]. cbn. rewrite length_app. cbn. lia.
  - apply wp_bind. eapply wp_conseq; [by apply wp_peer_scalar|]. intros [] w1 [Hw1 Hl1]; wp_step;
      (split; [done|]); [|done]. intros l' [= <-]. cbn. by rewrite Hl1.
  - case_decide; wp_step; (split; [done|]); by intros l' [= <-].
  - apply wp_bind. eapply wp_conseq; [by apply wp_peer_allowed_ip|]. intros [] w1 [Hw1 Hl1]; wp_step;
      (split; [done|]); [|done]. intros l' [= <-]. cbn. by rewrite Hl1.
Qed.

Lemma wp_cfg_loop o es : forall l (w : world),
  loading o w -> loader_ok l (w_tab w) -> scalars_fit es ->
  wp (cfg_loop es l) (fun _ => loading o) w.
Proof.
  induction es as [|e es IH]; intros l w Hw Hl Hfit; cbn [cfg_loop]; [by wp_step|].
  apply Forall_cons in Hfit as [He Hes]. apply wp_bind.
  eapply wp_conseq; [apply wp_cfg_step; [done..|by apply Forall_singleton]|].
  intros [l'|] w' [Hw' Hl']; [|by wp_step]. destruct e; try (by apply IH; auto). by wp_step.
Qed.

Lemma peers_wf_initial : peers_wf initial_tables.
Proof. constructor; cbn; [lia|constructor|done]. Qed.

Lemma wp_load_config o file s :
  (forall es, file = Some es -> scalars_fit es) ->
  wp (load_config file s) (fun _ => loading o) (process o).
Proof.
  intros Hfit. assert (loading o (process o)) as Hw by (split; [done|apply peers_wf_initial]).
  unfold load_config. destruct file as [es|]; [|by wp_step].
  apply wp_bind. eapply wp_conseq; [apply wp_cfg_loop; [done|done|by apply Hfit]|].
  intros r w' ?. by wp_step.
Qed.

(** C27: [load_config] is defined and terminates on every stream of events whose
    scalars are shorter than 255 characters.  It leaves at most 64 peers, each
    with a 32-byte key, at most 16 routes, all of them prefixes [parse_cidr] can
    produce, and, when it has an endpoint, a host and a port in range. *)
Theorem load_config_well_formed o es s :
  scalars_fit es ->
  exists r w', load_config (Some es) s (process o) = Ret r w' /\ peers_wf (w_tab w') /\
    os_quiet o (w_os w').
Proof.
  intros Hfit. destruct (wp_elim _ _ _ (wp_load_config o (Some es) s ltac:(congruence)))
    as (r & w' & E & Hq & Hp). eauto.
Qed.

Lemma wp_configure o file nproc :
  (forall es, file = Some es -> scalars_fit es) ->
  wp (configure file nproc)
     (fun r w' => loading o w' /\ forall s, r = Some s ->
        check_settings s (w_tab w') = true /\ 1 <= cfg_worker_threads (timers (w_tab w')) <= 32)
     (process o).
Proof.
  intros Hfit. unfold configure. apply wp_bind. eapply wp_conseq; [by apply wp_load_config|].
  intros [s|] w1 Hw; [|by wp_step]. apply wp_bind, wp_tab.
  destruct (check_settings s (w_tab w1)) eqn:E; cbn [negb]; [|by wp_step].
  apply wp_bind, wp_modify, wp_ret. destruct Hw as [Hq [Hn Hp Hr]]. split.
  - split; [done|]. constructor; cbn; try done. by rewrite Hr.
  - intros s' [= <-]. cbn [w_tab timers set_timers cfg_worker_threads set_worker_threads].
    unfold check_settings in E |- *. cbn [timers set_timers peer_configs cfg_rekey_after
      cfg_reconnect_interval cfg_session_expiry cfg_prev_key_grace cfg_handshake_timeout
      cfg_handshake_cooldown cfg_worker_threads set_worker_threads].
    unfold worker_count, MAX_WORKER_THREADS, DEFAULT_WORKER_THREADS in *.
    rewrite !andb_true_iff, !negb_true_iff in *. destruct E as [[E Ew0] Ew32].
    assert (1 <= (if cfg_worker_threads (timers (w_tab w1)) =? 0
                  then if (0 <? nproc) && (nproc <? 4) then nproc else 4
                  else cfg_worker_threads (timers (w_tab w1))) <= 32) as Hw.
    { destruct (Z.eqb_spec (cfg_worker_threads (timers (w_tab w1))) 0); [|lia].
      destruct (Z.ltb_spec 0 nproc), (Z.ltb_spec nproc 4); cbn; lia. }
    split; [|done]. split; [split; [exact E|lia]|lia].
Qed.

(** [alloc_tunnel] is defined; when it fails it leaves no descriptor open. *)
Lemma wp_open_tunnel u tunnel :
  names_fit u ->
  wp (open_tunnel u tunnel) (fun fd open => open = if fd <? 0 then [] else [fd]) [].
Proof.
  intros Hu. apply wp_bind. unfold alloc_tunnel. destruct (tun_open u <? 0) eqn:Eo.
  { wp_step. wp_step. by rewrite Eo. }
  apply wp_bind, wp_modify. cbv zeta. destruct (tun_ioctl u <? 0) eqn:Ei.
  - apply wp_bind, wp_modify. wp_step. wp_step. rewrite Ei. rewrite filter_cons_False by (intros Hx; by apply Hx). done.
  - apply wp_bind, wp_guard; [apply Nat.ltb_lt, Hu|]. wp_step. wp_step. by rewrite Eo.
Qed.

Lemma wp_open_descriptors u tunnel :
  names_fit u ->
  wp (open_descriptors u tunnel) (fun r open => forall a b, r = Some (a, b) -> open = [b; a]) [].
Proof.
  intros Hu. apply wp_bind. eapply wp_conseq; [by apply wp_open_tunnel|]. intros fd open ->.
  destruct (fd <? 0); [by wp_step|]. apply wp_bind. unfold open_socket.
  destruct (socket_ret u <? 0) eqn:E; [wp_step; rewrite E; by wp_step|].
  apply wp_bind, wp_modify. wp_step. rewrite E. wp_step. by intros a b [= <- <-].
Qed.

(** What [main] hands over to the threads. *)
Definition handed_over (c : loop_ctx) (n : Z) (a : listener) (w : world) : Prop :=
  (exists o1 tm cfgs, boot_ok c o1 tm cfgs /\ refresh_precomp_eph (boot o1 tm cfgs) = Ret tt w) /\
  l_open a = [l_sock a; l_tun a] /\
  1 <= n <= MAX_WORKER_THREADS /\ 1 <= sin_port (l_addr a) <= 65535 /\ 0 < keepalive_interval c.

Lemma wp_main o file nproc pem u :
  os_wf o -> names_fit u -> (forall es, file = Some es -> scalars_fit es) ->
  wp (main file nproc pem u) (fun r w' => forall c n a, r = Some (c, n, a) ->
    cfg_rekey_after (timers (w_tab w')) <= 2 ^ 29 - 1 -> handed_over c n a w') (process o).
Proof.
  intros Hwf Hu Hfit. unfold main. apply wp_bind.
  eapply wp_conseq; [by apply wp_configure|]. intros [s|] [o1 t1] [[Hq Hp] Hs]; [|by wp_step].
  destruct (Hs s eq_refl) as [Hchk Hn]. cbn [w_tab w_os] in *. clear Hs.
  pose proof (os_quiet_wf _ _ Hq Hwf) as Hwf1.
  apply wp_bind, wp_liftO. eapply wp_conseq; [by apply wp_load_static_key|].
  intros [[sk spub]|] o2; cbn [keypair_post]; [|intros _; by wp_step].
  intros (k & _ & Hk & Hpub & _ & _ & Hwf2 & _). cbv zeta.
  set (c := LoopCtx _ _ _ _). apply wp_bind. unfold start_peer.
  destruct (wp_elim _ _ _ (wp_open_descriptors u (tunnel s) Hu)) as (r & open & -> & Hopen).
  destruct r as [[fd sock]|]; [|by wp_steps]. specialize (Hopen _ _ eq_refl).
  destruct (if (strlen (address s) =? 0)%nat then Some 0 else _) as [ip|]; [|by wp_steps].
  destruct (bind_ret u <? 0); [by wp_steps|].
  unfold check_settings in Hchk. rewrite !andb_true_iff, !negb_true_iff in Hchk.
  destruct Hchk as [[[[[[[[[[[_ _] Hport] Hka] Hre] _] _] _] _] _] _] _]. rewrite orb_false_iff in Hport.
  assert (World _ o2 t1 = boot o2 (timers t1) (peer_configs t1)) as Ht
    by (rewrite (pw_rest _ Hp) at 1; done).
  assert (is_Some (os_keys o2 !! sk)) as Hsk by (rewrite Hk, lookup_insert_eq; done).
  pose proof (raw_public_size _ _ Hpub) as Hlen.
  destruct (wp_elim _ _ _ (wp_refresh_frame c o2 _ (keys_boot c o2 (timers t1) (peer_configs t1) Hwf2 Hsk Hlen)))
    as ([] & w3 & Er & _ & ek & epub & Ht3).
  apply wp_bind. rewrite Ht. eapply wp_of_run; [exact Er|].
  wp_step. apply wp_bind, wp_tab, wp_ret. intros c' n a [= <- <- <-] Hra. rewrite Ht3 in Hra |- *.
  split; [|split_and!; [exact Hopen|apply Hn..| | |cbn; lia]; cbn; rewrite wrap_small; unfold in_range; lia].
  exists o2, (timers t1), (peer_configs t1). split; [|done].
  constructor; try done; [apply Hp| |cbn in Hra; lia]. eapply Forall_impl; [apply Hp|]. by intros ? [].
Qed.

(** [main] starts the threads in a state from which no run is undefined.
    When it does not exit, the context and the tables it hands over satisfy the
    hypotheses of the safety theorems, it starts between 1 and 32 workers, and
    the socket is bound to a valid port.  The bound on [rekey_after] is not
    checked by [main]. *)
Theorem main_starts_safely o file nproc pem u c n a w' :
  os_wf o -> names_fit u -> (forall es, file = Some es -> scalars_fit es) ->
  main file nproc pem u (process o) = Ret (Some (c, n, a)) w' ->
  cfg_rekey_after (timers (w_tab w')) <= 2 ^ 29 - 1 ->
  (exists o1 tm cfgs, boot_ok c o1 tm cfgs /\ reachable c o1 tm cfgs w') /\
  1 <= n <= MAX_WORKER_THREADS /\ 1 <= sin_port (l_addr a) <= 65535 /\ 0 < keepalive_interval c.
Proof.
  intros Hwf Hu Hfit E Hra.
  destruct (wp_run _ _ _ _ _ (wp_main o file nproc pem u Hwf Hu Hfit) E c n a eq_refl Hra)
    as [(o1 & tm & cfgs & Hb & Er) [_ Hrest]].
  split; [|exact Hrest]. exists o1, tm, cfgs. split; [done|]. by exists w'.
Qed.
End Load.

(** ** Writing a configuration and loading it *)

(** A peer of a configuration file: its key, if given, and its allowed
    addresses. *)
Record peer_text := PeerText { pt_pub : option bytes; pt_ips : list (Z * Z) }.

Definition ip_event (x : Z * Z) : yaml_event := YAML_SCALAR (print_cidr x.1 x.2).
Definition pub_events (p : option bytes) : list yaml_event :=
  match p with
  | Some pub => [YAML_SCALAR "public_key"; YAML_SCALAR (bytes_to_hex pub (length pub))]
  | None => []
  end.
Definition peer_events (p : peer_text) : list yaml_event :=
  YAML_MAPPING_START :: pub_events (pt_pub p) ++
  YAML_SCALAR "allowed_ips" :: YAML_SEQUENCE_START :: (ip_event <$> pt_ips p) ++
  [YAML_SEQUENCE_END; YAML_MAPPING_END].

(** The events of a file with an interface name and a list of peers: start of
    stream, document and mapping first. *)
Definition file_events (name : string) (peers : list peer_text) : list yaml_event :=
  [YAML_OTHER; YAML_OTHER; YAML_MAPPING_START; YAML_SCALAR "interface"; YAML_SCALAR name;
   YAML_SCALAR "peers"; YAML_SEQUENCE_START] ++
  (peers ≫= peer_events) ++
  [YAML_SEQUENCE_END; YAML_MAPPING_END; YAML_OTHER; YAML_STREAM_END].

(** The peer such an entry describes; without a [public_key] the key is zero. *)
Definition peer_of (p : peer_text) : peer_config :=
  PeerConfig (default zero_key (pt_pub p)) ((fun x => prefix_of x.1 x.2) <$> pt_ips p)
    false zero_addr EmptyString 0 0.

Definition text_ok (p : peer_text) : Prop :=
  (forall pub, pt_pub p = Some pub -> length pub = DH_PUBKEY_LEN) /\
  (length (pt_ips p) <= MAX_ROUTES_PER_PEER)%nat /\
  Forall (fun x => in_range 32 x.1 /\ 0 <= x.2 <= 32) (pt_ips p).

Section Text.
Context `{Env}.

(** Tables with these peers. *)
Definition with_peers (o : os) (cs : list peer_config) : world :=
  World _ o (set_peer_configs cs initial_tables).

Lemma cfg_loop_cons e es l (w : world) :
  e <> YAML_STREAM_END ->
  cfg_loop (e :: es) l w =
  match cfg_step e l w with Ret (Some l') w' => cfg_loop es l' w' | Ret None w' => Ret None w' | UB => UB end.
Proof.
  intros He. cbn [cfg_loop]. unfold bind. destruct (cfg_step e l w) as [[l'|] w'|]; [|done..].
  by destruct e.
Qed.

Lemma set_configs_last (cs : list peer_config) c c' : <[length cs := c']> (cs ++ [c]) = cs ++ [c'].
Proof. rewrite <- (Nat.add_0_r (length cs)) at 1. by rewrite insert_app_r. Qed.

Lemma upd_last o cs c f : upd_config (length cs) f (with_peers o (cs ++ [c])) = Ret tt (with_peers o (cs ++ [f c])).
Proof.
  unfold upd_config, config_at, at_index, bind, tab, gets, mod_tab, modify. cbn.
  rewrite lookup_app_r, Nat.sub_diag by lia. cbn. unfold with_peers, set_peer_configs. cbn.
  by rewrite set_configs_last.
Qed.

Lemma last_index (cs : list peer_config) c : (length (cs ++ [c]) - 1)%nat = length cs.
Proof. rewrite length_app. cbn. lia. Qed.

Lemma config_at_last o cs c :
  config_at (length cs) (with_peers o (cs ++ [c])) = Ret c (with_peers o (cs ++ [c])).
Proof.
  unfold config_at, at_index, bind, tab, gets. cbn. by rewrite lookup_app_r, Nat.sub_diag by lia.
Qed.

Lemma allowed_ip_run o cs c ip n :
  in_range 32 ip -> 0 <= n <= 32 -> (length (pc_routes c) < MAX_ROUTES_PER_PEER)%nat ->
  peer_allowed_ip (print_cidr ip n) (with_peers o (cs ++ [c]))
  = Ret true (with_peers o (cs ++ [add_route (prefix_of ip n) c])).
Proof.
  intros Hip Hn Hr. unfold peer_allowed_ip, bind at 1, tab, gets. cbn [w_tab with_peers peer_configs set_peer_configs].
  rewrite last_index. unfold bind at 1. fold (with_peers o (cs ++ [c])). rewrite config_at_last.
  rewrite (proj2 (Nat.leb_gt _ _) Hr), c_str_print_cidr, parse_print_cidr by done.
  unfold bind. by rewrite upd_last.
Qed.

Lemma pub_run o cs c pub :
  length pub = DH_PUBKEY_LEN ->
  peer_scalar "public_key" (bytes_to_hex pub (length pub)) (with_peers o (cs ++ [c]))
  = Ret true (with_peers o (cs ++ [set_pub pub c])).
Proof.
  intros Hp. unfold peer_scalar, bind at 1, tab, gets. cbn [w_tab with_peers peer_configs set_peer_configs].
  rewrite last_index. unfold bind at 1. fold (with_peers o (cs ++ [c])). rewrite config_at_last.
  rewrite decide_True by done. rewrite <- Hp, c_str_hex, hex_to_bytes_hex.
  unfold bind. by rewrite upd_last.
Qed.

Definition add_ips (xs : list (Z * Z)) (c : peer_config) : peer_config :=
  fold_left (fun c x => add_route (prefix_of x.1 x.2) c) xs c.

Lemma ips_run o cs xs : forall c key pkey s es,
  Forall (fun x => in_range 32 x.1 /\ 0 <= x.2 <= 32) xs ->
  (length (pc_routes c) + length xs <= MAX_ROUTES_PER_PEER)%nat ->
  cfg_loop ((ip_event <$> xs) ++ es) (Loader S_ALLOWED_IPS_SEQ key pkey s) (with_peers o (cs ++ [c]))
  = cfg_loop es (Loader S_ALLOWED_IPS_SEQ key pkey s) (with_peers o (cs ++ [add_ips xs c])).
Proof.
  induction xs as [|[ip n] xs IH]; intros c key pkey s es Hf Hl; [done|].
  apply Forall_cons in Hf as [[Hip Hn] Hf]. cbn [fmap list_fmap app].
  rewrite cfg_loop_cons by done. unfold cfg_step. cbn [ld_state ip_event fst snd].
  unfold bind at 1. rewrite allowed_ip_run by (done || (cbn in Hl; lia)). cbn [ret].
  rewrite IH; [done|done|]. cbn in Hl |- *. rewrite length_app. cbn. lia.
Qed.

Lemma add_ips_spec xs c :
  add_ips xs c = PeerConfig (pc_pub c) (pc_routes c ++ ((fun x => prefix_of x.1 x.2) <$> xs))
    (has_endpoint c) (endpoint c) (endpoint_host c) (endpoint_port c) (last_attempt c).
Proof.
  revert c. induction xs as [|x xs IH]; intros c; [cbn; rewrite app_nil_r; by destruct c|].
  change (add_ips (x :: xs) c) with (add_ips xs (add_route (prefix_of x.1 x.2) c)).
  rewrite IH. cbn. by rewrite <- app_assoc.
Qed.

Lemma pub_events_run o cs p key pkey s es :
  (forall pub, p = Some pub -> length pub = DH_PUBKEY_LEN) ->
  exists pkey', cfg_loop (pub_events p ++ es) (Loader S_PEER_MAP key pkey s) (with_peers o (cs ++ [zero_config]))
  = cfg_loop es (Loader S_PEER_MAP key pkey' s)
      (with_peers o (cs ++ [set_pub (default zero_key p) zero_config])).
Proof.
  intros Hp. destruct p as [pub|]; [|by exists pkey]. exists "public_key". cbn [pub_events app].
  rewrite cfg_loop_cons by done. unfold cfg_step at 1. cbn [ld_state ret ld_key ld_peer_key ld_set].
  change (strncpy "public_key" 63) with "public_key".
  rewrite cfg_loop_cons by done. unfold cfg_step at 1. cbn [ld_state ld_peer_key].
  unfold bind at 1. by rewrite pub_run by by apply Hp.
Qed.

(** One peer, from the sequence of peers back to it. *)
Lemma peer_run o cs p key pkey s es :
  text_ok p -> (length cs < MAX_PEERS)%nat ->
  exists pkey', cfg_loop (peer_events p ++ es) (Loader S_PEERS_SEQ key pkey s) (with_peers o cs)
  = cfg_loop es (Loader S_PEERS_SEQ key pkey' s) (with_peers o (cs ++ [peer_of p])).
Proof.
  intros (Hp & Hl & Hf) Hn. unfold peer_events. cbn [app]. rewrite <- app_assoc. cbn [app].
  rewrite <- app_assoc. rewrite cfg_loop_cons by done. unfold cfg_step at 1. cbn [ld_state].
  unfold bind at 1, tab, gets. cbn [w_tab with_peers peer_configs set_peer_configs].
  rewrite (proj2 (Nat.leb_gt _ _) Hn). unfold bind, mod_tab, modify, ret.
  change (World _ _ _) with (with_peers o (cs ++ [zero_config])) at 1.
  destruct (pub_events_run o cs (pt_pub p) key pkey s
    (YAML_SCALAR "allowed_ips" :: YAML_SEQUENCE_START :: (ip_event <$> pt_ips p) ++
     [YAML_SEQUENCE_END; YAML_MAPPING_END] ++ es) Hp) as [pkey' E].
  exists "allowed_ips". unfold set_state. cbn [ld_key ld_peer_key ld_set]. etrans; [exact E|].
  rewrite cfg_loop_cons by done. unfold cfg_step at 1. cbn [ld_state ld_key ld_set ret].
  change (strncpy "allowed_ips" 63) with "allowed_ips".
  rewrite cfg_loop_cons by done. unfold cfg_step at 1. cbn [ld_state ld_peer_key].
  rewrite decide_True by done. cbn [ret set_state ld_key ld_peer_key ld_set].
  etrans; [apply ips_run; [done|cbn; lia]|].
  cbn [app]. rewrite cfg_loop_cons by done. unfold cfg_step at 1. cbn [ld_state ret set_state].
  rewrite cfg_loop_cons by done. unfold cfg_step at 1. cbn [ld_state ret set_state].
  by rewrite add_ips_spec.
Qed.

Lemma peers_run o ps : forall cs key pkey s es,
  Forall text_ok ps -> (length cs + length ps <= MAX_PEERS)%nat ->
  exists pkey', cfg_loop ((ps ≫= peer_events) ++ es) (Loader S_PEERS_SEQ key pkey s) (with_peers o cs)
  = cfg_loop es (Loader S_PEERS_SEQ key pkey' s) (with_peers o (cs ++ (peer_of <$> ps))).
Proof.
  induction ps as [|p ps IH]; intros cs key pkey s es Hf Hl.
  { exists pkey. cbn. by rewrite app_nil_r. }
  apply Forall_cons in Hf as [Hp Hf]. cbn [length] in Hl. cbn [mbind list_bind fmap list_fmap].
  rewrite <- app_assoc.
  destruct (peer_run o cs p key pkey s ((ps ≫= peer_events) ++ es) Hp) as [pkey1 E1]; [lia|].
  destruct (IH (cs ++ [peer_of p]) key pkey1 s es Hf) as [pkey2 E2]; [rewrite length_app; cbn; lia|].
  exists pkey2. rewrite E1, E2. by rewrite <- app_assoc.
Qed.

Lemma strncpy_id v n :
  Forall (fun c => char_code c <> 0) (chars v) -> (strlen v <= n)%nat -> strncpy v n = v.
Proof.
  intros Hv Hl. unfold strncpy. rewrite c_str_plain by done.
  rewrite take_ge by (rewrite length_chars; done). apply String.string_of_list_ascii_of_string.
Qed.

(** C28: A configuration that is written out loads as what was written.  For an
    interface name of at most 15 characters and at most 64 peers, each with a key
    or none and at most 16 allowed prefixes, [load_config] succeeds, sets the
    interface and nothing else, and the table holds exactly these peers in order;
    a peer written without [public_key] gets the all-zero key. *)
Theorem load_config_roundtrip o name peers :
  Forall (fun c => char_code c <> 0) (chars name) -> (strlen name < IF_NAMESIZE)%nat ->
  (length peers <= MAX_PEERS)%nat -> Forall text_ok peers ->
  load_config (Some (file_events name peers)) default_settings (process o)
  = Ret (Some (Settings name EmptyString 5040 KEEPALIVE_INTERVAL_SECS "peer.key" EmptyString false 0))
        (World _ o (set_peer_configs (peer_of <$> peers) initial_tables)).
Proof.
  intros Hv Hl Hn Hf. unfold load_config, file_events. unfold bind at 1.
  change (process o) with (with_peers o []).
  enough (exists pkey, cfg_loop (file_events name peers) (Loader S_ROOT EmptyString EmptyString default_settings)
      (with_peers o []) = Ret (Some (Loader S_ROOT "peers" pkey
        (Settings name EmptyString 5040 KEEPALIVE_INTERVAL_SECS "peer.key" EmptyString false 0)))
        (with_peers o (peer_of <$> peers))) as [pkey E].
  { unfold file_events in E. by rewrite E. }
  set (s1 := Settings name EmptyString 5040 KEEPALIVE_INTERVAL_SECS "peer.key" EmptyString false 0).
  destruct (peers_run o peers [] "peers" EmptyString s1
    [YAML_SEQUENCE_END; YAML_MAPPING_END; YAML_OTHER; YAML_STREAM_END] Hf Hn) as [pkey E].
  exists pkey. unfold file_events. cbn [app].
  do 3 (rewrite cfg_loop_cons by done; unfold cfg_step at 1; cbn [ld_state ret]).
  rewrite cfg_loop_cons by done. unfold cfg_step at 1. cbn [ld_state ret ld_peer_key ld_set].
  change (strncpy "interface" 63) with "interface".
  rewrite cfg_loop_cons by done. unfold cfg_step at 1. cbn [ld_state ret ld_peer_key ld_set ld_key].
  unfold root_scalar, default_settings. unfold bind at 1, tab, gets.
  change (timers (w_tab (with_peers o []))) with default_timing.
  unfold default_timing. rewrite decide_True by done. rewrite strncpy_id by (done || (unfold IF_NAMESIZE in *; lia)).
  unfold bind, mod_tab, modify, ret. fold s1.
  change (World _ _ _) with (with_peers o []) at 1.
  rewrite cfg_loop_cons by done. unfold cfg_step at 1. cbn [ld_state ret ld_peer_key ld_set].
  change (strncpy "peers" 63) with "peers".
  rewrite cfg_loop_cons by done. unfold cfg_step at 1. cbn [ld_state ret ld_peer_key ld_set ld_key].
  rewrite decide_True by done. etrans; [exact E|].
  do 3 (rewrite cfg_loop_cons by done; unfold cfg_step at 1; cbn [ld_state ret set_state ld_key ld_peer_key ld_set]).
  reflexivity.
Qed.

(** [cfg_rekey_after * 4] overflows.  [main] accepts any positive
    [rekey_after]; from 2^29 on, the first check of an established session with
    an endpoint multiplies past the range of [int]. *)
Theorem large_rekey_after_undefined c now i w cfg k s :
  peer_configs (w_tab w) !! i = Some cfg -> has_endpoint cfg = true ->
  find_session_by_pub (w_tab w) (pc_pub cfg) = Some k -> sessions (w_tab w) !! k = Some s ->
  2 ^ 29 <= cfg_rekey_after (timers (w_tab w)) ->
  hk_connect c now i w = UB.
Proof.
  intros Hc He Hk Hs Hr. unfold hk_connect, config_at, session_at, at_index, bind, tab, gets, ret.
  rewrite Hc, He. cbn [negb]. rewrite Hk, Hs. unfold rekey_delay, bind, guard. cbv zeta.
  replace ((- 2 ^ 31 <=? cfg_rekey_after (timers (w_tab w)) * 4) &&
           (cfg_rekey_after (timers (w_tab w)) * 4 <? 2 ^ 31)) with false by lia.
  done.
Qed.
End Text.

(** ** Concrete runs *)

#[local] Existing Instance Toy.ssl.
#[local] Existing Instance Toy.env.
#[local] Existing Instance Toy.ssl_sizes.

Definition toy_peers : list peer_text :=
  [PeerText (Some toy_key) [(0x0a090000, 24); (0x0a0a0001, 32)]; PeerText None []].
Definition toy_file : list yaml_event := file_events "tun0" toy_peers.

Lemma toy_file_fits : scalars_fit toy_file.
Proof. repeat constructor; apply Nat.ltb_lt; reflexivity. Qed.

Lemma load_config_well_formed_witness :
  exists r w', load_config (Some toy_file) default_settings (process toy_os) = Ret r w' /\
    peers_wf (w_tab w') /\ os_quiet toy_os (w_os w').
Proof. exact (load_config_well_formed toy_os toy_file default_settings toy_file_fits). Defined.

Lemma load_config_roundtrip_witness :
  load_config (Some (file_events "tun0" toy_peers)) default_settings (process toy_os)
  = Ret (Some (Settings "tun0" EmptyString 5040 KEEPALIVE_INTERVAL_SECS "peer.key" EmptyString false 0))
        (World _ toy_os (set_peer_configs (peer_of <$> toy_peers) initial_tables)).
Proof.
  apply (load_config_roundtrip toy_os "tun0" toy_peers).
  - repeat constructor; discriminate.
  - apply Nat.ltb_lt. reflexivity.
  - apply Nat.leb_le. reflexivity.
  - repeat constructor; cbn; try lia; intros ? [= <-]; reflexivity.
Defined.

Definition toy_setup : setup := Setup 3 0 (fun _ => "tun0"%string) 4 0.
Definition toy_listener : listener := Listener (SockAddr 0 5040) 3 4 [4; 3].
Abbreviation toy_main :=
  (main (Some toy_file) 2 (Some (Some toy_ks)) toy_setup (process toy_os)).
Definition toy_main_ctx : loop_ctx := LoopCtx 0 (Toy.pub_of toy_ks) None 25.

Lemma toy_setup_fits : names_fit toy_setup.
Proof. intros x. apply Nat.ltb_lt. reflexivity. Qed.

Lemma toy_main_run :
  toy_main = Ret (Some (toy_main_ctx, 2, toy_listener)) (run_end toy_main (process toy_os)).
Proof. apply run_eta. vm_compute. reflexivity. Qed.

Lemma main_starts_safely_witness :
  (exists o1 tm cfgs, boot_ok toy_main_ctx o1 tm cfgs /\
     reachable toy_main_ctx o1 tm cfgs (run_end toy_main (process toy_os))) /\
  1 <= 2 <= MAX_WORKER_THREADS /\ 1 <= sin_port (l_addr toy_listener) <= 65535 /\
  0 < keepalive_interval toy_main_ctx.
Proof.
  apply (main_starts_safely toy_os (Some toy_file) 2 (Some (Some toy_ks)) toy_setup
           toy_main_ctx 2 toy_listener (run_end toy_main (process toy_os))).
  - intros h [k Hk]. cbn in Hk. by rewrite lookup_empty in Hk.
  - exact toy_setup_fits.
  - intros es [= <-]. exact toy_file_fits.
  - exact toy_main_run.
  - vm_compute. discriminate.
Defined.

(** An established session and a [rekey_after] of 2^29 seconds. *)
Definition toy_slow_tables : tables :=
  Tables (Timing (2 ^ 29) 30 (2 ^ 30) 90 5 5 4)
    [PeerConfig zero_key [] true zero_addr EmptyString 5040 0] [routed route_a] 1 [] None zero_key.

Lemma large_rekey_after_undefined_witness :
  hk_connect toy_main_ctx 1000 0 (World _ toy_os toy_slow_tables) = UB.
Proof.
  apply (large_rekey_after_undefined toy_main_ctx 1000 0%nat (World _ toy_os toy_slow_tables)
           (PeerConfig zero_key [] true zero_addr EmptyString 5040 0) 0%nat (routed route_a));
    reflexivity || (cbn; lia).
Defined.
