(* ===== verification/Daemon.v ===== *)
(** * Daemon: the process from its arguments to its end

    [main] and [start_peer] (peer.c) around the threads: the configuration is
    loaded, the descriptors are opened, the threads are created and joined, the
    descriptors are closed and the static key is freed.  The theorem composes the
    safety of the start ([Startup]) with the safety of every interleaving of the
    threads ([ThreadSafety]). *)

From S2P Require Import Prelude Replay Platform Crypto Handshake Hex Cidr Keys Session Peer Config Invariant Safety Frames Threads Interleave Locking ThreadSafety Startup.

(** ** The code *)

Section Code.
Context `{Env}.

(** What the process meets: its configuration, the number of processors, its key
    file, the answers of the system while it sets up, whether the [i]-th
    [pthread_create] succeeds and whether the [epoll_create1] of the [i]-th worker
    does. *)
Record inputs := Inputs {
  in_file : option (list yaml_event);
  in_nproc : Z;
  in_pem : option (option evp_pkey);
  in_setup : setup;
  in_create : nat -> bool;
  in_epoll : nat -> bool
}.

(** Where a schedule leads: undefined behaviour, an [exit], a schedule that is not
    possible, running threads, or the end of [main] with the descriptors that are
    still open. *)
Inductive fate :=
| Crashed
| Exited
| Impossible
| Running (cf : conf)
| Returned (c : loop_ctx) (w : world) (open : list Z).

Definition is_done (th : thread) : bool := match t_code th with Done => true | _ => false end.

(** After the joins. *)
Definition close_all (a : listener) : M (list Z) unit := fd_close (l_sock a) ;;; fd_close (l_tun a).
Definition finish (c : loop_ctx) (a : listener) (w : world) : fate :=
  match close_all a (l_open a), liftO (EVP_PKEY_free (Some (static_key c))) w with
  | Ret _ open, Ret _ w' => Returned c w' open
  | _, _ => Crashed
  end.

Definition daemon (x : inputs) (o : os) (mvs : list move) : fate :=
  match main (in_file x) (in_nproc x) (in_pem x) (in_setup x) (process o) with
  | UB => Crashed
  | Ret None _ => Exited
  | Ret (Some (c, worker_threads, a)) w =>
      let n := Z.to_nat worker_threads in
      if negb (forallb (in_create x) (seq 0 (n + 1))) then Exited else
      match run c mvs (spawn (in_epoll x <$> seq 0 n) w) with
      | Undefined => Crashed
      | Blocked => Impossible
      | Next cf => if forallb is_done (threads cf) then finish c a (c_world cf) else Running cf
      end
  end.
End Code.

(** ** The theorem *)

Section Daemon.
Context `{OpenSSLSizes}.

(** Threads that have returned hold no lock. *)
Lemma done_inv c cf : conf_ok c cf -> forallb is_done (threads cf) = true -> inv c (c_world cf).
Proof.
  intros Hok Hd. apply (ok_inv _ _ Hok), can_read_true. intros n th Hn Hw.
  assert (is_done th = true) as Hdn.
  { apply (proj1 (forallb_forall _ _) Hd), list_elem_of_In, list_elem_of_lookup. by exists n. }
  unfold is_done in Hdn.
  pose proof (ok_safe _ _ Hok n th Hn) as Hs. destruct (t_code th); try done. destruct Hs. congruence.
Qed.

(** Closing both descriptors leaves none. *)
Lemma close_both (a b : Z) : filter (fun x => x <> b) (filter (fun x => x <> a) [a; b]) = [].
Proof.
  rewrite filter_cons_False by (intros Hx; by apply Hx). destruct (decide (b = a)) as [->|Hne].
  - by rewrite filter_cons_False by (intros Hx; by apply Hx).
  - rewrite filter_cons_True by done. by rewrite filter_cons_False by (intros Hx; by apply Hx).
Qed.

(** The bound on [rekey_after] that [main] does not check. *)
Definition rekey_fits (x : inputs) (o : os) : Prop :=
  forall r w, main (in_file x) (in_nproc x) (in_pem x) (in_setup x) (process o) = Ret r w ->
    cfg_rekey_after (timers (w_tab w)) <= 2 ^ 29 - 1.

(** C8: The daemon, as a whole process, within two bounds that the code does not
    check, scalars of fewer than 255 characters in its configuration file and a
    [rekey_after] below 2^29, and with a kernel that terminates the names of
    interfaces.  Whatever else the configuration file, the key file and
    the answers of the system are, and however the threads are scheduled, woken, fed
    with packets and signalled, no modelled step is undefined; and when the threads
    have all returned, [main] closes every descriptor that [start_peer] had opened
    and frees the static key, which was still alive and which nothing else owned.
    Log output is not part of the steps ([Logging.timestamps_mix] shows the race in
    it), nor are the epoll descriptors, which each worker opens and closes itself. *)
Theorem daemon_never_crashes (x : inputs) (o : os) (mvs : list move) :
  os_wf o -> names_fit (in_setup x) -> (forall es, in_file x = Some es -> scalars_fit es) -> rekey_fits x o ->
  daemon x o mvs <> Crashed /\
  forall c w open, daemon x o mvs = Returned c w open ->
    open = [] /\ os_keys (w_os w) !! static_key c = None /\
    forall h, h ∈ owned c (w_tab w) -> h <> static_key c -> is_Some (os_keys (w_os w) !! h).
Proof.
  intros Hwf Hu Hfit Hr. unfold daemon.
  pose proof (wp_main o (in_file x) (in_nproc x) (in_pem x) (in_setup x) Hwf Hu Hfit) as Hm. unfold wp in Hm.
  specialize (Hr). destruct (main _ _ _ _ _) as [[[[c n] a]|] w|] eqn:Em; [|by split|done].
  destruct (Hm c n a eq_refl (Hr _ _ Em)) as [(o1 & tm & cfgs & Hb & Er) [Hopen _]].
  destruct (negb _); [by split|]. pose proof (booted_ok c o1 tm cfgs (in_epoll x <$> seq 0 (Z.to_nat n)) w Hb Er) as Hok.
  pose proof (run_ok c mvs _ Hok) as Hrun. destruct (run c mvs _) as [| |cf]; [by split|done|].
  destruct (forallb is_done (threads cf)) eqn:Ed; [|by split].
  pose proof (done_inv c cf Hrun Ed) as [_ Hk].
  destruct (keys_live _ _ _ Hk (static_key c)) as [k Hkey]; [by left|].
  unfold finish. rewrite Hopen. unfold liftO, zoom, EVP_PKEY_free, close_all, fd_close, bind, modify. rewrite Hkey. cbn.
  split; [done|]. intros c' w' open [= <- <- <-]. split; [|split].
  - apply close_both.
  - apply lookup_delete_eq.
  - intros h Hh Hne. cbn. rewrite lookup_delete_ne by done. by apply (keys_live _ _ _ Hk).
Qed.
End Daemon.

(** ** Witness: the configuration of [Startup], two workers, and a schedule in
    which every thread sees the flag that SIGTERM sets. *)

#[local] Existing Instance Toy.ssl.
#[local] Existing Instance Toy.env.
#[local] Existing Instance Toy.ssl_sizes.

Definition toy_inputs : inputs :=
  Inputs (Some toy_file) 2 (Some (Some toy_ks)) toy_setup (fun _ => true) (fun _ => true).
Definition toy_life : list move :=
  replicate 2 (Run 0) ++ replicate 2 (Run 1) ++ [Run 2; Signal SIGTERM; Run 0; Run 1; Run 2].

Lemma toy_rekey_fits : rekey_fits toy_inputs toy_os.
Proof.
  intros r w E.
  assert (w = run_end (main (in_file toy_inputs) (in_nproc toy_inputs) (in_pem toy_inputs) (in_setup toy_inputs)
                         (process toy_os)) (process toy_os)) as -> by (rewrite E; reflexivity).
  clear E. vm_compute. discriminate.
Qed.

Definition has_returned (f : fate) : bool := match f with Returned _ _ _ => true | _ => false end.

Lemma daemon_never_crashes_witness :
  daemon toy_inputs toy_os toy_life <> Crashed /\
  exists c w, daemon toy_inputs toy_os toy_life = Returned c w [] /\ os_keys (w_os w) !! static_key c = None.
Proof.
  assert (has_returned (daemon toy_inputs toy_os toy_life) = true) as Hr by (vm_compute; reflexivity).
  destruct (daemon_never_crashes toy_inputs toy_os toy_life) as [Hc Hend].
  - intros h [k Hk]. cbn in Hk. by rewrite lookup_empty in Hk.
  - exact toy_setup_fits.
  - intros es [= <-]. exact toy_file_fits.
  - exact toy_rekey_fits.
  - split; [exact Hc|]. destruct (daemon toy_inputs toy_os toy_life) as [| | |cf|c w open]; try discriminate Hr.
    exists c, w. destruct (Hend c w open eq_refl) as (-> & Hk & _). split; [reflexivity|exact Hk].
Defined.
