(* ===== verification/RcList.v ===== *)
(** * RcList: the intrusive doubly linked list of rcunit

    [rcunit_list.c] and the traversal macros of [rcunit_list.h], over a heap of
    list nodes.  A node that is not in the heap is memory the program does not
    own: reading or writing it is undefined.  The main theorem relates the
    operations, pointer by pointer, to operations on sequences. *)

From S2P Require Import Prelude.

Section List.
Context {loc : Type} `{Countable loc}.

(** ** The code *)

(** [struct rcu_list]; [None] is the null pointer. *)
Record rcu_list := Node { next : option loc; prev : option loc }.

#[local] Abbreviation nodes := (gmap loc rcu_list).

Definition load (x : loc) : M nodes rcu_list :=
  fun ns => match ns !! x with Some n => Ret n ns | None => UB end.
Definition deref (p : option loc) : M nodes loc :=
  match p with Some x => ret x | None => undefined end.
Definition set_next (x : loc) (p : option loc) : M nodes unit :=
  let! n := load x in modify <[x := Node p (prev n)]>.
Definition set_prev (x : loc) (p : option loc) : M nodes unit :=
  let! n := load x in modify <[x := Node (next n) p]>.

Definition rcu_init_list (list : option loc) : M nodes unit :=
  match list with
  | Some l => set_prev l (Some l) ;;; set_next l (Some l)
  | None => ret tt
  end.

Definition rcu_is_list_empty (list : option loc) : M nodes bool :=
  match list with
  | Some l => let! n := load l in ret (bool_decide (next n = Some l))
  | None => ret false
  end.

Definition rcu_insert_list (list entry : option loc) : M nodes unit :=
  match list, entry with
  | Some l, Some e =>
      let! n := load l in set_prev e (prev n) ;;;
      set_next e (Some l) ;;;
      let! n := load l in let! p := deref (prev n) in set_next p (Some e) ;;;
      set_prev l (Some e)
  | _, _ => ret tt
  end.

Definition rcu_remove_list (entry : option loc) : M nodes unit :=
  match entry with
  | Some e =>
      let! n := load e in
      if bool_decide (next n = Some e) then ret tt else
      let! p := deref (prev n) in set_next p (next n) ;;;
      let! n := load e in
      let! x := deref (next n) in set_prev x (prev n)
  | None => ret tt
  end.

(** [RCU_FOR_EACH_ENTRY(list, cursor) body].  The body returns from the
    function with a result ([inl]), or ends with a cursor ([inr]): its own, or
    the one that [RCU_SAVE_CURSOR]/[RCU_RESTORE_CURSOR] put there.  The heap
    bounds the number of iterations: a traversal that passes more nodes than
    there are does not end. *)
Section Traversal.
Context {S R : Type} (heap : S -> nodes).

Definition next_of (x : loc) : M S loc :=
  fun s => match heap s !! x with
           | Some (Node (Some y) _) => Ret y s
           | _ => UB
           end.

Fixpoint for_each (fuel : nat) (list cursor : loc) (body : loc -> M S (R + loc)) : M S (option R) :=
  if bool_decide (cursor = list) then ret None else
  match fuel with
  | O => undefined
  | Datatypes.S fuel =>
      let! r := body cursor in
      match r with
      | inl v => ret (Some v)
      | inr cursor => let! c := next_of cursor in for_each fuel list c body
      end
  end.

Definition RCU_FOR_EACH_ENTRY (list : loc) (body : loc -> M S (R + loc)) : M S (option R) :=
  let! fuel := gets (fun s => size (heap s)) in
  let! c := next_of list in
  for_each fuel list c body.
End Traversal.

(** The loop counts the entries: the state is the heap with the counter. *)
Definition rcu_get_list_size (list : option loc) : M nodes Z :=
  fun ns =>
  match list with
  | None => Ret 0 ns
  | Some l =>
      match RCU_FOR_EACH_ENTRY (R := unit) fst l
              (fun c => let! size := gets snd in
                        let! size := int_add size 1 in
                        modify (fun s => (s.1, size)) ;;; ret (inr c)) (ns, 0)
      with
      | Ret _ (ns', size) => Ret size ns'
      | UB => UB
      end
  end.

(** ** Sequences *)

Definition nx (ns : nodes) (x : loc) : option loc := n ← ns !! x; next n.
Definition pv (ns : nodes) (x : loc) : option loc := n ← ns !! x; prev n.

(** [seg ns x l z]: forward links lead from [x] through [l] to [z], and the
    backward links return. *)
Fixpoint seg (ns : nodes) (x : loc) (l : list loc) (z : loc) : Prop :=
  match l with
  | [] => nx ns x = Some z /\ pv ns z = Some x
  | y :: l' => nx ns x = Some y /\ pv ns y = Some x /\ seg ns y l' z
  end.

(** The list with head [h] holds the sequence [l]. *)
Definition ring (ns : nodes) (h : loc) (l : list loc) : Prop := seg ns h l h /\ NoDup (h :: l).

(** A heap that holds the lists [hs], by head, and shares no node between them. *)
Record rings (ns : nodes) (hs : gmap loc (list loc)) : Prop := {
  rings_ring : forall h l, hs !! h = Some l -> ring ns h l;
  rings_disjoint : forall h l h' l' x,
    hs !! h = Some l -> hs !! h' = Some l' -> x ∈ h :: l -> x ∈ h' :: l' -> h = h'
}.

(** A node of no list. *)
Definition loose (hs : gmap loc (list loc)) (e : loc) : Prop :=
  forall h l, hs !! h = Some l -> e ∉ h :: l.

(** ** Lemmas *)

Lemma wp_load x Q ns : is_Some (ns !! x) -> (forall n, ns !! x = Some n -> Q n ns) -> wp (load x) Q ns.
Proof. intros [n E] HQ. unfold wp, load. rewrite E. by apply HQ. Qed.

Lemma wp_deref x Q (ns : nodes) : Q x ns -> wp (deref (Some x)) Q ns.
Proof. done. Qed.

(** Two heaps that differ in the links [f] and [g] describe. *)
Record links (ns ns' : nodes) (f g : loc -> option loc) : Prop := {
  links_nx : forall y, nx ns' y = f y;
  links_pv : forall y, pv ns' y = g y;
  links_dom : dom ns' = dom ns
}.

Lemma wp_set_next x p Q ns :
  is_Some (ns !! x) ->
  (forall ns', links ns ns' (fun y => if decide (y = x) then p else nx ns y) (pv ns) -> Q tt ns') ->
  wp (set_next x p) Q ns.
Proof.
  intros Hx HQ. apply wp_bind, wp_load; [done|]. intros n E. wp_steps. apply HQ. split.
  - intros y. unfold nx. case_decide; subst; [by rewrite lookup_insert_eq|].
    by rewrite lookup_insert_ne.
  - intros y. unfold pv. destruct (decide (y = x)) as [->|]; [by rewrite lookup_insert_eq, E|].
    by rewrite lookup_insert_ne.
  - apply dom_insert_lookup_L. by rewrite E.
Qed.

Lemma wp_set_prev x p Q ns :
  is_Some (ns !! x) ->
  (forall ns', links ns ns' (nx ns) (fun y => if decide (y = x) then p else pv ns y) -> Q tt ns') ->
  wp (set_prev x p) Q ns.
Proof.
  intros Hx HQ. apply wp_bind, wp_load; [done|]. intros n E. wp_steps. apply HQ. split.
  - intros y. unfold nx. destruct (decide (y = x)) as [->|]; [by rewrite lookup_insert_eq, E|].
    by rewrite lookup_insert_ne.
  - intros y. unfold pv. case_decide; subst; [by rewrite lookup_insert_eq|].
    by rewrite lookup_insert_ne.
  - apply dom_insert_lookup_L. by rewrite E.
Qed.

Lemma dom_same (ns ns' : nodes) x : dom ns' = dom ns -> is_Some (ns !! x) -> is_Some (ns' !! x).
Proof. intros Hd. rewrite <- !elem_of_dom. by rewrite Hd. Qed.

Lemma nx_dom ns x y : nx ns x = Some y -> is_Some (ns !! x).
Proof. unfold nx. destruct (ns !! x); [done|]. done. Qed.

Lemma pv_dom ns x y : pv ns x = Some y -> is_Some (ns !! x).
Proof. unfold pv. destruct (ns !! x); [done|]. done. Qed.

Lemma seg_app ns x l1 y l2 z : seg ns x (l1 ++ y :: l2) z <-> seg ns x l1 y /\ seg ns y l2 z.
Proof. revert x. induction l1 as [|a l1 IH]; intros x; cbn; [naive_solver|]. rewrite IH. naive_solver. Qed.

Lemma seg_frame ns ns' x l z :
  (forall a, a ∈ x :: l -> nx ns' a = nx ns a) ->
  (forall b, b ∈ l ++ [z] -> pv ns' b = pv ns b) ->
  seg ns x l z -> seg ns' x l z.
Proof.
  revert x. induction l as [|y l IH]; intros x Hn Hp; cbn.
  - intros [??]. rewrite Hn, Hp by set_solver. done.
  - intros (?&?&?). rewrite Hn, Hp by set_solver. split_and!; try done.
    apply IH; [..|done]; intros; [apply Hn|apply Hp]; set_solver.
Qed.

(** The two ends of a segment. *)
Definition final (x : loc) (l : list loc) : loc := default x (last l).
Definition first (l : list loc) (z : loc) : loc := default z (head l).

Lemma final_elem x l : final x l ∈ x :: l.
Proof.
  unfold final. destruct (last l) eqn:E; cbn; [|by left]. right. by apply last_Some_elem_of.
Qed.

Lemma final_snoc x l y : final x (l ++ [y]) = y.
Proof. unfold final. by rewrite last_snoc. Qed.

Lemma seg_first ns x l z : seg ns x l z -> nx ns x = Some (first l z).
Proof. destruct l; cbn; naive_solver. Qed.

Lemma seg_final ns x l z : seg ns x l z -> pv ns z = Some (final x l).
Proof.
  destruct l as [|y l _] using rev_ind; cbn; [naive_solver|].
  rewrite seg_app, final_snoc. cbn. naive_solver.
Qed.

(** Moving the end of a segment, by changing the two links at that end. *)
Lemma seg_retarget ns ns' x l z z' :
  seg ns x l z -> NoDup (x :: l) -> z' ∉ l ->
  (forall y, y ∈ x :: l -> y <> final x l -> nx ns' y = nx ns y) -> nx ns' (final x l) = Some z' ->
  (forall y, y ∈ l -> pv ns' y = pv ns y) -> pv ns' z' = Some (final x l) ->
  seg ns' x l z'.
Proof.
  destruct l as [|y l _] using rev_ind; [cbn; naive_solver|].
  rewrite final_snoc. intros Hs Hd Hz Hn Hn' Hp Hp'. apply seg_app in Hs as [Hs _].
  rewrite app_comm_cons in Hd. apply NoDup_app in Hd as (_ & Hd & _).
  apply seg_app. split; [|done]. eapply seg_frame, Hs.
  - intros a Ha. apply Hn; [set_solver|]. intros ->. by apply (Hd y Ha), list_elem_of_singleton.
  - intros b Hb. by apply Hp.
Qed.

Lemma ring_dom ns h l x : ring ns h l -> x ∈ h :: l -> is_Some (ns !! x).
Proof.
  intros [Hs _] Hx. apply list_elem_of_split in Hx as (l1 & l2 & E).
  destruct l1 as [|a l1]; simplify_eq/=.
  - apply seg_first in Hs. by eapply nx_dom.
  - apply seg_app in Hs as [_ Hs]. apply seg_first in Hs. by eapply nx_dom.
Qed.

Lemma rings_dom ns hs h l x : rings ns hs -> hs !! h = Some l -> x ∈ h :: l -> is_Some (ns !! x).
Proof. intros Hr Hh. eapply ring_dom. by apply Hr. Qed.

(** A change of links outside a list keeps it. *)
Lemma ring_frame ns ns' h l :
  (forall x, x ∈ h :: l -> nx ns' x = nx ns x /\ pv ns' x = pv ns x) -> ring ns h l -> ring ns' h l.
Proof.
  intros Hf [Hs Hd]. split; [|done]. eapply seg_frame, Hs.
  - intros a Ha. by apply Hf.
  - intros b Hb. apply Hf. set_solver.
Qed.

(** What each operation does to the links. *)


Lemma wp_init_list e Q ns :
  is_Some (ns !! e) ->
  (forall ns', links ns ns' (fun y => if decide (y = e) then Some e else nx ns y)
                            (fun y => if decide (y = e) then Some e else pv ns y) -> Q tt ns') ->
  wp (rcu_init_list (Some e)) Q ns.
Proof.
  intros He HQ. apply wp_bind, wp_set_prev; [done|]. intros n1 [N1 P1 D1].
  apply wp_set_next; [by eapply dom_same|]. intros n2 [N2 P2 D2]. apply HQ. split.
  - intros y. by rewrite N2, N1.
  - intros y. by rewrite P2, P1.
  - congruence.
Qed.

Lemma wp_insert_list h l e Q ns :
  ring ns h l -> e ∉ h :: l -> is_Some (ns !! e) ->
  (forall ns', links ns ns'
     (fun y => if decide (y = final h l) then Some e else if decide (y = e) then Some h else nx ns y)
     (fun y => if decide (y = h) then Some e else if decide (y = e) then Some (final h l) else pv ns y) ->
     Q tt ns') ->
  wp (rcu_insert_list (Some h) (Some e)) Q ns.
Proof.
  intros Hr He Hd HQ.
  pose proof (ring_dom _ _ _ h Hr ltac:(by left)) as Hh.
  pose proof (ring_dom _ _ _ _ Hr (final_elem h l)) as Hf.
  destruct Hr as [Hs _]. apply seg_final in Hs.
  assert (h <> e) by set_solver. assert (final h l <> e) by (pose proof (final_elem h l); set_solver).
  apply wp_bind, wp_load; [done|]. intros n En.
  assert (prev n = Some (final h l)) as -> by (unfold pv in Hs; by rewrite En in Hs).
  apply wp_bind, wp_set_prev; [done|]. intros n1 [N1 P1 D1].
  apply wp_bind, wp_set_next; [by eapply dom_same|]. intros n2 [N2 P2 D2].
  apply wp_bind, wp_load; [eapply (dom_same ns); [congruence|done]|]. intros m Em.
  assert (prev m = Some (final h l)) as ->.
  { specialize (P2 h). unfold pv at 1 in P2. rewrite Em, P1, decide_False in P2 by done. cbn in P2. congruence. }
  apply wp_bind, wp_deref, wp_bind, wp_set_next; [eapply (dom_same ns); [congruence|done]|]. intros n3 [N3 P3 D3].
  apply wp_set_prev; [eapply (dom_same ns); [congruence|done]|]. intros n4 [N4 P4 D4].
  apply HQ. split.
  - intros y. by rewrite N4, N3, N2, N1.
  - intros y. by rewrite P4, P3, P2, P1.
  - congruence.
Qed.

(** Inserting the entry that is already the last one makes it its own successor. *)
Lemma wp_insert_again h e Q ns :
  pv ns h = Some e -> h <> e -> is_Some (ns !! e) ->
  (forall ns', links ns ns' (fun y => if decide (y = e) then Some e else nx ns y)
                            (fun y => if decide (y = h) then Some e else if decide (y = e) then Some e else pv ns y) ->
     Q tt ns') ->
  wp (rcu_insert_list (Some h) (Some e)) Q ns.
Proof.
  intros Hp Hne He HQ. pose proof (pv_dom _ _ _ Hp) as Hh.
  apply wp_bind, wp_load; [done|]. intros n En.
  assert (prev n = Some e) as -> by (unfold pv in Hp; by rewrite En in Hp).
  apply wp_bind, wp_set_prev; [done|]. intros n1 [N1 P1 D1].
  apply wp_bind, wp_set_next; [by eapply dom_same|]. intros n2 [N2 P2 D2].
  apply wp_bind, wp_load; [eapply (dom_same ns); [congruence|done]|]. intros m Em.
  assert (prev m = Some e) as ->.
  { specialize (P2 h). unfold pv at 1 in P2. rewrite Em, P1, decide_False in P2 by done. cbn in P2. congruence. }
  apply wp_bind, wp_deref, wp_bind, wp_set_next; [eapply (dom_same ns); [congruence|done]|]. intros n3 [N3 P3 D3].
  apply wp_set_prev; [eapply (dom_same ns); [congruence|done]|]. intros n4 [N4 P4 D4].
  apply HQ. split.
  - intros y. rewrite N4, N3, N2, N1. by case_decide.
  - intros y. by rewrite P4, P3, P2, P1.
  - congruence.
Qed.

Lemma wp_remove_list a b e Q ns :
  pv ns e = Some a -> nx ns e = Some b -> b <> e -> a <> e -> is_Some (ns !! a) -> is_Some (ns !! b) ->
  (forall ns', links ns ns' (fun y => if decide (y = a) then Some b else nx ns y)
                            (fun y => if decide (y = b) then Some a else pv ns y) -> Q tt ns') ->
  wp (rcu_remove_list (Some e)) Q ns.
Proof.
  intros Ha Hb Hbe Hae Da Db HQ. pose proof (nx_dom _ _ _ Hb) as De.
  apply wp_bind, wp_load; [done|]. intros n En.
  assert (next n = Some b) as -> by (unfold nx in Hb; by rewrite En in Hb).
  assert (prev n = Some a) as -> by (unfold pv in Ha; by rewrite En in Ha).
  rewrite bool_decide_eq_false_2 by naive_solver.
  apply wp_bind, wp_deref, wp_bind, wp_set_next; [done|]. intros n1 [N1 P1 D1].
  apply wp_bind, wp_load; [by eapply dom_same|]. intros m Em.
  assert (next m = Some b) as ->.
  { specialize (N1 e). unfold nx at 1 in N1. rewrite Em, decide_False in N1 by done. cbn in N1. congruence. }
  assert (prev m = Some a) as ->.
  { specialize (P1 e). unfold pv at 1 in P1. rewrite Em in P1. cbn in P1. congruence. }
  apply wp_bind, wp_deref, wp_set_prev; [by eapply dom_same|]. intros n2 [N2 P2 D2]. apply HQ. split.
  - intros y. by rewrite N2, N1.
  - intros y. by rewrite P2, P1.
  - congruence.
Qed.

(** What that means for the lists of the heap. *)

Lemma rings_frame ns ns' hs :
  (forall h l x, hs !! h = Some l -> x ∈ h :: l -> nx ns' x = nx ns x /\ pv ns' x = pv ns x) ->
  rings ns hs -> rings ns' hs.
Proof. intros Hf [Hr Hd]. split; [|done]. intros h l E. eapply ring_frame, Hr; eauto. Qed.

Lemma rings_delete ns hs h : rings ns hs -> rings ns (delete h hs).
Proof.
  intros [Hr Hd]. split.
  - intros h' l [_ E]%lookup_delete_Some. by apply Hr.
  - intros h1 l1 h2 l2 x [_ E1]%lookup_delete_Some [_ E2]%lookup_delete_Some. by eapply Hd.
Qed.

Lemma loose_delete (hs : gmap loc (list loc)) h e : loose hs e -> loose (delete h hs) e.
Proof. intros Hl h' l [_ E]%lookup_delete_Some. by apply Hl. Qed.

(** Replacing the sequence of one list, when the links of the others stay. *)
Lemma rings_update ns ns' hs h l l' :
  rings ns hs -> hs !! h = Some l -> ring ns' h l' ->
  (forall x, x ∈ l' -> x ∈ l \/ loose hs x) ->
  (forall h' k x, hs !! h' = Some k -> h' <> h -> x ∈ h' :: k -> nx ns' x = nx ns x /\ pv ns' x = pv ns x) ->
  rings ns' (<[h := l']> hs).
Proof.
  intros [Hr Hd] Hh Hring Hin Hf. split.
  - intros h' k [[<- <-]|[Hne E]]%lookup_insert_Some; [done|].
    eapply ring_frame, Hr; [|done]. intros x Hx. by eapply Hf.
  - assert (forall h' k x, hs !! h' = Some k -> h' <> h -> x ∈ h :: l' -> x ∈ h' :: k -> False) as Hsep.
    { intros h' k x E Hne Hx Hx'. apply Hne.
      destruct (decide (x = h)) as [->|]; [symmetry; eapply (Hd h l h' k); eauto; by left|].
      destruct (Hin x) as [?|Hl]; [set_solver| |by destruct (Hl _ _ E)].
      symmetry. eapply (Hd h l h' k x); eauto. by right. }
    intros h1 l1 h2 l2 x [[<- <-]|[N1 E1]]%lookup_insert_Some [[<- <-]|[N2 E2]]%lookup_insert_Some X1 X2;
      [done| | |by eapply Hd]; exfalso; eauto.
Qed.

Lemma rings_init ns ns' hs e :
  rings ns hs -> loose hs e ->
  links ns ns' (fun y => if decide (y = e) then Some e else nx ns y)
               (fun y => if decide (y = e) then Some e else pv ns y) ->
  rings ns' (<[e := []]> hs).
Proof.
  intros [Hr Hd] Hl [N P _].
  assert (forall h l x, hs !! h = Some l -> x ∈ h :: l -> x <> e) as Hne
    by (intros h l x E Hx ->; by apply (Hl _ _ E)).
  split.
  - intros h l [[<- <-]|[_ E]]%lookup_insert_Some.
    + split; [|apply NoDup_singleton]. cbn. by rewrite N, P, !decide_True.
    + eapply ring_frame, Hr; [|done]. intros x Hx. by rewrite N, P, !decide_False by eauto.
  - intros h1 l1 h2 l2 x [[<- <-]|[_ E1]]%lookup_insert_Some [[<- <-]|[_ E2]]%lookup_insert_Some X1 X2.
    + done.
    + apply list_elem_of_singleton in X1 as ->. by destruct (Hl _ _ E2).
    + apply list_elem_of_singleton in X2 as ->. by destruct (Hl _ _ E1).
    + by eapply Hd.
Qed.

Lemma rings_insert ns ns' hs h l e :
  rings ns hs -> hs !! h = Some l -> loose hs e ->
  links ns ns'
     (fun y => if decide (y = final h l) then Some e else if decide (y = e) then Some h else nx ns y)
     (fun y => if decide (y = h) then Some e else if decide (y = e) then Some (final h l) else pv ns y) ->
  rings ns' (<[h := l ++ [e]]> hs).
Proof.
  intros Hr Hh Hl [N P _]. pose proof (Hl _ _ Hh) as He. pose proof (final_elem h l) as Hf.
  destruct (rings_ring _ _ Hr _ _ Hh) as [Hs Hd].
  eapply (rings_update ns); [done..| | |].
  - split.
    + apply seg_app. cbn. rewrite !N, !P.
      rewrite (decide_False (P := e = final h l)), !decide_True by set_solver.
      split; [|done]. eapply (seg_retarget ns); [done|done|set_solver|..].
      * intros y Hy Hne. by rewrite N, !decide_False by set_solver.
      * by rewrite N, decide_True.
      * intros y Hy. rewrite P, !decide_False; [done|set_solver|].
        intros ->. by apply NoDup_cons in Hd as [? _].
      * by rewrite P, decide_False, decide_True by set_solver.
    + rewrite app_comm_cons. apply NoDup_app. split_and!; [done| |apply NoDup_singleton]. set_solver.
  - intros x [?| ->%list_elem_of_singleton]%elem_of_app; auto.
  - intros h' k x E Hne Hx.
    assert (forall y, y ∈ h :: l -> x <> y) as Hxy
      by (intros y Hy ->; apply Hne; eapply (rings_disjoint _ _ Hr); [apply E|apply Hh|done|done]).
    assert (x <> e) by (intros ->; by eapply Hl).
    rewrite N, P, !decide_False; try done; apply Hxy; [by left|done].
Qed.

(** The neighbours of an entry. *)
Lemma ring_neighbours ns h l1 e l2 :
  ring ns h (l1 ++ e :: l2) ->
  pv ns e = Some (final h l1) /\ nx ns e = Some (first l2 h) /\
  (final h l1 ∈ h :: l1) /\ (first l2 h ∈ h :: l2) /\ (e ∉ h :: l1) /\ (e ∉ h :: l2).
Proof.
  intros [Hs Hd]. apply seg_app in Hs as [H1 H2].
  split_and!; [by eapply seg_final|by eapply seg_first|apply final_elem|destruct l2; cbn; set_solver|..];
    rewrite NoDup_cons, NoDup_app, NoDup_cons in Hd; set_solver.
Qed.

Lemma rings_remove ns ns' hs h l1 e l2 :
  rings ns hs -> hs !! h = Some (l1 ++ e :: l2) ->
  links ns ns' (fun y => if decide (y = final h l1) then Some (first l2 h) else nx ns y)
               (fun y => if decide (y = first l2 h) then Some (final h l1) else pv ns y) ->
  rings ns' (<[h := l1 ++ l2]> hs).
Proof.
  intros Hr Hh [N P _]. pose proof (rings_ring _ _ Hr _ _ Hh) as Hring.
  apply ring_neighbours in Hring as HN. destruct HN as (_&_&Hf&Hb&_&_). destruct Hring as [Hs Hd].
  apply seg_app in Hs as [H1 H2].
  assert (NoDup (h :: l1 ++ l2) /\ NoDup (h :: l1) /\ NoDup (h :: l2) /\ (forall x, x ∈ l1 -> x ∉ l2)) as (D&D1&D2&D12).
  { rewrite !NoDup_cons, !NoDup_app, !NoDup_cons in *. set_solver. }
  eapply (rings_update ns); [done..| | |].
  - split; [|done].
    assert (seg ns' h l1 (first l2 h)) as Ha.
    { eapply (seg_retarget ns); [done|done|..].
      - intros Hin. destruct l2; cbn in *; [by apply NoDup_cons in D1 as [? _]|]. by eapply D12; [|left].
      - intros y Hy Hne. by rewrite N, decide_False.
      - by rewrite N, decide_True.
      - intros y Hy. rewrite P, decide_False; [done|]. intros ->.
        destruct l2; cbn in *; [by apply NoDup_cons in D1 as [? _]|]. by eapply D12; [|left].
      - by rewrite P, decide_True. }
    destruct l2 as [|b l2]; [by rewrite app_nil_r|]. apply seg_app. split; [done|].
    cbn in H2. destruct H2 as (_&_&H2). eapply seg_frame, H2.
    + intros a Ha'. rewrite N, decide_False; [done|]. intros ->.
      apply elem_of_cons in Hf as [Hf|Hf]; [rewrite Hf in Ha'; by apply NoDup_cons in D2 as [? _]|by eapply D12].
    + intros y Hy. rewrite P, decide_False; [done|]. cbn. intros ->.
      rewrite !NoDup_cons in D2. set_solver.
  - set_solver.
  - intros h' k x E Hne Hx.
    assert (forall y, y ∈ h :: l1 ++ e :: l2 -> x <> y) as Hxy
      by (intros y Hy ->; apply Hne; eapply (rings_disjoint _ _ Hr); [apply E|apply Hh|done|done]).
    rewrite N, P, !decide_False; try done; apply Hxy; set_solver.
Qed.

(** ** Traversals *)

Lemma ring_size ns h l : ring ns h l -> (length l <= size ns)%nat.
Proof.
  intros Hr. rewrite <- size_dom.
  assert (list_to_set (C := gset loc) l ⊆ dom ns) as Hs%subseteq_size.
  { intros x Hx%elem_of_list_to_set. apply elem_of_dom. eapply ring_dom; [done|by right]. }
  destruct Hr as [_ [_ Hd]%NoDup_cons]. by rewrite size_list_to_set in Hs by done.
Qed.

Section Loop.
Context {S R : Type} (heap : S -> nodes) (h : loc) (body : loc -> M S (R + loc)).
Context (Q : option R -> S -> Prop).

Lemma wp_next_of x y (P : loc -> S -> Prop) s : nx (heap s) x = Some y -> P y s -> wp (next_of heap x) P s.
Proof. unfold nx, wp, next_of. destruct (heap s !! x) as [[[z|] p]|]; cbn; try done. by intros [= ->]. Qed.

(** The loop rule: [I c t] holds when [c] is the last cursor and [t] remains. *)
Lemma wp_loop (I : loc -> list loc -> S -> Prop) l s :
  (forall c t s, I c t s -> nx (heap s) c = Some (first t h) /\ h ∉ t) ->
  (forall c x t s, I c (x :: t) s ->
     wp (body x) (fun r s' => match r with inl v => Q (Some v) s' | inr c' => I c' t s' end) s) ->
  (forall c s, I c [] s -> Q None s) ->
  I h l s -> (length l <= size (heap s))%nat ->
  wp (RCU_FOR_EACH_ENTRY heap h body) Q s.
Proof.
  intros Hn Hb Hq HI Hsz.
  assert (forall fuel t c s, (length t <= fuel)%nat -> I c t s ->
    wp (for_each heap fuel h (first t h) body) Q s) as Hloop.
  { induction fuel as [|fuel IH]; intros [|x t] c s0 Hf HI0; cbn in Hf; try lia; cbn [for_each].
    1,2: rewrite bool_decide_eq_true_2 by done; wp_steps; by eapply Hq.
    destruct (Hn _ _ _ HI0) as [_ Hh].
    rewrite bool_decide_eq_false_2 by (cbn; intros ->; apply Hh; by left).
    apply wp_bind. eapply wp_conseq; [by eapply Hb|].
    intros [v|c'] s' Hs'; [by wp_steps|].
    apply wp_bind, (wp_next_of _ (first t h)); [by apply (Hn _ _ _ Hs')|]. eapply IH; [lia|done]. }
  apply wp_bind, wp_gets, wp_bind, (wp_next_of _ (first l h)); [by apply (Hn _ _ _ HI)|]. by eapply Hloop.
Qed.

(** A traversal of the list, during which it does not change; [I d] holds after
    the entries [d]. *)
Lemma wp_traverse (I : list loc -> S -> Prop) l s :
  (forall d s, I d s -> ring (heap s) h l) ->
  (forall d x t s, l = d ++ x :: t -> I d s ->
     wp (body x) (fun r s' => match r with inl v => Q (Some v) s' | inr c => c = x /\ I (d ++ [x]) s' end) s) ->
  (forall s, I l s -> Q None s) ->
  I [] s -> wp (RCU_FOR_EACH_ENTRY heap h body) Q s.
Proof.
  intros Hr Hb Hq HI.
  apply (wp_loop (fun c t s => exists d, l = d ++ t /\ c = final h d /\ I d s) l).
  - intros c t s' (d & -> & -> & Hd). destruct (Hr _ _ Hd) as [Hs Hdup]. split.
    + destruct t as [|x t]; cbn.
      * rewrite app_nil_r in Hs. destruct d as [|y d _] using rev_ind; [by apply seg_first in Hs|].
        rewrite final_snoc. apply seg_app in Hs as [_ Hs]. by apply seg_first in Hs.
      * apply seg_app in Hs as [Hs _]. destruct d as [|y d _] using rev_ind; [by apply seg_first in Hs|].
        rewrite final_snoc. apply seg_app in Hs as [_ Hs]. by apply seg_first in Hs.
    + apply NoDup_cons in Hdup as [Hh _]. set_solver.
  - intros c x t s' (d & -> & -> & Hd). eapply wp_conseq; [by eapply Hb|].
    intros [v|c'] s'' HI'; [done|]. destruct HI' as [-> HI'].
    exists (d ++ [x]). by rewrite <- app_assoc, final_snoc.
  - intros c s' (d & -> & _ & Hd). apply Hq. by rewrite app_nil_r.
  - by exists [].
  - eapply ring_size. by eapply Hr.
Qed.

(** A traversal that takes the first entry out until the list is empty. *)
Lemma wp_drain (I : list loc -> S -> Prop) l s :
  (forall t s, I t s -> ring (heap s) h t) ->
  (forall x t s, I (x :: t) s -> wp (body x) (fun r s' => r = inr h /\ I t s') s) ->
  (forall s, I [] s -> Q None s) ->
  I l s -> wp (RCU_FOR_EACH_ENTRY heap h body) Q s.
Proof.
  intros Hr Hb Hq HI. apply (wp_loop (fun c t s => c = h /\ I t s) l).
  - intros c t s' [-> Ht]. destruct (Hr _ _ Ht) as [Hs Hd]. split; [by apply seg_first|].
    by apply NoDup_cons in Hd as [? _].
  - intros c x t s' [-> Ht]. eapply wp_conseq; [by apply Hb|]. by intros r s'' [-> ?].
  - intros c s' [_ ?]. by apply Hq.
  - done.
  - eapply ring_size. by eapply Hr.
Qed.
End Loop.

(** Forward links only. *)
Fixpoint path (ns : nodes) (x : loc) (l : list loc) (z : loc) : Prop :=
  match l with
  | [] => nx ns x = Some z
  | y :: l' => nx ns x = Some y /\ path ns y l' z
  end.

Lemma seg_path ns ns' x l z :
  seg ns x l z -> (forall a, a ∈ x :: l -> nx ns' a = nx ns a) -> path ns' x l z.
Proof.
  revert x. induction l as [|y l IH]; cbn; intros x.
  - intros [E _] Hf. rewrite Hf; [done|by left].
  - intros (E & _ & Hs) Hf. split; [rewrite Hf; [done|by left]|]. apply IH; [done|]. intros a Ha. apply Hf. by right.
Qed.

(** A traversal that runs into an entry that is its own successor does not end. *)
Lemma traversal_stuck {S} (heap : S -> nodes) h e s fuel x l :
  path (heap s) x l e -> h ∉ l -> h <> e -> nx (heap s) e = Some e ->
  for_each (R := unit) heap fuel h (first l e) (fun c => ret (inr c)) s = UB.
Proof.
  intros Hs Hl Hne He. revert x l Hs Hl. induction fuel as [|fuel IH]; intros x l Hs Hl;
    (assert (first l e <> h) as Hc by (destruct l; cbn; set_solver)); cbn [for_each];
    rewrite bool_decide_eq_false_2 by done; [done|].
  unfold bind, ret. assert (exists l', nx (heap s) (first l e) = Some (first l' e) /\ path (heap s) (first l e) l' e /\ h ∉ l')
    as (l' & Hn & Hp & Hl').
  { destruct l as [|y l]; [by exists []; split_and!; [| |set_solver]|]. destruct Hs as [_ Hs]. exists l. split_and!; [|done|set_solver].
    destruct l; [done|]. apply Hs. }
  unfold next_of. unfold nx in Hn. destruct (heap s !! first l e) as [[[z|] p]|]; cbn in Hn; simplify_eq.
  by apply (IH (first l e)).
Qed.

(** ** The list operations are operations on sequences *)

Lemma wp_list_size h l Q ns :
  ring ns h l -> Z.of_nat (length l) <= INT_MAX -> Q (Z.of_nat (length l)) ns -> wp (rcu_get_list_size (Some h)) Q ns.
Proof.
  intros Hr Hmax HQ. unfold wp, rcu_get_list_size.
  assert (wp (RCU_FOR_EACH_ENTRY (R := unit) fst h
      (fun c => let! size := gets snd in
                let! size := int_add size 1 in
                modify (fun s => (s.1, size)) ;;; ret (inr c)))
      (fun _ s => s = (ns, Z.of_nat (length l))) (ns, 0)) as Hw.
  { apply (wp_traverse _ _ _ _ (fun d s => s = (ns, Z.of_nat (length d))) l); [by intros ?? ->| |done|done].
    intros d x t s -> ->. rewrite length_app in Hmax. cbn in Hmax. apply wp_bind, wp_gets, wp_bind, wp_int_add; [cbn; lia|].
    wp_steps. split; [done|]. cbn. f_equal. rewrite length_app. cbn. lia. }
  unfold wp in Hw. destruct (RCU_FOR_EACH_ENTRY _ _ _ _) as [? [??]|]; [|done]. by simplify_eq.
Qed.

(** C31: The linked lists of rcunit are sequences.  In a heap that holds the
    lists [hs] and where [h] heads the sequence [l]: the size is the length of [l],
    provided that an [int] holds it; the emptiness test is that of [l]; inserting a node of no list appends it to [l];
    removing an entry takes exactly it out of [l]; initialising a node of no
    list makes it the head of an empty list; and every other list of the heap is
    left as it is. *)
Theorem list_refines_sequence ns hs h l :
  rings ns hs -> hs !! h = Some l ->
  (Z.of_nat (length l) <= INT_MAX -> rcu_get_list_size (Some h) ns = Ret (Z.of_nat (length l)) ns) /\
  rcu_is_list_empty (Some h) ns = Ret (bool_decide (l = [])) ns /\
  (forall e, loose hs e -> is_Some (ns !! e) ->
     wp (rcu_insert_list (Some h) (Some e)) (fun _ ns' => rings ns' (<[h := l ++ [e]]> hs)) ns) /\
  (forall l1 e l2, l = l1 ++ e :: l2 ->
     wp (rcu_remove_list (Some e)) (fun _ ns' => rings ns' (<[h := l1 ++ l2]> hs)) ns) /\
  (forall e, loose hs e -> is_Some (ns !! e) ->
     wp (rcu_init_list (Some e)) (fun _ ns' => rings ns' (<[e := []]> hs)) ns).
Proof.
  intros Hr Hh. pose proof (rings_ring _ _ Hr _ _ Hh) as Hring. split_and!.
  - intros Hmax. pose proof (wp_list_size h l (fun n ns' => n = Z.of_nat (length l) /\ ns' = ns) ns Hring Hmax) as Hw.
    unfold wp in Hw. destruct (rcu_get_list_size _ _); destruct Hw; by subst.
  - destruct Hring as [Hs Hd]. apply seg_first in Hs. unfold nx in Hs.
    unfold rcu_is_list_empty, bind, load, ret. destruct (ns !! h) as [n|]; [|done].
    cbn in Hs. rewrite Hs. f_equal. apply bool_decide_ext. destruct l as [|x l]; cbn; [done|].
    split; [intros [= ->]|done]. apply NoDup_cons in Hd as [[] _]. by left.
  - intros e He Hd. apply (wp_insert_list h l); [done|by apply (He _ _ Hh)|done|].
    intros ns' Hl. by eapply rings_insert.
  - intros l1 e l2 ->. apply ring_neighbours in Hring as HN. destruct HN as (Hp&Hn&Hf&Hb&N1&N2).
    eapply wp_remove_list; [done..|set_solver|set_solver| | |].
    + eapply (ring_dom _ _ _ _ Hring). set_solver.
    + eapply (ring_dom _ _ _ _ Hring). set_solver.
    + intros ns' Hl. by eapply rings_remove.
  - intros e He Hd. apply wp_init_list; [done|]. intros ns' Hl. by eapply rings_init.
Qed.
End List.
Arguments rcu_list : clear implicits.
Abbreviation nodes loc := (gmap loc (rcu_list loc)).

(** A list of two entries and a node outside it. *)
Definition toy_nodes : nodes positive :=
  <[1%positive := Node (Some 2%positive) (Some 3%positive)]>
  (<[2%positive := Node (Some 3%positive) (Some 1%positive)]>
  (<[3%positive := Node (Some 1%positive) (Some 2%positive)]>
  {[4%positive := Node None None]})).
Abbreviation toy_lists := ({[1%positive := [2%positive; 3%positive]]} : gmap positive (list positive)).

Lemma toy_rings : rings toy_nodes toy_lists.
Proof.
  split.
  - intros h l [<- <-]%lookup_singleton_Some. split; [done|by apply (bool_decide_unpack _)].
  - by intros h l h' l' x [<- _]%lookup_singleton_Some [<- _]%lookup_singleton_Some.
Qed.

Lemma list_refines_sequence_witness :
  wp (rcu_insert_list (Some 1%positive) (Some 4%positive))
     (fun _ ns' => rings ns' (<[1%positive := [2%positive; 3%positive; 4%positive]]> toy_lists)) toy_nodes /\
  rcu_get_list_size (Some 1%positive) toy_nodes = Ret 2 toy_nodes.
Proof.
  destruct (list_refines_sequence toy_nodes toy_lists 1%positive [2%positive; 3%positive] toy_rings
              ltac:(reflexivity)) as (Hsz & _ & Hins & _). split.
  - apply Hins; [|by eexists]. intros h l [<- <-]%lookup_singleton_Some. by apply (bool_decide_unpack _).
  - exact (Hsz ltac:(by vm_compute)).
Defined.
