(* ===== verification/RcUnit.v ===== *)
(** * RcUnit: the test framework rcunit

    The test database (registries of modules of tests), the assertion engine,
    the exception mechanism and the test runner of [rcunit/src], over the linked
    lists of [RcList].  Objects are identified by the number of their
    allocation; the node of a list inside an object is a location.  A counter is
    an [int] that is undefined once it overflows.  A try block is its structured meaning here, as [Excp]
    derives it from the jumps and signal actions.  The report of a run is the
    sequence of texts that are printed into its file; the memory trace is in
    [Mtrace]; log lines are not recorded, apart from the verdict line and the
    calls of the hooks. *)

From stdpp Require Import pretty.
From S2P Require Import Prelude RcList.
Open Scope string_scope.
Open Scope Z_scope.

Abbreviation ident := positive.
(** [rcu_generic_function]: the address of a function. *)
Abbreviation fn := positive.

(** ** Constants *)

Inductive rcu_error :=
| RCU_E_OK | RCU_E_NG | RCU_E_NOMEM | RCU_E_INVPARAM | RCU_E_MACHINIT | RCU_E_MACHINITDONE
| RCU_E_MACHNOINIT | RCU_E_INVMACH | RCU_E_ENTITYDISABLED | RCU_E_EXEC | RCU_E_REGNOINIT
| RCU_E_INVREGNAME | RCU_E_INVREG | RCU_E_INVREGTABLE | RCU_E_UNKNOWNREG | RCU_E_REGEXISTS
| RCU_E_MODNOINIT | RCU_E_INVMOD | RCU_E_INVMODNAME | RCU_E_INVMODTABLE | RCU_E_UNKNOWNMOD
| RCU_E_MODEXISTS | RCU_E_FUNCNOINIT | RCU_E_INVFUNCNAME | RCU_E_INVFUNC | RCU_E_INVFUNCTABLE
| RCU_E_FUNCEXISTS | RCU_E_INVFUNCENTRY.
#[export] Instance rcu_error_eq_dec : EqDecision rcu_error.
Proof. solve_decision. Defined.

Inductive run_stat := RCU_RUN_STAT_NOTTESTED | RCU_RUN_STAT_TEST_SUCC | RCU_RUN_STAT_TEST_FAILED.
#[export] Instance run_stat_eq_dec : EqDecision run_stat.
Proof. solve_decision. Defined.

Inductive run_ctx :=
| RCU_RUN_CTX_UNKNOWN | RCU_RUN_CTX_FUNC | RCU_RUN_CTX_FUNC_INIT | RCU_RUN_CTX_FUNC_DESTROY
| RCU_RUN_CTX_MOD_INIT | RCU_RUN_CTX_MOD_DESTROY.
#[export] Instance run_ctx_eq_dec : EqDecision run_ctx.
Proof. solve_decision. Defined.

Inductive run_level := RCU_RUN_LEVEL_MACH | RCU_RUN_LEVEL_REG | RCU_RUN_LEVEL_MOD.
#[export] Instance run_level_eq_dec : EqDecision run_level.
Proof. solve_decision. Defined.

Definition RCU_TEST_FUNCTION_NAME_LENGTH : nat := 255.
Definition RCU_TEST_MODULE_NAME_LENGTH : nat := 255.
Definition RCU_TEST_REGISTRY_NAME_LENGTH : nat := 255.
Definition RCU_DEFAULT_REGISTRY_NAME : string := "default-reg".
Definition RCU_DEFAULT_MODULE_NAME : string := "default-mod".

(** ** Exceptions and test code *)

Inductive rcu_exception_id :=
| RCU_EXCP_ID_START | RCU_EXCP_ABORTTESTRUN | RCU_EXCP_ABORTMODRUN | RCU_EXCP_NULLPOINTER
| RCU_EXCP_INVPARAM | RCU_EXCP_SIGSEGV | RCU_EXCP_SIGILL | RCU_EXCP_SIGFPE | RCU_EXCP_SIGBUS
| RCU_EXCP_ASSERTIONFAILURE | RCU_EXCP_ID_END | RCU_EXCP_ID_UNKNOWN.

(** The exception object of an id, named by its own id. *)
Definition rcu_lookup_excp_by_id (id : rcu_exception_id) : rcu_exception_id :=
  match id with
  | RCU_EXCP_ID_START | RCU_EXCP_ID_END => RCU_EXCP_ID_UNKNOWN
  | _ => id
  end.

(** The signals [rcu_sig_catch] handles. *)
Inductive signal := SIGSEGV | SIGILL | SIGFPE | SIGBUS.

Definition rcu_sig_handler (signo : signal) : rcu_exception_id :=
  match signo with
  | SIGSEGV => rcu_lookup_excp_by_id RCU_EXCP_SIGSEGV
  | SIGILL => rcu_lookup_excp_by_id RCU_EXCP_SIGILL
  | SIGFPE => rcu_lookup_excp_by_id RCU_EXCP_SIGFPE
  | SIGBUS => rcu_lookup_excp_by_id RCU_EXCP_SIGBUS
  end.

(** What a test, setup or teardown function does that the framework sees: it
    evaluates assertions, and it may die of a signal. *)
Inductive action :=
| Assert (cond : bool) (filename func_name : string) (line : Z) (msg : string)
| Signal (signo : signal).

(** ** Objects *)

Record rcu_test := Test {
  t_name : string;
  t_entry : fn;
  t_init : option fn;
  t_destroy : option fn;
  t_run_stat : run_stat;
  t_init_failed : bool;
  t_destroy_failed : bool;
  t_nr_fail_assert : Z;
  t_nr_succ_assert : Z
}.

Record rcu_module := Mod {
  m_name : string;
  m_init : option fn;
  m_destroy : option fn;
  m_nr_test : Z;
  m_nr_failed_test : Z;
  m_nr_succ_test : Z;
  m_run_stat : run_stat;
  m_init_failed : bool;
  m_destroy_failed : bool
}.

Record rcu_registry := Reg {
  r_name : string;
  r_nr_mod : Z;
  r_nr_failed_mod : Z;
  r_nr_succ_mod : Z
}.

Record rcu_test_machine := Mach {
  mc_init_done : bool;
  mc_curr_reg : option ident;
  mc_curr_mod : option ident;
  mc_curr_func : option ident;
  mc_assert_hook : option fn;
  mc_run_level : run_level;
  mc_run_ctx : run_ctx;
  mc_run_hook : option fn;
  mc_nr_reg : Z;
  mc_nr_failed_reg : Z;
  mc_nr_succ_reg : Z;
  mc_nr_failed_test : Z;
  mc_nr_succ_test : Z
}.

(** The list nodes: heads are [RegList], [AssertList], [ModList], [FuncList],
    [ModFails] and [FuncFails]; links are the first field of their object. *)
Inductive loc :=
| RegList
| AssertList
| RegLink (r : ident)
| ModList (r : ident)
| ModLink (m : ident)
| FuncList (m : ident)
| ModFails (m : ident)
| FuncLink (f : ident)
| FuncFails (f : ident)
| FailLink (k : ident).
#[export] Instance loc_eq_dec : EqDecision loc.
Proof. solve_decision. Defined.

Definition loc_code (x : loc) : Z * positive :=
  match x with
  | RegList => (0, 1%positive) | AssertList => (1, 1%positive)
  | RegLink r => (2, r) | ModList r => (3, r) | ModLink m => (4, m) | FuncList m => (5, m)
  | ModFails m => (6, m) | FuncLink f => (7, f) | FuncFails f => (8, f) | FailLink k => (9, k)
  end.
Definition loc_decode (c : Z * positive) : loc :=
  match c with
  | (0, _) => RegList | (1, _) => AssertList
  | (2, r) => RegLink r | (3, r) => ModList r | (4, m) => ModLink m | (5, m) => FuncList m
  | (6, m) => ModFails m | (7, f) => FuncLink f | (8, f) => FuncFails f | (_, k) => FailLink k
  end.
#[export] Instance loc_countable : Countable loc.
Proof. apply (inj_countable' loc_code loc_decode). by intros []. Defined.

(** What the run shows: hook calls and the verdict line. *)
Inductive rcu_output :=
| RunHook (hook : fn) (started : bool)
| AssertHook (hook : fn) (rec : ident)
| Verdict (successful : bool).

Record rcu := Rcu {
  st_node : nodes loc;
  st_test : gmap ident rcu_test;
  st_mod : gmap ident rcu_module;
  st_reg : gmap ident rcu_registry;
  st_fail : gmap ident string;          (** failure records, by their text *)
  st_mach : rcu_test_machine;
  st_frames : nat;                      (** depth of [g_curr_excp_frame] *)
  st_ercd : rcu_error;                  (** [g_ercd] *)
  st_fresh : ident;
  st_out : list rcu_output;
  st_report : list string               (** the texts in the report file *)
}.

(** The objects inside [the_test_machine]. *)
Definition DEF_REG : ident := 1%positive.
Definition DEF_MOD : ident := 1%positive.

(** ** Updates of one field *)

Definition set_t_name x (t : rcu_test) : rcu_test :=
    Test x (t_entry t) (t_init t) (t_destroy t) (t_run_stat t) (t_init_failed t) (t_destroy_failed t)
    (t_nr_fail_assert t) (t_nr_succ_assert t).
Definition set_t_run_stat x (t : rcu_test) : rcu_test :=
    Test (t_name t) (t_entry t) (t_init t) (t_destroy t) x (t_init_failed t) (t_destroy_failed t)
    (t_nr_fail_assert t) (t_nr_succ_assert t).
Definition set_t_init_failed x (t : rcu_test) : rcu_test :=
    Test (t_name t) (t_entry t) (t_init t) (t_destroy t) (t_run_stat t) x (t_destroy_failed t)
    (t_nr_fail_assert t) (t_nr_succ_assert t).
Definition set_t_destroy_failed x (t : rcu_test) : rcu_test :=
    Test (t_name t) (t_entry t) (t_init t) (t_destroy t) (t_run_stat t) (t_init_failed t) x
    (t_nr_fail_assert t) (t_nr_succ_assert t).
Definition set_t_nr_fail_assert x (t : rcu_test) : rcu_test :=
    Test (t_name t) (t_entry t) (t_init t) (t_destroy t) (t_run_stat t) (t_init_failed t) (t_destroy_failed
    t) x (t_nr_succ_assert t).
Definition set_t_nr_succ_assert x (t : rcu_test) : rcu_test :=
    Test (t_name t) (t_entry t) (t_init t) (t_destroy t) (t_run_stat t) (t_init_failed t) (t_destroy_failed
    t) (t_nr_fail_assert t) x.
Definition set_m_nr_test x (m : rcu_module) : rcu_module :=
    Mod (m_name m) (m_init m) (m_destroy m) x (m_nr_failed_test m) (m_nr_succ_test m) (m_run_stat m)
    (m_init_failed m) (m_destroy_failed m).
Definition set_m_nr_failed_test x (m : rcu_module) : rcu_module :=
    Mod (m_name m) (m_init m) (m_destroy m) (m_nr_test m) x (m_nr_succ_test m) (m_run_stat m) (m_init_failed
    m) (m_destroy_failed m).
Definition set_m_nr_succ_test x (m : rcu_module) : rcu_module :=
    Mod (m_name m) (m_init m) (m_destroy m) (m_nr_test m) (m_nr_failed_test m) x (m_run_stat m)
    (m_init_failed m) (m_destroy_failed m).
Definition set_m_run_stat x (m : rcu_module) : rcu_module :=
    Mod (m_name m) (m_init m) (m_destroy m) (m_nr_test m) (m_nr_failed_test m) (m_nr_succ_test m) x
    (m_init_failed m) (m_destroy_failed m).
Definition set_m_init_failed x (m : rcu_module) : rcu_module :=
    Mod (m_name m) (m_init m) (m_destroy m) (m_nr_test m) (m_nr_failed_test m) (m_nr_succ_test m)
    (m_run_stat m) x (m_destroy_failed m).
Definition set_m_destroy_failed x (m : rcu_module) : rcu_module :=
    Mod (m_name m) (m_init m) (m_destroy m) (m_nr_test m) (m_nr_failed_test m) (m_nr_succ_test m)
    (m_run_stat m) (m_init_failed m) x.
Definition set_r_nr_mod x (r : rcu_registry) : rcu_registry :=
  Reg (r_name r) x (r_nr_failed_mod r) (r_nr_succ_mod r).
Definition set_r_nr_failed_mod x (r : rcu_registry) : rcu_registry :=
  Reg (r_name r) (r_nr_mod r) x (r_nr_succ_mod r).
Definition set_r_nr_succ_mod x (r : rcu_registry) : rcu_registry :=
  Reg (r_name r) (r_nr_mod r) (r_nr_failed_mod r) x.
Definition set_mc_init_done x (mc : rcu_test_machine) : rcu_test_machine :=
    Mach x (mc_curr_reg mc) (mc_curr_mod mc) (mc_curr_func mc) (mc_assert_hook mc) (mc_run_level mc)
    (mc_run_ctx mc) (mc_run_hook mc) (mc_nr_reg mc) (mc_nr_failed_reg mc) (mc_nr_succ_reg mc)
    (mc_nr_failed_test mc) (mc_nr_succ_test mc).
Definition set_mc_curr_reg x (mc : rcu_test_machine) : rcu_test_machine :=
    Mach (mc_init_done mc) x (mc_curr_mod mc) (mc_curr_func mc) (mc_assert_hook mc) (mc_run_level mc)
    (mc_run_ctx mc) (mc_run_hook mc) (mc_nr_reg mc) (mc_nr_failed_reg mc) (mc_nr_succ_reg mc)
    (mc_nr_failed_test mc) (mc_nr_succ_test mc).
Definition set_mc_curr_mod x (mc : rcu_test_machine) : rcu_test_machine :=
    Mach (mc_init_done mc) (mc_curr_reg mc) x (mc_curr_func mc) (mc_assert_hook mc) (mc_run_level mc)
    (mc_run_ctx mc) (mc_run_hook mc) (mc_nr_reg mc) (mc_nr_failed_reg mc) (mc_nr_succ_reg mc)
    (mc_nr_failed_test mc) (mc_nr_succ_test mc).
Definition set_mc_curr_func x (mc : rcu_test_machine) : rcu_test_machine :=
    Mach (mc_init_done mc) (mc_curr_reg mc) (mc_curr_mod mc) x (mc_assert_hook mc) (mc_run_level mc)
    (mc_run_ctx mc) (mc_run_hook mc) (mc_nr_reg mc) (mc_nr_failed_reg mc) (mc_nr_succ_reg mc)
    (mc_nr_failed_test mc) (mc_nr_succ_test mc).
Definition set_mc_assert_hook x (mc : rcu_test_machine) : rcu_test_machine :=
    Mach (mc_init_done mc) (mc_curr_reg mc) (mc_curr_mod mc) (mc_curr_func mc) x (mc_run_level mc)
    (mc_run_ctx mc) (mc_run_hook mc) (mc_nr_reg mc) (mc_nr_failed_reg mc) (mc_nr_succ_reg mc)
    (mc_nr_failed_test mc) (mc_nr_succ_test mc).
Definition set_mc_run_level x (mc : rcu_test_machine) : rcu_test_machine :=
    Mach (mc_init_done mc) (mc_curr_reg mc) (mc_curr_mod mc) (mc_curr_func mc) (mc_assert_hook mc) x
    (mc_run_ctx mc) (mc_run_hook mc) (mc_nr_reg mc) (mc_nr_failed_reg mc) (mc_nr_succ_reg mc)
    (mc_nr_failed_test mc) (mc_nr_succ_test mc).
Definition set_mc_run_ctx x (mc : rcu_test_machine) : rcu_test_machine :=
    Mach (mc_init_done mc) (mc_curr_reg mc) (mc_curr_mod mc) (mc_curr_func mc) (mc_assert_hook mc)
    (mc_run_level mc) x (mc_run_hook mc) (mc_nr_reg mc) (mc_nr_failed_reg mc) (mc_nr_succ_reg mc)
    (mc_nr_failed_test mc) (mc_nr_succ_test mc).
Definition set_mc_run_hook x (mc : rcu_test_machine) : rcu_test_machine :=
    Mach (mc_init_done mc) (mc_curr_reg mc) (mc_curr_mod mc) (mc_curr_func mc) (mc_assert_hook mc)
    (mc_run_level mc) (mc_run_ctx mc) x (mc_nr_reg mc) (mc_nr_failed_reg mc) (mc_nr_succ_reg mc)
    (mc_nr_failed_test mc) (mc_nr_succ_test mc).
Definition set_mc_nr_reg x (mc : rcu_test_machine) : rcu_test_machine :=
    Mach (mc_init_done mc) (mc_curr_reg mc) (mc_curr_mod mc) (mc_curr_func mc) (mc_assert_hook mc)
    (mc_run_level mc) (mc_run_ctx mc) (mc_run_hook mc) x (mc_nr_failed_reg mc) (mc_nr_succ_reg mc)
    (mc_nr_failed_test mc) (mc_nr_succ_test mc).
Definition set_mc_nr_failed_reg x (mc : rcu_test_machine) : rcu_test_machine :=
    Mach (mc_init_done mc) (mc_curr_reg mc) (mc_curr_mod mc) (mc_curr_func mc) (mc_assert_hook mc)
    (mc_run_level mc) (mc_run_ctx mc) (mc_run_hook mc) (mc_nr_reg mc) x (mc_nr_succ_reg mc)
    (mc_nr_failed_test mc) (mc_nr_succ_test mc).
Definition set_mc_nr_succ_reg x (mc : rcu_test_machine) : rcu_test_machine :=
    Mach (mc_init_done mc) (mc_curr_reg mc) (mc_curr_mod mc) (mc_curr_func mc) (mc_assert_hook mc)
    (mc_run_level mc) (mc_run_ctx mc) (mc_run_hook mc) (mc_nr_reg mc) (mc_nr_failed_reg mc) x
    (mc_nr_failed_test mc) (mc_nr_succ_test mc).
Definition set_mc_nr_failed_test x (mc : rcu_test_machine) : rcu_test_machine :=
    Mach (mc_init_done mc) (mc_curr_reg mc) (mc_curr_mod mc) (mc_curr_func mc) (mc_assert_hook mc)
    (mc_run_level mc) (mc_run_ctx mc) (mc_run_hook mc) (mc_nr_reg mc) (mc_nr_failed_reg mc) (mc_nr_succ_reg
    mc) x (mc_nr_succ_test mc).
Definition set_mc_nr_succ_test x (mc : rcu_test_machine) : rcu_test_machine :=
    Mach (mc_init_done mc) (mc_curr_reg mc) (mc_curr_mod mc) (mc_curr_func mc) (mc_assert_hook mc)
    (mc_run_level mc) (mc_run_ctx mc) (mc_run_hook mc) (mc_nr_reg mc) (mc_nr_failed_reg mc) (mc_nr_succ_reg
    mc) (mc_nr_failed_test mc) x.
Definition set_st_node x (s : rcu) : rcu :=
    Rcu x (st_test s) (st_mod s) (st_reg s) (st_fail s) (st_mach s) (st_frames s) (st_ercd s) (st_fresh s)
    (st_out s) (st_report s).
Definition set_st_test x (s : rcu) : rcu :=
    Rcu (st_node s) x (st_mod s) (st_reg s) (st_fail s) (st_mach s) (st_frames s) (st_ercd s) (st_fresh s)
    (st_out s) (st_report s).
Definition set_st_mod x (s : rcu) : rcu :=
    Rcu (st_node s) (st_test s) x (st_reg s) (st_fail s) (st_mach s) (st_frames s) (st_ercd s) (st_fresh s)
    (st_out s) (st_report s).
Definition set_st_reg x (s : rcu) : rcu :=
    Rcu (st_node s) (st_test s) (st_mod s) x (st_fail s) (st_mach s) (st_frames s) (st_ercd s) (st_fresh s)
    (st_out s) (st_report s).
Definition set_st_fail x (s : rcu) : rcu :=
    Rcu (st_node s) (st_test s) (st_mod s) (st_reg s) x (st_mach s) (st_frames s) (st_ercd s) (st_fresh s)
    (st_out s) (st_report s).
Definition set_st_mach x (s : rcu) : rcu :=
    Rcu (st_node s) (st_test s) (st_mod s) (st_reg s) (st_fail s) x (st_frames s) (st_ercd s) (st_fresh s)
    (st_out s) (st_report s).
Definition set_st_frames x (s : rcu) : rcu :=
    Rcu (st_node s) (st_test s) (st_mod s) (st_reg s) (st_fail s) (st_mach s) x (st_ercd s) (st_fresh s)
    (st_out s) (st_report s).
Definition set_st_ercd x (s : rcu) : rcu :=
    Rcu (st_node s) (st_test s) (st_mod s) (st_reg s) (st_fail s) (st_mach s) (st_frames s) x (st_fresh s)
    (st_out s) (st_report s).
Definition set_st_fresh x (s : rcu) : rcu :=
    Rcu (st_node s) (st_test s) (st_mod s) (st_reg s) (st_fail s) (st_mach s) (st_frames s) (st_ercd s) x
    (st_out s) (st_report s).
Definition set_st_out x (s : rcu) : rcu :=
    Rcu (st_node s) (st_test s) (st_mod s) (st_reg s) (st_fail s) (st_mach s) (st_frames s) (st_ercd s)
    (st_fresh s) x (st_report s).
Definition set_st_report x (s : rcu) : rcu :=
    Rcu (st_node s) (st_test s) (st_mod s) (st_reg s) (st_fail s) (st_mach s) (st_frames s) (st_ercd s)
    (st_fresh s) (st_out s) x.

(** ** Memory *)

Definition zero_test : rcu_test := Test "" 1%positive None None RCU_RUN_STAT_NOTTESTED false false 0 0.
Definition zero_module : rcu_module := Mod "" None None 0 0 0 RCU_RUN_STAT_NOTTESTED false false.
Definition zero_registry : rcu_registry := Reg "" 0 0 0.
Definition zero_machine : rcu_test_machine :=
  Mach false None None None None RCU_RUN_LEVEL_MACH RCU_RUN_CTX_UNKNOWN None 0 0 0 0 0.

Definition null_node : rcu_list loc := Node None None.
Definition test_nodes (f : ident) : list loc := [FuncLink f; FuncFails f].
Definition mod_nodes (m : ident) : list loc := [ModLink m; FuncList m; ModFails m].
Definition reg_nodes (r : ident) : list loc := [RegLink r; ModList r].
Definition mach_nodes : list loc := [RegList; AssertList] ++ reg_nodes DEF_REG ++ mod_nodes DEF_MOD.

(** [memset] of the nodes of an object, and the end of their lifetime. *)
Definition clear_nodes (l : list loc) (ns : nodes loc) : nodes loc := foldr (fun x => <[x := null_node]>) ns l.
Definition drop_nodes (l : list loc) (ns : nodes loc) : nodes loc := foldr (fun x => delete x) ns l.

(** The static storage of [the_test_machine] before anything runs. *)
Definition rcu_start : rcu :=
  Rcu (clear_nodes mach_nodes ∅) ∅ {[DEF_MOD := zero_module]} {[DEF_REG := zero_registry]} ∅
      zero_machine 0 RCU_E_NG 2%positive [] [].

Definition nodes_do {A} (m : M (nodes loc) A) : M rcu A := zoom st_node set_st_node m.
Definition mach : M rcu rcu_test_machine := gets st_mach.
Definition upd_mach (g : rcu_test_machine -> rcu_test_machine) : M rcu unit :=
  modify (fun s => set_st_mach (g (st_mach s)) s).
Definition RCU_SET_ERCD (e : rcu_error) : M rcu unit := modify (set_st_ercd e).
Definition emit (o : rcu_output) : M rcu unit := modify (fun s => set_st_out (st_out s ++ [o]) s).

(** An object behind a pointer; [UB] when it is not allocated. *)
Definition object {A} (get : rcu -> gmap ident A) (i : ident) : M rcu A :=
  fun s => match get s !! i with Some a => Ret a s | None => UB end.
Definition test_at := object st_test.
Definition mod_at := object st_mod.
Definition reg_at := object st_reg.
Definition upd_test (f : ident) (g : rcu_test -> rcu_test) : M rcu unit :=
  let! t := test_at f in modify (fun s => set_st_test (<[f := g t]> (st_test s)) s).
Definition upd_mod (m : ident) (g : rcu_module -> rcu_module) : M rcu unit :=
  let! x := mod_at m in modify (fun s => set_st_mod (<[m := g x]> (st_mod s)) s).
Definition upd_reg (r : ident) (g : rcu_registry -> rcu_registry) : M rcu unit :=
  let! x := reg_at r in modify (fun s => set_st_reg (<[r := g x]> (st_reg s)) s).
(** [RCU_INCR] of a counter. *)
Definition bump_test (f : ident) (get : rcu_test -> Z) (set : Z -> rcu_test -> rcu_test) : M rcu unit :=
  let! t := test_at f in let! n := int_add (get t) 1 in upd_test f (set n).
Definition bump_mod (m : ident) (get : rcu_module -> Z) (set : Z -> rcu_module -> rcu_module) : M rcu unit :=
  let! x := mod_at m in let! n := int_add (get x) 1 in upd_mod m (set n).
Definition bump_reg (r : ident) (get : rcu_registry -> Z) (set : Z -> rcu_registry -> rcu_registry) : M rcu unit :=
  let! x := reg_at r in let! n := int_add (get x) 1 in upd_reg r (set n).
(** [RCU_INCR_BY] of a counter of the machine. *)
Definition bump_mach (get : rcu_test_machine -> Z) (set : Z -> rcu_test_machine -> rcu_test_machine) (k : Z) : M rcu unit :=
  let! mc := mach in let! n := int_add (get mc) k in upd_mach (set n).
Definition the {A} (p : option A) : M rcu A := match p with Some x => ret x | None => undefined end.

(** The casts of a cursor to the object whose first field it is. *)
Definition as_reg (c : loc) : M rcu ident := match c with RegLink r => ret r | _ => undefined end.
Definition as_mod (c : loc) : M rcu ident := match c with ModLink m => ret m | _ => undefined end.
Definition as_func (c : loc) : M rcu ident := match c with FuncLink f => ret f | _ => undefined end.
Definition as_fail (c : loc) : M rcu ident := match c with FailLink k => ret k | _ => undefined end.

(** [for_each list cursor: body], where the body never returns from the function. *)
Definition each (list : loc) (body : loc -> M rcu unit) : M rcu unit :=
  let! _ := RCU_FOR_EACH_ENTRY (R := unit) st_node list (fun c => body c ;;; ret (inr c)) in ret tt.
(** The first entry on which the body returns a result. *)
Definition search {A} (list : loc) (body : loc -> M rcu (option A)) : M rcu (option A) :=
  RCU_FOR_EACH_ENTRY st_node list
    (fun c => let! r := body c in ret (match r with Some v => inl v | None => inr c end)).
(** [RCU_SAVE_CURSOR(cursor) body RCU_RESTORE_CURSOR(cursor)] around each entry. *)
Definition each_saved (list : loc) (body : loc -> M rcu unit) : M rcu unit :=
  let! _ := RCU_FOR_EACH_ENTRY (R := unit) st_node list
    (fun c =>
       let! n := nodes_do (load c) in
       body c ;;;
       let! saved := the (prev n) in ret (inr saved)) in
  ret tt.

Definition strncpy_name (cap : nat) (name : string) : string := String.substring 0 cap name.

(** ** Printing *)

Definition nl : string := String (Ascii.ascii_of_nat 10) EmptyString.
Definition quoted (x : string) : string :=
  String (Ascii.ascii_of_nat 34) EmptyString +:+ x +:+ String (Ascii.ascii_of_nat 34) EmptyString.

(** A print operation on the output, with the database to read. *)
Abbreviation printer := (M (rcu * list string) unit).
Definition print (x : string) : printer := modify (fun s => (s.1, (s.2 ++ [x])%list)).

(** ** What the framework is linked with

    The code of the functions a test program registers, whether the [n]-th
    [malloc] succeeds, how [printf] shows a function pointer, whether the report
    file can be opened and what [ctime] shows. *)
Class RcEnv := {
  code : fn -> list action;
  malloc_ok : ident -> bool;
  fmt_ptr : fn -> string;
  report_opens : bool;
  report_time : string
}.

Section Code.
Context `{RcEnv}.

Definition rcu_malloc : M rcu (option ident) :=
  let! i := gets st_fresh in
  modify (set_st_fresh (Pos.succ i)) ;;;
  ret (if malloc_ok i then Some i else None).

Definition rcu_alloc_test_func : M rcu (option ident) :=
  let! p := rcu_malloc in
  match p with
  | Some f =>
      modify (fun s => set_st_test (<[f := zero_test]> (st_test s))
                      (set_st_node (clear_nodes (test_nodes f) (st_node s)) s)) ;;;
      ret (Some f)
  | None => ret None
  end.

Definition rcu_free_test_func (f : ident) : M rcu unit :=
  test_at f ;;;
  modify (fun s => set_st_test (delete f (st_test s)) (set_st_node (drop_nodes (test_nodes f) (st_node s)) s)).

Definition rcu_alloc_test_mod : M rcu (option ident) :=
  let! p := rcu_malloc in
  match p with
  | Some m =>
      modify (fun s => set_st_mod (<[m := zero_module]> (st_mod s))
                      (set_st_node (clear_nodes (mod_nodes m) (st_node s)) s)) ;;;
      ret (Some m)
  | None => ret None
  end.

Definition rcu_free_test_mod (m : ident) : M rcu unit :=
  mod_at m ;;;
  guard (bool_decide (m <> DEF_MOD)) ;;;
  modify (fun s => set_st_mod (delete m (st_mod s)) (set_st_node (drop_nodes (mod_nodes m) (st_node s)) s)).

Definition rcu_alloc_reg : M rcu (option ident) :=
  let! p := rcu_malloc in
  match p with
  | Some r =>
      modify (fun s => set_st_reg (<[r := zero_registry]> (st_reg s))
                      (set_st_node (clear_nodes (reg_nodes r) (st_node s)) s)) ;;;
      ret (Some r)
  | None => ret None
  end.

Definition rcu_free_reg (r : ident) : M rcu unit :=
  reg_at r ;;;
  guard (bool_decide (r <> DEF_REG)) ;;;
  modify (fun s => set_st_reg (delete r (st_reg s)) (set_st_node (drop_nodes (reg_nodes r) (st_node s)) s)).

(** ** The test machine *)

Definition rcu_init_mod (m : ident) (init destroy : option fn) (name : option string) : M rcu rcu_error :=
  match name with
  | None => ret RCU_E_NG
  | Some name =>
      upd_mod m (fun _ => zero_module) ;;;
      modify (fun s => set_st_node (clear_nodes (mod_nodes m) (st_node s)) s) ;;;
      nodes_do (rcu_init_list (Some (ModLink m))) ;;;
      nodes_do (rcu_init_list (Some (FuncList m))) ;;;
      upd_mod m (fun x => Mod (strncpy_name RCU_TEST_MODULE_NAME_LENGTH name) init destroy (m_nr_test x)
                   (m_nr_failed_test x) (m_nr_succ_test x) (m_run_stat x) (m_init_failed x) (m_destroy_failed x)) ;;;
      ret RCU_E_OK
  end.

Definition rcu_init_reg (r : ident) (name : option string) : M rcu rcu_error :=
  match name with
  | None => ret RCU_E_NG
  | Some name =>
      upd_reg r (fun _ => zero_registry) ;;;
      modify (fun s => set_st_node (clear_nodes (reg_nodes r) (st_node s)) s) ;;;
      nodes_do (rcu_init_list (Some (RegLink r))) ;;;
      nodes_do (rcu_init_list (Some (ModList r))) ;;;
      upd_reg r (fun x => Reg (strncpy_name RCU_TEST_REGISTRY_NAME_LENGTH name) (r_nr_mod x)
                   (r_nr_failed_mod x) (r_nr_succ_mod x)) ;;;
      ret RCU_E_OK
  end.

Definition rcu_reg_exists (reg : ident) : M rcu bool :=
  let! r := search RegList (fun c => let! r := as_reg c in
    ret (if bool_decide (r = reg) then Some tt else None)) in
  ret (bool_decide (is_Some r)).

Definition rcu_srch_reg_by_name (name : string) : M rcu (option ident) :=
  search RegList (fun c => let! r := as_reg c in let! x := reg_at r in
    ret (if bool_decide (name = r_name x) then Some r else None)).

(** [rcu_add_test_reg] after its [rcu_init()], which does nothing when
    [rcu_init_test_mach] calls it. *)
Definition add_test_reg (reg : option ident) : M rcu rcu_error :=
  let! mc := mach in
  if negb (mc_init_done mc) then RCU_SET_ERCD RCU_E_MACHNOINIT ;;; ret RCU_E_NG else
  match reg with
  | None => RCU_SET_ERCD RCU_E_INVREG ;;; ret RCU_E_NG
  | Some reg =>
      let! known := rcu_reg_exists reg in
      if known : bool then RCU_SET_ERCD RCU_E_REGEXISTS ;;; ret RCU_E_NG else
      let! x := reg_at reg in
      let! same := rcu_srch_reg_by_name (r_name x) in
      match same with
      | Some _ => RCU_SET_ERCD RCU_E_REGEXISTS ;;; ret RCU_E_NG
      | None =>
          nodes_do (rcu_init_list (Some (RegLink reg))) ;;;
          nodes_do (rcu_insert_list (Some RegList) (Some (RegLink reg))) ;;;
          bump_mach mc_nr_reg set_mc_nr_reg 1 ;;;
          ret RCU_E_OK
      end
  end.

(** [rcu_add_mod_to_reg] after its [rcu_init()]. *)
Definition add_mod_to_reg (reg mod_ : option ident) : M rcu rcu_error :=
  match mod_ with
  | None => RCU_SET_ERCD RCU_E_INVMOD ;;; ret RCU_E_NG
  | Some m =>
      let reg := default DEF_REG reg in
      nodes_do (rcu_init_list (Some (ModLink m))) ;;;
      nodes_do (rcu_insert_list (Some (ModList reg)) (Some (ModLink m))) ;;;
      bump_reg reg r_nr_mod set_r_nr_mod ;;;
      nodes_do (rcu_init_list (Some (ModFails m))) ;;;
      ret RCU_E_OK
  end.

Definition rcu_init_test_mach : M rcu unit :=
  modify (fun s => set_st_mach zero_machine
                  (set_st_reg (<[DEF_REG := zero_registry]> (st_reg s))
                  (set_st_mod (<[DEF_MOD := zero_module]> (st_mod s))
                  (set_st_node (clear_nodes mach_nodes (st_node s)) s)))) ;;;
  nodes_do (rcu_init_list (Some RegList)) ;;;
  nodes_do (rcu_init_list (Some AssertList)) ;;;
  upd_mach (set_mc_init_done true) ;;;
  upd_mach (set_mc_run_ctx RCU_RUN_CTX_UNKNOWN) ;;;
  modify (set_st_frames 0) ;;;
  rcu_init_reg DEF_REG (Some RCU_DEFAULT_REGISTRY_NAME) ;;;
  add_test_reg (Some DEF_REG) ;;;
  rcu_init_mod DEF_MOD None None (Some RCU_DEFAULT_MODULE_NAME) ;;;
  add_mod_to_reg (Some DEF_REG) (Some DEF_MOD) ;;;
  ret tt.

Definition rcu_init : M rcu unit :=
  let! mc := mach in
  if mc_init_done mc then ret tt else rcu_init_test_mach.

Definition rcu_get_default_mod : M rcu ident := rcu_init ;;; ret DEF_MOD.
Definition rcu_get_default_reg : M rcu ident := rcu_init ;;; ret DEF_REG.
Definition rcu_add_test_reg (reg : option ident) : M rcu rcu_error := rcu_init ;;; add_test_reg reg.
Definition rcu_add_mod_to_reg (reg mod_ : option ident) : M rcu rcu_error := rcu_init ;;; add_mod_to_reg reg mod_.
Definition rcu_add_test_mod (mod_ : option ident) : M rcu rcu_error :=
  rcu_init ;;; let! reg := rcu_get_default_reg in rcu_add_mod_to_reg (Some reg) mod_.
Definition rcu_set_run_hook (hook : option fn) : M rcu rcu_error :=
  rcu_init ;;; upd_mach (set_mc_run_hook hook) ;;; ret RCU_E_OK.
Definition rcu_set_assert_hook (hook : option fn) : M rcu rcu_error :=
  rcu_init ;;;
  match hook with Some _ => upd_mach (set_mc_assert_hook hook) | None => ret tt end ;;;
  ret RCU_E_OK.

(** ** Modules and registries *)

Definition rcu_cre_test_mod (name : option string) (init destroy : option fn) : M rcu (option ident) :=
  rcu_init ;;;
  let! p := rcu_alloc_test_mod in
  match p with
  | None => RCU_SET_ERCD RCU_E_NOMEM ;;; ret None
  | Some m =>
      if bool_decide (name = Some RCU_DEFAULT_MODULE_NAME) then
        RCU_SET_ERCD RCU_E_INVMODNAME ;;; rcu_free_test_mod m ;;; ret None
      else
        let! ercd := rcu_init_mod m init destroy name in
        if bool_decide (ercd = RCU_E_NG) then rcu_free_test_mod m ;;; ret None else ret (Some m)
  end.

Definition rcu_cre_test_reg (name : option string) : M rcu (option ident) :=
  rcu_init ;;;
  let! p := rcu_alloc_reg in
  match p with
  | None => RCU_SET_ERCD RCU_E_NOMEM ;;; ret None
  | Some r =>
      if bool_decide (name = Some RCU_DEFAULT_REGISTRY_NAME) then
        RCU_SET_ERCD RCU_E_INVREGNAME ;;; rcu_free_reg r ;;; ret None
      else
        let! ercd := rcu_init_reg r name in
        if bool_decide (ercd = RCU_E_NG) then rcu_free_reg r ;;; ret None else ret (Some r)
  end.

Definition rcu_srch_mod_by_name_global (name : string) : M rcu (option (ident * ident)) :=
  search RegList (fun c => let! r := as_reg c in
    search (ModList r) (fun c => let! m := as_mod c in let! x := mod_at m in
      ret (if bool_decide (m_name x = name) then Some (m, r) else None))).

Definition rcu_get_mod (name : option string) : M rcu (option ident) :=
  rcu_init ;;;
  match name with
  | None => ret None
  | Some n =>
      let! found := rcu_srch_mod_by_name_global n in
      match found with
      | Some (m, _) => ret (Some m)
      | None =>
          let! m := rcu_cre_test_mod name None None in
          rcu_add_test_mod m ;;;
          ret m
      end
  end.

Definition rcu_get_reg (name : option string) : M rcu (option ident) :=
  match name with
  | None => ret None
  | Some n =>
      rcu_init ;;;
      let! found := rcu_srch_reg_by_name n in
      match found with
      | Some r => ret (Some r)
      | None =>
          let! r := rcu_cre_test_reg name in
          rcu_add_test_reg r ;;;
          ret r
      end
  end.

Definition rcu_set_mod_fxt (m : ident) (setup teardown : option fn) : M rcu unit :=
  upd_mod m (fun x => Mod (m_name x) setup teardown (m_nr_test x) (m_nr_failed_test x) (m_nr_succ_test x)
                        (m_run_stat x) (m_init_failed x) (m_destroy_failed x)).

Definition rcu_destroy_test_mod (mod_ : option ident) : M rcu rcu_error :=
  rcu_init ;;;
  match mod_ with
  | None => RCU_SET_ERCD RCU_E_INVMOD ;;; ret RCU_E_NG
  | Some m =>
      mod_at m ;;;
      each_saved (FuncList m) (fun c =>
        let! f := as_func c in
        nodes_do (rcu_remove_list (Some c)) ;;;
        rcu_free_test_func f) ;;;
      nodes_do (rcu_remove_list (Some (ModLink m))) ;;;
      let! x := mod_at m in
      (if bool_decide (m_name x = RCU_DEFAULT_MODULE_NAME) then ret tt else rcu_free_test_mod m) ;;;
      ret RCU_E_OK
  end.

Definition rcu_destroy_test_reg (reg : option ident) : M rcu rcu_error :=
  rcu_init ;;;
  match reg with
  | None => RCU_SET_ERCD RCU_E_INVREG ;;; ret RCU_E_NG
  | Some r =>
      reg_at r ;;;
      each_saved (ModList r) (fun c =>
        let! m := as_mod c in
        nodes_do (rcu_remove_list (Some c)) ;;;
        rcu_destroy_test_mod (Some m) ;;; ret tt) ;;;
      nodes_do (rcu_remove_list (Some (RegLink r))) ;;;
      let! x := reg_at r in
      (if bool_decide (r_name x = RCU_DEFAULT_REGISTRY_NAME) then ret tt else rcu_free_reg r) ;;;
      ret RCU_E_OK
  end.

Definition rcu_destroy_test_dbase : M rcu rcu_error :=
  let! mc := mach in
  if negb (mc_init_done mc) then ret RCU_E_NG else
  each_saved RegList (fun c =>
    let! r := as_reg c in
    nodes_do (rcu_remove_list (Some c)) ;;;
    rcu_destroy_test_reg (Some r) ;;; ret tt) ;;;
  ret RCU_E_OK.

(** ** Tests *)

(** The name of a test, as a C string: [name[255]] has no room for the end of a
    name of 255 characters. *)
Definition test_name (f : ident) : M rcu string :=
  let! t := test_at f in
  guard (String.length (t_name t) <? RCU_TEST_FUNCTION_NAME_LENGTH)%nat ;;;
  ret (t_name t).

Definition rcu_srch_test_func_entry (m : ident) (entry : fn) : M rcu (option ident) :=
  search (FuncList m) (fun c => let! f := as_func c in let! t := test_at f in
    ret (if bool_decide (t_entry t = entry) then Some f else None)).

Definition rcu_srch_test_func_by_name (m : ident) (name : string) : M rcu (option ident) :=
  search (FuncList m) (fun c => let! f := as_func c in let! n := test_name f in
    ret (if bool_decide (n = name) then Some f else None)).

Definition rcu_add_test_func (mod_ : option ident) (entry init destroy : option fn) (name : option string)
    : M rcu rcu_error :=
  rcu_init ;;;
  match entry with
  | None => RCU_SET_ERCD RCU_E_INVFUNCENTRY ;;; ret RCU_E_NG
  | Some entry =>
      let! m := match mod_ with None => rcu_get_default_mod | Some m => ret m end in
      mod_at m ;;;
      let! similar := rcu_srch_test_func_entry m entry in
      match similar with Some f => test_name f ;;; ret tt | None => ret tt end ;;;
      let! p := rcu_alloc_test_func in
      match p with
      | None => RCU_SET_ERCD RCU_E_NOMEM ;;; ret RCU_E_NG
      | Some f =>
          nodes_do (rcu_init_list (Some (FuncLink f))) ;;;
          upd_test f (fun t =>
            Test (strncpy_name RCU_TEST_FUNCTION_NAME_LENGTH (default (fmt_ptr entry) name)) entry init destroy
                 (t_run_stat t) (t_init_failed t) (t_destroy_failed t) (t_nr_fail_assert t) (t_nr_succ_assert t)) ;;;
          nodes_do (rcu_init_list (Some (FuncFails f))) ;;;
          nodes_do (rcu_insert_list (Some (FuncList m)) (Some (FuncLink f))) ;;;
          upd_test f (set_t_run_stat RCU_RUN_STAT_NOTTESTED) ;;;
          bump_mod m m_nr_test set_m_nr_test ;;;
          ret RCU_E_OK
      end
  end.

Definition rcu_add_test (test : option fn) : M rcu rcu_error :=
  let! m := rcu_get_default_mod in rcu_add_test_func (Some m) test None None None.
Definition rcu_add_test_to_mod (mod_ : option ident) (test : option fn) : M rcu rcu_error :=
  rcu_add_test_func mod_ test None None None.
Definition rcu_add_test_fxt (test setup teardown : option fn) : M rcu rcu_error :=
  let! m := rcu_get_default_mod in rcu_add_test_func (Some m) test setup teardown None.
Definition rcu_add_test_fxt_to_mod (mod_ : option ident) (test setup teardown : option fn) : M rcu rcu_error :=
  let! m := rcu_get_default_mod in rcu_add_test_func (Some m) test setup teardown None.

(** A row of a test function table: the table ends at a null name. *)
Record rcu_test_function_entry := FuncEntry {
  fe_name : string; fe_entry : option fn; fe_init : option fn; fe_destroy : option fn }.

Definition rcu_add_test_func_tbl (mod_ : option ident) (tbl : option (list rcu_test_function_entry))
    : M rcu rcu_error :=
  rcu_init ;;;
  let! mc := mach in
  if negb (mc_init_done mc) then RCU_SET_ERCD RCU_E_MACHNOINIT ;;; ret RCU_E_NG else
  match tbl with
  | None => RCU_SET_ERCD RCU_E_INVFUNCTABLE ;;; ret RCU_E_NG
  | Some tbl =>
      let! m := match mod_ with None => rcu_get_default_mod | Some m => ret m end in
      foldM (fun _ e =>
        match fe_entry e with
        | Some _ => rcu_add_test_func (Some m) (fe_entry e) (fe_init e) (fe_destroy e) (Some (fe_name e)) ;;; ret tt
        | None => ret tt
        end) tbl tt ;;;
      ret RCU_E_OK
  end.

Record rcu_module_entry := ModEntry {
  me_name : string; me_init : option fn; me_destroy : option fn;
  me_func_tbl : option (list rcu_test_function_entry) }.

Definition rcu_add_test_mod_tbl (reg : option ident) (tbl : option (list rcu_module_entry)) : M rcu rcu_error :=
  rcu_init ;;;
  match tbl with
  | None => RCU_SET_ERCD RCU_E_INVMODTABLE ;;; ret RCU_E_NG
  | Some tbl =>
      foldM (fun _ e =>
        match me_func_tbl e with
        | None => ret tt
        | Some ft =>
            let! m := rcu_cre_test_mod (Some (me_name e)) (me_init e) (me_destroy e) in
            match m with
            | None => ret tt
            | Some _ =>
                let! ercd := rcu_add_mod_to_reg reg m in
                if bool_decide (ercd = RCU_E_NG) then rcu_destroy_test_mod m ;;; ret tt
                else rcu_add_test_func_tbl m (Some ft) ;;; ret tt
            end
        end) tbl tt ;;;
      ret RCU_E_OK
  end.

(** ** Failure records *)

(** [snprintf] into [g_temp_buff[1024]]. *)
Definition fail_info (filename : string) (line : Z) (info : string) : string :=
  String.substring 0 1023 (filename ++ "(" ++ pretty line ++ ") : " ++ info).

(** The record and its text are two allocations; the record goes when the text
    cannot be allocated. *)
Definition rcu_cre_fail_rec (info filename : string) (line : Z) : M rcu (option ident) :=
  let! p := rcu_malloc in
  match p with
  | None => ret None
  | Some k =>
      modify (fun s => set_st_node (clear_nodes [FailLink k] (st_node s)) s) ;;;
      let! q := rcu_malloc in
      match q with
      | None => modify (fun s => set_st_node (drop_nodes [FailLink k] (st_node s)) s) ;;; ret None
      | Some _ =>
          nodes_do (rcu_init_list (Some (FailLink k))) ;;;
          modify (fun s => set_st_fail (<[k := fail_info filename line info]> (st_fail s)) s) ;;;
          ret (Some k)
      end
  end.

Definition rcu_add_fail_rec_impl (list : loc) (info filename : string) (line : Z) : M rcu rcu_error :=
  let! p := rcu_cre_fail_rec info filename line in
  match p with
  | None => ret RCU_E_NG
  | Some k =>
      nodes_do (rcu_insert_list (Some list) (Some (FailLink k))) ;;;
      let! mc := mach in
      match mc_run_ctx mc, mc_assert_hook mc with
      | RCU_RUN_CTX_UNKNOWN, Some hook => emit (AssertHook hook k)
      | _, _ => ret tt
      end ;;;
      ret RCU_E_OK
  end.

Definition rcu_add_fail_rec_to_func (f : ident) := rcu_add_fail_rec_impl (FuncFails f).
Definition rcu_add_fail_rec_to_mod (m : ident) := rcu_add_fail_rec_impl (ModFails m).

Definition free_fail_rec (k : ident) : M rcu unit :=
  object st_fail k ;;;
  modify (fun s => set_st_fail (delete k (st_fail s)) (set_st_node (drop_nodes [FailLink k] (st_node s)) s)).

Definition rcu_del_all_fail_rec_impl (list : loc) : M rcu rcu_error :=
  each_saved list (fun c =>
    let! k := as_fail c in
    nodes_do (rcu_remove_list (Some c)) ;;;
    free_fail_rec k) ;;;
  ret RCU_E_OK.

Definition rcu_del_all_fail_rec_from_func (f : ident) := rcu_del_all_fail_rec_impl (FuncFails f).
Definition rcu_del_all_fail_rec_from_mod (m : ident) := rcu_del_all_fail_rec_impl (ModFails m).

Definition rcu_del_all_fail_rec : M rcu rcu_error :=
  each RegList (fun c =>
    let! r := as_reg c in
    each (ModList r) (fun c =>
      let! m := as_mod c in
      each (FuncList m) (fun c => let! f := as_func c in rcu_del_all_fail_rec_from_func f ;;; ret tt) ;;;
      rcu_del_all_fail_rec_from_mod m ;;; ret tt)) ;;;
  rcu_del_all_fail_rec_impl AssertList ;;;
  ret RCU_E_OK.

(** ** Assertions *)

(** [RCU_THROW]: the jump needs an exception frame. *)
Definition RCU_THROW (id : rcu_exception_id) : M rcu (option rcu_exception_id) :=
  let! d := gets st_frames in
  guard (0 <? d)%nat ;;;
  ret (Some (rcu_lookup_excp_by_id id)).

Definition SET_RUN_CTX (ctx : run_ctx) : M rcu unit := upd_mach (set_mc_run_ctx ctx).

(** The exception it throws, if any. *)
Definition rcu_assert_impl (cond : bool) (filename func_name : string) (line : Z) (msg : string)
    : M rcu (option rcu_exception_id) :=
  rcu_init ;;;
  let! mc := mach in
  match mc_run_ctx mc with
  | RCU_RUN_CTX_MOD_INIT | RCU_RUN_CTX_MOD_DESTROY =>
      if cond then ret None else
      let! m := the (mc_curr_mod mc) in
      (if bool_decide (mc_run_ctx mc = RCU_RUN_CTX_MOD_INIT)
       then upd_mod m (set_m_init_failed true) else upd_mod m (set_m_destroy_failed true)) ;;;
      rcu_add_fail_rec_to_mod m msg filename line ;;;
      SET_RUN_CTX RCU_RUN_CTX_UNKNOWN ;;;
      RCU_THROW RCU_EXCP_ABORTMODRUN
  | RCU_RUN_CTX_FUNC_INIT | RCU_RUN_CTX_FUNC_DESTROY =>
      if cond then ret None else
      let! f := the (mc_curr_func mc) in
      (if bool_decide (mc_run_ctx mc = RCU_RUN_CTX_MOD_INIT)
       then upd_test f (set_t_init_failed true) else upd_test f (set_t_destroy_failed true)) ;;;
      rcu_add_fail_rec_to_func f msg filename line ;;;
      SET_RUN_CTX RCU_RUN_CTX_UNKNOWN ;;;
      RCU_THROW RCU_EXCP_ASSERTIONFAILURE
  | RCU_RUN_CTX_FUNC =>
      let! f := the (mc_curr_func mc) in
      let! name := test_name f in
      (if bool_decide (name = "set_on_run") then
         guard (String.length func_name <? RCU_TEST_FUNCTION_NAME_LENGTH)%nat ;;;
         upd_test f (set_t_name func_name)
       else ret tt) ;;;
      if cond then
        bump_test f t_nr_succ_assert set_t_nr_succ_assert ;;; ret None
      else
        bump_test f t_nr_fail_assert set_t_nr_fail_assert ;;;
        upd_test f (set_t_run_stat RCU_RUN_STAT_TEST_FAILED) ;;;
        rcu_add_fail_rec_to_func f msg filename line ;;;
        SET_RUN_CTX RCU_RUN_CTX_UNKNOWN ;;;
        RCU_THROW RCU_EXCP_ASSERTIONFAILURE
  | RCU_RUN_CTX_UNKNOWN =>
      (if cond then ret tt else rcu_add_fail_rec_impl AssertList msg filename line ;;; ret tt) ;;;
      ret None
  end.

Definition rcu_have_asserts : M rcu bool :=
  rcu_init ;;; let! e := nodes_do (rcu_is_list_empty (Some AssertList)) in ret (negb e).

(** A call of a registered function: it ends at its first exception. *)
Fixpoint perform (acts : list action) : M rcu (option rcu_exception_id) :=
  match acts with
  | [] => ret None
  | Assert cond filename func_name line msg :: acts =>
      let! e := rcu_assert_impl cond filename func_name line msg in
      match e with Some _ => ret e | None => perform acts end
  | Signal signo :: _ =>
      let! d := gets st_frames in
      guard (0 <? d)%nat ;;;
      ret (Some (rcu_sig_handler signo))
  end.
Definition call (f : fn) : M rcu (option rcu_exception_id) := perform (code f).

(** [RCU_TRY body RCU_CATCH]: the exception the body ended with. *)
Definition RCU_TRY (body : M rcu (option rcu_exception_id)) : M rcu (option rcu_exception_id) :=
  let! outer := gets st_frames in
  modify (set_st_frames (S outer)) ;;;
  let! e := body in
  modify (set_st_frames outer) ;;;
  ret e.

(** ** The runner *)

Definition rcu_run_test_func_impl (f : ident) : M rcu rcu_error :=
  upd_test f (set_t_run_stat RCU_RUN_STAT_TEST_FAILED) ;;;
  upd_mach (set_mc_curr_func (Some f)) ;;;
  upd_test f (set_t_nr_fail_assert 0) ;;;
  upd_test f (set_t_nr_succ_assert 0) ;;;
  let! t := test_at f in
  let! setup :=
    match t_init t with
    | Some init => SET_RUN_CTX RCU_RUN_CTX_FUNC_INIT ;;; RCU_TRY (call init)
    | None => ret None
    end in
  match setup with
  | Some _ => ret RCU_E_NG
  | None =>
      SET_RUN_CTX RCU_RUN_CTX_FUNC ;;;
      RCU_TRY (let! e := call (t_entry t) in
               match e with
               | None => upd_test f (set_t_run_stat RCU_RUN_STAT_TEST_SUCC) ;;; ret None
               | Some _ => ret e
               end) ;;;
      let! t := test_at f in
      (if bool_decide (t_run_stat t = RCU_RUN_STAT_TEST_SUCC) then
         test_name f ;;;
         if (t_nr_succ_assert t =? 0) && (t_nr_fail_assert t =? 0)
         then upd_test f (set_t_run_stat RCU_RUN_STAT_TEST_FAILED)
         else ret tt
       else ret tt) ;;;
      let! teardown :=
        match t_destroy t with
        | Some destroy => SET_RUN_CTX RCU_RUN_CTX_FUNC_DESTROY ;;; RCU_TRY (call destroy)
        | None => ret None
        end in
      ret (match teardown with Some _ => RCU_E_NG | None => RCU_E_OK end)
  end.

(** The run hook, at the level where it is called. *)
Definition call_run_hook (started : bool) : M rcu unit :=
  let! mc := mach in
  match mc_run_hook mc with Some hook => emit (RunHook hook started) | None => ret tt end.
Definition hook_at (level : run_level) (started : bool) : M rcu unit :=
  let! mc := mach in
  if bool_decide (mc_run_level mc = level) then call_run_hook started else ret tt.

Definition reset_mach_counters (mc : rcu_test_machine) : rcu_test_machine :=
  set_mc_nr_failed_reg 0 (set_mc_nr_succ_reg 0 (set_mc_nr_failed_test 0 (set_mc_nr_succ_test 0 mc))).

(** The counting of one test, after its run. *)
Definition count_test (m f : ident) : M rcu unit :=
  let! t := test_at f in
  if t_init_failed t || t_destroy_failed t then
    upd_test f (set_t_run_stat RCU_RUN_STAT_TEST_FAILED) ;;;
    bump_mod m m_nr_failed_test set_m_nr_failed_test
  else if bool_decide (t_run_stat t = RCU_RUN_STAT_TEST_FAILED) then
    bump_mod m m_nr_failed_test set_m_nr_failed_test
  else bump_mod m m_nr_succ_test set_m_nr_succ_test.

Definition rcu_run_test_mod_impl (m : ident) : M rcu rcu_error :=
  let! mc := mach in
  (if bool_decide (mc_run_level mc = RCU_RUN_LEVEL_MOD) then
     call_run_hook true ;;;
     upd_mach reset_mach_counters ;;;
     upd_mod m (fun x => set_m_nr_failed_test 0 (set_m_nr_succ_test 0 x))
   else ret tt) ;;;
  let! x := mod_at m in
  let! setup :=
    match m_init x with
    | Some init => RCU_TRY (SET_RUN_CTX RCU_RUN_CTX_MOD_INIT ;;; call init)
    | None => ret None
    end in
  match setup with
  | Some _ => hook_at RCU_RUN_LEVEL_MOD false ;;; ret RCU_E_NG
  | None =>
      each (FuncList m) (fun c =>
        let! f := as_func c in
        rcu_run_test_func_impl f ;;;
        count_test m f) ;;;
      let! x := mod_at m in
      let! teardown :=
        match m_destroy x with
        | Some destroy => SET_RUN_CTX RCU_RUN_CTX_MOD_DESTROY ;;; RCU_TRY (call destroy)
        | None => ret None
        end in
      hook_at RCU_RUN_LEVEL_MOD false ;;;
      match teardown with
      | Some _ => ret RCU_E_NG
      | None =>
          upd_mod m (fun x => set_m_run_stat
            (if m_nr_failed_test x =? 0 then RCU_RUN_STAT_TEST_SUCC else RCU_RUN_STAT_TEST_FAILED) x) ;;;
          let! x := mod_at m in
          bump_mach mc_nr_failed_test set_mc_nr_failed_test (m_nr_failed_test x) ;;;
          bump_mach mc_nr_succ_test set_mc_nr_succ_test (m_nr_succ_test x) ;;;
          ret RCU_E_OK
      end
  end.

(** The counting of one module, after its run. *)
Definition count_mod (r m : ident) : M rcu unit :=
  let! x := mod_at m in
  if m_init_failed x || m_destroy_failed x then
    upd_mod m (set_m_run_stat RCU_RUN_STAT_TEST_FAILED) ;;;
    each (FuncList m) (fun c =>
      let! f := as_func c in
      upd_test f (set_t_run_stat RCU_RUN_STAT_TEST_FAILED) ;;;
      upd_test f (set_t_nr_fail_assert 0) ;;;
      upd_test f (set_t_nr_succ_assert 0) ;;;
      rcu_del_all_fail_rec_from_func f ;;; ret tt)
  else if bool_decide (m_run_stat x = RCU_RUN_STAT_TEST_FAILED) then
    bump_reg r r_nr_failed_mod set_r_nr_failed_mod
  else bump_reg r r_nr_succ_mod set_r_nr_succ_mod.

Definition rcu_run_test_reg_impl (r : ident) : M rcu rcu_error :=
  let! mc := mach in
  (if bool_decide (mc_run_level mc = RCU_RUN_LEVEL_REG) then
     call_run_hook true ;;;
     upd_mach reset_mach_counters ;;;
     upd_reg r (fun x => set_r_nr_failed_mod 0 (set_r_nr_succ_mod 0 x))
   else ret tt) ;;;
  each (ModList r) (fun c =>
    let! m := as_mod c in
    upd_mach (set_mc_curr_mod (Some m)) ;;;
    rcu_run_test_mod_impl m ;;;
    count_mod r m) ;;;
  hook_at RCU_RUN_LEVEL_REG false ;;;
  let! x := reg_at r in
  (if 0 <? r_nr_failed_mod x
   then bump_mach mc_nr_failed_reg set_mc_nr_failed_reg 1
   else bump_mach mc_nr_succ_reg set_mc_nr_succ_reg 1) ;;;
  ret RCU_E_OK.

Definition rcu_run_tests_impl : M rcu rcu_error :=
  call_run_hook true ;;;
  each RegList (fun c =>
    let! r := as_reg c in
    upd_mach (set_mc_curr_reg (Some r)) ;;;
    rcu_run_test_reg_impl r ;;; ret tt) ;;;
  call_run_hook false ;;;
  ret RCU_E_OK.

(** Loops that also change something of the caller's, [T]. *)
Definition reading {T A} (m : M rcu A) : M (rcu * T) A := zoom fst (fun a x => (a, x.2)) m.
Definition each_in {T} (h : loc) (body : loc -> M (rcu * T) unit) : M (rcu * T) unit :=
  let! _ := RCU_FOR_EACH_ENTRY (R := unit) (fun x => st_node x.1) h (fun c => body c ;;; ret (inr c)) in
  ret tt.
Definition starting {T} (t : T) (m : M (rcu * T) unit) : M rcu T :=
  fun s => match m (s, t) with Ret _ (s', t') => Ret t' s' | UB => UB end.
(** One more entry in the [int] of the caller. *)
Definition count_entry : M (rcu * Z) unit :=
  let! n := gets snd in let! n := int_add n 1 in modify (fun x => (x.1, n)).

Definition rcu_get_nr_tests : M rcu Z :=
  rcu_init ;;;
  starting 0 (each_in RegList (fun c =>
    let! r := reading (as_reg c) in
    each_in (ModList r) (fun c =>
      let! m := reading (as_mod c) in
      each_in (FuncList m) (fun _ => count_entry)))).

Definition rcu_destroy_test_mach : M rcu unit :=
  rcu_del_all_fail_rec ;;;
  rcu_destroy_test_dbase ;;;
  upd_mach (set_mc_init_done false).

Definition rcu_destroy : M rcu rcu_error :=
  let! mc := mach in
  (if mc_init_done mc then rcu_destroy_test_mach else ret tt) ;;;
  ret RCU_E_OK.

(** ** The plain text report *)

(** A loop with an index: [RCU_FOR_EACH_ENTRY_WITH_CURSOR_INDEX].  The index, an
    [int], is a number here: it counts the entries of one list. *)
Definition each_index (h : loc) (body : Z -> loc -> printer) : printer :=
  fun s =>
    match RCU_FOR_EACH_ENTRY (R := unit) (fun x => st_node x.1.1) h (fun c =>
            let! i := gets snd in
            zoom fst (fun a x => (a, x.2)) (body i c) ;;;
            modify (fun x => (x.1, x.2 + 1)) ;;;
            ret (inr c)) (s, 0)
    with
    | Ret _ (s', _) => Ret tt s'
    | UB => UB
    end.


Definition rcu_get_stat_str (stat : run_stat) : string :=
  match stat with
  | RCU_RUN_STAT_NOTTESTED => "Ignored"
  | RCU_RUN_STAT_TEST_SUCC => "Passed"
  | RCU_RUN_STAT_TEST_FAILED => "Failed"
  end.

Definition RCU_PLAINTEXT_LINE_WIDTH : nat := 80.
Definition RCU_LINE_MARKER_1 : string := "========================================".
Definition RCU_VERSION_STRING : string := "1.0".

Definition rcu_print_char (ch : string) (nr_chars : nat) : printer :=
  foldM (fun _ _ => print ch) (seq 0 nr_chars) tt.
Definition rcu_indent (nr_spaces : nat) : printer := foldM (fun _ _ => print " ") (seq 0 nr_spaces) tt.

(** The text of [ctime] without its line feed; the buffer has 32 bytes, and
    [ctime] writes 26. *)
Definition rcu_get_timestamp (ctime : string) : string := String.substring 0 (String.length ctime - 1) ctime.

Definition report_fail (pre post : string) (c : loc) : printer :=
  let! k := reading (as_fail c) in
  rcu_indent 12 ;;;
  let! info := reading (object st_fail k) in
  print (pre +:+ info +:+ post +:+ nl).

Definition report_test (c : loc) : printer :=
  let! f := reading (as_func c) in
  rcu_indent 8 ;;;
  let! t := reading (test_at f) in
  let! name := reading (test_name f) in
  print ("[test = " +:+ quoted name +:+ ", result = " +:+ rcu_get_stat_str (t_run_stat t) +:+ "]" +:+ nl) ;;;
  (if (t_nr_succ_assert t =? 0) && (t_nr_fail_assert t =? 0) && bool_decide (t_run_stat t = RCU_RUN_STAT_TEST_SUCC)
   then rcu_indent 12 ;;; print ("[failure = No assertions executed!]" +:+ nl) else ret tt) ;;;
  each_in (FuncFails f) (report_fail "[failure = " "]").

Definition report_mod (reg_no mod_no : Z) (c : loc) : printer :=
  let! m := reading (as_mod c) in
  rcu_indent 4 ;;;
  let! x := reading (mod_at m) in
  print (pretty reg_no +:+ "." +:+ pretty mod_no +:+ " [module = " +:+ quoted (m_name x) +:+ ", " +:+
         pretty (m_nr_test x) +:+ " tests]" +:+ nl) ;;;
  each_in (ModFails m) (report_fail "" "") ;;;
  each_in (FuncList m) report_test.

Definition report_reg (reg_no : Z) (c : loc) : printer :=
  let! r := reading (as_reg c) in
  let! x := reading (reg_at r) in
  print (pretty reg_no +:+ ". [registry = " +:+ quoted (r_name x) +:+ ", " +:+ pretty (r_nr_mod x) +:+
         " modules]" +:+ nl) ;;;
  each_index (ModList r) (report_mod reg_no).

(** [fopen_ok]: the file could be opened; [ctime]: the time at the end. *)
Definition rcu_gen_plaintext_report (fopen_ok : bool) (ctime : string) : M (rcu * list string) rcu_error :=
  let title := "RCUNIT Test Run Report"%string in
  let sub_title := "http://github.com/jecklgamis/rcunit"%string in
  if negb fopen_ok then ret RCU_E_NG else
  print (RCU_LINE_MARKER_1 +:+ RCU_LINE_MARKER_1 +:+ nl) ;;;
  rcu_print_char " " ((RCU_PLAINTEXT_LINE_WIDTH - String.length title) / 2) ;;;
  print (title +:+ nl) ;;;
  rcu_print_char " " ((RCU_PLAINTEXT_LINE_WIDTH - String.length sub_title) / 2) ;;;
  print (sub_title +:+ nl) ;;;
  print (RCU_LINE_MARKER_1 +:+ RCU_LINE_MARKER_1 +:+ nl) ;;;
  each_index RegList report_reg ;;;
  let! mc := reading mach in
  print (nl +:+ "Test Run Results: Passed : " +:+ pretty (mc_nr_succ_test mc) +:+ "  Failed : " +:+
         pretty (mc_nr_failed_test mc) +:+ nl) ;;;
  (if mc_nr_failed_test mc =? 0 then print ("Test successful!" +:+ nl) else print ("Test failed!" +:+ nl)) ;;;
  print (nl +:+ RCU_LINE_MARKER_1 +:+ RCU_LINE_MARKER_1 +:+ nl) ;;;
  print ("Generated last " +:+ rcu_get_timestamp ctime +:+ " by RCUNIT version " +:+ RCU_VERSION_STRING +:+
         "." +:+ nl +:+ nl) ;;;
  ret RCU_E_OK.

(** The file is emptied when it is opened. *)
Definition rcu_gen_test_run_report : M rcu unit :=
  fun s =>
  match rcu_gen_plaintext_report report_opens report_time (s, []) with
  | Ret RCU_E_OK (s', text) => Ret tt (set_st_report text s')
  | Ret _ (s', _) => Ret tt s'
  | UB => UB
  end.

(** ** Runs *)

Definition rcu_run_test_mach : M rcu rcu_error :=
  rcu_init ;;;
  upd_mach (set_mc_run_level RCU_RUN_LEVEL_MACH) ;;;
  rcu_run_tests_impl ;;;
  rcu_gen_test_run_report ;;;
  let! mc := mach in
  let! nr_tests := (if mc_nr_failed_reg mc =? 0 then rcu_get_nr_tests else ret 0) in
  emit (Verdict ((mc_nr_failed_reg mc =? 0) && (0 <? nr_tests))) ;;;
  rcu_destroy ;;;
  let! mc := mach in
  ret (if 0 <? mc_nr_failed_reg mc then RCU_E_NG else RCU_E_OK).

Definition rcu_run_tests : M rcu rcu_error := rcu_run_test_mach.

Definition rcu_reset_all_run_stat : M rcu unit :=
  each RegList (fun c =>
    let! r := as_reg c in
    each (ModList r) (fun c =>
      let! m := as_mod c in
      each (FuncList m) (fun c =>
        let! f := as_func c in upd_test f (set_t_run_stat RCU_RUN_STAT_NOTTESTED)))).

Definition rcu_run_test_mod (mod_ : option ident) : M rcu rcu_error :=
  rcu_init ;;;
  let m := default DEF_MOD mod_ in
  upd_mach (set_mc_run_level RCU_RUN_LEVEL_MOD) ;;;
  upd_mach (set_mc_curr_mod (Some m)) ;;;
  rcu_reset_all_run_stat ;;;
  rcu_run_test_mod_impl m ;;;
  rcu_gen_test_run_report ;;;
  ret RCU_E_OK.

Definition rcu_run_test_mod_by_name (name : option string) : M rcu rcu_error :=
  rcu_init ;;;
  let! m := match name with
            | None => let! m := rcu_get_default_mod in ret (Some m)
            | Some n => let! found := rcu_srch_mod_by_name_global n in ret (fst <$> found)
            end in
  match m with
  | None => RCU_SET_ERCD RCU_E_INVMOD ;;; ret RCU_E_NG
  | Some _ => rcu_run_test_mod m
  end.

Definition rcu_run_test_reg_unsupported (reg : option ident) : M rcu rcu_error :=
  rcu_init ;;;
  upd_mach (set_mc_run_level RCU_RUN_LEVEL_REG) ;;;
  let r := default DEF_REG reg in
  let! known := rcu_reg_exists r in
  if negb known then RCU_SET_ERCD RCU_E_UNKNOWNREG ;;; reg_at r ;;; ret RCU_E_NG else
  upd_mach (set_mc_curr_reg (Some r)) ;;;
  let! ercd := rcu_run_test_reg_impl r in
  if bool_decide (ercd = RCU_E_NG) then ret RCU_E_NG else
  rcu_gen_test_run_report ;;;
  ret RCU_E_OK.

Definition rcu_run_test_reg_by_name (name : option string) : M rcu rcu_error :=
  rcu_init ;;;
  let! r := match name with
            | None => let! r := rcu_get_default_reg in ret (Some r)
            | Some n => rcu_srch_reg_by_name n
            end in
  match r with
  | None => RCU_SET_ERCD RCU_E_INVREG ;;; ret RCU_E_NG
  | Some _ => rcu_run_test_reg_unsupported r
  end.

(** ** A test program

    The [main] of a test program of the repository: [add_test(fn)] for each of
    its tests, then [rcu_run_tests()]. *)
Definition add_test (fn_name : fn * string) : M rcu rcu_error :=
  rcu_add_test_func None (Some fn_name.1) None None (Some fn_name.2).
Definition test_main (tests : list (fn * string)) : M rcu rcu_error :=
  foldM (fun _ t => add_test t ;;; ret tt) tests tt ;;;
  rcu_run_tests.
End Code.
