(* ===== verification/Excp.v ===== *)
(** * Excp: the exceptions of rcunit

    [RCU_TRY], [RCU_CATCH] and [RCU_THROW] (rcunit_exception.h) with the jumps
    they are made of: a stack of frames through [g_curr_excp_frame], the contexts
    [sigsetjmp] saves, and the signal actions that [rcu_sig_save],
    [rcu_sig_catch] and [rcu_sig_restore] (rcunit_exception.c) exchange.  The
    theorem is that they are structured exceptions: [RcUnit] models them so. *)

From S2P Require Import Prelude RcList RcUnit.

#[local] Open Scope list_scope.

(** ** The code *)

(** What the system does on a signal: [rcu_sig_handler], or something else. *)
Inductive disposition := RcuSigHandler | OtherAction (n : Z).
Record actions := Actions {
  act_segv : disposition; act_ill : disposition; act_fpe : disposition; act_bus : disposition
}.
Definition action_of (signo : signal) (a : actions) : disposition :=
  match signo with
  | SIGSEGV => act_segv a | SIGILL => act_ill a | SIGFPE => act_fpe a | SIGBUS => act_bus a
  end.

(** The numbers of the signals a mask holds. *)
Definition SIGINT : Z := 2.
Definition SIGALRM : Z := 14.
Definition SIGTERM : Z := 15.
Definition number_of (signo : signal) : Z :=
  match signo with SIGSEGV => 11 | SIGILL => 4 | SIGFPE => 8 | SIGBUS => 7 end.

(** A frame is a local of the block that [RCU_TRY] opens.  [env], the context
    [sigsetjmp] fills, belongs to the same block; it has the signal mask. *)
Record rcu_exception_frame := Frame {
  excp : option rcu_exception_id;
  env_mask : gset Z;
  outer : option positive;
  acts_old : actions
}.
Definition set_excp (id : rcu_exception_id) (f : rcu_exception_frame) : rcu_exception_frame :=
  Frame (Some id) (env_mask f) (outer f) (acts_old f).

Record emach := EMach {
  g_curr_excp_frame : option positive;
  em_frames : gmap positive rcu_exception_frame;   (** the frames of open blocks *)
  em_actions : actions;
  em_mask : gset Z;
  em_next : positive;
  em_out : list Z                                  (** what the program did *)
}.
Definition set_curr x (s : emach) : emach :=
  EMach x (em_frames s) (em_actions s) (em_mask s) (em_next s) (em_out s).
Definition set_frames x (s : emach) : emach :=
  EMach (g_curr_excp_frame s) x (em_actions s) (em_mask s) (em_next s) (em_out s).
Definition set_actions x (s : emach) : emach :=
  EMach (g_curr_excp_frame s) (em_frames s) x (em_mask s) (em_next s) (em_out s).
Definition set_mask x (s : emach) : emach :=
  EMach (g_curr_excp_frame s) (em_frames s) (em_actions s) x (em_next s) (em_out s).
Definition set_next_frame x (s : emach) : emach :=
  EMach (g_curr_excp_frame s) (em_frames s) (em_actions s) (em_mask s) x (em_out s).
Definition set_out x (s : emach) : emach :=
  EMach (g_curr_excp_frame s) (em_frames s) (em_actions s) (em_mask s) (em_next s) x.

(** Programs with try blocks.  A handler gets the exception and whether it was
    thrown or a signal. *)
Inductive stmt :=
| Step (n : Z)
| Throw (id : rcu_exception_id)
| Fault (signo : signal)
| Seq (p q : stmt)
| Try (body : stmt) (handler : rcu_exception_id -> Z -> stmt).

Definition RCU_EXCEPTION_TYPE_THROW : Z := 1.
Definition RCU_EXCEPTION_TYPE_CORE : Z := 10.

(** How a statement ends: it falls through, it jumps to the context of a frame,
    or a signal ends the process. *)
Inductive flow := Next | Jump (env : positive) (retcode : Z) | Killed (signo : signal).

(** A frame that is read or written must be alive. *)
Definition frame_at (f : option positive) : M emach (positive * rcu_exception_frame) :=
  match f with
  | None => undefined
  | Some i => fun s => match em_frames s !! i with Some x => Ret (i, x) s | None => UB end
  end.

(** [g_curr_excp_frame->excp = e; siglongjmp] of its [env]. *)
Definition jump (id : rcu_exception_id) (retcode : Z) : M emach flow :=
  let! g := gets g_curr_excp_frame in
  let! (i, f) := frame_at g in
  modify (fun s => set_frames (<[i := set_excp id f]> (em_frames s)) s) ;;;
  ret (Jump i retcode).

Definition rcu_sig_save (i : positive) : M emach unit :=
  let! (i, f) := frame_at (Some i) in
  modify (fun s => set_frames (<[i := Frame (excp f) (env_mask f) (outer f)
    (Actions (action_of SIGSEGV (em_actions s)) (action_of SIGILL (em_actions s))
             (action_of SIGFPE (em_actions s)) (action_of SIGBUS (em_actions s)))]> (em_frames s)) s).

Definition rcu_sig_restore (i : positive) : M emach unit :=
  let! (_, f) := frame_at (Some i) in
  modify (set_actions (Actions (act_segv (acts_old f)) (act_ill (acts_old f))
                               (act_fpe (acts_old f)) (act_bus (acts_old f)))).

(** While a handler runs, the three signals of its mask and its own are blocked. *)
Definition rcu_sig_catch : M emach unit :=
  modify (set_actions (Actions RcuSigHandler RcuSigHandler RcuSigHandler RcuSigHandler)).
Definition handler_mask (signo : signal) (mask : gset Z) : gset Z :=
  mask ∪ {[SIGINT; SIGALRM; SIGTERM; number_of signo]}.

(** A fault of the program.  A blocked fault, or one with another action, ends
    the process as far as the framework is concerned. *)
Definition fault (signo : signal) : M emach flow :=
  let! s := get in
  match action_of signo (em_actions s) with
  | RcuSigHandler =>
      if bool_decide (number_of signo ∈ em_mask s) then ret (Killed signo) else
      modify (fun s => set_mask (handler_mask signo (em_mask s)) s) ;;;
      jump (rcu_sig_handler signo) RCU_EXCEPTION_TYPE_CORE
  | OtherAction _ => ret (Killed signo)
  end.

(** [RCU_TRY] up to the body: the frame of the block. *)
Definition unset : actions := Actions (OtherAction 0) (OtherAction 0) (OtherAction 0) (OtherAction 0).
Definition try_enter : M emach positive :=
  let! i := gets em_next in
  modify (set_next_frame (Pos.succ i)) ;;;
  modify (fun s => set_frames (<[i := Frame None ∅ (g_curr_excp_frame s) unset]> (em_frames s)) s) ;;;
  modify (set_curr (Some i)) ;;;
  rcu_sig_save i ;;;
  let! (_, f) := frame_at (Some i) in
  modify (fun s => set_frames (<[i := Frame (excp f) (em_mask s) (outer f) (acts_old f)]> (em_frames s)) s) ;;;
  ret i.

(** [RCU_CATCH] up to the handler. *)
Definition try_leave (i : positive) : M emach rcu_exception_frame :=
  let! (_, f) := frame_at (Some i) in
  modify (set_curr (outer f)) ;;;
  rcu_sig_restore i ;;;
  ret f.

(** The end of the block: the frame is gone. *)
Definition try_end (i : positive) : M emach unit :=
  modify (fun s => set_frames (delete i (em_frames s)) s).

Fixpoint exec_stmt (p : stmt) : M emach flow :=
  match p with
  | Step n => modify (fun s => set_out (em_out s ++ [n]) s) ;;; ret Next
  | Throw id => jump (rcu_lookup_excp_by_id id) RCU_EXCEPTION_TYPE_THROW
  | Fault signo => fault signo
  | Seq p q => let! r := exec_stmt p in match r with Next => exec_stmt q | _ => ret r end
  | Try body handler =>
      let! i := try_enter in
      rcu_sig_catch ;;;
      let! r := exec_stmt body in
      match r with
      | Next => try_leave i ;;; try_end i ;;; ret Next
      | Jump j retcode =>
          if decide (j = i) then
            let! (_, f) := frame_at (Some i) in
            modify (set_mask (env_mask f)) ;;;
            let! f := try_leave i in
            match excp f with
            | None => undefined
            | Some e => let! r := exec_stmt (handler e retcode) in try_end i ;;; ret r
            end
          else try_end i ;;; ret r
      | Killed _ => ret r
      end
  end.

(** ** Structured exceptions

    What the blocks mean, without frames, jumps and signal actions: the steps
    done, and how the statement ends. *)
Inductive ending := Normal | Raised (e : rcu_exception_id) (retcode : Z).

Fixpoint meaning (p : stmt) : list Z * ending :=
  match p with
  | Step n => ([n], Normal)
  | Throw id => ([], Raised (rcu_lookup_excp_by_id id) RCU_EXCEPTION_TYPE_THROW)
  | Fault signo => ([], Raised (rcu_sig_handler signo) RCU_EXCEPTION_TYPE_CORE)
  | Seq p q =>
      match meaning p with
      | (l, Normal) => (l ++ (meaning q).1, (meaning q).2)
      | r => r
      end
  | Try body handler =>
      match meaning body with
      | (l, Normal) => (l, Normal)
      | (l, Raised e c) => (l ++ (meaning (handler e c)).1, (meaning (handler e c)).2)
      end
  end.

(** ** Proofs *)

(** Frames of open blocks are older than the next one, and faults are not
    blocked. *)
Record em_ok (s : emach) : Prop := {
  em_fresh i : is_Some (em_frames s !! i) -> (i < em_next s)%positive;
  em_top i : g_curr_excp_frame s = Some i -> (i < em_next s)%positive;
  em_open signo : number_of signo ∉ em_mask s;
}.

(** Inside a block: the current frame is alive and the handler installed. *)
Definition caught (s : emach) : Prop :=
  (exists i f, g_curr_excp_frame s = Some i /\ em_frames s !! i = Some f) /\
  em_actions s = Actions RcuSigHandler RcuSigHandler RcuSigHandler RcuSigHandler.

(** A later state with the same signal actions and frames. *)
Record resumed (s s' : emach) (l : list Z) : Prop := {
  re_curr : g_curr_excp_frame s' = g_curr_excp_frame s;
  re_frames : em_frames s' = em_frames s;
  re_actions : em_actions s' = em_actions s;
  re_mask : em_mask s' = em_mask s;
  re_next : (em_next s <= em_next s')%positive;
  re_out : em_out s' = em_out s ++ l;
}.

(** A later state that jumps to the current frame. *)
Record jumped (s s' : emach) (l : list Z) (e : rcu_exception_id) (i : positive) : Prop := {
  ju_curr : g_curr_excp_frame s = Some i;
  ju_frame : exists f, em_frames s !! i = Some f /\ em_frames s' = <[i := set_excp e f]> (em_frames s);
  ju_next : (em_next s <= em_next s')%positive;
  ju_out : em_out s' = em_out s ++ l;
}.

Definition ends (s : emach) (m : list Z * ending) (r : flow) (s' : emach) : Prop :=
  match m.2 with
  | Normal => r = Next /\ resumed s s' m.1
  | Raised e c => exists i, r = Jump i c /\ jumped s s' m.1 e i
  end.

Lemma resumed_ok s s' l : resumed s s' l -> em_ok s -> em_ok s'.
Proof.
  intros [E1 E2 E3 E4 Hn _] [Hf Ht Ho]. constructor; [| |by rewrite E4].
  - intros i. rewrite E2. intros Hi%Hf. lia.
  - intros i. rewrite E1. intros Hi%Ht. lia.
Qed.

Lemma resumed_caught s s' l : resumed s s' l -> caught s -> caught s'.
Proof. intros [E1 E2 E3 _ _ _]. unfold caught. by rewrite E1, E2, E3. Qed.

Lemma ends_after s s1 l m r s' : resumed s s1 l -> ends s1 m r s' -> ends s (l ++ m.1, m.2) r s'.
Proof.
  intros [E1 E2 E3 E4 Hn E5]. unfold ends. cbn. destruct m.2.
  - intros [-> [? ? ? ? ? Eo]]. split; [done|]. split; try congruence; [lia|]. by rewrite Eo, E5, app_assoc.
  - intros (i & -> & [Hc [f Hf] Hn' Eo]). exists i. split; [done|]. split; [congruence| |lia|by rewrite Eo, E5, app_assoc].
    exists f. by rewrite <- E2.
Qed.

Lemma wp_frame_at i f (Q : _ -> emach -> Prop) s :
  em_frames s !! i = Some f -> Q (i, f) s -> wp (frame_at (Some i)) Q s.
Proof. intros E HQ. unfold wp, frame_at. by rewrite E. Qed.

Lemma wp_jump e c s : caught s -> wp (jump e c) (ends s ([], Raised e c)) s.
Proof.
  intros [(i & f & Hi & Hf) _]. apply wp_bind, wp_gets, wp_bind. rewrite Hi. eapply wp_frame_at; [done|].
  apply wp_bind, wp_modify. wp_step. exists i. split; [done|]. constructor; [done| |cbn; lia|cbn; by rewrite app_nil_r].
  by exists f.
Qed.

Lemma wp_fault signo s :
  em_ok s -> caught s -> wp (fault signo) (ends s ([], Raised (rcu_sig_handler signo) RCU_EXCEPTION_TYPE_CORE)) s.
Proof.
  intros Hok [Hc Ha]. apply wp_bind. unfold wp at 1, get. rewrite Ha.
  assert (action_of signo (Actions RcuSigHandler RcuSigHandler RcuSigHandler RcuSigHandler) = RcuSigHandler) as ->
    by by destruct signo.
  rewrite bool_decide_false by apply (em_open _ Hok). apply wp_bind, wp_modify.
  eapply wp_conseq; [by apply wp_jump|]. intros r s' (i & -> & [? ? ? ?]). by exists i.
Qed.

(** Entering a block: the frame that is pushed has all that leaving needs. *)
Lemma wp_try_enter (Q : positive -> emach -> Prop) s :
  em_ok s ->
  (forall i f, em_frames s !! i = None -> (i < Pos.succ i)%positive -> i = em_next s ->
     f = Frame None (em_mask s) (g_curr_excp_frame s) (em_actions s) ->
     Q i (EMach (Some i) (<[i := f]> (em_frames s)) (em_actions s) (em_mask s) (Pos.succ i) (em_out s))) ->
  wp try_enter Q s.
Proof.
  intros [Hf _ _] HQ. unfold try_enter, rcu_sig_save.
  assert (em_frames s !! em_next s = None) as Hn.
  { destruct (em_frames s !! em_next s) eqn:E; [|done]. specialize (Hf (em_next s)). rewrite E in Hf.
    specialize (Hf ltac:(by eexists)). lia. }
  apply wp_bind, wp_gets, wp_bind, wp_modify, wp_bind, wp_modify, wp_bind, wp_modify, wp_bind, wp_bind.
  eapply wp_frame_at; [apply lookup_insert_eq|]. apply wp_modify, wp_bind.
  eapply wp_frame_at; [apply lookup_insert_eq|]. apply wp_bind, wp_modify. wp_step. cbn. rewrite !insert_insert_eq.
  apply HQ; [done|lia|done|]. by destruct (em_actions s).
Qed.

(** Leaving a block, with its frame [f] still there. *)
Lemma wp_try_leave i f (Q : rcu_exception_frame -> emach -> Prop) s :
  em_frames s !! i = Some f ->
  Q f (EMach (outer f) (em_frames s) (acts_old f) (em_mask s) (em_next s) (em_out s)) ->
  wp (try_leave i) Q s.
Proof.
  intros Hf HQ. apply wp_bind. eapply wp_frame_at; [done|]. apply wp_bind, wp_modify, wp_bind.
  unfold rcu_sig_restore. apply wp_bind. eapply wp_frame_at; [done|]. apply wp_modify. wp_step.
  cbn. by destruct (acts_old f).
Qed.

(** What a handler leaves behind, once the frame of the block is gone. *)
Lemma ends_pop s s2 i l m r s' :
  em_frames s !! i = None -> g_curr_excp_frame s2 = g_curr_excp_frame s ->
  (exists f, em_frames s2 = <[i := f]> (em_frames s)) -> g_curr_excp_frame s <> Some i ->
  em_actions s2 = em_actions s -> em_mask s2 = em_mask s -> (em_next s <= em_next s2)%positive ->
  em_out s2 = em_out s ++ l -> ends s2 m r s' ->
  ends s (l ++ m.1, m.2) r (set_frames (delete i (em_frames s')) s').
Proof.
  intros Hi Ec [f Ef] Hne Ea Em Hn Eo. unfold ends. cbn. destruct m.2 as [|e c].
  - intros [-> [Rc Rf Ra Rm Rn Ro]]. split; [done|]. split; cbn; try congruence; [|lia|].
    + rewrite Rf, Ef. by apply delete_insert_id.
    + by rewrite Ro, Eo, app_assoc.
  - intros (j & -> & [Jc (g & Jf & Jf') Jn Jo]). exists j. split; [done|]. rewrite Ec in Jc.
    assert (i <> j) as Hij by congruence. split; cbn; [done| |lia|by rewrite Jo, Eo, app_assoc].
    exists g. rewrite Ef, lookup_insert_ne in Jf by done. split; [done|].
    rewrite Jf', Ef, insert_insert_ne by done. rewrite delete_insert_id; [done|]. by rewrite lookup_insert_ne.
Qed.

(** [p] runs as it means from states where it ends normally or is caught. *)
Definition runs_as_meant (p : stmt) : Prop :=
  forall s, em_ok s -> (meaning p).2 = Normal \/ caught s -> wp (exec_stmt p) (ends s (meaning p)) s.

Lemma wp_exec_try body handler :
  runs_as_meant body -> (forall e c, runs_as_meant (handler e c)) -> runs_as_meant (Try body handler).
Proof.
  intros IHb IHh s Hok Hr. cbn [exec_stmt meaning].
  apply wp_bind, wp_try_enter; [done|]. intros i f Hi _ Ei Ef. apply wp_bind, wp_modify.
  match goal with |- wp _ _ ?x => set (s1 := x) end.
  assert (em_ok s1) as Hok1.
  { destruct Hok as [Hf _ Ho]. constructor; cbn; [|intros j [= <-]; lia|done].
    intros j [->|Hj%Hf]%lookup_insert_is_Some'; lia. }
  assert (caught s1) as Hc1 by (split; [exists i, f; cbn; by rewrite lookup_insert_eq|done]).
  apply wp_bind. eapply wp_conseq; [apply IHb; [done|by right]|]. intros r s2 H2.
  cbn [meaning] in Hr. unfold ends in H2. destruct (meaning body) as [l [|e c]]; cbn [fst snd] in *.
  - destruct H2 as [-> [Rc Rf Ra Rm Rn Ro]]. cbn in *. apply wp_bind. eapply (wp_try_leave i f).
    { by rewrite Rf, lookup_insert_eq. }
    apply wp_bind, wp_modify. wp_step. subst f. split; [done|]. split; cbn; try congruence; [|lia].
    rewrite Rf. by apply delete_insert_id.
  - destruct H2 as (j & -> & [Jc (g & Jf & Jf') Jn Jo]). cbn in *. injection Jc as <-.
    rewrite lookup_insert_eq in Jf. injection Jf as <-. rewrite insert_insert_eq in Jf'.
    rewrite decide_True by done. apply wp_bind. eapply wp_frame_at; [by rewrite Jf', lookup_insert_eq|].
    apply wp_bind, wp_modify, wp_bind. eapply (wp_try_leave i (set_excp e f)); [cbn; by rewrite Jf', lookup_insert_eq|].
    subst f. cbn [excp set_excp outer acts_old env_mask em_frames em_mask em_next em_out set_mask].
    match goal with |- wp _ _ ?x => set (s3 := x) end.
    assert (g_curr_excp_frame s <> Some i) as Hne by (intros E%(em_top _ Hok); lia).
    apply wp_bind. eapply wp_conseq; [apply IHh|].
    + destruct Hok as [Hf Ht Ho]. constructor; cbn; [rewrite Jf'|intros j Hj%Ht; lia|done].
      intros j [->|Hj%Hf]%lookup_insert_is_Some'; lia.
    + destruct Hr as [?|[(j & g & Hj & Hg) Ha]]; [by left|right]. split; [|done]. exists j, g. split; [done|].
      cbn. rewrite Jf', lookup_insert_ne; [done|]. congruence.
    + intros r s4 H4. apply wp_bind, wp_modify. wp_step. eapply (ends_pop s s3); try done; [|cbn; lia].
      eexists. cbn. exact Jf'.
Qed.

Lemma wp_exec_stmt p : runs_as_meant p.
Proof.
  induction p as [n|id|signo|p IHp q IHq|body IHb handler IHh]; [..|by apply wp_exec_try];
    intros s Hok Hr; cbn [exec_stmt meaning].
  - apply wp_bind, wp_modify. wp_step. split; [done|]. by constructor.
  - destruct Hr as [?|Hr]; [done|]. by apply wp_jump.
  - destruct Hr as [?|Hr]; [done|]. by apply wp_fault.
  - cbn [meaning] in Hr. apply wp_bind. unfold runs_as_meant in IHp. destruct (meaning p) as [l [|e c]]; cbn [fst snd] in *.
    + eapply wp_conseq; [apply IHp; auto|]. intros r s1 [-> H1]. eapply wp_conseq; [apply IHq|].
      * by eapply resumed_ok.
      * destruct Hr as [?|Hr]; [by left|right]. by eapply resumed_caught.
      * intros r s2. by apply ends_after.
    + destruct Hr as [?|Hr]; [done|]. eapply wp_conseq; [apply IHp; auto|]. intros r s1 (i & -> & H1). wp_step. by exists i.
Qed.

(** C38: The try blocks of rcunit are structured exceptions.  A statement built of
    steps, throws, faults and nested try blocks runs without undefined behaviour
    and does the steps of its meaning, when it ends normally or runs inside a
    block: a throw or a signal ends the innermost block that is open, with its
    exception and its kind, and the handler runs outside it.  At the end the
    current frame, the frames of the open blocks, the four signal actions and the
    signal mask are those of the start; a statement that ends with an exception
    jumps to the frame around it. *)
Theorem exceptions_are_structured (p : stmt) (s : emach) :
  em_ok s -> (meaning p).2 = Normal \/ caught s ->
  exists r s', exec_stmt p s = Ret r s' /\ ends s (meaning p) r s'.
Proof. intros Hok Hr. by apply wp_elim, wp_exec_stmt. Qed.

(** ** Witness: the block inside fails on a signal, its handler throws, and the
    outer block, which catches that, fails again inside another block. *)
Definition toy_blocks : stmt :=
  Try (Seq (Step 1) (Seq (Try (Seq (Step 2) (Seq (Fault SIGSEGV) (Step 3)))
                              (fun e _ => Seq (Step 4) (Throw RCU_EXCP_INVPARAM)))
                         (Step 5)))
      (fun e c => Seq (Step c) (Seq (Try (Fault SIGBUS) (fun _ c => Step c)) (Step 6))).
Definition toy_start : emach :=
  EMach None ∅ (Actions (OtherAction 1) (OtherAction 2) (OtherAction 3) (OtherAction 4)) {[2]} 1 [].

Lemma exceptions_are_structured_witness :
  exists s', exec_stmt toy_blocks toy_start = Ret Next s' /\ em_out s' = [1; 2; 4; 1; 10; 6] /\
    em_actions s' = em_actions toy_start /\ em_mask s' = em_mask toy_start /\ em_frames s' = ∅.
Proof.
  destruct (exceptions_are_structured toy_blocks toy_start) as (r & s' & E & -> & [_ Ef Ea Em _ Eo]).
  - constructor; [by intros i []|done|]. intros []; vm_compute; discriminate.
  - left. reflexivity.
  - exists s'. split; [exact E|]. split; [exact Eo|]. split; [exact Ea|]. split; [exact Em|exact Ef].
Defined.

(** Outside every block a throw is undefined and a fault ends the process. *)
Lemma throw_needs_a_block id s : g_curr_excp_frame s = None -> exec_stmt (Throw id) s = UB.
Proof. intros E. cbn. unfold jump, bind, gets. by rewrite E. Qed.
