(* ===== verification/RcDb.v ===== *)
(** * RcDb: the well-formed test database of rcunit

    When a heap of list nodes and objects is a test database, and what the steps
    of the framework on objects, lists and failure records do to it. *)

From stdpp Require Import pretty.
From S2P Require Import Prelude RcList RcUnit.
Open Scope list_scope.
Open Scope Z_scope.

(** ** The database *)

(** The heads of failure lists. *)
Definition is_fails (h : loc) : bool :=
  match h with AssertList | ModFails _ | FuncFails _ => true | _ => false end.

(** The entries a list may have. *)
Definition typed (h x : loc) : Prop :=
  match h, x with
  | RegList, RegLink _ | ModList _, ModLink _ | FuncList _, FuncLink _
  | AssertList, FailLink _ | ModFails _, FailLink _ | FuncFails _, FailLink _ => True
  | _, _ => False
  end.

Definition name_ok (t : rcu_test) : Prop := (String.length (t_name t) < RCU_TEST_FUNCTION_NAME_LENGTH)%nat.

Abbreviation lists := (gmap loc (list loc)).

(** The object of an entry is allocated and its own lists are initialised; only
    the default module and registry have the reserved names. *)
Definition live (s : rcu) (hs : lists) (x : loc) : Prop :=
  match x with
  | RegLink r =>
      (exists x, st_reg s !! r = Some x /\ (r_name x = RCU_DEFAULT_REGISTRY_NAME <-> r = DEF_REG)) /\
      is_Some (hs !! ModList r)
  | ModLink m =>
      (exists x, st_mod s !! m = Some x /\ (m_name x = RCU_DEFAULT_MODULE_NAME <-> m = DEF_MOD)) /\
      is_Some (hs !! FuncList m) /\ is_Some (hs !! ModFails m)
  | FuncLink f => (exists t, st_test s !! f = Some t /\ name_ok t) /\ is_Some (hs !! FuncFails f)
  | FailLink k => is_Some (st_fail s !! k)
  | _ => False
  end.

Definition node_id (x : loc) : ident :=
  match x with
  | RegList | AssertList => 1
  | RegLink i | ModList i | ModLink i | FuncList i | ModFails i | FuncLink i | FuncFails i | FailLink i => i
  end.

Record db (s : rcu) (hs : lists) : Prop := {
  db_rings : rings (st_node s) hs;
  db_regs : is_Some (hs !! RegList);
  db_asserts : is_Some (hs !! AssertList);
  db_typed : forall h l x, hs !! h = Some l -> x ∈ l -> typed h x;
  db_live : forall h l x, hs !! h = Some l -> x ∈ l -> live s hs x;
  db_fresh : forall x, is_Some (st_node s !! x) -> (node_id x < st_fresh s)%positive
}.

(** The database [hs0], with whatever failure records. *)
Record agree (hs0 hs : lists) : Prop := {
  agree_lists : forall h, is_fails h = false -> hs !! h = hs0 !! h;
  agree_dom : forall h, is_Some (hs !! h) <-> is_Some (hs0 !! h)
}.
Definition holds (hs0 : lists) (s : rcu) : Prop := exists hs, db s hs /\ agree hs0 hs.

Lemma agree_refl hs : agree hs hs.
Proof. by split. Qed.

Lemma agree_trans hs1 hs2 hs3 : agree hs1 hs2 -> agree hs2 hs3 -> agree hs1 hs3.
Proof. intros [A1 D1] [A2 D2]. split; intros; [rewrite A2, A1 by done; done|rewrite D2; apply D1]. Qed.

Lemma agree_insert hs h l : is_fails h = true -> is_Some (hs !! h) -> agree hs (<[h := l]> hs).
Proof.
  intros Hf Hs. split.
  - intros h' Hh'. rewrite lookup_insert_ne; [done|]. intros ->. congruence.
  - intros h'. destruct (decide (h = h')) as [->|]; [by rewrite lookup_insert_eq|by rewrite lookup_insert_ne].
Qed.

Lemma db_holds s hs : db s hs -> holds hs s.
Proof. intros. exists hs. split; [done|apply agree_refl]. Qed.

(** The objects of [s] are still allocated in [s']. *)
Record keeps (s s' : rcu) : Prop := {
  kp_reg : forall r x, st_reg s !! r = Some x -> exists x', st_reg s' !! r = Some x' /\ r_name x' = r_name x;
  kp_mod : forall m x, st_mod s !! m = Some x -> exists x', st_mod s' !! m = Some x' /\ m_name x' = m_name x;
  kp_test : forall f t, st_test s !! f = Some t -> name_ok t -> exists t', st_test s' !! f = Some t' /\ name_ok t';
  kp_fail : forall k, is_Some (st_fail s !! k) -> is_Some (st_fail s' !! k)
}.

Lemma live_mono s s' hs hs' x :
  keeps s s' -> (forall h, is_Some (hs !! h) -> is_Some (hs' !! h)) -> live s hs x -> live s' hs' x.
Proof.
  intros [R Mo T F] Hh. destruct x; cbn; try done.
  - intros [(x&(x'&?&E)%R&?) ?]. split; [|auto]. exists x'. by rewrite E.
  - intros ((x&(x'&?&E)%Mo&?)&?&?). split_and!; [|auto..]. exists x'. by rewrite E.
  - intros [(t&?&?) ?]. split; [by eapply T|auto].
  - apply F.
Qed.

(** Two states with the same lists and the same allocated objects. *)
Record same_shape (s s' : rcu) : Prop := {
  ss_keeps : keeps s s';
  ss_node : st_node s' = st_node s;
  ss_fresh : st_fresh s' = st_fresh s
}.

Lemma db_shape s s' hs : same_shape s s' -> db s hs -> db s' hs.
Proof.
  intros [Hk Hn Hf] [R A B T L F]. split; [by rewrite Hn|done|done|done|..].
  - intros h l x Hh Hx. eapply live_mono; eauto.
  - intros x. rewrite Hn, Hf. apply F.
Qed.

Lemma keeps_same s s' :
  st_reg s' = st_reg s -> st_mod s' = st_mod s -> st_test s' = st_test s -> st_fail s' = st_fail s -> keeps s s'.
Proof. intros E1 E2 E3 E4. split; intros; rewrite ?E1, ?E2, ?E3, ?E4; eauto. Qed.

Lemma shape_test s f t g :
  st_test s !! f = Some t -> (name_ok t -> name_ok (g t)) ->
  same_shape s (set_st_test (<[f := g t]> (st_test s)) s).
Proof.
  intros Hf Hn. split; [|done..]. split; cbn; eauto. intros f' t' Hf' Ht'.
  destruct (decide (f = f')) as [->|].
  - rewrite lookup_insert_eq. simplify_eq. eauto.
  - rewrite lookup_insert_ne by done. eauto.
Qed.

Lemma shape_mod s m x x' :
  st_mod s !! m = Some x -> m_name x' = m_name x -> same_shape s (set_st_mod (<[m := x']> (st_mod s)) s).
Proof.
  intros Hx Hn. split; [|done..]. split; cbn; eauto. intros m' y Hm'.
  destruct (decide (m = m')) as [->|]; [rewrite lookup_insert_eq; simplify_eq; eauto|].
  rewrite lookup_insert_ne by done. eauto.
Qed.

Lemma shape_reg s r x x' :
  st_reg s !! r = Some x -> r_name x' = r_name x -> same_shape s (set_st_reg (<[r := x']> (st_reg s)) s).
Proof.
  intros Hx Hn. split; [|done..]. split; cbn; eauto. intros r' y Hr'.
  destruct (decide (r = r')) as [->|]; [rewrite lookup_insert_eq; simplify_eq; eauto|].
  rewrite lookup_insert_ne by done. eauto.
Qed.

Lemma holds_shape s s' hs0 : same_shape s s' -> holds hs0 s -> holds hs0 s'.
Proof. intros Hs (hs & Hd & Ha). exists hs. split; [by eapply db_shape|done]. Qed.

Lemma holds_list hs0 s h l :
  holds hs0 s -> hs0 !! h = Some l -> is_fails h = false -> ring (st_node s) h l.
Proof.
  intros (hs & Hd & Ha) Hh Hf. apply (db_rings _ _ Hd). by rewrite (agree_lists _ _ Ha).
Qed.

Lemma holds_live hs0 s h l x :
  holds hs0 s -> hs0 !! h = Some l -> is_fails h = false -> x ∈ l -> typed h x /\ live s hs0 x.
Proof.
  intros (hs & Hd & Ha) Hh Hf Hx. rewrite <- (agree_lists _ _ Ha) in Hh by done.
  split; [by eapply db_typed|]. pose proof (db_live _ _ Hd _ _ _ Hh Hx) as HL.
  destruct Ha as [_ Hdom]. destruct x; cbn in *; rewrite <- ?Hdom; done.
Qed.

(** ** Steps *)

Lemma wp_object {A} (get : rcu -> gmap ident A) i a Q s : get s !! i = Some a -> Q a s -> wp (object get i) Q s.
Proof. unfold wp, object. by intros ->. Qed.

Lemma wp_the {A} (x : A) Q s : Q x s -> wp (the (Some x)) Q s.
Proof. done. Qed.

Lemma wp_upd_test f t g Q s :
  st_test s !! f = Some t -> Q tt (set_st_test (<[f := g t]> (st_test s)) s) -> wp (upd_test f g) Q s.
Proof. intros. apply wp_bind, (wp_object _ _ t); [done|]. by wp_steps. Qed.

Lemma wp_upd_mod m x g Q s :
  st_mod s !! m = Some x -> Q tt (set_st_mod (<[m := g x]> (st_mod s)) s) -> wp (upd_mod m g) Q s.
Proof. intros. apply wp_bind, (wp_object _ _ x); [done|]. by wp_steps. Qed.

Lemma wp_upd_reg r x g Q s :
  st_reg s !! r = Some x -> Q tt (set_st_reg (<[r := g x]> (st_reg s)) s) -> wp (upd_reg r g) Q s.
Proof. intros. apply wp_bind, (wp_object _ _ x); [done|]. by wp_steps. Qed.

(** The counters. *)
Lemma wp_bump_test f t get set Q s :
  st_test s !! f = Some t -> get t < INT_MAX ->
  Q tt (set_st_test (<[f := set (get t + 1) t]> (st_test s)) s) -> wp (bump_test f get set) Q s.
Proof. intros. apply wp_bind, (wp_object _ _ t); [done|]. apply wp_bind, wp_int_add; [lia|]. by apply (wp_upd_test _ t). Qed.

Lemma wp_bump_mod m x get set Q s :
  st_mod s !! m = Some x -> get x < INT_MAX ->
  Q tt (set_st_mod (<[m := set (get x + 1) x]> (st_mod s)) s) -> wp (bump_mod m get set) Q s.
Proof. intros. apply wp_bind, (wp_object _ _ x); [done|]. apply wp_bind, wp_int_add; [lia|]. by apply (wp_upd_mod _ x). Qed.

Lemma wp_bump_reg r x get set Q s :
  st_reg s !! r = Some x -> get x < INT_MAX ->
  Q tt (set_st_reg (<[r := set (get x + 1) x]> (st_reg s)) s) -> wp (bump_reg r get set) Q s.
Proof. intros. apply wp_bind, (wp_object _ _ x); [done|]. apply wp_bind, wp_int_add; [lia|]. by apply (wp_upd_reg _ x). Qed.

Lemma wp_bump_mach get set k Q s :
  get (st_mach s) + k <= INT_MAX ->
  Q tt (set_st_mach (set (get (st_mach s) + k) (st_mach s)) s) -> wp (bump_mach get set k) Q s.
Proof. intros. apply wp_bind, wp_gets, wp_bind, wp_int_add; [lia|]. by apply wp_modify. Qed.

Lemma wp_test_name f t Q s : st_test s !! f = Some t -> name_ok t -> Q (t_name t) s -> wp (test_name f) Q s.
Proof.
  intros. apply wp_bind, (wp_object _ _ t); [done|]. apply wp_bind, wp_guard; [|by wp_steps].
  apply Nat.ltb_lt. done.
Qed.

(** A list of the database is traversed as the sequence it holds. *)
Lemma wp_each hs0 h l body (J : list loc -> rcu -> Prop) (Q : unit -> rcu -> Prop) s :
  hs0 !! h = Some l -> is_fails h = false ->
  (forall d s, J d s -> holds hs0 s) ->
  (forall d x t s, l = d ++ x :: t -> J d s -> wp (body x) (fun _ => J (d ++ [x])) s) ->
  (forall s, J l s -> Q tt s) -> J [] s -> wp (each h body) Q s.
Proof.
  intros Hh Hf HJ Hb HQ H0. apply wp_bind.
  apply (wp_traverse _ _ _ _ J l); [|intros d x t s' -> Hd|intros s' Hl; wp_steps; by apply HQ|done].
  - intros d s' Hd. by eapply holds_list; eauto.
  - apply wp_bind. eapply wp_conseq; [by eapply Hb|]. intros [] s'' Hs''. by wp_steps.
Qed.

(** ** Nodes *)

Lemma nx_clear ns l x : x ∉ l -> nx (clear_nodes l ns) x = nx ns x /\ pv (clear_nodes l ns) x = pv ns x.
Proof.
  unfold nx, pv. intros Hx. induction l as [|y l IH]; cbn; [done|]. rewrite lookup_insert_ne by set_solver.
  apply IH. set_solver.
Qed.

Lemma nx_drop ns l x : x ∉ l -> nx (drop_nodes l ns) x = nx ns x /\ pv (drop_nodes l ns) x = pv ns x.
Proof.
  unfold nx, pv. intros Hx. induction l as [|y l IH]; cbn; [done|]. rewrite lookup_delete_ne by set_solver.
  apply IH. set_solver.
Qed.

Lemma dom_clear ns l x : is_Some (clear_nodes l ns !! x) <-> x ∈ l \/ is_Some (ns !! x).
Proof.
  induction l as [|y l IH]; cbn; [set_solver|].
  destruct (decide (y = x)) as [->|].
  - rewrite lookup_insert_eq. split; [by left; left|done].
  - rewrite lookup_insert_ne, IH by done. set_solver.
Qed.

Lemma dom_drop ns l x : is_Some (drop_nodes l ns !! x) <-> (x ∉ l) /\ is_Some (ns !! x).
Proof.
  induction l as [|y l IH]; cbn; [set_solver|].
  destruct (decide (y = x)) as [->|].
  - rewrite lookup_delete_eq. split; [by intros []|set_solver].
  - rewrite lookup_delete_ne, IH by done. set_solver.
Qed.

(** Nodes of no list may change. *)
Lemma rings_loose (ns ns' : nodes loc) hs (l : list loc) :
  rings ns hs -> (forall x, x ∈ l -> loose hs x) ->
  (forall x, x ∉ l -> nx ns' x = nx ns x /\ pv ns' x = pv ns x) -> rings ns' hs.
Proof. intros Hr Hl Hf. eapply rings_frame, Hr. intros h k x Hh Hx. apply Hf. intros Hin. by eapply Hl. Qed.

Lemma unallocated_loose (ns : nodes loc) hs x : rings ns hs -> ns !! x = None -> loose hs x.
Proof. intros Hr Hx h l Hh Hin. destruct (rings_dom _ _ _ _ _ Hr Hh Hin) as [? E]. congruence. Qed.

Lemma db_nodes s hs ns' :
  db s hs -> rings ns' hs -> dom ns' = dom (st_node s) -> db (set_st_node ns' s) hs.
Proof.
  intros [R A B T L F] Hr Hd. split; [done..|]. intros x Hx. apply F. by eapply dom_same.
Qed.

Lemma db_malloc s hs : db s hs -> db (set_st_fresh (Pos.succ (st_fresh s)) s) hs.
Proof. intros [R A B T L F]. split; [done..|]. intros x Hx%F. cbn. lia. Qed.

Lemma db_clear s hs l :
  db s hs -> (forall x, x ∈ l -> loose hs x /\ (node_id x < st_fresh s)%positive) ->
  db (set_st_node (clear_nodes l (st_node s)) s) hs.
Proof.
  intros [R A B T L F] Hl. split; [|done..|].
  - eapply rings_loose; [done|by apply Hl|intros x Hx; by apply nx_clear].
  - intros x [Hx|Hx]%dom_clear; [by apply Hl|by apply F].
Qed.

Lemma db_drop s hs l :
  db s hs -> (forall x, x ∈ l -> loose hs x) -> db (set_st_node (drop_nodes l (st_node s)) s) hs.
Proof.
  intros [R A B T L F] Hl. split; [|done..|].
  - eapply rings_loose; [done|by apply Hl|intros x Hx; by apply nx_drop].
  - intros x [_ Hx]%dom_drop. by apply F.
Qed.

(** Initialising a loose node leaves it loose. *)
Lemma wp_init_loose hs e (Q : unit -> rcu -> Prop) s :
  db s hs -> loose hs e -> is_Some (st_node s !! e) ->
  (forall ns', db (set_st_node ns' s) hs -> dom ns' = dom (st_node s) ->
     nx ns' e = Some e -> pv ns' e = Some e ->
     (forall x, x <> e -> nx ns' x = nx (st_node s) x /\ pv ns' x = pv (st_node s) x) ->
     Q tt (set_st_node ns' s)) ->
  wp (nodes_do (rcu_init_list (Some e))) Q s.
Proof.
  intros Hd He Hs HQ. apply wp_zoom, wp_init_list; [done|]. intros ns' [N P D].
  assert (forall x, x <> e -> nx ns' x = nx (st_node s) x /\ pv ns' x = pv (st_node s) x) as Hfr
    by (intros x Hx; by rewrite N, P, !decide_False).
  apply HQ; [|done|by rewrite N, decide_True|by rewrite P, decide_True|done].
  apply db_nodes; [done| |done]. apply (rings_loose (st_node s) _ _ [e]); [apply Hd| |].
  - by intros x ->%list_elem_of_singleton.
  - intros x Hx. apply Hfr. set_solver.
Qed.

(** Appending an entry whose object is ready to a list. *)
Lemma wp_append hs h l e (Q : unit -> rcu -> Prop) s :
  db s hs -> hs !! h = Some l -> loose hs e -> is_Some (st_node s !! e) -> typed h e -> live s hs e ->
  (forall ns', db (set_st_node ns' s) (<[h := l ++ [e]]> hs) -> Q tt (set_st_node ns' s)) ->
  wp (nodes_do (rcu_insert_list (Some h) (Some e))) Q s.
Proof.
  intros Hd Hh He Hs Ht Hl HQ. apply wp_zoom.
  apply (wp_insert_list h l); [by apply (db_rings _ _ Hd)|by apply He|done|].
  intros ns' Hlk. apply HQ. pose proof (links_dom _ _ _ _ Hlk) as Hdom.
  assert (forall h', is_Some (hs !! h') -> is_Some (<[h := l ++ [e]]> hs !! h')) as Hsome.
  { intros h' ?. destruct (decide (h = h')) as [->|]; [by rewrite lookup_insert_eq|by rewrite lookup_insert_ne]. }
  assert (keeps s (set_st_node ns' s)) as Hk by by apply keeps_same.
  destruct Hd as [R A B T L F]. split; [|by apply Hsome|by apply Hsome|..].
  - by eapply rings_insert.
  - intros h' l' x [[<- <-]|[_ E]]%lookup_insert_Some; [|by apply (T _ _ _ E)].
    intros [?|?%list_elem_of_singleton]%elem_of_app; [by eapply T|by subst].
  - intros h' l' x [[<- <-]|[_ E]]%lookup_insert_Some Hx; (eapply live_mono; [done..|]); [|by eapply L].
    apply elem_of_app in Hx as [?|?%list_elem_of_singleton]; [by eapply L|by subst].
  - intros x Hx. apply F. by eapply dom_same.
Qed.

(** Everything but the failure records is as it was. *)
Record only_fails (s s' : rcu) : Prop := {
  of_test : st_test s' = st_test s;
  of_mod : st_mod s' = st_mod s;
  of_reg : st_reg s' = st_reg s;
  of_mach : st_mach s' = st_mach s;
  of_frames : st_frames s' = st_frames s;
  of_out : st_out s' = st_out s
}.

Section Run.
Context `{RcEnv}.

Lemma wp_malloc hs (Q : option ident -> rcu -> Prop) s :
  db s hs ->
  (forall s' i, i = st_fresh s -> s' = set_st_fresh (Pos.succ i) s -> db s' hs ->
     Q None s' /\
     ((forall x, node_id x = i -> loose hs x /\ st_node s' !! x = None) -> Q (Some i) s')) ->
  wp rcu_malloc Q s.
Proof.
  intros Hd HQ. pose proof (db_malloc _ _ Hd) as Hd'.
  destruct (HQ _ _ eq_refl eq_refl Hd') as [HN HS]. apply wp_bind, wp_gets, wp_bind, wp_modify, wp_ret.
  destruct (malloc_ok _); [|done]. apply HS. intros x Hx.
  assert (st_node s !! x = None) as Hno.
  { destruct (st_node s !! x) eqn:E; [|done].
    pose proof (db_fresh _ _ Hd x ltac:(by eexists)). lia. }
  split; [|done]. eapply unallocated_loose, Hno. apply Hd.
Qed.

Lemma wp_cre_fail_rec hs info filename line (Q : option ident -> rcu -> Prop) s :
  db s hs ->
  (forall s', db s' hs -> only_fails s s' ->
     Q None s' /\
     (forall k, loose hs (FailLink k) -> is_Some (st_node s' !! FailLink k) -> is_Some (st_fail s' !! k) ->
        Q (Some k) s')) ->
  wp (rcu_cre_fail_rec info filename line) Q s.
Proof.
  intros Hd HQ. apply wp_bind, (wp_malloc hs); [done|]. intros s1 i -> -> Hd1. split.
  { wp_steps. by apply HQ. }
  intros Hnew. destruct (Hnew (FailLink (st_fresh s)) eq_refl) as [Hl Hno]. wp_steps.
  apply (db_clear _ _ [FailLink (st_fresh s)]) in Hd1.
  2: { intros x ->%list_elem_of_singleton. split; [done|cbn; lia]. }
  apply (wp_malloc hs); [done|]. intros s2 j -> -> Hd2. cbn in Hd2 |- *. split.
  { wp_steps. apply HQ; [|done]. apply (db_drop _ _ [FailLink (st_fresh s)]) in Hd2; [done|].
    by intros x ->%list_elem_of_singleton. }
  intros _. apply wp_bind, (wp_init_loose hs); [done|done|cbn; by rewrite lookup_insert_eq|].
  intros ns' Hd3 Hdom _ _ _. wp_steps. apply HQ; [|done|done| |].
  - eapply db_shape, Hd3. split; [|done..]. split; cbn; eauto. intros k Hk.
    destruct (decide (st_fresh s = k)) as [->|]; [by rewrite lookup_insert_eq|by rewrite lookup_insert_ne].
  - cbn in *. eapply dom_same; [done|]. by rewrite lookup_insert_eq.
  - cbn. by rewrite lookup_insert_eq.
Qed.

Lemma wp_add_fail_rec hs0 h info filename line (Q : rcu_error -> rcu -> Prop) s :
  holds hs0 s -> is_Some (hs0 !! h) -> is_fails h = true -> mc_run_ctx (st_mach s) <> RCU_RUN_CTX_UNKNOWN ->
  (forall e s', holds hs0 s' -> only_fails s s' -> Q e s') ->
  wp (rcu_add_fail_rec_impl h info filename line) Q s.
Proof.
  intros (hs & Hd & Ha) Hh Hf Hctx HQ. apply (agree_dom _ _ Ha) in Hh as Hh'. destruct Hh' as [l Hl].
  apply wp_bind, (wp_cre_fail_rec hs); [done|]. intros s1 Hd1 Hof. split.
  { wp_steps. apply HQ; [by exists hs|done]. }
  intros k Hlo Hn Hk. apply wp_bind, (wp_append hs h l); try done; [by destruct h|].
  intros ns' Hd2. apply wp_bind, wp_gets, wp_bind.
  assert (forall e, Q e (set_st_node ns' s1)) as HQ'.
  { intros e. apply HQ; [|by destruct Hof].
    eexists. split; [done|]. eapply agree_trans; [done|]. by apply agree_insert. }
  cbn. rewrite (of_mach _ _ Hof). destruct (mc_run_ctx _); [done|by wp_steps..].
Qed.

(** ** Taking entries out *)

Lemma wp_each_saved h l body (I : list loc -> rcu -> Prop) (Q : unit -> rcu -> Prop) s :
  (forall t s, I t s -> ring (st_node s) h t) ->
  (forall x t s, I (x :: t) s -> wp (body x) (fun _ => I t) s) ->
  (forall s, I [] s -> Q tt s) -> I l s -> wp (each_saved h body) Q s.
Proof.
  intros Hr Hb HQ HI. apply wp_bind.
  apply (wp_drain _ _ _ _ I l); [done| |intros s' ?; wp_steps; by apply HQ|done].
  intros x t s' HI'. destruct (Hr _ _ HI') as [(_ & Hp & _) _].
  apply wp_bind, wp_zoom, wp_load; [by eapply pv_dom|]. intros n En.
  assert (prev n = Some h) as -> by (unfold pv in Hp; by rewrite En in Hp).
  replace (set_st_node (st_node s') s') with s' by (by destruct s').
  apply wp_bind. eapply wp_conseq; [by apply Hb|]. intros [] s'' ?. apply wp_bind, wp_the. by wp_steps.
Qed.

Lemma wp_unlink hs h l1 e l2 (Q : unit -> rcu -> Prop) s :
  db s hs -> hs !! h = Some (l1 ++ e :: l2) ->
  (forall ns', db (set_st_node ns' s) (<[h := l1 ++ l2]> hs) -> dom ns' = dom (st_node s) ->
     loose (<[h := l1 ++ l2]> hs) e ->
     pv ns' e = Some (final h l1) -> nx ns' e = Some (first l2 h) ->
     (forall y, y ∉ h :: l1 ++ e :: l2 -> nx ns' y = nx (st_node s) y /\ pv ns' y = pv (st_node s) y) ->
     Q tt (set_st_node ns' s)) ->
  wp (nodes_do (rcu_remove_list (Some e))) Q s.
Proof.
  intros Hd Hh HQ. pose proof (rings_ring _ _ (db_rings _ _ Hd) _ _ Hh) as Hring.
  apply ring_neighbours in Hring as HN. destruct HN as (Hp & Hn & Hf & Hb & N1 & N2).
  apply wp_zoom. eapply wp_remove_list; [done..|set_solver|set_solver| | |].
  { eapply (ring_dom _ _ _ _ Hring). set_solver. } { eapply (ring_dom _ _ _ _ Hring). set_solver. }
  intros ns' Hl. destruct (Hl) as [N P D]. apply HQ; [|done| | | |].
  - assert (forall h', is_Some (hs !! h') -> is_Some (<[h := l1 ++ l2]> hs !! h')) as Hsome.
    { intros h' ?. destruct (decide (h = h')) as [->|]; [by rewrite lookup_insert_eq|by rewrite lookup_insert_ne]. }
    destruct Hd as [R A B T L F]. split; [|by apply Hsome|by apply Hsome|..].
    + by eapply rings_remove.
    + intros h' l' x [[<- <-]|[_ E]]%lookup_insert_Some Hx; [|by eapply T]. eapply T; [done|]. set_solver.
    + intros h' l' x E Hx. apply (live_mono s _ hs); [by apply keeps_same|done|].
      apply lookup_insert_Some in E as [[<- <-]|[_ E]]; [|by eapply L]. eapply L; [done|]. set_solver.
    + intros x Hx. apply F. by eapply dom_same.
  - intros h' l' [[<- <-]|[Hne E]]%lookup_insert_Some; [set_solver|]. intros Hx. apply Hne.
    apply (rings_disjoint _ _ (db_rings _ _ Hd) h (l1 ++ e :: l2) h' l' e); [done|done|set_solver|done].
  - rewrite P, decide_False; [done|set_solver].
  - rewrite N, decide_False; [done|set_solver].
  - intros y Hy. rewrite N, P, !decide_False; [done|set_solver|set_solver].
Qed.

Lemma rings_sub (ns : nodes loc) hs hs' :
  rings ns hs -> (forall h k, hs' !! h = Some k -> hs !! h = Some k) -> rings ns hs'.
Proof. intros [R D] Hs. split; eauto. Qed.

(** The memory of an object none of whose nodes is in use is given back, with
    the lists it heads. *)
Lemma db_free s s' hs hs' (l : list loc) :
  db s hs -> (forall h k, hs' !! h = Some k -> hs !! h = Some k) ->
  is_Some (hs' !! RegList) -> is_Some (hs' !! AssertList) ->
  (forall x, x ∈ l -> loose hs' x) ->
  st_node s' = drop_nodes l (st_node s) -> st_fresh s' = st_fresh s ->
  (forall h k x, hs' !! h = Some k -> x ∈ k -> live s hs x -> live s' hs' x) -> db s' hs'.
Proof.
  intros [R A B T L F] Hsub Hr Ha Hl En Ef Hlive. split; try done.
  - rewrite En. eapply rings_loose; [by eapply rings_sub|by apply Hl|intros x Hx; by apply nx_drop].
  - eauto.
  - intros h k x Hk Hx. eapply Hlive; eauto.
  - intros x. rewrite En, Ef, dom_drop. intros [_ ?]. by apply F.
Qed.

(** A head is in no other list. *)
Lemma loose_head s hs h : db s hs -> (forall h', ~ typed h' h) -> loose (delete h hs) h.
Proof.
  intros Hd Ht h' l [Hne E]%lookup_delete_Some [->|Hin]%elem_of_cons; [done|].
  eapply Ht. by eapply db_typed.
Qed.

Lemma wp_free_fail_rec hs k (Q : unit -> rcu -> Prop) s :
  db s hs -> loose hs (FailLink k) -> is_Some (st_fail s !! k) ->
  (forall s', s' = set_st_fail (delete k (st_fail s)) (set_st_node (drop_nodes [FailLink k] (st_node s)) s) ->
     db s' hs -> Q tt s') ->
  wp (free_fail_rec k) Q s.
Proof.
  intros Hd Hl [i Hi] HQ. apply wp_bind, (wp_object _ _ i); [done|]. wp_steps. apply HQ; [done|].
  eapply (db_free s _ hs _ [FailLink k]); [done|done|apply Hd|apply Hd|by intros x ->%list_elem_of_singleton|done|done|].
  intros h' l x Hh Hx. destruct x; try done. cbn. intros ?. rewrite lookup_delete_ne; [done|].
  intros ->. eapply Hl; [done|]. by right.
Qed.

Lemma wp_del_all_fail_rec hs h l (Q : rcu_error -> rcu -> Prop) s :
  db s hs -> hs !! h = Some l -> is_fails h = true ->
  (forall e s', db s' (<[h := []]> hs) -> only_fails s s' -> Q e s') ->
  wp (rcu_del_all_fail_rec_impl h) Q s.
Proof.
  intros Hd Hh Hf HQ.
  apply wp_bind, (wp_each_saved h l _ (fun t s' => db s' (<[h := t]> hs) /\ only_fails s s')).
  - intros t s' [Hd' _]. apply (db_rings _ _ Hd'), lookup_insert_eq.
  - intros x t s' [Hd' Hof]. pose proof (lookup_insert_eq hs h (x :: t)) as Hx.
    pose proof (db_typed _ _ Hd' _ _ x Hx ltac:(by left)) as Ht.
    pose proof (db_live _ _ Hd' _ _ x Hx ltac:(by left)) as Hl.
    assert (exists k, x = FailLink k) as [k ->] by (destruct h, x; try done; eauto).
    apply wp_bind, wp_ret, wp_bind, (wp_unlink _ h [] _ t _ _ Hd' Hx). intros ns' Hd2 _ Hlo _ _ _.
    rewrite insert_insert_eq in Hd2, Hlo. cbn in *.
    eapply wp_free_fail_rec; [done|done|done|]. intros s'' -> Hd3. split; [done|by destruct Hof].
  - intros s' [Hd' Hof]. wp_steps. by apply HQ.
  - by rewrite insert_id.
Qed.
End Run.
