(* ===== verification/RcRun.v ===== *)
(** * RcRun: what a run of the test framework reports

    The effect of test code on the framework, the verdict on a test, a module,
    a registry and the whole database, as functions of the registered code. *)

From stdpp Require Import pretty.
From S2P Require Import Prelude RcList RcUnit RcDb.
Open Scope list_scope.
Open Scope Z_scope.

Section Run.
Context `{RcEnv}.

(** ** What a function of the test program does *)

Inductive ending := Finishes | Fails | Crashes.
#[export] Instance ending_eq_dec : EqDecision ending.
Proof. solve_decision. Defined.

Fixpoint ends (acts : list action) : ending :=
  match acts with
  | [] => Finishes
  | Assert cond _ _ _ _ :: acts => if cond then ends acts else Fails
  | Signal _ :: _ => Crashes
  end.

(** The assertions it passes. *)
Fixpoint passed (acts : list action) : Z :=
  match acts with
  | Assert true _ _ _ _ :: acts => 1 + passed acts
  | _ => 0
  end.

(** Names of functions fit in the name of a test. *)
Definition short_name (a : action) : Prop :=
  match a with
  | Assert _ _ func_name _ _ => (String.length func_name < RCU_TEST_FUNCTION_NAME_LENGTH)%nat
  | Signal _ => True
  end.

Definition thrown (e : option rcu_exception_id) (v : ending) : Prop := e = None <-> v = Finishes.

(** The parts of the state no function of the test program reaches. *)
Record quiet (s s' : rcu) : Prop := {
  q_reg : st_reg s' = st_reg s;
  q_mach : set_mc_run_ctx RCU_RUN_CTX_UNKNOWN (st_mach s') = set_mc_run_ctx RCU_RUN_CTX_UNKNOWN (st_mach s);
  q_frames : st_frames s' = st_frames s;
  q_out : st_out s' = st_out s
}.

#[export] Instance quiet_preorder : PreOrder quiet.
Proof.
  split; [by intros s; split|]. intros s1 s2 s3 [R M F O] [R' M' F' O'].
  split; by etrans.
Qed.

Lemma quiet_mach (g : rcu_test_machine -> Z) s s' :
  (forall mc c, g (set_mc_run_ctx c mc) = g mc) -> quiet s s' -> g (st_mach s') = g (st_mach s).
Proof. intros Hg [_ E _ _]. by rewrite <- (Hg (st_mach s') RCU_RUN_CTX_UNKNOWN), E, Hg. Qed.

Lemma quiet_curr s s' : quiet s s' ->
  mc_init_done (st_mach s') = mc_init_done (st_mach s) /\
  mc_curr_func (st_mach s') = mc_curr_func (st_mach s) /\
  mc_curr_mod (st_mach s') = mc_curr_mod (st_mach s) /\
  mc_curr_reg (st_mach s') = mc_curr_reg (st_mach s) /\
  mc_run_level (st_mach s') = mc_run_level (st_mach s) /\
  mc_run_hook (st_mach s') = mc_run_hook (st_mach s).
Proof. intros [_ E _ _]. destruct (st_mach s), (st_mach s'). cbn in *. by simplify_eq. Qed.

Lemma wp_rcu_init (Q : unit -> rcu -> Prop) s : mc_init_done (st_mach s) = true -> Q tt s -> wp rcu_init Q s.
Proof. intros Hi HQ. apply wp_bind, wp_gets. rewrite Hi. by wp_steps. Qed.

Lemma wp_throw id (Q : option rcu_exception_id -> rcu -> Prop) s :
  (0 < st_frames s)%nat -> (forall e, e <> None -> Q e s) -> wp (RCU_THROW id) Q s.
Proof.
  intros Hf HQ. apply wp_bind, wp_gets, wp_bind, wp_guard; [by apply Nat.ltb_lt|]. wp_steps. by apply HQ.
Qed.

(** The state a call starts in. *)
Record calling (hs0 : lists) (ctx : run_ctx) (s : rcu) : Prop := {
  c_holds : holds hs0 s;
  c_init : mc_init_done (st_mach s) = true;
  c_frames : (0 < st_frames s)%nat;
  c_ctx : mc_run_ctx (st_mach s) = ctx
}.

Lemma calling_shape hs0 ctx s s' :
  same_shape s s' -> st_mach s' = st_mach s -> st_frames s' = st_frames s ->
  calling hs0 ctx s -> calling hs0 ctx s'.
Proof.
  intros Hs Em Ef [C1 C2 C3 C4]. split; rewrite ?Em, ?Ef; try done. by eapply holds_shape.
Qed.

(** The end of a failing assertion: the record, the context and the throw. *)
Lemma wp_fail_and_throw hs0 h info filename line id (Q : option rcu_exception_id -> rcu -> Prop) s :
  holds hs0 s -> is_Some (hs0 !! h) -> is_fails h = true -> (0 < st_frames s)%nat ->
  mc_run_ctx (st_mach s) <> RCU_RUN_CTX_UNKNOWN ->
  (forall e s', e <> None -> holds hs0 s' -> quiet s s' -> st_test s' = st_test s -> st_mod s' = st_mod s -> Q e s') ->
  wp (rcu_add_fail_rec_impl h info filename line ;;; SET_RUN_CTX RCU_RUN_CTX_UNKNOWN ;;; RCU_THROW id) Q s.
Proof.
  intros Hh Hs Hf Hfr Hctx HQ. apply wp_bind, (wp_add_fail_rec hs0); [done..|].
  intros _ s1 H1 [T Mo R Ma Fr O]. wp_steps. apply wp_throw; [cbn; by rewrite Fr|].
  intros e He. apply HQ; try done.
  - eapply holds_shape, H1. split; [by apply keeps_same|done..].
  - split; cbn; [done| |done|done]. by rewrite Ma.
Qed.

Lemma wp_perform_signal signo acts (Q : option rcu_exception_id -> rcu -> Prop) s :
  (0 < st_frames s)%nat -> (forall e, e <> None -> Q e s) -> wp (perform (Signal signo :: acts)) Q s.
Proof.
  intros Hf HQ. apply wp_bind, wp_gets, wp_bind, wp_guard; [by apply Nat.ltb_lt|]. wp_steps. by apply HQ.
Qed.

(** The setup or teardown of a test: an assertion that fails sets
    [destroy_failed], in the teardown as in the setup. *)
Definition fixture_effect (v : ending) (t : rcu_test) : rcu_test :=
  match v with Fails => set_t_destroy_failed true t | _ => t end.

Lemma wp_perform_fixture hs0 ctx f t acts (Q : option rcu_exception_id -> rcu -> Prop) s :
  ctx = RCU_RUN_CTX_FUNC_INIT \/ ctx = RCU_RUN_CTX_FUNC_DESTROY ->
  calling hs0 ctx s -> mc_curr_func (st_mach s) = Some f -> st_test s !! f = Some t -> is_Some (hs0 !! FuncFails f) ->
  (forall e s', thrown e (ends acts) -> holds hs0 s' -> quiet s s' -> st_mod s' = st_mod s ->
     st_test s' = <[f := fixture_effect (ends acts) t]> (st_test s) -> Q e s') ->
  wp (perform acts) Q s.
Proof.
  intros Hc [C1 C2 C3 C4] Hf Ht Hfs. induction acts as [|[cond fl fnm ln msg|sg] acts IH]; intros HQ.
  - wp_steps. apply HQ; [done..|]. cbn. by rewrite insert_id.
  - apply wp_bind, wp_bind, wp_rcu_init; [done|]. apply wp_bind, wp_gets. rewrite C4.
    assert (bool_decide (ctx = RCU_RUN_CTX_MOD_INIT) = false) as Hno by (by destruct Hc; subst).
    destruct cond.
    + destruct Hc; subst; wp_steps; apply IH; intros; by apply HQ.
    + assert (wp (let! f := the (mc_curr_func (st_mach s)) in
            (if bool_decide (ctx = RCU_RUN_CTX_MOD_INIT)
             then upd_test f (set_t_init_failed true) else upd_test f (set_t_destroy_failed true)) ;;;
            rcu_add_fail_rec_to_func f msg fl ln ;;;
            SET_RUN_CTX RCU_RUN_CTX_UNKNOWN ;;; RCU_THROW RCU_EXCP_ASSERTIONFAILURE)
         (fun e s' => e <> None /\ Q e s') s) as Hfail.
      { rewrite Hf, Hno. apply wp_bind, wp_the, wp_bind, (wp_upd_test _ t); [done|].
        apply (wp_fail_and_throw hs0); [|done|done|done|cbn; rewrite C4; by destruct Hc; subst|].
        - eapply holds_shape, C1. by apply (shape_test _ _ _ (set_t_destroy_failed true)).
        - intros e s' He Hh [Qr Qm Qf Qo] Et Em. split; [done|]. by apply HQ. }
      destruct Hc; subst; (eapply wp_conseq; [apply Hfail|]); intros [e|] s' [He HQ']; try done; by wp_steps.
  - apply wp_perform_signal; [done|]. intros e He. apply HQ; try done. cbn. by rewrite insert_id.
Qed.

(** The setup or teardown of a module. *)
Definition mod_effect (ctx : run_ctx) (v : ending) (x : rcu_module) : rcu_module :=
  match v, ctx with
  | Fails, RCU_RUN_CTX_MOD_INIT => set_m_init_failed true x
  | Fails, _ => set_m_destroy_failed true x
  | _, _ => x
  end.

Lemma wp_perform_mod hs0 ctx m x acts (Q : option rcu_exception_id -> rcu -> Prop) s :
  ctx = RCU_RUN_CTX_MOD_INIT \/ ctx = RCU_RUN_CTX_MOD_DESTROY ->
  calling hs0 ctx s -> mc_curr_mod (st_mach s) = Some m -> st_mod s !! m = Some x -> is_Some (hs0 !! ModFails m) ->
  (forall e s', thrown e (ends acts) -> holds hs0 s' -> quiet s s' -> st_test s' = st_test s ->
     st_mod s' = <[m := mod_effect ctx (ends acts) x]> (st_mod s) -> Q e s') ->
  wp (perform acts) Q s.
Proof.
  intros Hc [C1 C2 C3 C4] Hm Hx Hfs. induction acts as [|[cond fl fnm ln msg|sg] acts IH]; intros HQ.
  - wp_steps. apply HQ; [done..|]. cbn. by rewrite insert_id.
  - apply wp_bind, wp_bind, wp_rcu_init; [done|]. apply wp_bind, wp_gets. rewrite C4.
    destruct cond; [destruct Hc; subst; wp_steps; apply IH; intros; by apply HQ|].
    assert (wp (let! m := the (mc_curr_mod (st_mach s)) in
            (if bool_decide (ctx = RCU_RUN_CTX_MOD_INIT)
             then upd_mod m (set_m_init_failed true) else upd_mod m (set_m_destroy_failed true)) ;;;
            rcu_add_fail_rec_to_mod m msg fl ln ;;;
            SET_RUN_CTX RCU_RUN_CTX_UNKNOWN ;;; RCU_THROW RCU_EXCP_ABORTMODRUN)
         (fun e s' => e <> None /\ Q e s') s) as Hfail.
    { rewrite Hm. apply wp_bind, wp_the, wp_bind.
      destruct Hc; subst; [rewrite bool_decide_eq_true_2 by done|rewrite bool_decide_eq_false_2 by done];
        (apply (wp_upd_mod _ x); [done|]);
        (apply (wp_fail_and_throw hs0); [by eapply holds_shape, C1; eapply shape_mod|done|done|done|cbn; by rewrite C4|]);
        intros e s' He Hh [Qr Qm Qf Qo] Et Em; (split; [done|]); by apply HQ. }
    destruct Hc; subst; (eapply wp_conseq; [apply Hfail|]); intros [e|] s' [He HQ']; try done; by wp_steps.
  - apply wp_perform_signal; [done|]. intros e He. apply HQ; try done. cbn. by rewrite insert_id.
Qed.

Lemma passed_nonneg acts : 0 <= passed acts.
Proof. induction acts as [|[[] ????|] acts IH]; cbn; lia. Qed.

(** The body of a test: passing assertions are counted, a failing one marks the
    test, and nothing but its name, counters and status changes. *)
Record body_effect (acts : list action) (t t' : rcu_test) : Prop := {
  be_name : name_ok t -> name_ok t';
  be_entry : t_entry t' = t_entry t;
  be_init : t_init t' = t_init t;
  be_destroy : t_destroy t' = t_destroy t;
  be_init_failed : t_init_failed t' = t_init_failed t;
  be_destroy_failed : t_destroy_failed t' = t_destroy_failed t;
  be_succ : t_nr_succ_assert t' = t_nr_succ_assert t + passed acts;
  be_fail : t_nr_fail_assert t' = t_nr_fail_assert t + match ends acts with Fails => 1 | _ => 0 end;
  be_stat : t_run_stat t' = match ends acts with Fails => RCU_RUN_STAT_TEST_FAILED | _ => t_run_stat t end
}.

Lemma body_effect_cons fl fnm ln msg acts t t1 t2 :
  body_effect [Assert true fl fnm ln msg] t t1 -> body_effect acts t1 t2 ->
  body_effect (Assert true fl fnm ln msg :: acts) t t2.
Proof.
  intros [A1 A2 A3 A4 A5 A6 A7 A9 A8] [B1 B2 B3 B4 B5 B6 B7 B9 B8]. cbn in *.
  split; cbn; [auto|congruence..|lia| |by rewrite B8, A8]. rewrite B9, A9. lia.
Qed.

(** One assertion of a body. *)
Lemma wp_assert_body hs0 f t cond fl fnm ln msg (Q : option rcu_exception_id -> rcu -> Prop) s :
  short_name (Assert cond fl fnm ln msg) ->
  t_nr_succ_assert t < INT_MAX \/ cond = false -> t_nr_fail_assert t < INT_MAX ->
  calling hs0 RCU_RUN_CTX_FUNC s -> mc_curr_func (st_mach s) = Some f -> st_test s !! f = Some t -> name_ok t ->
  is_Some (hs0 !! FuncFails f) ->
  (forall e s' t', thrown e (ends [Assert cond fl fnm ln msg]) -> holds hs0 s' -> quiet s s' ->
     (cond = true -> st_mach s' = st_mach s) -> st_mod s' = st_mod s ->
     body_effect [Assert cond fl fnm ln msg] t t' -> st_test s' = <[f := t']> (st_test s) -> Q e s') ->
  wp (rcu_assert_impl cond fl fnm ln msg) Q s.
Proof.
  intros Ha Bs Bf [C1 C2 C3 C4] Hf Ht Hn Hfs HQ.
  apply wp_bind, wp_rcu_init; [done|]. apply wp_bind, wp_gets. rewrite C4, Hf.
  apply wp_bind, wp_the, wp_bind, (wp_test_name _ t); [done|done|].
  (* the name may be replaced *)
  set (t1 := if bool_decide (t_name t = "set_on_run"%string) then set_t_name fnm t else t).
  set (s1 := set_st_test (<[f := t1]> (st_test s)) s).
  assert (name_ok t1) as Hn1 by (unfold t1; by case_bool_decide).
  assert (same_shape s s1) as Hsh by (by apply (shape_test s f t (fun _ => t1))).
  assert (st_test s1 !! f = Some t1) as Ht1 by apply lookup_insert_eq.
  apply wp_bind, (wp_conseq _ (fun _ s' => s' = s1)).
  { unfold s1, t1. case_bool_decide.
    - apply wp_bind, wp_guard; [by apply Nat.ltb_lt|]. by apply (wp_upd_test _ t).
    - wp_steps. rewrite insert_id by done. by destruct s. }
  intros _ ? ->. apply (holds_shape _ _ _ Hsh) in C1.
  assert (body_effect [] t t1) as [B1 B2 B3 B4 B5 B6 B7 B9 B8]
    by (split; [done|unfold t1; case_bool_decide; cbn; (done || lia)..]). cbn in B7, B8, B9.
  destruct cond.
  - apply wp_bind, (wp_bump_test _ t1); [done|by destruct Bs; [lia|]|]. wp_steps.
    eapply (HQ _ _ (set_t_nr_succ_assert (t_nr_succ_assert t1 + 1) t1)); try done.
    + eapply holds_shape, C1. by apply (shape_test s1 f t1 (set_t_nr_succ_assert (t_nr_succ_assert t1 + 1))).
    + split; cbn; (done || lia).
    + cbn. by rewrite insert_insert_eq.
  - set (g2 := fun t => set_t_nr_fail_assert (t_nr_fail_assert t + 1) t).
    apply wp_bind, (wp_bump_test _ t1); [done|lia|]. apply wp_bind, (wp_upd_test _ (g2 t1)); [apply lookup_insert_eq|].
    apply (wp_fail_and_throw hs0); try done; [|cbn; by rewrite C4|].
    + eapply holds_shape; [|eapply holds_shape, C1].
      * apply (shape_test _ f (g2 t1) (set_t_run_stat RCU_RUN_STAT_TEST_FAILED)); [apply lookup_insert_eq|done].
      * by apply (shape_test s1 f t1 g2).
    + intros e s' He Hh [Q1 Q2 Q3 Q4] Et Em.
      apply (HQ _ _ (set_t_run_stat RCU_RUN_STAT_TEST_FAILED (g2 t1))); try done.
      * split; cbn; (done || lia).
      * rewrite Et. cbn. by rewrite !insert_insert_eq.
Qed.

Lemma wp_perform_body hs0 f t acts (Q : option rcu_exception_id -> rcu -> Prop) s :
  Forall short_name acts -> t_nr_succ_assert t + passed acts <= INT_MAX -> t_nr_fail_assert t < INT_MAX ->
  calling hs0 RCU_RUN_CTX_FUNC s -> mc_curr_func (st_mach s) = Some f -> st_test s !! f = Some t -> name_ok t ->
  is_Some (hs0 !! FuncFails f) ->
  (forall e s' t', thrown e (ends acts) -> holds hs0 s' -> quiet s s' -> st_mod s' = st_mod s ->
     body_effect acts t t' -> st_test s' = <[f := t']> (st_test s) -> Q e s') ->
  wp (perform acts) Q s.
Proof.
  intros Hsn. revert s t. induction Hsn as [|[cond fl fnm ln msg|sg] acts Ha _ IH]; intros s t Bs Bf HC Hf Ht Hn Hfs HQ.
  - wp_steps. apply (HQ _ _ t); try done; [apply HC|split; cbn; (done || lia)|by rewrite insert_id].
  - pose proof (passed_nonneg acts) as Hpos.
    apply wp_bind, (wp_assert_body hs0 f t); [done|destruct cond; [left; cbn in Bs; lia|by right]|done..|]. intros e s1 t1 He Hh1 Hq1 Hm1 Em1 Hb1 Et1.
    destruct cond, e; cbn in He; try (by destruct He as [He1 He2]; (discriminate (He1 eq_refl) || discriminate (He2 eq_refl))).
    + pose proof (be_succ _ _ _ Hb1) as Bs1. pose proof (be_fail _ _ _ Hb1) as Bf1. cbn in Bs, Bs1, Bf1. apply (IH _ t1).
      * lia.
      * lia.
      * destruct HC as [C1 C2 C3 C4]. split; rewrite ?Hm1, ?(q_frames _ _ Hq1) by done; done.
      * by rewrite Hm1.
      * rewrite Et1. apply lookup_insert_eq.
      * by apply Hb1.
      * done.
      * intros e s' t' He' Hh Hq Em Hb Et. apply (HQ _ _ t'); try done; [by etrans|congruence| |].
        -- by eapply body_effect_cons.
        -- by rewrite Et, Et1, insert_insert_eq.
    + wp_steps. apply (HQ _ _ t1); try done. by destruct Hb1.
  - apply wp_perform_signal; [apply HC|]. intros e He. apply (HQ _ _ t); try done; [apply HC|split; cbn; (done || lia)|].
    by rewrite insert_id.
Qed.

(** ** One test *)

Definition actions (o : option fn) : list action := from_option code [] o.

Arguments actions : simpl never.

(** A run of the test is reported as a success. *)
Definition passes (t : rcu_test) : bool :=
  bool_decide (ends (actions (t_init t)) = Finishes) &&
  bool_decide (ends (code (t_entry t)) = Finishes) && (0 <? passed (code (t_entry t))) &&
  bool_decide (ends (actions (t_destroy t)) <> Fails) &&
  negb (t_init_failed t) && negb (t_destroy_failed t).

Lemma wp_try body (Q : option rcu_exception_id -> rcu -> Prop) s :
  wp body (fun e s' => Q e (set_st_frames (st_frames s) s')) (set_st_frames (S (st_frames s)) s) ->
  wp (RCU_TRY body) Q s.
Proof. intros Hw. apply wp_bind, wp_gets, wp_bind, wp_modify, wp_bind. eapply wp_conseq; [apply Hw|]. done. Qed.

Lemma holds_frames hs0 s n : holds hs0 s -> holds hs0 (set_st_frames n s).
Proof. apply holds_shape. split; [by apply keeps_same|done..]. Qed.

Lemma holds_mach hs0 s mc : holds hs0 s -> holds hs0 (set_st_mach mc s).
Proof. apply holds_shape. split; [by apply keeps_same|done..]. Qed.

(** [quiet] around a protected call. *)
Lemma quiet_try s c s' :
  quiet (set_st_frames (S (st_frames s)) (set_st_mach (set_mc_run_ctx c (st_mach s)) s)) s' ->
  quiet s (set_st_frames (st_frames s) s').
Proof. intros [R Ma F O]. by split. Qed.

Lemma wp_fixture hs0 ctx f t o (Q : option rcu_exception_id -> rcu -> Prop) s :
  ctx = RCU_RUN_CTX_FUNC_INIT \/ ctx = RCU_RUN_CTX_FUNC_DESTROY ->
  holds hs0 s -> mc_init_done (st_mach s) = true ->
  mc_curr_func (st_mach s) = Some f -> st_test s !! f = Some t -> is_Some (hs0 !! FuncFails f) ->
  (forall e s', thrown e (ends (actions o)) -> holds hs0 s' -> quiet s s' -> st_mod s' = st_mod s ->
     st_test s' = <[f := fixture_effect (ends (actions o)) t]> (st_test s) -> Q e s') ->
  wp (match o with Some g => SET_RUN_CTX ctx ;;; RCU_TRY (call g) | None => ret None end) Q s.
Proof.
  intros Hc Hh Hi Hf Ht Hfs HQ. destruct o as [g|]; cbn in HQ.
  - apply wp_bind, wp_modify, wp_try. apply (wp_perform_fixture hs0 ctx f t); try done.
    + split; cbn; [|done|lia|done]. by apply holds_frames, holds_mach.
    + intros e s' He Hh' Hq Em Et. apply HQ; [done|by apply holds_frames|by apply (quiet_try s ctx)|done|done].
  - wp_steps. apply HQ; [done..|]. by rewrite insert_id.
Qed.

(** What a run leaves of a test. *)
Record run_effect (t t' : rcu_test) : Prop := {
  re_name : name_ok t';
  re_entry : t_entry t' = t_entry t;
  re_init : t_init t' = t_init t;
  re_destroy : t_destroy t' = t_destroy t;
  re_verdict : negb (t_init_failed t' || t_destroy_failed t') && bool_decide (t_run_stat t' <> RCU_RUN_STAT_TEST_FAILED)
               = passes t
}.

(** The assertions of every function have short names, and an [int] counts
    those that pass. *)
Definition code_ok : Prop := forall f, Forall short_name (code f) /\ passed (code f) <= INT_MAX.

(** The body of a test and the check that it asserted something. *)
Lemma wp_run_body {A} hs0 f t (K : rcu_test -> M rcu A) Q s :
  code_ok -> holds hs0 s -> mc_init_done (st_mach s) = true -> mc_curr_func (st_mach s) = Some f ->
  st_test s !! f = Some t -> name_ok t -> is_Some (hs0 !! FuncFails f) ->
  t_run_stat t = RCU_RUN_STAT_TEST_FAILED -> t_nr_succ_assert t = 0 -> t_nr_fail_assert t = 0 ->
  (forall s' t' tr, t_destroy tr = t_destroy t -> holds hs0 s' -> quiet s s' -> st_mod s' = st_mod s -> st_test s' = <[f := t']> (st_test s) ->
     name_ok t' -> t_entry t' = t_entry t -> t_init t' = t_init t -> t_destroy t' = t_destroy t ->
     t_init_failed t' = t_init_failed t -> t_destroy_failed t' = t_destroy_failed t ->
     bool_decide (t_run_stat t' <> RCU_RUN_STAT_TEST_FAILED) =
       bool_decide (ends (code (t_entry t)) = Finishes) && (0 <? passed (code (t_entry t))) ->
     wp (K tr) Q s') ->
  wp (SET_RUN_CTX RCU_RUN_CTX_FUNC ;;;
      RCU_TRY (let! e := call (t_entry t) in
               match e with
               | None => upd_test f (set_t_run_stat RCU_RUN_STAT_TEST_SUCC) ;;; ret None
               | Some _ => ret e
               end) ;;;
      let! t := test_at f in
      (if bool_decide (t_run_stat t = RCU_RUN_STAT_TEST_SUCC) then
         test_name f ;;;
         if (t_nr_succ_assert t =? 0) && (t_nr_fail_assert t =? 0)
         then upd_test f (set_t_run_stat RCU_RUN_STAT_TEST_FAILED)
         else ret tt
       else ret tt) ;;;
      K t) Q s.
Proof.
  intros Hcode Hh Hi Hf Ht Hn Hfs Hst Hsu Hfa HQ. set (acts := code (t_entry t)) in *.
  apply wp_bind, wp_modify, wp_bind, wp_try, wp_bind, (wp_perform_body hs0 f t); try done.
  { apply Hcode. } { rewrite Hsu. apply Hcode. } { by rewrite Hfa. }
  { split; cbn; [by apply holds_frames, holds_mach|done|lia|done]. }
  cbn. intros e s1 t1 He Hh1 Hq1 Em1 [B1 B2 B3 B4 B5 B6 B7 B9 B8] Et1. fold acts in He, B7, B8, B9.
  apply (quiet_try s) in Hq1. apply (holds_frames _ _ (st_frames s)) in Hh1. specialize (B1 Hn).
  assert (st_test s1 !! f = Some t1) as Ht1 by (rewrite Et1; apply lookup_insert_eq).
  destruct e as [e|]; wp_steps.
  - (* an exception: the status stays *)
    assert (ends acts <> Finishes) as Hne by (intros E; by destruct He as [_ He]; specialize (He E)).
    assert (t_run_stat t1 = RCU_RUN_STAT_TEST_FAILED) as Hs1 by (rewrite B8, Hst; by destruct (ends acts)).
    apply (wp_object _ _ t1); [done|]. rewrite bool_decide_eq_false_2 by (by rewrite Hs1).
    apply wp_bind, wp_ret. eapply HQ; try done. rewrite !bool_decide_eq_false_2; [done|done|by rewrite Hs1; intros []].
  - assert (ends acts = Finishes) as Hfin by (by apply He). rewrite Hfin in B9.
    pose proof (passed_nonneg acts) as Hpos. destruct Hq1 as [Q1 Q2 Q3 Q4].
    apply (wp_upd_test _ t1); [done|]. wp_steps. set (t2 := set_t_run_stat RCU_RUN_STAT_TEST_SUCC t1).
    assert (holds hs0 (set_st_frames (st_frames s) (set_st_test (<[f := t2]> (st_test s1)) s1))) as Hh2.
    { eapply holds_shape, Hh1. by apply (shape_test (set_st_frames (st_frames s) s1) f t1 (fun _ => t2)). }
    apply (wp_object _ _ t2); [apply lookup_insert_eq|]. rewrite bool_decide_eq_true_2 by done.
    apply wp_bind, wp_bind, (wp_test_name _ t2); [apply lookup_insert_eq|done|]. cbn.
    rewrite B7, B9, Hsu, Hfa. rewrite Hfin in HQ. destruct (Z.ltb_spec 0 (passed acts)) as [Hp|Hp].
    + replace (0 + passed acts =? 0) with false by lia. wp_steps. apply (HQ _ t2 t2); try done.
      cbn. by rewrite Et1, insert_insert_eq.
    + replace (0 + passed acts =? 0) with true by lia. cbn. apply (wp_upd_test _ t2); [apply lookup_insert_eq|].
      apply (HQ _ (set_t_run_stat RCU_RUN_STAT_TEST_FAILED t2) t2); try done.
      * eapply holds_shape, Hh2. apply (shape_test (set_st_frames (st_frames s) (set_st_test (<[f := t2]> (st_test s1)) s1)) f t2); [apply lookup_insert_eq|done].
      * cbn. by rewrite Et1, !insert_insert_eq.
Qed.

Lemma wp_run_test hs0 f t (Q : rcu_error -> rcu -> Prop) s :
  code_ok -> holds hs0 s -> mc_init_done (st_mach s) = true ->
  st_test s !! f = Some t -> name_ok t -> is_Some (hs0 !! FuncFails f) ->
  (forall e s' t', holds hs0 s' -> quiet (set_st_mach (set_mc_curr_func (Some f) (st_mach s)) s) s' ->
     st_mod s' = st_mod s -> run_effect t t' -> st_test s' = <[f := t']> (st_test s) -> Q e s') ->
  wp (rcu_run_test_func_impl f) Q s.
Proof.
  intros Hcode Hh Hi Ht Hn Hfs HQ.
  set (t1 := set_t_nr_succ_assert 0 (set_t_nr_fail_assert 0 (set_t_run_stat RCU_RUN_STAT_TEST_FAILED t))).
  set (s0 := set_st_mach (set_mc_curr_func (Some f) (st_mach s)) s) in *.
  set (s1 := set_st_test (<[f := t1]> (st_test s)) s0).
  apply wp_bind, (wp_upd_test _ t); [done|]. apply wp_bind, wp_modify, wp_bind.
  eapply wp_upd_test; [apply lookup_insert_eq|]. apply wp_bind. eapply wp_upd_test; [apply lookup_insert_eq|].
  match goal with |- wp _ _ ?x => assert (x = s1) as -> end.
  { unfold s1, s0, set_st_test, set_st_mach. cbn. by rewrite !insert_insert_eq. }
  assert (st_test s1 !! f = Some t1) as Ht1 by apply lookup_insert_eq.
  assert (holds hs0 s1) as Hh1.
  { eapply holds_shape, (holds_mach _ _ (st_mach s0)), Hh. by apply (shape_test s0 f t (fun _ => t1)). }
  apply wp_bind, (wp_object _ _ t1); [done|].
  apply wp_bind, (wp_fixture hs0 _ f t1); try done; [by left|]. intros e s2 He Hh2 Hq2 Em2 Et2.
  set (t2 := fixture_effect (ends (actions (t_init t1))) t1) in *.
  assert (st_test s2 = <[f := t2]> (st_test s)) as Et2' by (rewrite Et2; cbn; by rewrite insert_insert_eq).
  assert (quiet s0 s2) as Hq2' by (by destruct Hq2).
  destruct e as [e|].
  { (* the setup does not return *)
    wp_steps. apply (HQ _ _ t2); try done.
    assert (ends (actions (t_init t)) <> Finishes) as Hne by (intros E; by destruct He as [_ He]; specialize (He E)).
    split; unfold t2, fixture_effect; [by case_match|by case_match..|]. unfold passes. rewrite (bool_decide_eq_false_2 _ Hne). cbn.
    rewrite (bool_decide_eq_false_2 (t_run_stat _ <> _)); [apply andb_false_r|]. intros []. by case_match. }
  assert (ends (actions (t_init t)) = Finishes) as Hfin by (by apply He).
  assert (t2 = t1) as E2 by (unfold t2; cbn; by rewrite Hfin). rewrite E2 in *.
  destruct (quiet_curr _ _ Hq2) as (Qi&Qf&_).
  apply (wp_run_body hs0 f t1); [done|done|by rewrite Qi|by rewrite Qf|rewrite Et2; apply lookup_insert_eq|done..|].
  intros s3 t3 tr Htr Hh3 Hq3 Em3 Et3 Hn3 X1 X2 X3 X4 X5 Hst. cbn in *.
  destruct (quiet_curr _ _ Hq3) as (Qi'&Qf'&_). rewrite Htr.
  assert (st_test s3 !! f = Some t3) as Ht3 by (rewrite Et3; apply lookup_insert_eq).
  apply wp_bind, (wp_fixture hs0 _ f t3); [by right|done|by rewrite Qi', Qi|by rewrite Qf', Qf|done|done|].
  intros e' s4 He' Hh4 Hq4 Em4 Et4. wp_steps.
  set (t4 := fixture_effect (ends (actions (t_destroy t))) t3) in *.
  apply (HQ _ _ t4); [done|etrans; [done|]; by etrans|congruence| |].
  - split; unfold t4, fixture_effect; [by case_match|by case_match..|]. unfold passes.
    rewrite Hfin, (bool_decide_eq_true_2 (Finishes = Finishes)) by done. cbn [andb].
    rewrite <- Hst, <- X4, <- X5. destruct (ends (actions (t_destroy t))); cbn;
      destruct (t_init_failed t3), (t_destroy_failed t3), (bool_decide (t_run_stat t3 <> _)); done.
  - rewrite Et4, Et3, Et2'. by rewrite !insert_insert_eq.
Qed.

(** ** The tests of a module *)

(** The parts of the state that the tests of a module do not reach. *)
Record runs (s s' : rcu) : Prop := {
  rn_reg : st_reg s' = st_reg s;
  rn_mach : set_mc_run_ctx RCU_RUN_CTX_UNKNOWN (set_mc_curr_func None (st_mach s')) =
            set_mc_run_ctx RCU_RUN_CTX_UNKNOWN (set_mc_curr_func None (st_mach s));
  rn_frames : st_frames s' = st_frames s;
  rn_out : st_out s' = st_out s
}.

#[export] Instance runs_preorder : PreOrder runs.
Proof.
  split; [by intros s; split|]. intros s1 s2 s3 [R M F O] [R' M' F' O'].
  split; by etrans.
Qed.

Lemma quiet_runs s s' : quiet s s' -> runs s s'.
Proof.
  intros [R Ma F O]. split; try done. destruct (st_mach s), (st_mach s'). cbn in *. by simplify_eq.
Qed.

Lemma runs_mach {A} (g : rcu_test_machine -> A) s s' :
  (forall mc c o, g (set_mc_run_ctx c (set_mc_curr_func o mc)) = g mc) -> runs s s' -> g (st_mach s') = g (st_mach s).
Proof. intros Hg [_ E _ _]. by rewrite <- (Hg (st_mach s') RCU_RUN_CTX_UNKNOWN None), E, Hg. Qed.

Lemma quiet_runs_test s f s' :
  quiet (set_st_mach (set_mc_curr_func (Some f) (st_mach s)) s) s' -> runs s s'.
Proof. intros Hq%quiet_runs. etrans; [|done]. by split. Qed.

Definition test_passes (s : rcu) (x : loc) : bool :=
  match x with FuncLink f => from_option passes false (st_test s !! f) | _ => false end.
Definition nr_pass (s : rcu) (l : list loc) : Z := Z.of_nat (length (filter (fun x => test_passes s x = true) l)).
Definition nr_fail (s : rcu) (l : list loc) : Z := Z.of_nat (length (filter (fun x => test_passes s x = false) l)).

Lemma nr_pass_snoc s l x : nr_pass s (l ++ [x]) = nr_pass s l + (if test_passes s x then 1 else 0).
Proof. unfold nr_pass. rewrite filter_app, length_app, filter_cons, filter_nil. case_decide as E; [rewrite E|destruct (test_passes s x); [done|]]; cbn; lia. Qed.
Lemma nr_fail_snoc s l x : nr_fail s (l ++ [x]) = nr_fail s l + (if test_passes s x then 0 else 1).
Proof. unfold nr_fail. rewrite filter_app, length_app, filter_cons, filter_nil. case_decide as E; [rewrite E|destruct (test_passes s x); [|done]]; cbn; lia. Qed.

Lemma nr_bounds s l : nr_fail s l <= Z.of_nat (length l) /\ nr_pass s l <= Z.of_nat (length l).
Proof. unfold nr_fail, nr_pass. split; apply inj_le, length_filter. Qed.

(** The module with [n] more failed and [k] more successful tests. *)
Definition counted (n k : Z) (x : rcu_module) : rcu_module :=
  set_m_nr_failed_test (m_nr_failed_test x + n) (set_m_nr_succ_test (m_nr_succ_test x + k) x).

Lemma counted_counted n k n' k' x : counted n' k' (counted n k x) = counted (n + n') (k + k') x.
Proof. destruct x. unfold counted. cbn. unfold set_m_nr_failed_test, set_m_nr_succ_test. cbn. f_equal; lia. Qed.

Lemma counted_fail x : counted 1 0 x = set_m_nr_failed_test (m_nr_failed_test x + 1) x.
Proof. destruct x. unfold counted, set_m_nr_failed_test, set_m_nr_succ_test. cbn. f_equal. lia. Qed.

Lemma counted_pass x : counted 0 1 x = set_m_nr_succ_test (m_nr_succ_test x + 1) x.
Proof. destruct x. unfold counted, set_m_nr_failed_test, set_m_nr_succ_test. cbn. f_equal. lia. Qed.

Lemma wp_count_test m f x t t' (Q : unit -> rcu -> Prop) s :
  st_mod s !! m = Some x -> m_nr_failed_test x < INT_MAX -> m_nr_succ_test x < INT_MAX ->
  st_test s !! f = Some t' -> run_effect t t' ->
  (forall t'', same_shape s (set_st_test (<[f := t'']> (st_test s)) s) ->
     Q tt (set_st_mod (<[m := counted (if passes t then 0 else 1) (if passes t then 1 else 0) x]> (st_mod s))
          (set_st_test (<[f := t'']> (st_test s)) s))) ->
  wp (count_test m f) Q s.
Proof.
  intros Hx Bf Bs Ht [N E I D V] HQ. apply wp_bind, (wp_object _ _ t'); [done|].
  assert (forall t'', name_ok t'' -> same_shape s (set_st_test (<[f := t'']> (st_test s)) s)) as Hsh
    by (intros t'' ?; by apply (shape_test s f t' (fun _ => t''))).
  pose proof (HQ t' (Hsh _ N)) as HQ'.
  replace (set_st_test (<[f := t']> (st_test s)) s) with s in HQ' by (rewrite insert_id by done; by destruct s).
  rewrite <- V in HQ, HQ'. destruct (t_init_failed t' || t_destroy_failed t'); cbn [negb andb] in HQ, HQ'.
  - apply wp_bind, (wp_upd_test _ t'); [done|]. apply (wp_bump_mod _ x); [done|done|]. rewrite <- counted_fail.
    by apply HQ, Hsh.
  - destruct (decide (t_run_stat t' = RCU_RUN_STAT_TEST_FAILED)) as [B|B];
      [rewrite (bool_decide_eq_true_2 _ B)|rewrite (bool_decide_eq_false_2 _ B)]; (apply (wp_bump_mod _ x); [done|done|]).
    + rewrite (bool_decide_eq_false_2 (_ <> _)) in HQ' by (by intros []). by rewrite <- counted_fail.
    + rewrite (bool_decide_eq_true_2 (_ <> _)) in HQ' by done. by rewrite <- counted_pass.
Qed.

(** The tests of a module, from [s0]. *)
Record tests_run (hs0 : lists) (m : ident) (x : rcu_module) (s0 : rcu) (d : list loc) (s : rcu) : Prop := {
  tr_holds : holds hs0 s;
  tr_runs : runs s0 s;
  tr_test : forall f, FuncLink f ∉ d -> st_test s !! f = st_test s0 !! f;
  tr_mod : st_mod s = <[m := counted (nr_fail s0 d) (nr_pass s0 d) x]> (st_mod s0)
}.

Lemma wp_run_tests hs0 m x l (Q : unit -> rcu -> Prop) s :
  code_ok -> holds hs0 s -> mc_init_done (st_mach s) = true -> st_mod s !! m = Some x ->
  hs0 !! FuncList m = Some l ->
  m_nr_failed_test x + Z.of_nat (length l) <= INT_MAX -> m_nr_succ_test x + Z.of_nat (length l) <= INT_MAX ->
  (forall s', tests_run hs0 m x s l s' -> Q tt s') ->
  wp (each (FuncList m) (fun c => let! f := as_func c in rcu_run_test_func_impl f ;;; count_test m f)) Q s.
Proof.
  intros Hcode Hh Hi Hx Hl Bf Bs HQ. apply (wp_each hs0 _ l _ (tests_run hs0 m x s)); try done.
  - by intros d s' [].
  - intros d y rest s1 -> [H1 R1 T1 M1].
    assert (NoDup (d ++ y :: rest)) as Hnd by (by eapply holds_list in Hh as [_ [_ ?]%NoDup_cons]).
    assert (y ∉ d) as Hyd by (apply NoDup_app in Hnd as (_&Hd&_); intros ?; by eapply Hd; [|left]).
    destruct (holds_live _ _ _ _ y H1 Hl eq_refl ltac:(set_solver)) as [Ty Ly].
    destruct y as [| | | | | | |f| |]; try done. destruct Ly as [(t & Ht & Hn) Hfs].
    assert (mc_init_done (st_mach s1) = true) as Hi1 by (rewrite (runs_mach mc_init_done _ _ ltac:(done) R1); done).
    apply wp_bind, wp_ret, wp_bind, (wp_run_test hs0 f t); try done.
    intros _ s2 t2 H2 Q2 M2 E2 T2. apply quiet_runs_test in Q2.
    apply (wp_count_test m f (counted (nr_fail s d) (nr_pass s d) x) t t2); try done.
    { rewrite M2, M1. apply lookup_insert_eq. }
    { rewrite length_app in Bf. destruct (nr_bounds s d). cbn in *. lia. }
    { rewrite length_app in Bs. destruct (nr_bounds s d). cbn in *. lia. }
    { rewrite T2. apply lookup_insert_eq. }
    intros t3 Hsh. assert (test_passes s (FuncLink f) = passes t) as Hp.
    { cbn. rewrite <- T1 by done. by rewrite Ht. }
    split.
    + eapply holds_shape; [apply (shape_mod (set_st_test (<[f := t3]> (st_test s2)) s2) m (counted (nr_fail s d) (nr_pass s d) x)); [|done]|by eapply holds_shape].
      cbn. rewrite M2, M1. apply lookup_insert_eq.
    + etrans; [apply R1|]. etrans; [apply Q2|]. by split.
    + intros f' Hf'. cbn. rewrite lookup_insert_ne, T2, lookup_insert_ne by set_solver. apply T1. set_solver.
    + cbn. rewrite M2, M1, insert_insert_eq, nr_fail_snoc, nr_pass_snoc, Hp, counted_counted. done.
  - split; [done|done|done|]. unfold nr_fail, nr_pass. cbn.
    rewrite insert_id; [done|]. rewrite Hx. f_equal. destruct x. unfold counted, set_m_nr_failed_test, set_m_nr_succ_test. cbn. f_equal; lia.
Qed.

(** ** One module *)

Lemma wp_mod_setup hs0 m x o (Q : option rcu_exception_id -> rcu -> Prop) s :
  holds hs0 s -> mc_init_done (st_mach s) = true -> mc_curr_mod (st_mach s) = Some m ->
  st_mod s !! m = Some x -> is_Some (hs0 !! ModFails m) ->
  (forall e s', thrown e (ends (actions o)) -> holds hs0 s' -> quiet s s' -> st_test s' = st_test s ->
     st_mod s' = <[m := mod_effect RCU_RUN_CTX_MOD_INIT (ends (actions o)) x]> (st_mod s) -> Q e s') ->
  wp (match o with
      | Some g => RCU_TRY (SET_RUN_CTX RCU_RUN_CTX_MOD_INIT ;;; call g)
      | None => ret None
      end) Q s.
Proof.
  intros Hh Hi Hm Hx Hfs HQ. destruct o as [g|].
  - apply wp_try, wp_bind, wp_modify. eapply (wp_perform_mod hs0 _ m x); [by left| |done..|].
    + split; cbn; [|done|lia|done]. eapply holds_shape, Hh. split; [by apply keeps_same|done..].
    + intros e s' He Hh' [Q1 Q2 Q3 Q4] Em Et. apply HQ; try done. by apply holds_frames.
  - wp_steps. apply HQ; [done..|]. by rewrite insert_id.
Qed.

Lemma wp_mod_teardown hs0 m x o (Q : option rcu_exception_id -> rcu -> Prop) s :
  holds hs0 s -> mc_init_done (st_mach s) = true -> mc_curr_mod (st_mach s) = Some m ->
  st_mod s !! m = Some x -> is_Some (hs0 !! ModFails m) ->
  (forall e s', thrown e (ends (actions o)) -> holds hs0 s' -> quiet s s' -> st_test s' = st_test s ->
     st_mod s' = <[m := mod_effect RCU_RUN_CTX_MOD_DESTROY (ends (actions o)) x]> (st_mod s) -> Q e s') ->
  wp (match o with
      | Some g => SET_RUN_CTX RCU_RUN_CTX_MOD_DESTROY ;;; RCU_TRY (call g)
      | None => ret None
      end) Q s.
Proof.
  intros Hh Hi Hm Hx Hfs HQ. destruct o as [g|].
  - apply wp_bind, wp_modify, wp_try. eapply (wp_perform_mod hs0 _ m x); [by right| |done..|].
    + split; cbn; [|done|lia|done]. eapply holds_shape, Hh. split; [by apply keeps_same|done..].
    + intros e s' He Hh' [Q1 Q2 Q3 Q4] Em Et. apply HQ; try done. by apply holds_frames.
  - wp_steps. apply HQ; [done..|]. by rewrite insert_id.
Qed.

(** The machine without its context, current entities and test counters. *)
Definition mach_core (mc : rcu_test_machine) :=
  (mc_init_done mc, mc_run_level mc, mc_run_hook mc, mc_nr_failed_reg mc, mc_nr_succ_reg mc).

Record steady (s s' : rcu) : Prop := {
  sy_core : mach_core (st_mach s') = mach_core (st_mach s);
  sy_out : st_out s' = st_out s
}.
#[export] Instance steady_preorder : PreOrder steady.
Proof. split; [by intros s; split|]. intros s1 s2 s3 [] []. split; by etrans. Qed.

Lemma runs_steady s s' : runs s s' -> steady s s'.
Proof. intros R. split; [by apply (runs_mach mach_core)|apply R]. Qed.

(** A module that has not been run. *)
Record fresh_mod (x : rcu_module) : Prop := {
  fm_failed : m_nr_failed_test x = 0;
  fm_succ : m_nr_succ_test x = 0;
  fm_stat : m_run_stat x = RCU_RUN_STAT_NOTTESTED;
  fm_init : m_init_failed x = false;
  fm_destroy : m_destroy_failed x = false
}.

(** Its setup and teardown return. *)
Definition fixtures_finish (x : rcu_module) : bool :=
  bool_decide (ends (actions (m_init x)) = Finishes) && bool_decide (ends (actions (m_destroy x)) = Finishes).

(** What a run of module [m] with the tests [l] does. *)
Record mod_run (hs0 : lists) (m : ident) (x : rcu_module) (l : list loc) (s s' : rcu) : Prop := {
  mr_holds : holds hs0 s';
  mr_steady : steady s s';
  mr_test : forall f, FuncLink f ∉ l -> st_test s' !! f = st_test s !! f;
  mr_mod : forall m', m' <> m -> st_mod s' !! m' = st_mod s !! m';
  mr_reg : st_reg s' = st_reg s;
  mr_failed : mc_nr_failed_test (st_mach s') =
    mc_nr_failed_test (st_mach s) + (if fixtures_finish x then nr_fail s l else 0);
  mr_succ : mc_nr_succ_test (st_mach s') =
    mc_nr_succ_test (st_mach s) + (if fixtures_finish x then nr_pass s l else 0)
}.

Lemma wp_hook_at level started (Q : unit -> rcu -> Prop) s :
  mc_run_level (st_mach s) <> level -> Q tt s -> wp (hook_at level started) Q s.
Proof. intros Hl HQ. apply wp_bind, wp_gets. rewrite bool_decide_eq_false_2 by done. by wp_steps. Qed.

Lemma nr_ext s s' l : st_test s' = st_test s -> nr_fail s' l = nr_fail s l /\ nr_pass s' l = nr_pass s l.
Proof. intros E. unfold nr_fail, nr_pass, test_passes. by rewrite E. Qed.

(** What [wp_run_mod] concludes. *)
Definition mod_post hs0 m x l s (Q : rcu_error -> rcu -> Prop) : Prop :=
  forall e s' x', mod_run hs0 m x l s s' -> st_mod s' !! m = Some x' ->
    (m_init_failed x' || m_destroy_failed x' = true -> fixtures_finish x = false) ->
    (m_run_stat x' = RCU_RUN_STAT_TEST_FAILED <-> fixtures_finish x = true /\ 0 < nr_fail s l) ->
    Q e s'.

(** The counters have room for the tests [l] of a module. *)
Record mod_room (l : list loc) (s : rcu) : Prop := {
  mm_tests : Z.of_nat (length l) <= INT_MAX;
  mm_failed : mc_nr_failed_test (st_mach s) + Z.of_nat (length l) <= INT_MAX;
  mm_succ : mc_nr_succ_test (st_mach s) + Z.of_nat (length l) <= INT_MAX
}.

(** The tests of a module, its teardown and its status. *)
Lemma wp_run_mod_tests hs0 m x l (Q : rcu_error -> rcu -> Prop) s :
  code_ok -> holds hs0 s -> mc_init_done (st_mach s) = true -> mc_run_level (st_mach s) = RCU_RUN_LEVEL_MACH ->
  mc_curr_mod (st_mach s) = Some m -> st_mod s !! m = Some x -> fresh_mod x ->
  hs0 !! FuncList m = Some l -> is_Some (hs0 !! ModFails m) -> ends (actions (m_init x)) = Finishes ->
  mod_room l s ->
  mod_post hs0 m x l s Q ->
  wp (each (FuncList m) (fun c => let! f := as_func c in rcu_run_test_func_impl f ;;; count_test m f) ;;;
      let! x := mod_at m in
      let! teardown :=
        match m_destroy x with
        | Some destroy => SET_RUN_CTX RCU_RUN_CTX_MOD_DESTROY ;;; RCU_TRY (call destroy)
        | None => ret None
        end in
      hook_at RCU_RUN_LEVEL_MOD false ;;;
      match teardown with
      | Some _ => ret RCU_E_NG
      | None =>
          upd_mod m (fun x => set_m_run_stat
            (if m_nr_failed_test x =? 0 then RCU_RUN_STAT_TEST_SUCC else RCU_RUN_STAT_TEST_FAILED) x) ;;;
          let! x := mod_at m in
          bump_mach mc_nr_failed_test set_mc_nr_failed_test (m_nr_failed_test x) ;;;
          bump_mach mc_nr_succ_test set_mc_nr_succ_test (m_nr_succ_test x) ;;;
          ret RCU_E_OK
      end) Q s.
Proof.
  intros Hcode Hh Hi Hlev Hcm Hx [F1 F2 F3 F4 F5] Hl Hmf Hfin [L1 L2 L3] HQ.
  apply wp_bind, (wp_run_tests hs0 m x l); try done; [lia|lia|]. intros s2 [H2 R2 T2 M2].
  set (x2 := counted (nr_fail s l) (nr_pass s l) x) in *.
  assert (st_mod s2 !! m = Some x2) as Hx2 by (rewrite M2; apply lookup_insert_eq).
  apply wp_bind, (wp_object _ _ x2); [done|].
  apply wp_bind, (wp_mod_teardown hs0 m x2); [done|..|done|done|].
  { by rewrite (runs_mach mc_init_done _ _ ltac:(done) R2). } { by rewrite (runs_mach mc_curr_mod _ _ ltac:(done) R2). }
  intros e s3 He H3 Q3%quiet_runs T3 M3. change (m_destroy x2) with (m_destroy x) in *.
  set (v := ends (actions (m_destroy x))) in *. set (x3 := mod_effect RCU_RUN_CTX_MOD_DESTROY v x2) in *.
  assert (runs s s3) as R3 by (by etrans).
  assert (fixtures_finish x = bool_decide (v = Finishes)) as Hff
    by (unfold fixtures_finish; by rewrite Hfin, (bool_decide_eq_true_2 (Finishes = Finishes))).
  assert (forall m', m' <> m -> st_mod s3 !! m' = st_mod s !! m') as Mne
    by (intros; rewrite M3, M2; by rewrite !lookup_insert_ne).
  assert (forall f, FuncLink f ∉ l -> st_test s3 !! f = st_test s !! f) as Tne by (intros; rewrite T3; auto).
  assert (st_mod s3 !! m = Some x3) as Hx3 by (rewrite M3; apply lookup_insert_eq).
  pose proof (runs_mach mc_nr_failed_test _ _ ltac:(done) R3) as C1.
  pose proof (runs_mach mc_nr_succ_test _ _ ltac:(done) R3) as C2.
  apply wp_bind, wp_hook_at; [by rewrite (runs_mach mc_run_level _ _ ltac:(done) R3), Hlev|].
  destruct e as [e|].
  { (* the teardown does not return *)
    assert (v <> Finishes) as Hne by (intros E; by destruct He as [_ He]; specialize (He E)).
    rewrite (bool_decide_eq_false_2 _ Hne) in Hff. wp_steps. apply (HQ _ _ x3); try done.
    - split; try done; [by apply runs_steady|apply R3|rewrite Hff; lia|rewrite Hff; lia].
    - rewrite Hff. assert (m_run_stat x3 = m_run_stat x) as -> by (unfold x3; by destruct v).
      rewrite F3. split; [done|by intros []]. }
  assert (v = Finishes) as Hv by (by apply He). rewrite (bool_decide_eq_true_2 _ Hv) in Hff.
  assert (x3 = x2) as E3 by (unfold x3; by rewrite Hv). rewrite E3 in *.
  apply wp_bind, (wp_upd_mod _ x2); [done|]. eapply wp_bind, wp_object; [apply lookup_insert_eq|].
  assert (m_nr_failed_test x2 = nr_fail s l /\ m_nr_succ_test x2 = nr_pass s l) as [N1 N2] by (cbn; lia).
  destruct (nr_bounds s l) as [K1 K2].
  apply wp_bind, wp_bump_mach; [cbn -[x2 counted]; cbn in N1; cbn; lia|].
  apply wp_bind, wp_bump_mach; [cbn -[x2 counted]; cbn in N2; cbn; lia|]. wp_steps.
  assert (0 <= nr_fail s l) as Hpos by (unfold nr_fail; lia).
  eapply HQ; [|apply lookup_insert_eq|..]; rewrite ?Hff; cbn [m_run_stat m_init_failed m_destroy_failed set_m_run_stat].
  - split; cbn; try (rewrite Hff; cbn; lia); try done; [|split; apply (runs_steady _ _ R3)| |apply R3].
    + repeat apply holds_mach. eapply holds_shape, H3. by apply (shape_mod s3 m x2).
    + intros m' ?. rewrite lookup_insert_ne by done. by apply Mne.
  - cbn. by rewrite F4, F5.
  - rewrite N1. destruct (Z.eqb_spec (nr_fail s l) 0); split; try done; try lia.
Qed.

Lemma wp_run_mod hs0 m x l (Q : rcu_error -> rcu -> Prop) s :
  code_ok -> holds hs0 s -> mc_init_done (st_mach s) = true -> mc_run_level (st_mach s) = RCU_RUN_LEVEL_MACH ->
  mc_curr_mod (st_mach s) = Some m -> st_mod s !! m = Some x -> fresh_mod x ->
  hs0 !! FuncList m = Some l -> is_Some (hs0 !! ModFails m) -> mod_room l s ->
  (forall e s' x', mod_run hs0 m x l s s' -> st_mod s' !! m = Some x' ->
     (m_init_failed x' || m_destroy_failed x' = true -> fixtures_finish x = false) ->
     (m_run_stat x' = RCU_RUN_STAT_TEST_FAILED <-> fixtures_finish x = true /\ 0 < nr_fail s l) ->
     Q e s') ->
  wp (rcu_run_test_mod_impl m) Q s.
Proof.
  intros Hcode Hh Hi Hlev Hcm Hx [F1 F2 F3 F4 F5] Hl Hmf Hroom HQ.
  apply wp_bind, wp_gets, wp_bind. rewrite bool_decide_eq_false_2 by (by rewrite Hlev). apply wp_ret, wp_bind.
  apply (wp_object _ _ x); [done|]. apply wp_bind, (wp_mod_setup hs0 m x); try done.
  intros e s1 He H1 Q1 T1 M1. apply quiet_runs in Q1 as R1.
  set (x1 := mod_effect RCU_RUN_CTX_MOD_INIT (ends (actions (m_init x))) x) in *.
  assert (st_mod s1 !! m = Some x1) as Hx1 by (rewrite M1; apply lookup_insert_eq).
  assert (mc_run_level (st_mach s1) = RCU_RUN_LEVEL_MACH) as Hl1 by (rewrite (runs_mach mc_run_level _ _ ltac:(done) R1); done).
  destruct e as [e|].
  { (* the setup does not return *)
    assert (ends (actions (m_init x)) <> Finishes) as Hne by (intros E; by destruct He as [_ He]; specialize (He E)).
    assert (fixtures_finish x = false) as Hff by (unfold fixtures_finish; by rewrite (bool_decide_eq_false_2 _ Hne)).
    apply wp_bind, wp_hook_at; [by rewrite Hl1|]. wp_steps. apply (HQ _ _ x1); [|done|done|].
    - split; [done|by apply runs_steady|by intros; rewrite T1|intros; rewrite M1; by apply lookup_insert_ne|apply R1|..];
        rewrite Hff; [rewrite (runs_mach mc_nr_failed_test _ _ ltac:(done) R1)|rewrite (runs_mach mc_nr_succ_test _ _ ltac:(done) R1)]; lia.
    - rewrite Hff. assert (m_run_stat x1 = m_run_stat x) as -> by (unfold x1; by destruct (ends _)).
      rewrite F3. split; [done|by intros []]. }
  assert (ends (actions (m_init x)) = Finishes) as Hfin by (by apply He).
  assert (x1 = x) as E1 by (unfold x1; by rewrite Hfin). rewrite E1 in *.
  apply (wp_run_mod_tests hs0 m x l); try done.
  { by rewrite (runs_mach mc_init_done _ _ ltac:(done) R1). } { by rewrite (runs_mach mc_curr_mod _ _ ltac:(done) R1). }
  { destruct Hroom. split; [done|by rewrite (runs_mach mc_nr_failed_test _ _ ltac:(done) R1)|].
    by rewrite (runs_mach mc_nr_succ_test _ _ ltac:(done) R1). }
  destruct (nr_ext _ _ l T1) as [N1 N2]. intros e s' x' [G1 G2 G3 G4 G5 G6 G7] Hx' Hflag Hst. apply (HQ e _ x'); try done.
  - split; rewrite <- ?N1, <- ?N2.
    + done.
    + etrans; [by apply runs_steady|done].
    + intros f Hf. by rewrite G3, T1.
    + intros m' Hm'. rewrite G4, M1 by done. by apply lookup_insert_ne.
    + rewrite G5. apply R1.
    + by rewrite G6, (runs_mach mc_nr_failed_test _ _ ltac:(done) R1).
    + by rewrite G7, (runs_mach mc_nr_succ_test _ _ ltac:(done) R1).
  - by rewrite <- N1.
Qed.

(** ** Counting a module *)

(** Only tests of [l], failure records and, apart from its name, registry [r]
    change. *)
Record recounted (hs0 : lists) (r m : ident) (l : list loc) (n : Z) (s s' : rcu) : Prop := {
  rc_holds : holds hs0 s';
  rc_mach : st_mach s' = st_mach s;
  rc_out : st_out s' = st_out s;
  rc_test : forall f, FuncLink f ∉ l -> st_test s' !! f = st_test s !! f;
  rc_mod : forall m', m' <> m -> st_mod s' !! m' = st_mod s !! m';
  rc_reg : exists g g', st_reg s !! r = Some g /\ st_reg s' = <[r := g']> (st_reg s) /\ r_name g' = r_name g /\
             r_nr_failed_mod g' = r_nr_failed_mod g + n /\ r_nr_succ_mod g' <= r_nr_succ_mod g + 1
}.

(** The results of the tests of a module whose setup or teardown failed are discarded. *)
Lemma wp_discard hs0 m l (Q : unit -> rcu -> Prop) s :
  holds hs0 s -> hs0 !! FuncList m = Some l ->
  (forall s', holds hs0 s' -> st_mach s' = st_mach s -> st_out s' = st_out s -> st_reg s' = st_reg s ->
     st_mod s' = st_mod s -> (forall f, FuncLink f ∉ l -> st_test s' !! f = st_test s !! f) -> Q tt s') ->
  wp (each (FuncList m) (fun c =>
      let! f := as_func c in
      upd_test f (set_t_run_stat RCU_RUN_STAT_TEST_FAILED) ;;;
      upd_test f (set_t_nr_fail_assert 0) ;;;
      upd_test f (set_t_nr_succ_assert 0) ;;;
      rcu_del_all_fail_rec_from_func f ;;; ret tt)) Q s.
Proof.
  intros Hh Hl HQ.
  apply (wp_each hs0 _ l _ (fun d s' => holds hs0 s' /\ st_mach s' = st_mach s /\ st_out s' = st_out s /\
    st_reg s' = st_reg s /\ st_mod s' = st_mod s /\ (forall f, FuncLink f ∉ l -> st_test s' !! f = st_test s !! f)));
    [done|done|by intros d s' []| |intros s' (?&?&?&?&?&?); by apply HQ|done].
  intros d y rest s1 -> (H1&E1&E2&E3&E4&E5).
  destruct (holds_live _ _ _ _ y H1 Hl eq_refl ltac:(set_solver)) as [Ty Ly].
  destruct y as [| | | | | | |f| |]; try done. destruct Ly as [(t & Ht & Hn) Hfs].
  apply wp_bind, wp_ret, wp_bind, (wp_upd_test _ t); [done|].
  apply wp_bind. eapply wp_upd_test; [apply lookup_insert_eq|]. apply wp_bind. eapply wp_upd_test; [apply lookup_insert_eq|].
  cbn. set (t' := set_t_nr_succ_assert 0 _). rewrite !insert_insert_eq. set (s2 := set_st_test _ _).
  assert (holds hs0 s2) as (hs & Hd & Ha).
  { eapply holds_shape, H1. by apply (shape_test s1 f t (fun _ => t')). }
  apply (agree_dom _ _ Ha) in Hfs as [k Hk].
  apply wp_bind, (wp_del_all_fail_rec hs _ k); [done|done|done|]. intros _ s3 Hd3 [O1 O2 O3 O4 O5 O6]. wp_steps.
  split_and!; [|cbn in *; congruence..|].
  - eexists. split; [done|]. eapply agree_trans; [done|]. by apply agree_insert.
  - intros f' Hf'. rewrite O1. cbn. rewrite lookup_insert_ne by set_solver. by apply E5.
Qed.

Lemma wp_count_mod hs0 r m x g l (Q : unit -> rcu -> Prop) s :
  holds hs0 s -> hs0 !! FuncList m = Some l -> st_mod s !! m = Some x -> st_reg s !! r = Some g ->
  r_nr_failed_mod g < INT_MAX -> r_nr_succ_mod g < INT_MAX ->
  (forall s', recounted hs0 r m l
       (if m_init_failed x || m_destroy_failed x then 0
        else if decide (m_run_stat x = RCU_RUN_STAT_TEST_FAILED) then 1 else 0) s s' -> Q tt s') ->
  wp (count_mod r m) Q s.
Proof.
  intros Hh Hl Hx Hg Bf Bs HQ. apply wp_bind, (wp_object _ _ x); [done|].
  destruct (m_init_failed x || m_destroy_failed x).
  - apply wp_bind, (wp_upd_mod _ x); [done|]. apply (wp_discard hs0 m l); [|done|].
    { eapply holds_shape, Hh. by apply (shape_mod s m x). }
    intros s' H' E1 E2 E3 E4 E5. apply HQ. split; try done.
    + intros m' Hm'. rewrite E4. cbn. by rewrite lookup_insert_ne.
    + exists g, g. rewrite E3. cbn. rewrite insert_id by done. split_and!; try done; lia.
  - assert (forall g' n, r_name g' = r_name g -> r_nr_failed_mod g' = r_nr_failed_mod g + n ->
      r_nr_succ_mod g' <= r_nr_succ_mod g + 1 ->
      recounted hs0 r m l n s (set_st_reg (<[r := g']> (st_reg s)) s)) as Hrc.
    { intros g' n Hn Hc Hs. split; try done; [|by exists g, g']. eapply holds_shape, Hh. by apply (shape_reg s r g). }
    case_decide as Hst; [rewrite (bool_decide_eq_true_2 _ Hst)|rewrite (bool_decide_eq_false_2 _ Hst)];
      (apply (wp_bump_reg _ g); [done|done|]); apply HQ, Hrc; cbn; (done || lia).
Qed.

(** ** All modules *)

Definition sum_over (f : loc -> Z) (l : list loc) : Z := foldr (fun x a => f x + a) 0 l.

Lemma sum_over_app f l1 l2 : sum_over f (l1 ++ l2) = sum_over f l1 + sum_over f l2.
Proof. unfold sum_over. induction l1 as [|x l1 IH]; cbn; [done|]. rewrite IH. lia. Qed.

Lemma sum_over_le f g l : (forall c, f c <= g c) -> sum_over f l <= sum_over g l.
Proof. intros Hle. unfold sum_over. induction l as [|x l IH]; cbn; [lia|]. specialize (Hle x). lia. Qed.

Lemma sum_over_nonneg f l : (forall c, 0 <= f c) -> 0 <= sum_over f l.
Proof. intros Hf. unfold sum_over. induction l as [|x l IH]; cbn; [lia|]. specialize (Hf x). lia. Qed.

(** A traversal that only counts, [f c] for the entry [c]. *)
Lemma wp_count_each h l body (f : loc -> Z) s n :
  ring (st_node s) h l -> (forall c, 0 <= f c) -> n + sum_over f l <= INT_MAX ->
  (forall x n, x ∈ l -> n + f x <= INT_MAX -> wp (body x) (fun _ a => a = (s, n + f x)) (s, n)) ->
  wp (each_in h body) (fun _ a => a = (s, n + sum_over f l)) (s, n).
Proof.
  intros Hr Hf Hn Hb. apply wp_bind, (wp_traverse _ _ _ _ (fun d a => a = (s, n + sum_over f d)) l); [by intros d a ->| |by intros a ->; apply wp_ret|].
  - intros d x t a -> ->. rewrite sum_over_app in Hn. pose proof (sum_over_nonneg f t Hf). unfold sum_over in Hn. cbn in Hn.
    fold (sum_over f d) (sum_over f t) in Hn.
    apply wp_bind. eapply wp_conseq; [apply Hb; [set_solver|lia]|].
    intros r a' ->. apply wp_ret. split; [done|]. rewrite sum_over_app. cbn. f_equal. lia.
  - cbn. f_equal. lia.
Qed.

Lemma sum_over_concat f (l : list (list loc)) : sum_over f (concat l) = foldr (fun k a => sum_over f k + a) 0 l.
Proof. induction l as [|k l IH]; [done|]. cbn [concat foldr]. by rewrite sum_over_app, IH. Qed.

Lemma sum_over_map {A} (f : A -> Z) g l : sum_over (fun x => f (g x)) l = foldr (fun k a => f k + a) 0 (map g l).
Proof. unfold sum_over. induction l as [|x l IH]; cbn; [done|]. by rewrite IH. Qed.

Lemma sum_over_one l : sum_over (fun _ => 1) l = Z.of_nat (length l).
Proof. unfold sum_over. induction l as [|x l IH]; [done|]. cbn [foldr length]. rewrite IH. lia. Qed.

Lemma wp_count_entry s n : n + 1 <= INT_MAX -> wp count_entry (fun _ a => a = (s, n + 1)) (s, n).
Proof. intros Hn. apply wp_bind, wp_gets, wp_bind, wp_int_add; [done|]. by apply wp_modify. Qed.

Lemma wp_starting {T} (t : T) (m : M (rcu * T) unit) (Q : T -> rcu -> Prop) s :
  wp m (fun _ x => Q x.2 x.1) (s, t) -> wp (starting t m) Q s.
Proof. unfold wp, starting. by destruct (m (s, t)) as [? [??]|]. Qed.

Section Progress.
(** The database and the state the run starts from. *)
Context (hs0 : lists) (s0 : rcu).

Definition mod_tests (m : ident) : list loc := default [] (hs0 !! FuncList m).

(** A module [c] of the run counts as failed; the numbers of its tests. *)
Definition mod_case {A} (d : A) (k : rcu_module -> list loc -> A) (c : loc) : A :=
  match c with
  | ModLink m => from_option (fun x => k x (mod_tests m)) d (st_mod s0 !! m)
  | _ => d
  end.
Definition mod_fails : loc -> bool := mod_case false (fun x l => fixtures_finish x && (0 <? nr_fail s0 l)).
Definition mod_nr_fail : loc -> Z := mod_case 0 (fun x l => if fixtures_finish x then nr_fail s0 l else 0).
Definition mod_nr_pass : loc -> Z := mod_case 0 (fun x l => if fixtures_finish x then nr_pass s0 l else 0).
Definition mod_size (c : loc) : Z := match c with ModLink m => Z.of_nat (length (mod_tests m)) | _ => 0 end.

Lemma mod_size_nonneg c : 0 <= mod_size c.
Proof. destruct c; cbn; lia. Qed.

(** A module counts no more tests than it has. *)
Lemma mod_counts_le c : mod_nr_fail c <= mod_size c /\ mod_nr_pass c <= mod_size c.
Proof.
  destruct c as [| | | |m| | | | |]; cbn; try done. destruct (nr_bounds s0 (mod_tests m)).
  destruct (st_mod s0 !! m) as [x|]; cbn; [destruct (fixtures_finish x)|]; lia.
Qed.

Lemma sum_counts_le l :
  sum_over mod_nr_fail l <= sum_over mod_size l /\ sum_over mod_nr_pass l <= sum_over mod_size l.
Proof. split; apply sum_over_le; apply mod_counts_le. Qed.

(** Nothing has been run yet. *)
Record unrun : Prop := {
  ur_db : db s0 hs0;
  ur_init : mc_init_done (st_mach s0) = true;
  ur_level : mc_run_level (st_mach s0) = RCU_RUN_LEVEL_MACH;
  ur_failed : mc_nr_failed_test (st_mach s0) = 0;
  ur_succ : mc_nr_succ_test (st_mach s0) = 0;
  ur_failed_reg : mc_nr_failed_reg (st_mach s0) = 0;
  ur_succ_reg : mc_nr_succ_reg (st_mach s0) = 0;
  ur_mods : forall r l m, hs0 !! ModList r = Some l -> ModLink m ∈ l -> exists x, st_mod s0 !! m = Some x /\ fresh_mod x;
  ur_regs : forall l r, hs0 !! RegList = Some l -> RegLink r ∈ l -> exists g, st_reg s0 !! r = Some g /\ r_nr_failed_mod g = 0 /\ r_nr_succ_mod g = 0
}.
Context (Hcode : code_ok) (Hun : unrun).

(** The modules [D] have been run. *)
Record progress (D : list loc) (s : rcu) : Prop := {
  pg_holds : holds hs0 s;
  pg_init : mc_init_done (st_mach s) = true;
  pg_level : mc_run_level (st_mach s) = RCU_RUN_LEVEL_MACH;
  pg_hook : mc_run_hook (st_mach s) = mc_run_hook (st_mach s0);
  pg_mod : forall m, ModLink m ∉ D -> st_mod s !! m = st_mod s0 !! m;
  pg_test : forall m f, ModLink m ∉ D -> FuncLink f ∈ mod_tests m -> st_test s !! f = st_test s0 !! f;
  pg_failed : mc_nr_failed_test (st_mach s) = sum_over mod_nr_fail D;
  pg_succ : mc_nr_succ_test (st_mach s) = sum_over mod_nr_pass D
}.

Lemma mod_tests_disjoint m m' f : FuncLink f ∈ mod_tests m -> FuncLink f ∈ mod_tests m' -> m = m'.
Proof.
  unfold mod_tests. destruct (hs0 !! FuncList m) as [l|] eqn:E, (hs0 !! FuncList m') as [l'|] eqn:E'; cbn; try set_solver.
  intros Hl Hl'. assert (FuncList m = FuncList m') as [= ?]; [|done].
  eapply (rings_disjoint _ _ (db_rings _ _ (ur_db Hun)) _ _ _ _ (FuncLink f) E E'); by right.
Qed.

Lemma nr_fail_ext s s' l :
  (forall f, FuncLink f ∈ l -> st_test s' !! f = st_test s !! f) -> nr_fail s' l = nr_fail s l /\ nr_pass s' l = nr_pass s l.
Proof.
  intros E. assert (forall x, x ∈ l -> test_passes s' x = test_passes s x) as Ht.
  { intros [| | | | | | |f| |] Hx; cbn; try done. by rewrite E. }
  unfold nr_fail, nr_pass. split; do 2 f_equal; clear E; (induction l as [|x l IH]; [done|]);
    rewrite !filter_cons, (Ht x) by (by left); rewrite IH by (intros; apply Ht; by right); done.
Qed.

Lemma wp_run_one_mod D r l m g (Q : unit -> rcu -> Prop) s :
  progress D s -> hs0 !! ModList r = Some l -> ModLink m ∈ l -> ModLink m ∉ D -> st_reg s !! r = Some g ->
  sum_over mod_size D + mod_size (ModLink m) <= INT_MAX -> r_nr_failed_mod g < INT_MAX -> r_nr_succ_mod g < INT_MAX ->
  (forall s' g', progress (D ++ [ModLink m]) s' -> st_reg s' = <[r := g']> (st_reg s) -> r_name g' = r_name g ->
     r_nr_failed_mod g' = r_nr_failed_mod g + (if mod_fails (ModLink m) then 1 else 0) ->
     r_nr_succ_mod g' <= r_nr_succ_mod g + 1 ->
     mc_nr_failed_reg (st_mach s') = mc_nr_failed_reg (st_mach s) ->
     mc_nr_succ_reg (st_mach s') = mc_nr_succ_reg (st_mach s) -> st_out s' = st_out s -> Q tt s') ->
  wp (upd_mach (set_mc_curr_mod (Some m)) ;;; rcu_run_test_mod_impl m ;;; count_mod r m) Q s.
Proof.
  intros [P1 P2 P3 P4 P5 P6 P7 P8] Hl Hm HD Hg Bt Bf Bs HQ.
  destruct (ur_mods Hun _ _ _ Hl Hm) as (x & Hx & Hfr).
  destruct (holds_live _ _ _ _ _ P1 Hl eq_refl Hm) as [_ (_ & [tl Htl] & Hmf)].
  assert (mod_tests m = tl) as Emt by (unfold mod_tests; by rewrite Htl).
  apply wp_bind, wp_modify, wp_bind. set (s1 := set_st_mach _ _).
  assert (mod_room tl s1) as Hroom.
  { destruct (sum_counts_le D). pose proof (sum_over_nonneg _ D mod_size_nonneg). cbn [mod_size] in Bt. rewrite Emt in Bt.
    split; cbn; lia. }
  apply (wp_run_mod hs0 m x tl); try done; [by apply holds_mach|by cbn; rewrite P5|].
  intros _ s2 x2 [G1 [G2 G2'] G3 G4 G5 G6 G7] Hx2 Hflag Hst.
  destruct (nr_fail_ext s0 s1 tl) as [N1 N2]; [intros f Hf; cbn; eapply P6; [done|by rewrite Emt]|].
  rewrite N1 in *. rewrite N2 in *.
  apply (wp_count_mod hs0 r m x2 g tl); try done; [by rewrite G5|].
  intros s3 [K1 K2 K3 K4 K5 (g0 & g' & Hg0 & K6 & K7 & K8 & K9)].
  rewrite G5 in Hg0, K6. cbn in Hg0, K6. assert (g0 = g) as -> by congruence. subst tl.
  unfold mach_core in G2. cbn in G2. injection G2 as I1 I2 I3 I4 I5.
  assert (mod_fails (ModLink m) = fixtures_finish x && (0 <? nr_fail s0 (mod_tests m))) as Emf by (cbn; by rewrite Hx).
  assert (mod_nr_fail (ModLink m) = if fixtures_finish x then nr_fail s0 (mod_tests m) else 0) as Enf by (cbn; by rewrite Hx).
  assert (mod_nr_pass (ModLink m) = if fixtures_finish x then nr_pass s0 (mod_tests m) else 0) as Enp by (cbn; by rewrite Hx).
  apply (HQ _ g'); [|done|done| |done|by rewrite K2|by rewrite K2|by rewrite K3].
  - split; rewrite ?K2, ?I1, ?I2, ?I3; try done.
    + intros m' Hm'. rewrite K5, G4 by set_solver. apply P5. set_solver.
    + intros m' f Hm' Hf. assert (FuncLink f ∉ mod_tests m) as Hnf.
      { intros Hf'. rewrite (mod_tests_disjoint _ _ _ Hf Hf') in Hm'. set_solver. }
      rewrite K4, G3 by done. cbn. apply (P6 m'); [set_solver|done].
    + rewrite G6, sum_over_app. cbn -[mod_nr_fail]. rewrite Enf, P7. lia.
    + rewrite G7, sum_over_app. cbn -[mod_nr_pass]. rewrite Enp, P8. lia.
  - rewrite K8, Emf. f_equal. destruct (m_init_failed x2 || m_destroy_failed x2); [by rewrite Hflag|].
    case_decide as Hd; [apply Hst in Hd as [-> Hd]; by replace (0 <? nr_fail s0 (mod_tests m)) with true by lia|].
    destruct (fixtures_finish x); [|done]. destruct (Z.ltb_spec 0 (nr_fail s0 (mod_tests m))); [|done].
    destruct Hd. by apply Hst.
Qed.

(** One registry. *)
Lemma wp_run_one_reg D r l lr g (Q : rcu_error -> rcu -> Prop) s :
  progress D s -> hs0 !! RegList = Some lr -> RegLink r ∈ lr -> hs0 !! ModList r = Some l ->
  (forall x, x ∈ l -> x ∉ D) ->
  st_reg s !! r = Some g -> r_nr_failed_mod g = 0 -> r_nr_succ_mod g = 0 ->
  sum_over mod_size (D ++ l) <= INT_MAX -> Z.of_nat (length l) <= INT_MAX ->
  mc_nr_failed_reg (st_mach s) < INT_MAX -> mc_nr_succ_reg (st_mach s) < INT_MAX ->
  (forall e s', progress (D ++ l) s' -> (forall r', r' <> r -> st_reg s' !! r' = st_reg s !! r') ->
     mc_nr_failed_reg (st_mach s') = mc_nr_failed_reg (st_mach s) + (if existsb mod_fails l then 1 else 0) ->
     mc_nr_succ_reg (st_mach s') <= mc_nr_succ_reg (st_mach s) + 1 -> st_out s' = st_out s -> Q e s') ->
  wp (rcu_run_test_reg_impl r) Q s.
Proof.
  intros HP Hlr Hr Hl HD Hg Hg0 Hg1 Bt Bl Bf Bs HQ.
  apply wp_bind, wp_gets, wp_bind. rewrite bool_decide_eq_false_2 by (by rewrite (pg_level _ _ HP)). apply wp_ret, wp_bind.
  apply (wp_each hs0 _ l _ (fun d s' => progress (D ++ d) s' /\ st_out s' = st_out s /\
    mc_nr_failed_reg (st_mach s') = mc_nr_failed_reg (st_mach s) /\
    mc_nr_succ_reg (st_mach s') = mc_nr_succ_reg (st_mach s) /\
    exists g', st_reg s' = <[r := g']> (st_reg s) /\
      r_nr_failed_mod g' = Z.of_nat (length (filter (fun x => mod_fails x = true) d)) /\
      r_nr_succ_mod g' <= Z.of_nat (length d))); [done|done|by intros d s' [[] _]|..].
  - intros d c rest s1 -> (P & O & F & F' & g1 & Eg & Cg & Cg'). pose proof (pg_holds _ _ P) as H1.
    destruct (holds_live _ _ _ _ c H1 Hl eq_refl ltac:(set_solver)) as [Tc _].
    destruct c as [| | | |m| | | | |]; try done. apply wp_bind, wp_ret.
    destruct (holds_list _ _ _ _ H1 Hl eq_refl) as [_ [_ [_ [Hnd _]]%NoDup_app]%NoDup_cons].
    apply (wp_run_one_mod (D ++ d) r (d ++ ModLink m :: rest) m g1); try done; [set_solver| |rewrite Eg; apply lookup_insert_eq|..].
    { intros [Hin|Hin]%elem_of_app; [by eapply HD; [|done]; set_solver|]. by eapply Hnd; [|left]. }
    { rewrite app_assoc, sum_over_app in Bt. cbn -[mod_size] in Bt. pose proof (sum_over_nonneg _ rest mod_size_nonneg).
      unfold sum_over in *. lia. }
    { rewrite Cg. rewrite length_app in Bl. pose proof (length_filter (fun x => mod_fails x = true) d). cbn in Bl. lia. }
    { rewrite length_app in Bl. cbn in Bl. lia. }
    intros s2 g2 P2 Eg2 _ Cg2 Cs2 F2 F2' O2. rewrite <- app_assoc in P2. split_and!; [done|congruence|congruence|congruence|].
    exists g2. rewrite Eg2, Eg, insert_insert_eq, filter_app, length_app, filter_cons, filter_nil. split; [done|].
    split; [|rewrite length_app; cbn; lia].
    rewrite Cg2, Cg. case_decide as E; [rewrite E|destruct (mod_fails (ModLink m)); [done|]]; cbn; lia.
  - intros s1 (P & O & F & F' & g1 & Eg & Cg & _). apply wp_bind, wp_hook_at; [by rewrite (pg_level _ _ P)|].
    apply wp_bind, (wp_object _ _ g1); [rewrite Eg; apply lookup_insert_eq|].
    assert ((0 <? r_nr_failed_mod g1) = existsb mod_fails l) as ->.
    { rewrite Cg. clear. induction l as [|x l IH]; [done|]. rewrite filter_cons. cbn [existsb].
      case_decide as E; [rewrite E; cbn [orb length]; apply Z.ltb_lt; lia|]. rewrite IH. by destruct (mod_fails x). }
    destruct (existsb mod_fails l); (apply wp_bind, wp_bump_mach; [lia|]); wp_steps;
      (apply HQ; [|intros; cbn; rewrite Eg; by apply lookup_insert_ne|cbn; lia|cbn; lia|done]);
      destruct P as [P1 P2 P3 P4 P5 P6 P7 P8]; split; try done; by apply holds_mach.
  - rewrite app_nil_r. split_and!; try done. exists g. rewrite insert_id by done. split_and!; [done|done|cbn; lia].
Qed.

(** ** The whole run *)

Definition reg_mods (c : loc) : list loc := match c with RegLink r => default [] (hs0 !! ModList r) | _ => [] end.
Definition all_mods (regs : list loc) : list loc := concat (map reg_mods regs).

Lemma all_mods_snoc d c : all_mods (d ++ [c]) = all_mods d ++ reg_mods c.
Proof. unfold all_mods. rewrite map_app, concat_app. cbn. by rewrite app_nil_r. Qed.

Lemma all_mods_app d d' : all_mods (d ++ d') = all_mods d ++ all_mods d'.
Proof. unfold all_mods. by rewrite map_app, concat_app. Qed.

Lemma reg_mods_disjoint d c x : c ∉ d -> x ∈ reg_mods c -> x ∉ all_mods d.
Proof.
  intros Hc Hx Hin. unfold all_mods in Hin. apply list_elem_of_In, in_concat in Hin as (k & Hk & Hxk).
  apply in_map_iff in Hk as (c' & <- & Hc'). apply list_elem_of_In in Hc', Hxk.
  destruct c as [| |r| | | | | | |], c' as [| |r'| | | | | | |]; cbn in Hx, Hxk; try set_solver.
  destruct (hs0 !! ModList r) as [l|] eqn:E, (hs0 !! ModList r') as [l'|] eqn:E'; cbn in *; try set_solver.
  assert (ModList r = ModList r') as [= <-]; [|done].
  eapply (rings_disjoint _ _ (db_rings _ _ (ur_db Hun)) _ _ _ _ x E E'); by right.
Qed.

Definition hook_calls (started : bool) : list rcu_output :=
  match mc_run_hook (st_mach s0) with Some hook => [RunHook hook started] | None => [] end.

Lemma wp_call_hook D started (Q : unit -> rcu -> Prop) s :
  progress D s ->
  (forall s', progress D s' -> s' = set_st_out (st_out s ++ hook_calls started) s -> Q tt s') ->
  wp (call_run_hook started) Q s.
Proof.
  intros HP HQ. apply wp_bind, wp_gets. rewrite (pg_hook _ _ HP). unfold hook_calls in HQ.
  destruct (mc_run_hook (st_mach s0)) as [hook|]; wp_steps; (apply HQ; [|by destruct s; cbn; rewrite ?app_nil_r]); [|done].
  destruct HP as [P1 P2 P3 P4 P5 P6 P7 P8]. split; try done.
  eapply holds_shape, P1. split; [by apply keeps_same|done..].
Qed.

(** An [int] counts the registries, the modules and the tests of the run. *)
Record countable (lr : list loc) : Prop := {
  cn_regs : Z.of_nat (length lr) <= INT_MAX;
  cn_mods : Z.of_nat (length (all_mods lr)) <= INT_MAX;
  cn_tests : sum_over mod_size (all_mods lr) <= INT_MAX
}.

Lemma wp_run_all lr (Q : rcu_error -> rcu -> Prop) s :
  hs0 !! RegList = Some lr -> countable lr ->
  progress [] s -> st_reg s = st_reg s0 -> mc_nr_failed_reg (st_mach s) = 0 -> mc_nr_succ_reg (st_mach s) = 0 ->
  (forall e s', progress (all_mods lr) s' ->
     0 <= mc_nr_failed_reg (st_mach s') -> (0 <? mc_nr_failed_reg (st_mach s')) = existsb mod_fails (all_mods lr) ->
     st_out s' = st_out s ++ hook_calls true ++ hook_calls false -> Q e s') ->
  wp rcu_run_tests_impl Q s.
Proof.
  intros Hlr [Br Bm Bt] HP Hreg Hnf Hns HQ. apply wp_bind, (wp_call_hook []); [done|]. intros s1 P1 ->. apply wp_bind.
  apply (wp_each hs0 _ lr _ (fun d s' => progress (all_mods d) s' /\ st_out s' = st_out s ++ hook_calls true /\
    0 <= mc_nr_failed_reg (st_mach s') <= Z.of_nat (length d) /\ mc_nr_succ_reg (st_mach s') <= Z.of_nat (length d) /\
    (0 <? mc_nr_failed_reg (st_mach s')) = existsb mod_fails (all_mods d) /\
    (forall r, RegLink r ∉ d -> st_reg s' !! r = st_reg s0 !! r))); [done|done|by intros d s' [[] _]|..].
  - intros d c rest s1 -> (P & O & Pos & Ns & F & R). pose proof (pg_holds _ _ P) as H1.
    destruct (holds_live _ _ _ _ c H1 Hlr eq_refl ltac:(set_solver)) as [Tc Lc].
    destruct c as [| |r| | | | | | |]; try done. destruct Lc as [_ [l Hl]].
    destruct (holds_list _ _ _ _ H1 Hlr eq_refl) as [_ [_ [_ [Hnd _]]%NoDup_app]%NoDup_cons].
    assert (RegLink r ∉ d) as Hrd by (intros ?; by eapply Hnd; [|left]).
    destruct (ur_regs Hun _ r Hlr ltac:(set_solver)) as (g & Hg & Hg0 & Hg1).
    assert (reg_mods (RegLink r) = l) as El by (cbn; by rewrite Hl).
    apply wp_bind, wp_ret, wp_bind, wp_modify, wp_bind.
    apply (wp_run_one_reg (all_mods d) r l (d ++ RegLink r :: rest) g); try done.
    + destruct P as [P2 P3 P4 P5 P6 P7 P8 P9]. split; try done. by apply holds_mach.
    + set_solver.
    + intros x Hx. eapply reg_mods_disjoint; [done|by rewrite El].
    + cbn. by rewrite R.
    + replace (d ++ RegLink r :: rest) with ((d ++ [RegLink r]) ++ rest) in Bt by (by rewrite <- app_assoc).
      rewrite all_mods_app, sum_over_app, all_mods_snoc, El in Bt.
      pose proof (sum_over_nonneg _ (all_mods rest) mod_size_nonneg). lia.
    + replace (d ++ RegLink r :: rest) with ((d ++ [RegLink r]) ++ rest) in Bm by (by rewrite <- app_assoc).
      rewrite all_mods_app, all_mods_snoc, El, !length_app in Bm. lia.
    + rewrite length_app in Br. cbn in Br |- *. lia.
    + rewrite length_app in Br. cbn in Br |- *. lia.
    + intros _ s2 Pg Rg Fg Sg Og. rewrite <- El, <- all_mods_snoc in Pg. wp_steps. cbn in Fg, Sg, Og. rewrite length_app. cbn [length].
      split_and!; [done|congruence| | | | |].
      * destruct (existsb mod_fails l); lia.
      * destruct (existsb mod_fails l); lia.
      * lia.
      * rewrite all_mods_snoc, existsb_app, <- F, El, Fg. destruct (existsb mod_fails l); lia.
      * intros r' Hr'. rewrite Rg by set_solver. cbn. apply R. set_solver.
  - intros s1 (P & O & [Pos _] & _ & F & _). apply wp_bind, (wp_call_hook (all_mods lr)); [done|]. intros s2 P2 ->. wp_steps.
    apply HQ; try done. cbn. by rewrite O, app_assoc.
  - split_and!; try done; cbn; [lia..|by rewrite Hnf|by rewrite Hreg].
Qed.

Lemma wp_get_nr_tests lr s :
  holds hs0 s -> mc_init_done (st_mach s) = true -> hs0 !! RegList = Some lr -> countable lr ->
  wp rcu_get_nr_tests (fun n s' => s' = s /\ n = sum_over mod_size (all_mods lr)) s.
Proof.
  intros Hh Hi Hlr [_ _ Bt]. apply wp_bind, wp_rcu_init; [done|]. apply wp_starting.
  assert (sum_over (fun x => sum_over mod_size (reg_mods x)) lr = sum_over mod_size (all_mods lr)) as Eall
    by (unfold all_mods; by rewrite sum_over_concat, <- (sum_over_map (sum_over mod_size))).
  eapply wp_conseq; [apply (wp_count_each _ lr _ (fun x => sum_over mod_size (reg_mods x)))|].
  - by eapply holds_list.
  - intros c. apply sum_over_nonneg, mod_size_nonneg.
  - by rewrite Eall.
  - intros x n Hx Bx. destruct (holds_live _ _ _ _ x Hh Hlr eq_refl Hx) as [Tx Lx].
    destruct x as [| |r| | | | | | |]; try done. destruct Lx as [_ [l Hl]]. apply wp_bind, wp_zoom, wp_ret.
    cbn [reg_mods] in *. rewrite Hl in *. cbn [default] in *.
    apply (wp_count_each _ l _ mod_size); [by eapply holds_list|apply mod_size_nonneg|done|].
    intros c k Hc Bc. destruct (holds_live _ _ _ _ c Hh Hl eq_refl Hc) as [Tc Lc].
    destruct c as [| | | |m| | | | |]; try done. destruct Lc as (_ & [tl Htl] & _). apply wp_bind, wp_zoom, wp_ret.
    cbn [mod_size] in *. unfold mod_tests in *. rewrite Htl in *. cbn [default] in *. rewrite <- sum_over_one in *.
    apply (wp_count_each _ tl _ (fun _ => 1)); [by eapply holds_list|done|done|].
    intros y j _ Bj. by apply wp_count_entry.
  - intros _ a ->. split; [done|]. cbn. by rewrite Eall.
Qed.
End Progress.
(** ** Initialisation *)

Definition start_lists : lists :=
  <[RegList := [RegLink DEF_REG]]> (<[AssertList := []]> (<[ModList DEF_REG := [ModLink DEF_MOD]]>
  (<[FuncList DEF_MOD := []]> (<[ModFails DEF_MOD := []]> ∅)))).

(** The state [rcu_init] makes of the state before. *)
Definition rcu_ready : rcu := run_end (rcu_init rcu_start) rcu_start.

Lemma rcu_init_start : rcu_init rcu_start = Ret tt rcu_ready.
Proof. apply run_eta. vm_compute. reflexivity. Qed.

Ltac start_cases E :=
  unfold start_lists in E;
  repeat (apply lookup_insert_Some in E as [[<- <-]|[_ E]]); [..|by apply lookup_empty_Some in E].

Lemma ready_unrun : unrun start_lists rcu_ready.
Proof.
  split; [|by vm_compute..| |].
  - split.
    + split.
      * intros h l E. start_cases E; (split; [by vm_compute|by apply (bool_decide_unpack _); vm_compute]).
      * intros h l h' l' x E E' Hx Hx'. start_cases E; start_cases E'; set_solver.
    + by eexists.
    + by eexists.
    + intros h l x E Hx. start_cases E; set_solver.
    + intros h l x E Hx. start_cases E; try (by apply elem_of_nil in Hx);
        apply list_elem_of_singleton in Hx as ->; (split; [eexists; split; [vm_compute; reflexivity|done]|]); [|split]; by eexists.
    + intros x [n Hn].
      assert (map_Forall (fun y (_ : rcu_list loc) => (node_id y < st_fresh rcu_ready)%positive) (st_node rcu_ready)) as HF
        by (apply (bool_decide_unpack _); vm_compute; exact I).
      by apply (HF x n).
  - intros r l m E Hm. remember (ModList r) as h. start_cases E; simplify_eq.
    apply list_elem_of_singleton in Hm as [= ->]. eexists. split; [vm_compute; reflexivity|by split].
  - intros l r E Hr. remember RegList as h. start_cases E; simplify_eq.
    apply list_elem_of_singleton in Hr as [= ->]. eexists. split; [vm_compute; reflexivity|done].
Qed.

End Run.
