(* ===== verification/RcReport.v ===== *)
(** * RcReport: the queries, dumps and report of rcunit

    The functions that only read the test database: the global searches and
    counts of rcunit_util.c, those of rcunit_registry.c and the dumps; and the
    proofs about them and about the plain text report, which is in [RcUnit] because
    every run writes one.  A dump is the sequence of texts that are printed.  The
    theorems say that each of them is a pure
    function of the sequences the database holds. *)

From stdpp Require Import pretty.
From S2P Require Import Prelude RcList RcUnit RcDb RcRun.
Open Scope list_scope.
Open Scope Z_scope.

(** ** Error messages *)

Definition g_error_msg_tbl : list string :=
  ["Successful"; "Failed"; "Memory allocation failed"; "Invalid parameter"; "Machine initialization failed";
   "Machine already initialized "; "Machine not initialized"; "Invalid machine"; "Test entity is disabled";
   "Execution failed"; "Registry not initialized"; "Invalid registry name"; "Invalid registry";
   "Invalid registry table"; "Unknown registry"; "Registry exists"; "Module not initialized";
   "Invalid module"; "Invalid module name"; "Invalid module table"; "Unknown module"; "Module exists";
   "Function not initialized"; "Invalid function name"; "Invalid function"; "Invalid function table";
   "Function exists"; "Invalid function entry point"]%string.

Section Errors.
Context `{RcEnv}.

Definition rcu_get_err : M rcu rcu_error := rcu_init ;;; gets st_ercd.

(** By the number of the error; the table is indexed with it. *)
Definition rcu_get_err_msg (ercd : Z) : M rcu string :=
  rcu_init ;;;
  if (0 <=? ercd) && (ercd <=? 27) then
    match g_error_msg_tbl !! Z.to_nat ercd with Some x => ret x | None => undefined end
  else ret "Unknown error code"%string.

(** The table has a message for every number it is read with. *)
Lemma err_msg_defined ercd s : mc_init_done (st_mach s) = true -> exists x, rcu_get_err_msg ercd s = Ret x s.
Proof.
  intros Hi. unfold rcu_get_err_msg, rcu_init, bind, mach, gets. rewrite Hi. cbn.
  destruct ((0 <=? ercd) && (ercd <=? 27)) eqn:E; [|eauto]. apply andb_true_iff in E as [?%Z.leb_le ?%Z.leb_le].
  destruct (lookup_lt_is_Some_2 g_error_msg_tbl (Z.to_nat ercd)) as [x Hx]; [cbn; lia|]. rewrite Hx. eauto.
Qed.
End Errors.

(** ** Queries *)

Section Queries.
Context `{RcEnv}.

Definition rcu_srch_mod_by_name (r : ident) (mod_name : option string) : M rcu (option ident) :=
  match mod_name with
  | None => ret None
  | Some name =>
      search (ModList r) (fun c => let! m := as_mod c in let! x := mod_at m in
        ret (if bool_decide (m_name x = name) then Some m else None))
  end.

Definition rcu_mod_exists (reg srch_mod : option ident) : M rcu bool :=
  match reg, srch_mod with
  | Some r, Some srch =>
      let! found := search (ModList r) (fun c => let! m := as_mod c in
        ret (if bool_decide (m = srch) then Some tt else None)) in
      ret (bool_decide (is_Some found))
  | _, _ => ret false
  end.

(** The test with its module and registry, [which_mod] and [which_reg]. *)
Definition rcu_srch_test_func_entry_global (entry : fn) : M rcu (option (ident * ident * ident)) :=
  search RegList (fun c => let! r := as_reg c in
    search (ModList r) (fun c => let! m := as_mod c in
      let! func := rcu_srch_test_func_entry m entry in
      ret ((fun f => (f, m, r)) <$> func))).

Definition rcu_srch_test_func_by_name_global (name : option string) : M rcu (option (ident * ident * ident)) :=
  match name with
  | None => ret None
  | Some n =>
      search RegList (fun c => let! r := as_reg c in
        search (ModList r) (fun c => let! m := as_mod c in
          let! func := rcu_srch_test_func_by_name m n in
          ret ((fun f => (f, m, r)) <$> func)))
  end.

(** The result and [which_reg], which stays null. *)
Definition rcu_srch_mod_by_ref_global (srch_mod : ident) : M rcu (bool * option ident) :=
  let! found := search RegList (fun c => let! r := as_reg c in
    search (ModList r) (fun c => let! m := as_mod c in
      ret (if bool_decide (m = srch_mod) then Some tt else None))) in
  ret (bool_decide (is_Some found), None).

Definition rcu_get_nr_mods : M rcu Z :=
  rcu_init ;;;
  starting 0 (each_in RegList (fun c =>
    let! r := reading (as_reg c) in
    each_in (ModList r) (fun _ => count_entry))).

Definition rcu_get_nr_regs : M rcu Z :=
  rcu_init ;;;
  starting 0 (each_in RegList (fun _ => count_entry)).
End Queries.

(** ** Dumps *)

Section Report.
Context `{RcEnv}.

(** [RCU_LOG_INFO] of a line. *)
Definition log_info (x : string) : printer := print ("[INFO]  " +:+ x +:+ nl).
Definition log_warn (x : string) : printer := print ("[WARN]  " +:+ x +:+ nl).

Definition rcu_dump_test_reg (reg : option ident) : printer :=
  let! r := match reg with None => reading rcu_get_default_reg | Some r => ret r end in
  let! x := reading (reg_at r) in
  log_info ("|   +- registry [name = " +:+ r_name x +:+ "]") ;;;
  each_in (ModList r) (fun c =>
    let! m := reading (as_mod c) in
    let! x := reading (mod_at m) in
    log_info ("|   |   +- module [name = " +:+ m_name x +:+ "]") ;;;
    each_in (FuncList m) (fun c =>
      let! f := reading (as_func c) in
      let! name := reading (test_name f) in
      log_info ("|   |   |   +- test [name = " +:+ name +:+ "]"))).

(** The machine is initialised: [rcu_init] comes first. *)
Definition rcu_dump_test_dbase : printer :=
  reading rcu_init ;;;
  log_info "+- Test Entity Database" ;;;
  each_in RegList (fun c => let! r := reading (as_reg c) in rcu_dump_test_reg (Some r)).

Definition rcu_dump_asserts : printer :=
  reading rcu_init ;;;
  let! some := reading rcu_have_asserts in
  (if negb some then log_warn "No assertions to dump found" else ret tt) ;;;
  log_warn "[ NON TEST RUN ASSERTIONS DUMP START]" ;;;
  each_in AssertList (fun c =>
    let! k := reading (as_fail c) in
    let! info := reading (object st_fail k) in
    log_warn info) ;;;
  log_warn "[ NON TEST RUN ASSERTIONS DUMP END]".

End Report.

(** ** The database as sequences *)

Section Pure.
Context (s : rcu) (hs : lists).

(** The entries of a list. *)
Definition entries (h : loc) : list loc := default [] (hs !! h).
Definition mods_of (c : loc) : list loc := match c with RegLink r => entries (ModList r) | _ => [] end.
Definition tests_of (c : loc) : list loc := match c with ModLink m => entries (FuncList m) | _ => [] end.
Definition fail_text (c : loc) : string := match c with FailLink k => default ""%string (st_fail s !! k) | _ => "" end.
Definition the_test (c : loc) : rcu_test := match c with FuncLink f => default zero_test (st_test s !! f) | _ => zero_test end.
Definition the_mod (c : loc) : rcu_module := match c with ModLink m => default zero_module (st_mod s !! m) | _ => zero_module end.
Definition the_reg (c : loc) : rcu_registry := match c with RegLink r => default zero_registry (st_reg s !! r) | _ => zero_registry end.
Definition id_of (c : loc) : ident := node_id c.

(** The tests and modules that satisfy [P], in the order of the lists: a test with
    its module and registry, a module with its registry. *)
Definition test_rows (P : rcu_test -> bool) : list (ident * ident * ident) :=
  entries RegList ≫= fun c => mods_of c ≫= fun d =>
    omap (fun e => if P (the_test e) then Some (id_of e, id_of d, id_of c) else None) (tests_of d).
Definition mod_rows (P : ident -> rcu_module -> bool) : list (ident * ident) :=
  entries RegList ≫= fun c =>
    omap (fun d => if P (id_of d) (the_mod d) then Some (id_of d, id_of c) else None) (mods_of c).

(** The texts of an indexed loop. *)
Fixpoint numbered (f : Z -> loc -> list string) (i : Z) (l : list loc) : list string :=
  match l with
  | [] => []
  | c :: l => f i c ++ numbered f (i + 1) l
  end.

Definition fail_lines (pre post : string) (h : loc) : list string :=
  entries h ≫= fun c => replicate 12 " "%string ++ [pre +:+ fail_text c +:+ post +:+ nl].

Definition test_lines (c : loc) : list string :=
  let t := the_test c in
  replicate 8 " "%string ++
  [("[test = " +:+ quoted (t_name t) +:+ ", result = " +:+ rcu_get_stat_str (t_run_stat t) +:+ "]" +:+ nl)%string] ++
  (if (t_nr_succ_assert t =? 0) && (t_nr_fail_assert t =? 0) && bool_decide (t_run_stat t = RCU_RUN_STAT_TEST_SUCC)
   then replicate 12 " "%string ++ [("[failure = No assertions executed!]" +:+ nl)%string] else []) ++
  fail_lines "[failure = " "]" (FuncFails (id_of c)).

Definition mod_lines (reg_no mod_no : Z) (c : loc) : list string :=
  let x := the_mod c in
  replicate 4 " "%string ++
  [(pretty reg_no +:+ "." +:+ pretty mod_no +:+ " [module = " +:+ quoted (m_name x) +:+ ", " +:+
    pretty (m_nr_test x) +:+ " tests]" +:+ nl)%string] ++
  fail_lines "" "" (ModFails (id_of c)) ++ (tests_of c ≫= test_lines).

Definition reg_lines (reg_no : Z) (c : loc) : list string :=
  let x := the_reg c in
  [(pretty reg_no +:+ ". [registry = " +:+ quoted (r_name x) +:+ ", " +:+ pretty (r_nr_mod x) +:+
    " modules]" +:+ nl)%string] ++
  numbered (mod_lines reg_no) 0 (mods_of c).

Definition rule : string := RCU_LINE_MARKER_1 +:+ RCU_LINE_MARKER_1 +:+ nl.
Definition report_lines (ctime : string) : list string :=
  let mc := st_mach s in
  [rule] ++ replicate 29 " "%string ++ ["RCUNIT Test Run Report" +:+ nl]%string ++
  replicate 22 " "%string ++ ["http://github.com/jecklgamis/rcunit" +:+ nl]%string ++ [rule] ++
  numbered reg_lines 0 (entries RegList) ++
  [nl +:+ "Test Run Results: Passed : " +:+ pretty (mc_nr_succ_test mc) +:+ "  Failed : " +:+
   pretty (mc_nr_failed_test mc) +:+ nl]%string ++
  [if (mc_nr_failed_test mc =? 0)%Z then "Test successful!" +:+ nl else "Test failed!" +:+ nl]%string ++
  [nl +:+ rule; "Generated last " +:+ rcu_get_timestamp ctime +:+ " by RCUNIT version " +:+
   RCU_VERSION_STRING +:+ "." +:+ nl +:+ nl]%string.
End Pure.

(** ** Proofs *)

Section Proofs.
Context `{RcEnv}.

(** A search returns the first answer of its body, which reads only. *)
Lemma wp_search_first {A} h l (body : loc -> M rcu (option A)) (f : loc -> option A) s :
  ring (st_node s) h l ->
  (forall c, c ∈ l -> wp (body c) (fun r s' => s' = s /\ r = f c) s) ->
  wp (search h body) (fun r s' => s' = s /\ r = head (omap f l)) s.
Proof.
  intros Hr Hb. apply (wp_traverse _ _ _ _ (fun d s' => s' = s /\ omap f d = []) l).
  - by intros d s' [-> _].
  - intros d c t s' El [-> Hd]. apply wp_bind. eapply wp_conseq; [apply Hb; set_solver|].
    intros r s' [-> ->]. wp_step. destruct (f c) as [v|] eqn:Ef.
    + split; [done|]. rewrite El, omap_app, Hd. cbn. by rewrite Ef.
    + split; [done|]. split; [done|]. rewrite omap_app, Hd. cbn. by rewrite Ef.
  - intros s' [-> Hd]. by rewrite Hd.
  - done.
Qed.

(** A loop that reads the database and folds its entries. *)
Lemma wp_each_in {T} h l (body : loc -> M (rcu * T) unit) (f : T -> loc -> T) s t :
  ring (st_node s) h l ->
  (forall c t, c ∈ l -> wp (body c) (fun _ x => x = (s, f t c)) (s, t)) ->
  wp (each_in h body) (fun _ x => x = (s, foldl f t l)) (s, t).
Proof.
  intros Hr Hb. apply wp_bind.
  apply (wp_traverse _ _ _ _ (fun d x => x = (s, foldl f t d)) l); [by intros d x ->| | |done].
  - intros d c k x El ->. apply wp_bind. eapply wp_conseq; [apply Hb; set_solver|].
    intros [] x ->. wp_step. split; [done|]. by rewrite foldl_app.
  - intros x ->. by wp_step.
Qed.

(** A loop that prints. *)
Lemma wp_each_print h l (body : loc -> printer) (f : loc -> list string) s out :
  ring (st_node s) h l ->
  (forall c out, c ∈ l -> wp (body c) (fun _ x => x = (s, out ++ f c)) (s, out)) ->
  wp (each_in h body) (fun _ x => x = (s, out ++ (l ≫= f))) (s, out).
Proof.
  intros Hr Hb. eapply wp_conseq; [apply (wp_each_in _ l _ (fun out c => out ++ f c)); [done|by apply Hb]|].
  intros _ x ->. f_equal. clear. revert out. induction l as [|c l IH]; intros out; cbn; [by rewrite app_nil_r|].
  by rewrite IH, <- app_assoc.
Qed.

Lemma numbered_app f i l1 l2 : numbered f i (l1 ++ l2) = numbered f i l1 ++ numbered f (i + Z.of_nat (length l1)) l2.
Proof.
  revert i. induction l1 as [|c l1 IH]; intros i; cbn; [by rewrite Z.add_0_r|].
  rewrite IH, app_assoc. do 2 f_equal. lia.
Qed.

Lemma wp_each_index h l (body : Z -> loc -> printer) (f : Z -> loc -> list string) s out :
  ring (st_node s) h l ->
  (forall i c out, c ∈ l -> wp (body i c) (fun _ x => x = (s, out ++ f i c)) (s, out)) ->
  wp (each_index h body) (fun _ x => x = (s, out ++ numbered f 0 l)) (s, out).
Proof.
  intros Hr Hb. unfold each_index.
  assert (wp (RCU_FOR_EACH_ENTRY (R := unit) (fun x : rcu * list string * Z => st_node x.1.1) h (fun c =>
            let! i := gets snd in
            zoom fst (fun a x => (a, x.2)) (body i c) ;;;
            modify (fun x => (x.1, x.2 + 1)) ;;;
            ret (inr c))) (fun _ x => x.1 = (s, out ++ numbered f 0 l)) (s, out, 0)) as Hw.
  2:{ unfold wp in *. by destruct (RCU_FOR_EACH_ENTRY _ _ _ _) as [? [??]|]. }
  apply (wp_traverse _ _ _ _ (fun d x => x = ((s, out ++ numbered f 0 d), Z.of_nat (length d))) l);
    [by intros d x ->| |by intros x ->|cbn; by rewrite app_nil_r].
  intros d c t x El ->. apply wp_bind, wp_gets, wp_bind, wp_zoom. eapply wp_conseq; [apply Hb; set_solver|].
  intros [] y ->. apply wp_bind, wp_modify. wp_step. split; [done|].
  rewrite numbered_app, length_app. cbn. rewrite app_nil_r, <- app_assoc. f_equal. lia.
Qed.

(** Printing a character several times. *)
Lemma wp_chars x n s out :
  wp (foldM (fun _ _ => print x) (seq 0 n) tt) (fun _ y => y = (s, out ++ replicate n x)) (s, out).
Proof.
  apply (wp_conseq _ (fun _ y => y = (s, out ++ replicate n x))); [|done].
  apply (wp_foldM_seq _ (fun i y => y = (s, out ++ replicate i x))); [by rewrite app_nil_r|].
  intros i b y _ ->. apply wp_modify. cbn [fst snd]. rewrite <- app_assoc. do 2 f_equal.
  by rewrite <- replicate_cons_app.
Qed.

(** *** The entries of a database *)

Section Entries.
Context (s : rcu) (hs : lists) (Hdb : db s hs).

Lemma entries_of h l : hs !! h = Some l -> entries hs h = l.
Proof. unfold entries. by intros ->. Qed.

Lemma db_ring h : is_Some (hs !! h) -> ring (st_node s) h (entries hs h).
Proof. intros [l Hl]. rewrite (entries_of _ _ Hl). by apply (rings_ring _ _ (db_rings _ _ Hdb)). Qed.

Lemma entry_live h c : c ∈ entries hs h -> typed h c /\ live s hs c.
Proof.
  unfold entries. destruct (hs !! h) as [l|] eqn:E; [|by intros ?%elem_of_nil]. intros Hc.
  split; [by eapply (db_typed _ _ Hdb)|by eapply (db_live _ _ Hdb)].
Qed.

Lemma reg_entry c : c ∈ entries hs RegList ->
  exists r x, c = RegLink r /\ st_reg s !! r = Some x /\ is_Some (hs !! ModList r).
Proof. intros [Ht Hl]%entry_live. destruct c; try done. destruct Hl as [(x & Hx & _) ?]. eauto. Qed.

Lemma mod_entry r c : c ∈ entries hs (ModList r) ->
  exists m x, c = ModLink m /\ st_mod s !! m = Some x /\ is_Some (hs !! FuncList m) /\ is_Some (hs !! ModFails m).
Proof. intros [Ht Hl]%entry_live. destruct c; try done. destruct Hl as ((x & Hx & _) & ? & ?). eauto 10. Qed.

Lemma test_entry m c : c ∈ entries hs (FuncList m) ->
  exists f t, c = FuncLink f /\ st_test s !! f = Some t /\ name_ok t /\ is_Some (hs !! FuncFails f).
Proof. intros [Ht Hl]%entry_live. destruct c; try done. destruct Hl as ((t & Hx & ?) & ?). eauto 10. Qed.

Lemma fail_entry h c : is_fails h = true -> c ∈ entries hs h -> exists k x, c = FailLink k /\ st_fail s !! k = Some x.
Proof.
  intros Hf [Ht Hl]%entry_live. destruct h; try done; destruct c; try done; destruct Hl as [x ?]; eauto.
Qed.
End Entries.

(** *** Queries *)

Lemma head_bind {A B} (f : A -> list B) (l : list A) : head (omap (fun a => head (f a)) l) = head (l ≫= f).
Proof. induction l as [|a l IH]; [done|]. cbn. destruct (f a); cbn; [apply IH|done]. Qed.

Lemma head_fmap_omap {A B C} (g : B -> C) (f : A -> option B) (l : list A) :
  g <$> head (omap f l) = head (omap (fun a => g <$> f a) l).
Proof. induction l as [|a l IH]; [done|]. cbn. destruct (f a); cbn; [done|apply IH]. Qed.

Lemma omap_same {A B} (f g : A -> option B) (l : list A) : (forall a, f a = g a) -> omap f l = omap g l.
Proof. intros E. induction l as [|a l IH]; [done|]. cbn. by rewrite E, IH. Qed.

Section QueryProofs.
Context (s : rcu) (hs : lists) (Hdb : db s hs).

(** A search for modules, over every registry. *)
Lemma wp_search_mods {A} (body : ident -> ident -> M rcu (option A)) (f : loc -> loc -> option A) :
  (forall r m x, st_mod s !! m = Some x -> is_Some (hs !! FuncList m) ->
     wp (body r m) (fun v s' => s' = s /\ v = f (RegLink r) (ModLink m)) s) ->
  wp (search RegList (fun c => let! r := as_reg c in
        search (ModList r) (fun c => let! m := as_mod c in body r m)))
     (fun v s' => s' = s /\ v = head (entries hs RegList ≫= fun c => omap (f c) (mods_of hs c))) s.
Proof.
  intros Hb. eapply wp_conseq; [apply (wp_search_first _ (entries hs RegList) _
    (fun c => head (omap (f c) (mods_of hs c))))|].
  - by apply (db_ring s hs Hdb), db_regs with s.
  - intros c (r & x & -> & _ & Hm)%(reg_entry s hs Hdb). apply wp_bind, wp_ret.
    apply (wp_search_first _ (entries hs (ModList r))); [by apply db_ring|].
    intros c (m & y & -> & Hy & Hf & _)%(mod_entry s hs Hdb). apply wp_bind, wp_ret. by eapply Hb.
  - intros v s' [-> ->]. split; [done|]. apply head_bind.
Qed.

(** A search for tests in a module. *)
Lemma wp_search_tests m (P : rcu_test -> bool) (body : ident -> M rcu (option ident)) :
  is_Some (hs !! FuncList m) ->
  (forall f t, st_test s !! f = Some t -> name_ok t ->
     wp (body f) (fun v s' => s' = s /\ v = if P t then Some f else None) s) ->
  wp (search (FuncList m) (fun c => let! f := as_func c in body f))
     (fun v s' => s' = s /\ v = head (omap (fun e => if P (the_test s e) then Some (id_of e) else None)
                                          (entries hs (FuncList m)))) s.
Proof.
  intros Hm Hg. apply wp_search_first; [by apply db_ring|].
  intros c (f & t & -> & Ht & Hn & _)%(test_entry s hs Hdb). apply wp_bind, wp_ret.
  eapply wp_conseq; [by eapply Hg|]. intros b s' [-> ->]. split; [done|]. cbn. by rewrite Ht.
Qed.

(** The tests that satisfy [P], over every module of every registry. *)
Lemma wp_search_all_tests (P : rcu_test -> bool) (body : ident -> ident -> M rcu (option ident)) :
  (forall m f t, st_test s !! f = Some t -> name_ok t ->
     wp (body m f) (fun v s' => s' = s /\ v = if P t then Some f else None) s) ->
  wp (search RegList (fun c => let! r := as_reg c in
        search (ModList r) (fun c => let! m := as_mod c in
          let! func := search (FuncList m) (fun c => let! f := as_func c in body m f) in
          ret ((fun f => (f, m, r)) <$> func))))
     (fun v s' => s' = s /\ v = head (test_rows s hs P)) s.
Proof.
  intros Hb. eapply wp_conseq; [apply (wp_search_mods _ (fun c d => head (omap (fun e =>
    if P (the_test s e) then Some (id_of e, id_of d, id_of c) else None) (tests_of hs d))))|].
  - intros r m x _ Hm. apply wp_bind. eapply wp_conseq; [apply (wp_search_tests m P); [done|intros f t; apply Hb]|].
    intros v s' [-> ->]. wp_step. split; [done|]. rewrite head_fmap_omap. cbn. f_equal.
    apply omap_same. intros e. by destruct (P _).
  - intros v s' [-> ->]. split; [done|]. unfold test_rows. rewrite <- !head_bind. f_equal. apply omap_same.
    intros c. apply head_bind.
Qed.

(** The modules that satisfy [P], over every registry. *)
Lemma wp_search_all_mods {A} (P : ident -> rcu_module -> bool) (g : ident -> ident -> A)
    (body : ident -> ident -> M rcu (option A)) :
  (forall r m x, st_mod s !! m = Some x -> wp (body r m) (fun v s' => s' = s /\ v = if P m x then Some (g m r) else None) s) ->
  wp (search RegList (fun c => let! r := as_reg c in
        search (ModList r) (fun c => let! m := as_mod c in body r m)))
     (fun v s' => s' = s /\ v = (fun x => g x.1 x.2) <$> head (mod_rows s hs P)) s.
Proof.
  intros Hb. eapply wp_conseq; [apply (wp_search_mods _ (fun c d =>
    if P (id_of d) (the_mod s d) then Some (g (id_of d) (id_of c)) else None))|].
  - intros r m x Hx _. cbn. rewrite Hx. by apply Hb.
  - intros v s' [-> ->]. split; [done|]. unfold mod_rows. generalize (entries hs RegList). intros l.
    rewrite <- !head_bind, head_fmap_omap. f_equal. apply omap_same. intros c. rewrite head_fmap_omap. f_equal.
    apply omap_same. intros d. by destruct (P _ _).
Qed.

Lemma wp_mod_exists r m :
  is_Some (hs !! ModList r) ->
  wp (rcu_mod_exists (Some r) (Some m))
     (fun v s' => s' = s /\ v = bool_decide (ModLink m ∈ entries hs (ModList r))) s.
Proof.
  intros Hr. apply wp_bind. eapply wp_conseq;
    [apply (wp_search_first _ (entries hs (ModList r)) _ (fun c => if bool_decide (c = ModLink m) then Some tt else None));
     [by apply db_ring|]|].
  - intros c (k & x & -> & _)%(mod_entry s hs Hdb). apply wp_bind, wp_ret. wp_step. split; [done|].
    do 2 case_bool_decide; congruence.
  - intros v s' [-> ->]. wp_step. split; [done|]. apply bool_decide_ext. generalize (entries hs (ModList r)). intros l.
    induction l as [|c l IH]; cbn; [split; [by intros []|by intros ?%elem_of_nil]|]. rewrite elem_of_cons.
    case_bool_decide; cbn; [split; [by left|by eexists]|]. rewrite IH. naive_solver.
Qed.

Lemma sum_mods l : sum_over (fun c => Z.of_nat (length (mods_of hs c))) l = Z.of_nat (length (l ≫= mods_of hs)).
Proof. unfold sum_over. induction l as [|c l IH]; [done|]. cbn. rewrite IH, length_app. lia. Qed.

Lemma wp_get_nr_mods :
  mc_init_done (st_mach s) = true -> Z.of_nat (length (entries hs RegList ≫= mods_of hs)) <= INT_MAX ->
  wp rcu_get_nr_mods (fun v s' => s' = s /\ v = Z.of_nat (length (entries hs RegList ≫= mods_of hs))) s.
Proof.
  intros Hi Hn. apply wp_bind, wp_rcu_init; [done|]. apply wp_starting. rewrite <- sum_mods in *. eapply wp_conseq;
    [apply (wp_count_each _ (entries hs RegList) _ (fun c => Z.of_nat (length (mods_of hs c)))); [|lia|done|]|].
  - by apply (db_ring s hs Hdb), db_regs with s.
  - intros c n (r & x & -> & _ & Hm)%(reg_entry s hs Hdb) Bn. apply wp_bind, wp_zoom, wp_ret. cbn [mods_of] in *.
    rewrite <- sum_over_one in *. apply wp_count_each; [by apply db_ring|lia|done|].
    intros d k _ Bk. by apply wp_count_entry.
  - by intros _ x ->.
Qed.

Lemma wp_get_nr_regs :
  mc_init_done (st_mach s) = true -> Z.of_nat (length (entries hs RegList)) <= INT_MAX ->
  wp rcu_get_nr_regs (fun v s' => s' = s /\ v = Z.of_nat (length (entries hs RegList))) s.
Proof.
  intros Hi Hn. apply wp_bind, wp_rcu_init; [done|]. apply wp_starting. rewrite <- sum_over_one in *. eapply wp_conseq;
    [apply (wp_count_each _ (entries hs RegList) _ (fun _ => 1)); [|lia|done|]|].
  - by apply (db_ring s hs Hdb), db_regs with s.
  - intros c n _ Bn. by apply wp_count_entry.
  - by intros _ x ->.
Qed.
End QueryProofs.

(** *** The report *)

Section ReportProofs.
Context (s : rcu) (hs : lists) (Hdb : db s hs).

Lemma wp_print x (Q : unit -> rcu * list string -> Prop) out : Q tt (s, out ++ [x]) -> wp (print x) Q (s, out).
Proof. intros HQ. by apply wp_modify. Qed.

Lemma wp_print_char x n (Q : unit -> rcu * list string -> Prop) out :
  Q tt (s, out ++ replicate n x) -> wp (foldM (fun _ _ => print x) (seq 0 n) tt) Q (s, out).
Proof. intros HQ. eapply wp_conseq; [apply wp_chars|]. by intros [] y ->. Qed.

Lemma wp_loop_print h (body : loc -> printer) f (Q : unit -> rcu * list string -> Prop) out :
  is_Some (hs !! h) ->
  (forall c out, c ∈ entries hs h -> wp (body c) (fun _ x => x = (s, out ++ f c)) (s, out)) ->
  Q tt (s, out ++ (entries hs h ≫= f)) -> wp (each_in h body) Q (s, out).
Proof.
  intros Hh Hb HQ. eapply wp_conseq; [apply wp_each_print; [by apply (db_ring s hs Hdb)|done]|]. by intros [] y ->.
Qed.

Lemma wp_loop_index h (body : Z -> loc -> printer) f (Q : unit -> rcu * list string -> Prop) out :
  is_Some (hs !! h) ->
  (forall i c out, c ∈ entries hs h -> wp (body i c) (fun _ x => x = (s, out ++ f i c)) (s, out)) ->
  Q tt (s, out ++ numbered f 0 (entries hs h)) -> wp (each_index h body) Q (s, out).
Proof.
  intros Hh Hb HQ. eapply wp_conseq; [apply wp_each_index; [by apply (db_ring s hs Hdb)|done]|]. by intros [] y ->.
Qed.

Lemma wp_report_fails pre post h (Q : unit -> rcu * list string -> Prop) out :
  is_fails h = true -> is_Some (hs !! h) -> Q tt (s, out ++ fail_lines s hs pre post h) ->
  wp (each_in h (report_fail pre post)) Q (s, out).
Proof.
  intros Hf Hh HQ. eapply wp_loop_print; [done| |exact HQ]. intros c o Hc.
  destruct (fail_entry s hs Hdb _ _ Hf Hc) as (k & x & -> & Hx). apply wp_bind, wp_zoom, wp_ret, wp_bind, wp_print_char.
  apply wp_bind, wp_zoom, (wp_object _ _ x); [done|]. apply wp_print. cbn [fail_text]. rewrite Hx. cbn [snd]. by rewrite <- app_assoc.
Qed.

Lemma wp_report_test m c out :
  c ∈ entries hs (FuncList m) -> wp (report_test c) (fun _ x => x = (s, out ++ test_lines s hs c)) (s, out).
Proof.
  intros (f & t & -> & Ht & Hn & Hf)%(test_entry s hs Hdb). apply wp_bind, wp_zoom, wp_ret, wp_bind, wp_print_char.
  apply wp_bind, wp_zoom, (wp_object _ _ t); [done|]. apply wp_bind, wp_zoom, (wp_test_name _ t); [done|done|].
  apply wp_bind, wp_print, wp_bind. unfold test_lines.
  replace (the_test s (FuncLink f)) with t by (cbn; by rewrite Ht). cbv zeta.
  destruct ((t_nr_succ_assert t =? 0) && _ && _).
  - apply wp_bind, wp_print_char, wp_print, wp_report_fails; [done|done|]. cbn [snd]; by rewrite <- !app_assoc.
  - apply wp_ret, wp_report_fails; [done|done|]. cbn [snd]; by rewrite <- !app_assoc.
Qed.

Lemma wp_report_mod r i j c out :
  c ∈ entries hs (ModList r) -> wp (report_mod i j c) (fun _ x => x = (s, out ++ mod_lines s hs i j c)) (s, out).
Proof.
  intros (m & x & -> & Hx & Hf & Hm)%(mod_entry s hs Hdb). apply wp_bind, wp_zoom, wp_ret, wp_bind, wp_print_char.
  apply wp_bind, wp_zoom, (wp_object _ _ x); [done|]. apply wp_bind, wp_print, wp_bind, wp_report_fails; [done|done|].
  eapply (wp_loop_print _ _ (test_lines s hs)); [done|intros d o; apply wp_report_test|].
  unfold mod_lines. cbn [the_mod tests_of]. rewrite Hx. cbn [snd]; by rewrite <- !app_assoc.
Qed.

Lemma wp_report_reg i c out :
  c ∈ entries hs RegList -> wp (report_reg i c) (fun _ x => x = (s, out ++ reg_lines s hs i c)) (s, out).
Proof.
  intros (r & x & -> & Hx & Hm)%(reg_entry s hs Hdb). apply wp_bind, wp_zoom, wp_ret.
  apply wp_bind, wp_zoom, (wp_object _ _ x); [done|]. apply wp_bind, wp_print.
  eapply (wp_loop_index _ _ (mod_lines s hs i)); [done|intros j d o; apply wp_report_mod|].
  unfold reg_lines. cbn [the_reg mods_of]. rewrite Hx. cbn [snd]; by rewrite <- !app_assoc.
Qed.
Lemma wp_plaintext_report ctime :
  wp (rcu_gen_plaintext_report true ctime)
     (fun r x => r = RCU_E_OK /\ x = (s, report_lines s hs ctime)) (s, []).
Proof.
  apply wp_bind, wp_print, wp_bind, wp_print_char, wp_bind, wp_print, wp_bind, wp_print_char, wp_bind, wp_print.
  apply wp_bind, wp_print, wp_bind, (wp_loop_index _ _ (reg_lines s hs)); [by apply db_regs with s| |].
  { intros i c out. by apply wp_report_reg. }
  apply wp_bind, wp_zoom, wp_gets, wp_bind, wp_print, wp_bind. unfold report_lines. cbn [fst].
  destruct (mc_nr_failed_test (st_mach s) =? 0); apply wp_print, wp_bind, wp_print, wp_bind, wp_print, wp_ret;
    (split; [done|]); cbn [snd]; by rewrite <- !app_assoc.
Qed.

(** The report of a run leaves the database as it is. *)
Lemma wp_gen_test_run_report (Q : unit -> rcu -> Prop) :
  Q tt (if report_opens then set_st_report (report_lines s hs report_time) s else s) ->
  wp rcu_gen_test_run_report Q s.
Proof.
  unfold wp, rcu_gen_test_run_report. destruct report_opens; [|done].
  destruct (wp_elim _ _ _ (wp_plaintext_report report_time)) as (? & ? & -> & -> & ->). done.
Qed.
End ReportProofs.
End Proofs.

(** Every query is a pure function of the sequences of the database.  On a
    well-formed database, and without changing it: the global searches for a test
    by entry or by name and for a module by name return the first match in the
    order of the registries, modules and tests, with the module and registry it
    is in; a search by reference tells whether the module is in some registry,
    but never says in which; in one registry the first module of a name is found
    and membership is decided; and the counts are the lengths of the lists, when an
    [int] holds them. *)
Theorem queries_are_pure `{RcEnv} (s : rcu) (hs : lists) :
  db s hs -> mc_init_done (st_mach s) = true ->
  (forall entry, rcu_srch_test_func_entry_global entry s =
     Ret (head (test_rows s hs (fun t => bool_decide (t_entry t = entry)))) s) /\
  (forall name, rcu_srch_test_func_by_name_global (Some name) s =
     Ret (head (test_rows s hs (fun t => bool_decide (t_name t = name)))) s) /\
  (forall name, rcu_srch_mod_by_name_global name s =
     Ret (head (mod_rows s hs (fun _ x => bool_decide (m_name x = name)))) s) /\
  (forall m, rcu_srch_mod_by_ref_global m s =
     Ret (bool_decide (is_Some (head (mod_rows s hs (fun i _ => bool_decide (i = m))))), None) s) /\
  (forall r name, is_Some (hs !! ModList r) -> rcu_srch_mod_by_name r (Some name) s =
     Ret (head (omap (fun c => if bool_decide (m_name (the_mod s c) = name) then Some (id_of c) else None)
                     (entries hs (ModList r)))) s) /\
  (forall r m, is_Some (hs !! ModList r) -> rcu_mod_exists (Some r) (Some m) s =
     Ret (bool_decide (ModLink m ∈ entries hs (ModList r))) s) /\
  (Z.of_nat (length (entries hs RegList ≫= mods_of hs)) <= INT_MAX ->
   rcu_get_nr_mods s = Ret (Z.of_nat (length (entries hs RegList ≫= mods_of hs))) s) /\
  (Z.of_nat (length (entries hs RegList)) <= INT_MAX ->
   rcu_get_nr_regs s = Ret (Z.of_nat (length (entries hs RegList))) s).
Proof.
  intros Hdb Hi.
  assert (forall A (m : M rcu A) v, wp m (fun v' s' => s' = s /\ v' = v) s -> m s = Ret v s) as Hrun.
  { intros A m v Hw. destruct (wp_elim _ _ _ Hw) as (? & ? & E & -> & ->). done. }
  split_and!.
  - intros entry. apply Hrun, (wp_search_all_tests s hs Hdb _ (fun _ f => let! t := test_at f in _)).
    intros m f t Ht _. apply wp_bind, (wp_object _ _ t); [done|]. by wp_step.
  - intros name. apply Hrun, (wp_search_all_tests s hs Hdb _ (fun _ f => let! n := test_name f in _)).
    intros m f t Ht Hn. apply wp_bind, (wp_test_name _ t); [done|done|]. by wp_step.
  - intros name. apply Hrun. eapply wp_conseq;
      [apply (wp_search_all_mods s hs Hdb (fun _ x => bool_decide (m_name x = name)) pair (fun r m => let! x := mod_at m in _))|].
    + intros r m x Hx. apply wp_bind, (wp_object _ _ x); [done|]. by wp_step.
    + intros v s' [-> ->]. split; [done|]. by destruct (head _) as [[]|].
  - intros m. apply Hrun, wp_bind. eapply wp_conseq;
      [apply (wp_search_all_mods s hs Hdb (fun i _ => bool_decide (i = m)) (fun _ _ => tt) (fun r i => ret _))|].
    + intros r i x Hx. by wp_step.
    + intros v s' [-> ->]. wp_step. split; [done|]. f_equal. apply bool_decide_ext. by rewrite fmap_is_Some.
  - intros r name Hr. apply Hrun, wp_search_first; [by apply db_ring|].
    intros c (m & x & -> & Hx & _)%(mod_entry s hs Hdb). apply wp_bind, wp_ret, wp_bind, (wp_object _ _ x); [done|].
    wp_step. cbn. by rewrite Hx.
  - intros r m Hr. by apply Hrun, wp_mod_exists.
  - intros Hn. by apply Hrun, wp_get_nr_mods.
  - intros Hn. by apply Hrun, wp_get_nr_regs.
Qed.

(** C39: The report prints the database.  On a well-formed database the report
    generator ends without undefined behaviour, leaves the database as it is and
    writes the texts of [report_lines]: every registry with its number, every
    module of it with its own number and failures, and every test of that with
    its result and failures, each exactly once and in the order of the lists,
    then the counts of the machine and the verdict, successful when no test was
    counted as failed.  When the file cannot be opened nothing is written. *)
Theorem report_prints_the_database `{RcEnv} (s : rcu) (hs : lists) (ctime : string) :
  db s hs ->
  rcu_gen_plaintext_report true ctime (s, []) = Ret RCU_E_OK (s, report_lines s hs ctime) /\
  rcu_gen_plaintext_report false ctime (s, []) = Ret RCU_E_NG (s, []).
Proof.
  intros Hdb. split; [|done].
  assert (wp (rcu_gen_plaintext_report true ctime)
             (fun r x => r = RCU_E_OK /\ x = (s, report_lines s hs ctime)) (s, [])) as Hw by (by apply wp_plaintext_report).
  destruct (wp_elim _ _ _ Hw) as (r & x & E & -> & ->). done.
Qed.

(** ** Witnesses: the database of a machine that was just initialised *)

Definition toy_ctime : string := "Mon Jan  1 00:00:00 2024" +:+ nl.
#[local] Instance toy_env : RcEnv := {|
  code := fun _ => []; malloc_ok := fun _ => true; fmt_ptr := fun _ => ""%string;
  report_opens := true; report_time := toy_ctime |}.

Lemma queries_are_pure_witness :
  rcu_srch_mod_by_name_global RCU_DEFAULT_MODULE_NAME rcu_ready = Ret (Some (DEF_MOD, DEF_REG)) rcu_ready /\
  rcu_srch_mod_by_ref_global DEF_MOD rcu_ready = Ret (true, None) rcu_ready /\
  rcu_get_nr_mods rcu_ready = Ret 1 rcu_ready.
Proof.
  destruct (queries_are_pure rcu_ready start_lists (ur_db _ _ ready_unrun) (ur_init _ _ ready_unrun))
    as (_ & _ & Hn & Hr & _ & _ & Hm & _).
  split; [exact (Hn RCU_DEFAULT_MODULE_NAME)|]. split; [exact (Hr DEF_MOD)|exact (Hm ltac:(by vm_compute))].
Defined.

Lemma report_prints_the_database_witness :
  exists out, rcu_gen_plaintext_report true toy_ctime (rcu_ready, []) = Ret RCU_E_OK (rcu_ready, out) /\
    drop 61 out = [nl +:+ "Test Run Results: Passed : 0  Failed : 0" +:+ nl; "Test successful!" +:+ nl; nl +:+ rule;
                   "Generated last Mon Jan  1 00:00:00 2024 by RCUNIT version 1.0." +:+ nl +:+ nl]%string.
Proof.
  destruct (report_prints_the_database rcu_ready start_lists toy_ctime (ur_db _ _ ready_unrun)) as [E _].
  exists (report_lines rcu_ready start_lists toy_ctime). split; [exact E|]. vm_compute. reflexivity.
Defined.
