(* ===== verification/RcSuite.v ===== *)
(** * RcSuite: the life of a test program under rcunit

    The destruction of the framework, the registration of tests, and the result
    of [rcu_run_tests]: from the start of the program to its end. *)

From stdpp Require Import pretty.
From S2P Require Import Prelude RcList RcUnit RcDb RcRun RcReport.
Open Scope list_scope.
Open Scope Z_scope.

Section Suite.
Context `{RcEnv}.

(** ** Destruction *)

(** The nodes that survive the destruction of the tests of a module, and of a module. *)
Definition above_tests (x : loc) : bool :=
  match x with FuncList _ | FuncLink _ | FuncFails _ | FailLink _ => false | _ => true end.
Definition above_mods (x : loc) : bool :=
  match x with RegList | RegLink _ => true | _ => false end.

Record spares (kind : loc -> bool) (s s' : rcu) : Prop := {
  sp_mach : st_mach s' = st_mach s;
  sp_out : st_out s' = st_out s;
  sp_nodes : forall y, kind y = true ->
    nx (st_node s') y = nx (st_node s) y /\ pv (st_node s') y = pv (st_node s) y
}.
#[export] Instance spares_preorder kind : PreOrder (spares kind).
Proof.
  split; [by intros s; split|]. intros s1 s2 s3 [M O N] [M' O' N']. split; [by etrans|by etrans|].
  intros y Hy. destruct (N' y Hy) as [-> ->]. by apply N.
Qed.

Lemma spares_sub (k k' : loc -> bool) s s' : (forall y, k' y = true -> k y = true) -> spares k s s' -> spares k' s s'.
Proof. intros Hk [M O N]. split; auto. Qed.

(** Two neighbours that a removed entry still points to. *)
Record stale (ns : nodes loc) (e a b : loc) : Prop := {
  st_pv : pv ns e = Some a;
  st_nx : nx ns e = Some b;
  st_ab : nx ns a = Some b;
  st_ba : pv ns b = Some a;
  st_ae : a <> e;
  st_be : b <> e
}.

(** Removing an entry again changes nothing. *)
Lemma wp_remove_stale hs e a b (Q : unit -> rcu -> Prop) s :
  db s hs -> stale (st_node s) e a b ->
  (forall ns', db (set_st_node ns' s) hs -> dom ns' = dom (st_node s) ->
     (forall y, nx ns' y = nx (st_node s) y /\ pv ns' y = pv (st_node s) y) -> Q tt (set_st_node ns' s)) ->
  wp (nodes_do (rcu_remove_list (Some e))) Q s.
Proof.
  intros Hd [P N A B Ae Be] HQ. apply wp_zoom.
  eapply wp_remove_list; [done..|by eapply nx_dom|by eapply pv_dom|]. intros ns' [Hn Hp Hdom].
  assert (forall y, nx ns' y = nx (st_node s) y /\ pv ns' y = pv (st_node s) y) as Hsame.
  { intros y. rewrite Hn, Hp. split; case_decide; congruence. }
  apply HQ; [|done|done]. apply db_nodes; [done| |done]. eapply rings_frame, Hd. intros. apply Hsame.
Qed.

(** The first entry of a list, once out of it. *)
Lemma unlinked_stale ns hs h t e :
  rings ns hs -> hs !! h = Some t -> loose hs e -> pv ns e = Some h -> nx ns e = Some (first t h) ->
  stale ns e h (first t h).
Proof.
  intros Hr Hh Hlo P N. destruct (rings_ring _ _ Hr _ _ Hh) as [Hs _]. pose proof (Hlo _ _ Hh) as He.
  split; [done|done|by apply seg_first in Hs|destruct t; cbn in *; naive_solver|set_solver|].
  destruct t; cbn; set_solver.
Qed.

Lemma wp_free_test hs f (Q : unit -> rcu -> Prop) s :
  db s hs -> loose hs (FuncLink f) -> is_Some (st_test s !! f) ->
  (forall s', db s' (delete (FuncFails f) hs) -> spares above_tests s s' ->
     st_mod s' = st_mod s -> st_reg s' = st_reg s -> Q tt s') ->
  wp (rcu_free_test_func f) Q s.
Proof.
  intros Hd Hl [t Ht] HQ. apply wp_bind, (wp_object _ _ t); [done|]. wp_steps. apply HQ; [|split; cbn|done..].
  - eapply (db_free s _ hs _ (test_nodes f)); [done| | | | |done|done|].
    + by intros h k [_ ?]%lookup_delete_Some.
    + rewrite lookup_delete_ne by done. apply Hd.
    + rewrite lookup_delete_ne by done. apply Hd.
    + intros x [->|[->|[]%elem_of_nil]%elem_of_cons]%elem_of_cons; [by apply loose_delete|].
      eapply loose_head; [done|]. intros h' Ht'. by destruct h'.
    + intros h k x [_ E]%lookup_delete_Some Hx. assert (x <> FuncLink f) as Hxf by (intros ->; eapply Hl; [done|by right]).
      destruct x; cbn; try done; rewrite !lookup_delete_ne by congruence; done.
  - done.
  - done.
  - intros y Hy. apply (nx_drop _ (test_nodes f)). intros [->|[->|[]%elem_of_nil]%elem_of_cons]%elem_of_cons; done.
Qed.

(** The tests of module [m] go. *)
Lemma wp_destroy_tests hs m l (Q : unit -> rcu -> Prop) s :
  db s hs -> hs !! FuncList m = Some l ->
  (forall s' hs', db s' hs' -> (forall h, above_tests h = true -> hs' !! h = hs !! h) ->
     (forall h, (forall f, h <> FuncFails f) -> is_Some (hs' !! h) <-> is_Some (hs !! h)) ->
     hs' !! FuncList m = Some [] -> spares above_tests s s' -> st_mod s' = st_mod s -> st_reg s' = st_reg s -> Q tt s') ->
  wp (each_saved (FuncList m) (fun c => let! f := as_func c in
        nodes_do (rcu_remove_list (Some c)) ;;; rcu_free_test_func f)) Q s.
Proof.
  intros Hd Hl HQ.
  apply (wp_each_saved _ l _ (fun t s' => exists hs', db s' hs' /\ (forall h, above_tests h = true -> hs' !! h = hs !! h) /\
     (forall h, (forall f, h <> FuncFails f) -> is_Some (hs' !! h) <-> is_Some (hs !! h)) /\
     hs' !! FuncList m = Some t /\ spares above_tests s s' /\ st_mod s' = st_mod s /\ st_reg s' = st_reg s)).
  - intros t s' (hs' & Hd' & _ & _ & E & _). by apply (db_rings _ _ Hd').
  - intros x t s' (hs' & Hd' & Ha & Hdom & E & Hsp & Em & Er).
    pose proof (db_typed _ _ Hd' _ _ x E ltac:(by left)) as Tx.
    pose proof (db_live _ _ Hd' _ _ x E ltac:(by left)) as Lx.
    destruct x as [| | | | | | |f| |]; try done. destruct Lx as [(tt' & Ht & _) _].
    apply wp_bind, wp_ret, wp_bind, (wp_unlink hs' (FuncList m) [] (FuncLink f) t); [done|done|].
    intros ns' Hd2 _ Hlo _ _ Hfr. apply (wp_free_test _ f _ _ Hd2 Hlo); [by eexists|].
    intros s2 Hd3 Hsp2 Em2 Er2. eexists. split; [done|]. split_and!.
    + intros h Hh. rewrite lookup_delete_ne, lookup_insert_ne by (intros <-; done). by apply Ha.
    + intros h Hh. rewrite lookup_delete_ne by (intros <-; by eapply Hh).
      rewrite <- Hdom by done. destruct (decide (FuncList m = h)) as [<-|]; [by rewrite lookup_insert_eq, E|by rewrite lookup_insert_ne].
    + by rewrite lookup_delete_ne, lookup_insert_eq.
    + etrans; [done|]. etrans; [|done]. split; cbn; [done|done|]. intros y Hy. apply Hfr.
      intros [->|Hin]%elem_of_cons; [done|]. pose proof (db_typed _ _ Hd' _ _ y E Hin). by destruct y.
    + by rewrite Em2.
    + by rewrite Er2.
  - intros s' (hs' & ? & ? & ? & ? & ? & ? & ?). by eapply HQ.
  - by exists hs.
Qed.

(** The lists that survive the destruction of modules. *)
Definition above_lists (h : loc) : bool := match h with RegList | RegLink _ | ModList _ | AssertList => true | _ => false end.

Lemma wp_free_mod hs m (Q : unit -> rcu -> Prop) s :
  db s hs -> loose hs (ModLink m) -> is_Some (st_mod s !! m) -> m <> DEF_MOD ->
  (forall s', db s' (delete (ModFails m) (delete (FuncList m) hs)) -> spares above_mods s s' -> st_reg s' = st_reg s -> Q tt s') ->
  wp (rcu_free_test_mod m) Q s.
Proof.
  intros Hd Hl [x Hx] Hm HQ. apply wp_bind, (wp_object _ _ x); [done|].
  apply wp_bind, wp_guard; [by apply bool_decide_eq_true|]. wp_steps. apply HQ; [|split; cbn; [done|done|]|done].
  - eapply (db_free s _ hs _ (mod_nodes m)); [done| | | | |done|done|].
    + by intros h k [_ [_ ?]%lookup_delete_Some]%lookup_delete_Some.
    + rewrite !lookup_delete_ne by done. apply Hd.
    + rewrite !lookup_delete_ne by done. apply Hd.
    + intros y [->|[->|[->|[]%elem_of_nil]%elem_of_cons]%elem_of_cons]%elem_of_cons.
      * by apply loose_delete, loose_delete.
      * eapply loose_delete, loose_head; [done|]. intros h' Ht'. by destruct h'.
      * rewrite delete_delete. eapply loose_delete, loose_head; [done|]. intros h' Ht'. by destruct h'.
    + intros h k y [_ [_ E]%lookup_delete_Some]%lookup_delete_Some Hy.
      assert (y <> ModLink m) as Hym by (intros ->; eapply Hl; [done|by right]).
      destruct y; cbn; try done; rewrite !lookup_delete_ne by congruence; done.
  - intros y Hy. apply (nx_drop _ (mod_nodes m)).
    by intros [->|[->|[->|[]%elem_of_nil]%elem_of_cons]%elem_of_cons]%elem_of_cons.
Qed.

(** A module that has been taken out of its registry goes. *)
Lemma wp_destroy_mod hs m a b l x (Q : rcu_error -> rcu -> Prop) s :
  db s hs -> mc_init_done (st_mach s) = true -> loose hs (ModLink m) ->
  stale (st_node s) (ModLink m) a b -> above_tests a = true -> above_tests b = true ->
  st_mod s !! m = Some x -> (m_name x = RCU_DEFAULT_MODULE_NAME <-> m = DEF_MOD) -> hs !! FuncList m = Some l ->
  (forall e s' hs', db s' hs' -> (forall h, above_lists h = true -> hs' !! h = hs !! h) ->
     spares above_mods s s' -> st_reg s' = st_reg s -> Q e s') ->
  wp (rcu_destroy_test_mod (Some m)) Q s.
Proof.
  intros Hd Hi Hlo [S1 S2 S3 S4 S5 S6] Aa Ab Hx Hname Hl HQ.
  apply wp_bind, wp_rcu_init; [done|]. apply wp_bind, (wp_object _ _ x); [done|].
  apply wp_bind, (wp_destroy_tests hs m l); [done|done|]. intros s2 hs2 Hd2 Ha2 _ _ Hsp2 Em2 Er2.
  pose proof (sp_nodes _ _ _ Hsp2) as N2.
  destruct (N2 (ModLink m) eq_refl) as [E1 E2], (N2 a Aa) as [E3 _], (N2 b Ab) as [_ E4].
  apply wp_bind, (wp_remove_stale hs2 _ a b); [done|split; congruence|]. intros ns' Hd3 Hdom3 Hns.
  apply wp_bind, (wp_object _ _ x); [cbn; by rewrite Em2|].
  assert (loose hs2 (ModLink m)) as Hlo2.
  { intros h k E [<-|Hin]%elem_of_cons.
    - eapply (Hlo (ModLink m) k); [by rewrite <- Ha2|by left].
    - eapply (Hlo h k); [|by right]. rewrite <- Ha2; [done|]. pose proof (db_typed _ _ Hd2 _ _ _ E Hin). by destruct h. }
  assert (spares above_mods s (set_st_node ns' s2)) as Hsp3.
  { etrans; [eapply (spares_sub above_tests above_mods s s2); [by intros []|done]|]. split; [done|done|]. intros y _. apply Hns. }
  assert (forall h, above_lists h = true -> hs2 !! h = hs !! h) as Ha3 by (intros h Hh; apply Ha2; by destruct h).
  apply wp_bind. case_bool_decide as Hdef.
  - wp_steps. by eapply HQ.
  - eapply (wp_free_mod hs2); [done|done|cbn; rewrite Em2; by eexists|tauto|].
    intros s4 Hd4 Hsp4 Er4. wp_steps. eapply HQ; [done| |by etrans|by rewrite Er4].
    intros h Hh. rewrite !lookup_delete_ne by (intros <-; done). by apply Ha3.
Qed.

(** ** Registries *)

Lemma wp_free_reg hs r (Q : unit -> rcu -> Prop) s :
  db s hs -> loose hs (RegLink r) -> is_Some (st_reg s !! r) -> r <> DEF_REG ->
  (forall s', db s' (delete (ModList r) hs) -> st_mach s' = st_mach s -> st_out s' = st_out s -> Q tt s') ->
  wp (rcu_free_reg r) Q s.
Proof.
  intros Hd Hl [x Hx] Hm HQ. apply wp_bind, (wp_object _ _ x); [done|].
  apply wp_bind, wp_guard; [by apply bool_decide_eq_true|]. wp_steps. apply HQ; [|done..].
  eapply (db_free s _ hs _ (reg_nodes r)); [done| | | | |done|done|].
  - by intros h k [_ ?]%lookup_delete_Some.
  - rewrite !lookup_delete_ne by done. apply Hd.
  - rewrite !lookup_delete_ne by done. apply Hd.
  - intros y [->|[->|[]%elem_of_nil]%elem_of_cons]%elem_of_cons; [by apply loose_delete|].
    eapply loose_head; [done|]. intros h' Ht'. by destruct h'.
  - intros h k y [_ E]%lookup_delete_Some Hy.
    assert (y <> RegLink r) as Hym by (intros ->; eapply Hl; [done|by right]).
    destruct y; cbn; try done; rewrite !lookup_delete_ne by congruence; done.
Qed.

(** The modules of registry [r] go. *)
Lemma wp_destroy_mods hs r l (Q : unit -> rcu -> Prop) s :
  db s hs -> mc_init_done (st_mach s) = true -> hs !! ModList r = Some l ->
  (forall s' hs', db s' hs' -> (forall h, above_mods h = true -> hs' !! h = hs !! h) -> is_Some (hs' !! ModList r) ->
     (forall e, above_mods e = true -> loose hs e -> loose hs' e) ->
     spares above_mods s s' -> st_reg s' = st_reg s -> Q tt s') ->
  wp (each_saved (ModList r) (fun c => let! m := as_mod c in
        nodes_do (rcu_remove_list (Some c)) ;;; rcu_destroy_test_mod (Some m) ;;; ret tt)) Q s.
Proof.
  intros Hd Hi Hl HQ.
  apply (wp_each_saved _ l _ (fun t s' => exists hs', db s' hs' /\ hs' !! ModList r = Some t /\
     (forall h, above_mods h = true -> hs' !! h = hs !! h) /\ spares above_mods s s' /\ st_reg s' = st_reg s)).
  - intros t s' (hs' & Hd' & E & _). by apply (db_rings _ _ Hd').
  - intros c t s' (hs' & Hd' & E & Er & Hsp & Eg).
    pose proof (db_typed _ _ Hd' _ _ c E ltac:(by left)) as Tc.
    pose proof (db_live _ _ Hd' _ _ c E ltac:(by left)) as Lc.
    destruct c as [| | | |m| | | | |]; try done. destruct Lc as ((x & Hx & Hn) & [k Hk] & _).
    apply wp_bind, wp_ret, wp_bind, (wp_unlink hs' (ModList r) [] (ModLink m) t); [done|done|].
    intros ns' Hd2 Hdom Hlo P2 N2 Hfr. cbn in P2.
    apply wp_bind. eapply (wp_destroy_mod _ m (ModList r) (first t (ModList r)) k x); [done|cbn; by rewrite (sp_mach _ _ _ Hsp)|done| |done| |done|done|by rewrite lookup_insert_ne|].
    + by apply (unlinked_stale _ (<[ModList r := t]> hs')); [apply Hd2|apply lookup_insert_eq|..].
    + destruct t as [|y t]; [done|]. pose proof (db_typed _ _ Hd' _ _ y E ltac:(by right; left)). by destruct y.
    + intros _ s3 hs3 Hd3 Ha3 Hsp3 Er3. wp_steps. exists hs3. split_and!; [done|by rewrite Ha3, lookup_insert_eq| | |].
      * intros h Hh. rewrite Ha3 by (by destruct h). rewrite lookup_insert_ne by (intros <-; done). by apply Er.
      * etrans; [done|]. etrans; [|done]. split; [done|done|]. intros y Hy. apply Hfr.
        intros [->|Hin]%elem_of_cons; [done|]. pose proof (db_typed _ _ Hd' _ _ y E Hin). by destruct y.
      * by rewrite Er3.
  - intros s' (hs' & Hd' & E & Er & Hsp & Eg). eapply HQ; try done. intros e He Hlo h k Hk [<-|Hin]%elem_of_cons.
    + eapply (Hlo e k); [by rewrite <- Er|by left].
    + eapply (Hlo h k); [|by right]. rewrite <- Er; [done|]. pose proof (db_typed _ _ Hd' _ _ _ Hk Hin). by destruct e, h.
  - by exists hs.
Qed.

(** A registry that has been taken out of the machine goes. *)
Lemma wp_destroy_reg hs r a b l x (Q : rcu_error -> rcu -> Prop) s :
  db s hs -> mc_init_done (st_mach s) = true -> loose hs (RegLink r) ->
  stale (st_node s) (RegLink r) a b -> above_mods a = true -> above_mods b = true ->
  st_reg s !! r = Some x -> (r_name x = RCU_DEFAULT_REGISTRY_NAME <-> r = DEF_REG) -> hs !! ModList r = Some l ->
  (forall e s' hs', db s' hs' -> hs' !! RegList = hs !! RegList ->
     st_mach s' = st_mach s -> st_out s' = st_out s -> Q e s') ->
  wp (rcu_destroy_test_reg (Some r)) Q s.
Proof.
  intros Hd Hi Hlo [S1 S2 S3 S4 S5 S6] Aa Ab Hx Hname Hl HQ.
  apply wp_bind, wp_rcu_init; [done|]. apply wp_bind, (wp_object _ _ x); [done|].
  apply wp_bind, (wp_destroy_mods hs r l); [done|done|done|]. intros s2 hs2 Hd2 Ha2 _ Hlo2 [Em2 Eo2 N2] Er2.
  destruct (N2 (RegLink r) eq_refl) as [E1 E2], (N2 a Aa) as [E3 _], (N2 b Ab) as [_ E4].
  apply wp_bind, (wp_remove_stale hs2 _ a b); [done|split; congruence|]. intros ns' Hd3 Hdom3 Hns.
  apply wp_bind, (wp_object _ _ x); [cbn; by rewrite Er2|].
  apply wp_bind. case_bool_decide as Hdef.
  - wp_steps. eapply HQ; [done|by apply Ha2|done|done].
  - eapply (wp_free_reg hs2); [done|by apply Hlo2|cbn; rewrite Er2; by eexists|tauto|].
    intros s4 Hd4 Em4 Eo4. wp_steps. eapply HQ; [done| |by rewrite Em4|by rewrite Eo4].
    rewrite lookup_delete_ne by done. by apply Ha2.
Qed.

Lemma wp_destroy_dbase hs (Q : rcu_error -> rcu -> Prop) s :
  db s hs -> mc_init_done (st_mach s) = true ->
  (forall e s' hs', db s' hs' -> hs' !! RegList = Some [] -> st_mach s' = st_mach s -> st_out s' = st_out s -> Q e s') ->
  wp rcu_destroy_test_dbase Q s.
Proof.
  intros Hd Hi HQ. destruct (db_regs _ _ Hd) as [l Hl]. apply wp_bind, wp_gets. rewrite Hi. apply wp_bind.
  apply (wp_each_saved _ l _ (fun t s' => exists hs', db s' hs' /\ hs' !! RegList = Some t /\
     st_mach s' = st_mach s /\ st_out s' = st_out s)).
  - intros t s' (hs' & Hd' & E & _). by apply (db_rings _ _ Hd').
  - intros c t s' (hs' & Hd' & E & Em & Eo).
    pose proof (db_typed _ _ Hd' _ _ c E ltac:(by left)) as Tc.
    pose proof (db_live _ _ Hd' _ _ c E ltac:(by left)) as Lc.
    destruct c as [| |r| | | | | | |]; try done. destruct Lc as ((x & Hx & Hn) & [k Hk]).
    apply wp_bind, wp_ret, wp_bind, (wp_unlink hs' RegList [] (RegLink r) t); [done|done|].
    intros ns' Hd2 Hdom Hlo P2 N2 Hfr. cbn in P2.
    apply wp_bind. eapply (wp_destroy_reg _ r RegList (first t RegList) k x);
      [done|cbn; by rewrite Em|done| |done| |done|done|by rewrite lookup_insert_ne|].
    + by apply (unlinked_stale _ (<[RegList := t]> hs')); [apply Hd2|apply lookup_insert_eq|..].
    + destruct t as [|y t]; [done|]. pose proof (db_typed _ _ Hd' _ _ y E ltac:(by right; left)). by destruct y.
    + intros _ s3 hs3 Hd3 Ha3 Em3 Eo3. wp_steps. exists hs3. rewrite Ha3, lookup_insert_eq, Em3, Eo3. done.
  - intros s' (hs' & Hd' & E & Em & Eo). wp_steps. by eapply HQ.
  - by exists hs.
Qed.

#[export] Instance only_fails_preorder : PreOrder only_fails.
Proof. split; [by intros s; split|]. intros s1 s2 s3 [] []. split; by etrans. Qed.

Lemma wp_clear_fails hs0 h (Q : rcu_error -> rcu -> Prop) s :
  holds hs0 s -> is_Some (hs0 !! h) -> is_fails h = true ->
  (forall e s', holds hs0 s' -> only_fails s s' -> Q e s') -> wp (rcu_del_all_fail_rec_impl h) Q s.
Proof.
  intros (hs & Hd & Ha) Hh Hf HQ. apply (agree_dom _ _ Ha) in Hh as Hk. destruct Hk as [k Hk].
  apply (wp_del_all_fail_rec hs _ k); [done|done|done|]. intros e s' Hd' Hof. apply HQ; [|done].
  eexists. split; [done|]. eapply agree_trans; [done|]. by apply agree_insert.
Qed.

(** A traversal of the database that only deletes failure records. *)
Lemma wp_each_fails hs0 h l body (Q : unit -> rcu -> Prop) s :
  holds hs0 s -> hs0 !! h = Some l -> is_fails h = false ->
  (forall x s1 (Q' : unit -> rcu -> Prop), x ∈ l -> typed h x -> holds hs0 s1 -> live s1 hs0 x ->
     (forall s', holds hs0 s' -> only_fails s1 s' -> Q' tt s') -> wp (body x) Q' s1) ->
  (forall s', holds hs0 s' -> only_fails s s' -> Q tt s') ->
  wp (each h body) Q s.
Proof.
  intros Hh Hl Hf Hb HQ.
  apply (wp_each hs0 h l _ (fun _ s' => holds hs0 s' /\ only_fails s s')); [done|done|by intros ?? []| |by intros s' []; apply HQ|done].
  intros d x t s1 -> [H1 O1]. destruct (holds_live _ _ _ _ x H1 Hl Hf ltac:(set_solver)) as [Tx Lx].
  apply (Hb x); [set_solver|done|done|done|]. intros s2 H2 O2. split; [done|by etrans].
Qed.

Lemma wp_clear_all_fails hs0 (Q : rcu_error -> rcu -> Prop) s :
  holds hs0 s -> (forall e s', holds hs0 s' -> only_fails s s' -> Q e s') -> wp rcu_del_all_fail_rec Q s.
Proof.
  intros Hh HQ. destruct Hh as (hs & Hd & Ha). pose proof (db_regs _ _ Hd) as Hr. pose proof (db_asserts _ _ Hd) as Has.
  rewrite (agree_lists _ _ Ha) in Hr by done. apply (agree_dom _ _ Ha) in Has. destruct Hr as [lr Hlr].
  apply wp_bind, (wp_each_fails hs0 _ lr); [by exists hs|done|done| |].
  - intros c s1 Q1 Hc Tc H1 Lc HQ1. destruct c as [| |r| | | | | | |]; try done. destruct Lc as [_ [l Hl]].
    apply wp_bind, wp_ret, (wp_each_fails hs0 _ l); [done|done|done| |done].
    intros c s2 Q2 Hc2 Tc2 H2 Lc2 HQ2. destruct c as [| | | |m| | | | |]; try done. destruct Lc2 as (_ & [tl Htl] & Hmf).
    apply wp_bind, wp_ret, wp_bind, (wp_each_fails hs0 _ tl); [done|done|done| |].
    + intros c s3 Q3 Hc3 Tc3 H3 Lc3 HQ3. destruct c as [| | | | | | |f| |]; try done. destruct Lc3 as [_ Hff].
      apply wp_bind, wp_ret, wp_bind, (wp_clear_fails hs0); [done|done|done|]. intros e s4 H4 O4. wp_steps. by apply HQ3.
    + intros s3 H3 O3. apply wp_bind, (wp_clear_fails hs0); [done|done|done|]. intros e s4 H4 O4. wp_steps.
      apply HQ2; [done|by etrans].
  - intros s1 H1 O1. apply wp_bind, (wp_clear_fails hs0); [done|done|done|]. intros e s2 H2 O2. wp_steps.
    apply HQ; [done|by etrans].
Qed.

Lemma wp_destroy hs0 (Q : rcu_error -> rcu -> Prop) s :
  holds hs0 s -> mc_init_done (st_mach s) = true ->
  (forall s' hs', db s' hs' -> hs' !! RegList = Some [] ->
     st_mach s' = set_mc_init_done false (st_mach s) -> st_out s' = st_out s -> Q RCU_E_OK s') ->
  wp rcu_destroy Q s.
Proof.
  intros Hh Hi HQ. apply wp_bind, wp_gets. rewrite Hi. apply wp_bind, wp_bind, (wp_clear_all_fails hs0); [done|].
  intros _ s1 (hs & Hd & _) [T1 M1 R1 Ma1 F1 O1]. apply wp_bind, (wp_destroy_dbase hs); [done|by rewrite Ma1|].
  intros _ s2 hs2 Hd2 E2 Ma2 O2. wp_steps. eapply HQ; [|done|cbn; by rewrite Ma2, Ma1|cbn; congruence].
  eapply db_shape, Hd2. split; [by apply keeps_same|done..].
Qed.

(** ** The run, from a registered database *)

Lemma wp_run_suite hs0 lr (Q : rcu_error -> rcu -> Prop) s0 :
  code_ok -> unrun hs0 s0 -> hs0 !! RegList = Some lr -> countable hs0 lr ->
  (forall s', mc_nr_failed_test (st_mach s') = sum_over (mod_nr_fail hs0 s0) (all_mods hs0 lr) ->
     mc_nr_succ_test (st_mach s') = sum_over (mod_nr_pass hs0 s0) (all_mods hs0 lr) ->
     st_out s' = (st_out s0 ++ hook_calls s0 true ++ hook_calls s0 false) ++
       [Verdict (negb (existsb (mod_fails hs0 s0) (all_mods hs0 lr)) && (0 <? sum_over (mod_size hs0) (all_mods hs0 lr)))] ->
     mc_init_done (st_mach s') = false ->
     Q (if existsb (mod_fails hs0 s0) (all_mods hs0 lr) then RCU_E_NG else RCU_E_OK) s') ->
  wp rcu_run_tests Q s0.
Proof.
  intros Hcode Hun Hlr Hcnt HQ. set (bad := existsb _ _) in *. set (n := sum_over (mod_size hs0) _) in *.
  apply wp_bind, wp_rcu_init; [apply Hun|]. apply wp_bind, wp_modify, wp_bind. set (s1 := set_st_mach _ _).
  assert (progress hs0 s0 [] s1) as P0.
  { split; cbn; try done; [|apply Hun..]. apply holds_mach, db_holds, Hun. }
  apply (wp_run_all hs0 s0 Hcode Hun lr); [done|done|done|done|apply Hun|apply Hun|].
  intros _ s2' P2' Pos' F2' O2'. fold bad in F2'.
  destruct (pg_holds _ _ _ _ P2') as (hs & Hd & Ha). apply wp_bind, (wp_gen_test_run_report _ hs Hd).
  set (s2 := if report_opens then _ else _).
  assert (progress hs0 s0 (all_mods hs0 lr) s2) as P2.
  { destruct P2' as [A1 A2 A3 A4 A5 A6 A7 A8]. unfold s2. destruct report_opens; split; try done.
    eapply holds_shape, A1. split; [by apply keeps_same|done..]. }
  assert (st_mach s2 = st_mach s2' /\ st_out s2 = st_out s2') as [Em2 O2] by (unfold s2; by destruct report_opens).
  rewrite <- Em2 in Pos', F2'. rewrite O2' in O2. rename Pos' into Pos, F2' into F2. clearbody s2. clear P2' O2' Hd Ha Em2 s2' hs.
  apply wp_bind, wp_gets, wp_bind.
  apply (wp_conseq _ (fun k s' => s' = s2 /\ ((mc_nr_failed_reg (st_mach s2) =? 0) && (0 <? k)) = negb bad && (0 <? n))).
  { destruct (Z.eqb_spec (mc_nr_failed_reg (st_mach s2)) 0) as [E|E].
    - eapply wp_conseq; [by eapply wp_get_nr_tests; try done; apply P2|]. intros k s' [-> ->]. split; [done|].
      rewrite <- F2, E. done.
    - wp_steps. split; [done|]. rewrite <- F2. by replace (0 <? mc_nr_failed_reg (st_mach s2)) with true by lia. }
  intros k ? [-> Ek]. apply wp_bind, wp_modify. rewrite Ek. apply wp_bind, (wp_destroy hs0).
  { eapply holds_shape, P2. split; [by apply keeps_same|done..]. } { apply P2. }
  intros s3 hs3 Hd3 _ Em3 Eo3. apply wp_bind, wp_gets, wp_ret. rewrite Em3. cbn. rewrite F2. apply HQ.
  - rewrite Em3. apply P2.
  - rewrite Em3. apply P2.
  - rewrite Eo3. cbn. by rewrite O2.
  - by rewrite Em3.
Qed.

(** ** Registration *)

Lemma wp_search {A} hs0 h l (body : loc -> M rcu (option A)) (P : A -> Prop) (Q : option A -> rcu -> Prop) s :
  holds hs0 s -> hs0 !! h = Some l -> is_fails h = false ->
  (forall x, x ∈ l -> wp (body x) (fun r s' => s' = s /\ forall v, r = Some v -> P v) s) ->
  (forall r, (forall v, r = Some v -> P v) -> Q r s) ->
  wp (search h body) Q s.
Proof.
  intros Hh Hl Hf Hb HQ. apply (wp_traverse _ _ _ _ (fun _ s' => s' = s) l); [|intros d x t s' -> ->|intros s' ->; by apply HQ|done].
  - intros d s' ->. by eapply holds_list.
  - apply wp_bind. eapply wp_conseq; [apply Hb; set_solver|]. intros [v|] s' [-> HP]; wp_steps; [|done]. by apply HQ.
Qed.

Lemma db_new_head s hs e ns' :
  db s hs -> loose hs e ->
  links (st_node s) ns' (fun y => if decide (y = e) then Some e else nx (st_node s) y)
                        (fun y => if decide (y = e) then Some e else pv (st_node s) y) ->
  db (set_st_node ns' s) (<[e := []]> hs).
Proof.
  intros Hd Hl Hlk. destruct (Hd) as [R A B T L F].
  assert (forall h', is_Some (hs !! h') -> is_Some (<[e := []]> hs !! h')) as Hsome.
  { intros h' ?. destruct (decide (e = h')) as [->|]; [by rewrite lookup_insert_eq|by rewrite lookup_insert_ne]. }
  split; [by eapply rings_init|by apply Hsome|by apply Hsome|..].
  - intros h l x [[<- <-]|[_ E]]%lookup_insert_Some Hx; [by apply elem_of_nil in Hx|by eapply T].
  - intros h l x [[<- <-]|[_ E]]%lookup_insert_Some Hx; [by apply elem_of_nil in Hx|].
    eapply (live_mono s); [by apply keeps_same|done|by eapply L].
  - intros x Hx. apply F. eapply dom_same; [|done]. symmetry. apply Hlk.
Qed.

Definition new_test (entry : fn) (init destroy : option fn) (name : option string) : rcu_test :=
  Test (strncpy_name RCU_TEST_FUNCTION_NAME_LENGTH (default (fmt_ptr entry) name)) entry init destroy
       RCU_RUN_STAT_NOTTESTED false false 0 0.

(** What a registration leaves: nothing new when memory is short, else the new
    test at the end of its module. *)
Record registered (hs : lists) (m : ident) (l : list loc) (x : rcu_module) (t : rcu_test) (f : ident) (hs' : lists) (s s' : rcu) : Prop := {
  rg_db : db s' hs';
  rg_lists : hs' = <[FuncList m := l ++ [FuncLink f]]> (<[FuncFails f := []]> hs);
  rg_new : FuncLink f ∉ l;
  rg_test : st_test s' = <[f := t]> (st_test s);
  rg_mod : st_mod s' = <[m := set_m_nr_test (m_nr_test x + 1) x]> (st_mod s);
  rg_reg : st_reg s' = st_reg s;
  rg_mach : st_mach s' = st_mach s;
  rg_out : st_out s' = st_out s
}.

(** The allocation of a test. *)
Lemma wp_alloc_test hs (Q : option ident -> rcu -> Prop) s :
  db s hs ->
  (forall i s', i = st_fresh s -> db s' hs -> st_mod s' = st_mod s -> st_reg s' = st_reg s -> st_mach s' = st_mach s ->
     st_out s' = st_out s ->
     (malloc_ok i = false -> st_test s' = st_test s -> Q None s') /\
     (malloc_ok i = true -> st_test s' = <[i := zero_test]> (st_test s) ->
      loose hs (FuncLink i) -> loose hs (FuncFails i) ->
      is_Some (st_node s' !! FuncLink i) -> is_Some (st_node s' !! FuncFails i) -> Q (Some i) s')) ->
  wp rcu_alloc_test_func Q s.
Proof.
  intros Hd HQ. set (i := st_fresh s). pose proof (db_malloc _ _ Hd) as Hd1. fold i in Hd1.
  assert (forall x, node_id x = i -> loose hs x /\ st_node s !! x = None) as Hnew.
  { intros x Hx. assert (st_node s !! x = None) as Hno.
    { destruct (st_node s !! x) eqn:E; [|done]. pose proof (db_fresh _ _ Hd x ltac:(by eexists)). lia. }
    split; [|done]. eapply unallocated_loose, Hno. apply Hd. }
  destruct (Hnew (FuncLink i) eq_refl) as [L1 N1], (Hnew (FuncFails i) eq_refl) as [L2 N2].
  apply wp_bind, wp_bind, wp_gets, wp_bind, wp_modify, wp_ret. fold i.
  destruct (malloc_ok i) eqn:Em; wp_steps.
  2: { by apply (HQ i). }
  eapply (HQ i); try done;
    [|by apply (dom_clear _ (test_nodes i)); left; left|by apply (dom_clear _ (test_nodes i)); left; right; left].
  apply (db_clear _ _ (test_nodes i)) in Hd1.
  2: { intros x [->|[->|[]%elem_of_nil]%elem_of_cons]%elem_of_cons; split; cbn; (done || lia). }
  eapply db_shape, Hd1. split; [|done..]. split; cbn; eauto. intros f t Hf Hn.
  destruct (decide (i = f)) as [<-|]; [|rewrite lookup_insert_ne by done; eauto].
  rewrite lookup_insert_eq. exists zero_test. split; [done|by apply Nat.ltb_lt].
Qed.

Lemma wp_add_test hs m l x entry init destroy name (Q : rcu_error -> rcu -> Prop) s :
  db s hs -> mc_init_done (st_mach s) = true -> st_mod s !! m = Some x -> hs !! FuncList m = Some l ->
  m_nr_test x < INT_MAX -> name_ok (new_test entry init destroy name) -> (forall i, malloc_ok i = true) ->
  (forall f s' hs', registered hs m l x (new_test entry init destroy name) f hs' s s' -> Q RCU_E_OK s') ->
  wp (rcu_add_test_func (Some m) (Some entry) init destroy name) Q s.
Proof.
  intros Hd Hi Hx Hl Hmax Hn Hok HQ.
  apply wp_bind, wp_rcu_init; [done|]. apply wp_bind, wp_ret, wp_bind, (wp_object _ _ x); [done|].
  (* the search for a test with the same entry *)
  apply wp_bind, (wp_search hs _ l _ (fun f => FuncLink f ∈ l)); [by apply db_holds|done|done| |].
  { intros c Hc. pose proof (db_typed _ _ Hd _ _ c Hl Hc). pose proof (db_live _ _ Hd _ _ c Hl Hc) as Lc.
    destruct c as [| | | | | | |f| |]; try done. destruct Lc as [(t & Ht & _) _].
    apply wp_bind, wp_ret, wp_bind, (wp_object _ _ t); [done|]. wp_steps. split; [done|]. intros v Hv.
    case_bool_decide; by simplify_eq. }
  intros r Hr. apply wp_bind, (wp_conseq _ (fun _ s' => s' = s)).
  { destruct r as [f|]; [|by wp_steps]. destruct (db_live _ _ Hd _ _ _ Hl (Hr f eq_refl)) as [(t & Ht & Hnt) _].
    apply wp_bind, (wp_test_name _ t); [done|done|]. by wp_steps. }
  intros _ ? ->. apply wp_bind, (wp_alloc_test hs); [done|].
  intros i s1 Ei Hd1 Em1 Er1 Ea1 Eo1. split; [by rewrite Hok|]. intros _ Et1 L1 L2 N1 N2.
  apply wp_bind, (wp_init_loose hs); [done|done|done|]. intros ns1 Hd2 Hdom2 _ _ _.
  apply wp_bind. eapply wp_upd_test; [cbn; rewrite Et1; apply lookup_insert_eq|].
  set (t1 := Test _ _ _ _ _ _ _ _ _). set (s2 := set_st_test _ _).
  assert (db s2 hs) as Hd3.
  { eapply db_shape, Hd2. split; [|done..]. split; cbn; eauto. intros f t Hf Hnf.
    destruct (decide (i = f)) as [<-|]; [rewrite lookup_insert_eq; by eexists|rewrite lookup_insert_ne by done; eauto]. }
  apply wp_bind, wp_zoom, wp_init_list; [by eapply dom_same|]. intros ns2 Hlk.
  pose proof (db_new_head _ _ _ _ Hd3 L2 Hlk) as Hd4. set (hs2 := <[FuncFails i := []]> hs) in *.
  assert (loose hs2 (FuncLink i)) as L3.
  { intros h k [[<- <-]|[_ E]]%lookup_insert_Some; [set_solver|by apply L1]. }
  assert (hs2 !! FuncList m = Some l) as Hl2 by (unfold hs2; by rewrite lookup_insert_ne).
  apply wp_bind, (wp_append hs2 _ l); [done|done|done| |done| |].
  { cbn. eapply dom_same; [apply Hlk|]. by eapply dom_same. }
  { split; [exists t1; split; [apply lookup_insert_eq|done]|unfold hs2; by rewrite lookup_insert_eq]. }
  intros ns3 Hd5. apply wp_bind. eapply wp_upd_test; [apply lookup_insert_eq|].
  apply wp_bind, (wp_bump_mod _ x); [cbn; by rewrite Em1|done|]. wp_steps.
  eapply (HQ i). split; [|done|by intros ?; eapply (L1 _ _ Hl); right| | |done..]; cbn.
  - eapply db_shape; [|apply Hd5]. split; [|done..]. split; cbn; eauto.
    + intros m' y. destruct (decide (m = m')) as [<-|]; [|rewrite lookup_insert_ne by done; eauto].
      rewrite lookup_insert_eq, Em1, Hx. intros [= <-]. eauto.
    + intros f t. rewrite !insert_insert_eq. destruct (decide (i = f)) as [<-|]; [|rewrite !lookup_insert_ne by done; eauto].
      rewrite !lookup_insert_eq. intros [= <-]. eauto.
  - by rewrite Et1, !insert_insert_eq.
  - by rewrite Em1.
Qed.

(** ** A test program of the repository *)

(** The tests [ids] are registered in the default module, in this order; the
    module has the fixtures [fx]. *)
Record suite (fx : option fn * option fn) (tests : list (fn * string)) (ids : list ident) (hs : lists) (s : rcu) : Prop := {
  su_unrun : unrun hs s;
  su_regs : hs !! RegList = Some [RegLink DEF_REG];
  su_mods : hs !! ModList DEF_REG = Some [ModLink DEF_MOD];
  su_funcs : hs !! FuncList DEF_MOD = Some (FuncLink <$> ids);
  su_tests : Forall2 (fun t i => st_test s !! i = Some (new_test t.1 None None (Some t.2))) tests ids;
  su_fixtures : exists x, st_mod s !! DEF_MOD = Some x /\ m_init x = fx.1 /\ m_destroy x = fx.2 /\ m_nr_test x = Z.of_nat (length tests);
  su_hook : mc_run_hook (st_mach s) = None;
  su_out : st_out s = []
}.

Lemma suite_start : suite (None, None) [] [] start_lists rcu_ready.
Proof.
  split; [apply ready_unrun|vm_compute; reflexivity|vm_compute; reflexivity|vm_compute; reflexivity|constructor| |
          vm_compute; reflexivity|vm_compute; reflexivity].
  eexists. split; [vm_compute; reflexivity|done].
Qed.

Lemma substring_all n str : (String.length str <= n)%nat -> String.substring 0 n str = str.
Proof. revert n. induction str as [|c str IH]; intros [|n] Hn; cbn in *; try done; [lia|]. rewrite IH; [done|lia]. Qed.

Lemma length_substring n str : (n <= String.length str)%nat -> String.length (String.substring 0 n str) = n.
Proof. revert n. induction str as [|c str IH]; intros [|n] Hn; cbn in *; try done; [lia|]. rewrite IH; [done|lia]. Qed.

Lemma add_test_default t (Q : rcu_error -> rcu -> Prop) s :
  mc_init_done (st_mach s) = true ->
  wp (rcu_add_test_func (Some DEF_MOD) (Some t.1) None None (Some t.2)) Q s -> wp (add_test t) Q s.
Proof.
  intros Hi Hw. unfold add_test, rcu_add_test_func, rcu_get_default_mod, wp, bind in *.
  assert (rcu_init s = Ret tt s) as E by (unfold rcu_init, bind, mach, gets; by rewrite Hi).
  rewrite E in *. rewrite E. done.
Qed.

Lemma suite_add fx tests ids hs t (Q : rcu_error -> rcu -> Prop) s :
  (forall i, malloc_ok i = true) -> (String.length t.2 < RCU_TEST_FUNCTION_NAME_LENGTH)%nat ->
  Z.of_nat (length tests) < INT_MAX ->
  suite fx tests ids hs s ->
  (forall e s' i hs', suite fx (tests ++ [t]) (ids ++ [i]) hs' s' -> Q e s') ->
  wp (add_test t) Q s.
Proof.
  intros Hok Hname Hmax [[U1 U2 U3 U4 U5 U6 U6' U7 U8] S2 S3 S4 S5 (x & Hx & Xi & Xd & Xn) S7 S8] HQ.
  assert (name_ok (new_test t.1 None None (Some t.2))) as Hn.
  { unfold name_ok, new_test, strncpy_name. cbn. rewrite substring_all; [done|lia]. }
  apply add_test_default; [done|]. apply (wp_add_test hs DEF_MOD (FuncLink <$> ids) x); try done; [by rewrite Xn|].
  intros f s' hs' [G1 -> G3 G4 G5 G6 G7 G8]. apply (HQ _ _ f (<[FuncList DEF_MOD := (FuncLink <$> ids) ++ [FuncLink f]]> (<[FuncFails f := []]> hs))).
  split; rewrite ?G7, ?G8, ?lookup_insert_ne, ?lookup_insert_eq, ?fmap_app by done; try done.
  - split; rewrite ?G7; try done.
    + intros r l m. rewrite !lookup_insert_ne by done. intros Hl Hm. destruct (U7 _ _ _ Hl Hm) as (y & Hy & Hfr).
      rewrite G5. destruct (decide (DEF_MOD = m)) as [<-|]; [|rewrite lookup_insert_ne by done; by exists y].
      rewrite lookup_insert_eq. simplify_eq. eexists. split; [done|]. by destruct Hfr.
    + intros l r. rewrite !lookup_insert_ne by done. rewrite G6. apply U8.
  - apply Forall2_app; [|by repeat constructor; rewrite G4, lookup_insert_eq].
    eapply Forall2_impl; [|intros a b Hab; exact Hab]. 
    rewrite G4. clear -S5 G3. induction S5 as [|t' i tests ids Ht HF IH]; constructor.
    + rewrite lookup_insert_ne; [done|]. intros ->. apply G3. by left.
    + apply IH. intros ?. apply G3. by right.
  - rewrite G5, lookup_insert_eq. eexists. split_and!; try done. rewrite length_app. cbn. lia.
Qed.

(** The tests of a program pass or fail by their code. *)
Definition test_ok (t : fn * string) : bool :=
  bool_decide (ends (code t.1) = Finishes) && (0 <? passed (code t.1)).

Lemma suite_passes s i t :
  st_test s !! i = Some (new_test t.1 None None (Some t.2)) -> test_passes s (FuncLink i) = test_ok t.
Proof.
  intros E. cbn. rewrite E. cbn. unfold passes, test_ok, new_test. cbn.
  rewrite !(bool_decide_eq_true_2 (_ = Finishes)), (bool_decide_eq_true_2 (_ <> Fails)) by done. by rewrite !andb_true_r.
Qed.

Definition nr_ok (tests : list (fn * string)) : Z := Z.of_nat (length (filter (fun t => test_ok t = true) tests)).
Definition nr_bad (tests : list (fn * string)) : Z := Z.of_nat (length (filter (fun t => test_ok t = false) tests)).

Lemma suite_counts fx tests ids hs s :
  suite fx tests ids hs s ->
  nr_pass s (FuncLink <$> ids) = nr_ok tests /\ nr_fail s (FuncLink <$> ids) = nr_bad tests.
Proof.
  intros Hs. pose proof (su_tests _ _ _ _ _ Hs) as HF. unfold nr_pass, nr_fail, nr_ok, nr_bad.
  assert (Forall2 (fun t i => test_passes s (FuncLink i) = test_ok t) tests ids) as HP
    by (eapply Forall2_impl; [exact HF|]; intros t i E; by eapply suite_passes).
  clear -HP. induction HP as [|t i tests ids E HF [IH1 IH2]]; [done|].
  rewrite !fmap_cons, !filter_cons, E. destruct (test_ok t); repeat case_decide; try done; cbn [length]; lia.
Qed.

Lemma suite_add_all fx tests more ids hs (Q : unit -> rcu -> Prop) s :
  (forall i, malloc_ok i = true) ->
  Forall (fun t => (String.length t.2 < RCU_TEST_FUNCTION_NAME_LENGTH)%nat) more ->
  Z.of_nat (length (tests ++ more)) <= INT_MAX ->
  suite fx tests ids hs s ->
  (forall s' ids' hs', suite fx (tests ++ more) ids' hs' s' -> Q tt s') ->
  wp (foldM (fun _ t => add_test t ;;; ret tt) more tt) Q s.
Proof.
  intros Hok Hn. revert tests ids hs s. induction Hn as [|t more Ht _ IH]; intros tests ids hs s Hmax Hs HQ.
  - wp_steps. eapply HQ. by rewrite app_nil_r.
  - apply wp_bind, wp_bind, (suite_add fx tests ids hs); [done|done|rewrite length_app in Hmax; cbn in Hmax; lia|done|]. intros e s' i hs' Hs'. wp_steps.
    eapply (IH (tests ++ [t])); [by rewrite <- app_assoc|done|]. intros s2 ids2 hs2. rewrite <- app_assoc. apply HQ.
Qed.

(** Every entry point initialises the framework first. *)
Lemma start_init {A} (k : unit -> M rcu A) : bind rcu_init k rcu_start = bind rcu_init k rcu_ready.
Proof.
  assert (mc_init_done (st_mach rcu_ready) = true) as Hi by (vm_compute; reflexivity).
  assert (rcu_init rcu_ready = Ret tt rcu_ready) as E2
    by (unfold rcu_init, bind at 1, mach, gets; rewrite Hi; exact eq_refl).
  unfold bind. rewrite rcu_init_start, E2. exact eq_refl.
Qed.

Lemma start_bind {A B} (m : M rcu A) (k : A -> M rcu B) :
  m rcu_start = m rcu_ready -> bind m k rcu_start = bind m k rcu_ready.
Proof. intros E. unfold bind. rewrite E. exact eq_refl. Qed.

Lemma test_main_start tests : test_main tests rcu_start = test_main tests rcu_ready.
Proof.
  destruct tests as [|t tests]; [exact (start_init _)|].
  apply start_bind, start_bind, start_bind. exact (start_init _).
Qed.

Lemma suite_fixtures tests ids hs fx fx' (Q : unit -> rcu -> Prop) s :
  suite fx tests ids hs s ->
  (forall s', suite fx' tests ids hs s' -> Q tt s') ->
  wp (rcu_set_mod_fxt DEF_MOD fx'.1 fx'.2) Q s.
Proof.
  intros [[U1 U2 U3 U4 U5 U6 U6' U7 U8] S2 S3 S4 S5 (x & Hx & Xi & Xd & Xn) S7 S8] HQ.
  apply (wp_upd_mod _ x); [done|]. apply HQ. split; try done; [split; try done|cbn; rewrite lookup_insert_eq; by eexists].
  - eapply db_shape, U1. by apply (shape_mod s DEF_MOD x).
  - intros r l m Hl Hm. destruct (U7 _ _ _ Hl Hm) as (y & Hy & Hfr). cbn.
    destruct (decide (DEF_MOD = m)) as [<-|]; [|rewrite lookup_insert_ne by done; by exists y].
    rewrite lookup_insert_eq. simplify_eq. eexists. split; [done|]. by destruct Hfr.
Qed.

(** The fixtures of the default module return. *)
Definition fixtures_ok (fx : option fn * option fn) : bool :=
  bool_decide (ends (actions fx.1) = Finishes) && bool_decide (ends (actions fx.2) = Finishes).

(** A program registers [tests] in the default module, whose fixtures are [fx],
    and runs them. *)
Lemma wp_suite_main fx tests ids0 hs0 (Q : rcu_error -> rcu -> Prop) s0 :
  (forall i, malloc_ok i = true) -> code_ok ->
  Forall (fun t => (String.length t.2 < RCU_TEST_FUNCTION_NAME_LENGTH)%nat) tests ->
  Z.of_nat (length tests) <= INT_MAX ->
  suite fx [] ids0 hs0 s0 ->
  (forall s, let ok := fixtures_ok fx in
     mc_nr_failed_test (st_mach s) = (if ok then nr_bad tests else 0) ->
     mc_nr_succ_test (st_mach s) = (if ok then nr_ok tests else 0) ->
     st_out s = [Verdict (negb (ok && (0 <? nr_bad tests)) && (0 <? Z.of_nat (length tests)))] ->
     mc_init_done (st_mach s) = false ->
     Q (if ok && (0 <? nr_bad tests) then RCU_E_NG else RCU_E_OK) s) ->
  wp (test_main tests) Q s0.
Proof.
  intros Hok Hcode Hnames Hmax Hs0 HQ. apply wp_bind, (suite_add_all fx [] tests ids0 hs0); [done|done|done|done|].
  intros s ids hs Hs. destruct (suite_counts _ _ _ _ _ Hs) as [Cp Cf]. destruct (Hs) as [U S2 S3 S4 S5 (x & Hx & Xi & Xd & Xn) S7 S8].
  assert (all_mods hs [RegLink DEF_REG] = [ModLink DEF_MOD]) as Eall by (unfold all_mods; cbn; by rewrite S3).
  assert (mod_tests hs DEF_MOD = FuncLink <$> ids) as Emt by (unfold mod_tests; by rewrite S4).
  assert (fixtures_finish x = fixtures_ok fx) as Hfx by (unfold fixtures_finish, fixtures_ok; by rewrite Xi, Xd).
  apply (wp_run_suite hs [RegLink DEF_REG]); [done|done|done| |].
  { split; rewrite ?Eall; [done|done|]. cbn. rewrite Emt, length_fmap, <- (Forall2_length _ _ _ S5). cbn. lia. }
  rewrite Eall. unfold hook_calls. rewrite S7, S8.
  cbn. rewrite Hx. cbn. rewrite Emt, Hfx, Cp, Cf, length_fmap, <- (Forall2_length _ _ _ S5).
  cbn. rewrite orb_false_r, !Z.add_0_r. apply HQ.
Qed.
End Suite.
