(* ===== verification/RcVerdict.v ===== *)
(** * RcVerdict: what a test program may conclude from rcunit

    The theorems about the test framework: the verdict of a program, of a whole
    database, and the cases in which the framework does not say what happened. *)

From stdpp Require Import pretty.
From S2P Require Import Prelude RcList RcUnit RcDb RcRun RcSuite.
Open Scope list_scope.
Open Scope Z_scope.

Section Verdict.
Context `{RcEnv}.

(** C32: A test program that registers [tests] and runs them returns the error status exactly when some test
    does not pass; a test passes when its function returns after at least one
    assertion and none failed.  The machine ends with the numbers of tests that
    passed and failed, and the program prints that the run was successful when
    every test passed and there was one.  This is under four conditions: every
    allocation succeeds, the names of the tests and of the functions that assert
    fit their field of 255 characters, no function passes more than INT_MAX
    assertions, and there are at most INT_MAX tests. *)
Theorem test_main_verdict tests :
  (forall i, malloc_ok i = true) -> code_ok ->
  Forall (fun t => (String.length t.2 < RCU_TEST_FUNCTION_NAME_LENGTH)%nat) tests ->
  Z.of_nat (length tests) <= INT_MAX ->
  exists s,
    test_main tests rcu_start = Ret (if 0 <? nr_bad tests then RCU_E_NG else RCU_E_OK) s /\
    mc_nr_failed_test (st_mach s) = nr_bad tests /\ mc_nr_succ_test (st_mach s) = nr_ok tests /\
    st_out s = [Verdict (negb (0 <? nr_bad tests) && (0 <? Z.of_nat (length tests)))].
Proof.
  intros Hok Hcode Hn Hmax. rewrite test_main_start.
  enough (wp (test_main tests) (fun e s => e = (if 0 <? nr_bad tests then RCU_E_NG else RCU_E_OK) /\
    mc_nr_failed_test (st_mach s) = nr_bad tests /\ mc_nr_succ_test (st_mach s) = nr_ok tests /\
    st_out s = [Verdict (negb (0 <? nr_bad tests) && (0 <? Z.of_nat (length tests)))]) rcu_ready) as Hw.
  { apply wp_elim in Hw as (e & s & E & -> & ?). by exists s. }
  eapply (wp_suite_main (None, None) tests); [done..|apply suite_start|]. by intros s ok F P O _.
Qed.

(** When the setup of the default module does not return, whether an
    assertion of it fails or it dies of a signal, the program returns the
    success status, counts no failed test and prints that the run was
    successful, though no test of it has run. *)
Theorem failed_setup_reported_as_success setup tests :
  (forall i, malloc_ok i = true) -> code_ok ->
  Forall (fun t => (String.length t.2 < RCU_TEST_FUNCTION_NAME_LENGTH)%nat) tests ->
  Z.of_nat (length tests) <= INT_MAX ->
  ends (code setup) <> Finishes -> tests <> [] ->
  exists s,
    (let! m := rcu_get_default_mod in rcu_set_mod_fxt m (Some setup) None ;;; test_main tests) rcu_start = Ret RCU_E_OK s /\
    mc_nr_failed_test (st_mach s) = 0 /\ mc_nr_succ_test (st_mach s) = 0 /\ st_out s = [Verdict true].
Proof.
  intros Hok Hcode Hn Hmax Hset Hne.
  assert (fixtures_ok (Some setup, None) = false) as Hfx by (unfold fixtures_ok; cbn; by rewrite (bool_decide_eq_false_2 _ Hset)).
  rewrite (start_bind rcu_get_default_mod (fun m => rcu_set_mod_fxt m (Some setup) None ;;; test_main tests) (start_init _)).
  enough (wp (let! m := rcu_get_default_mod in rcu_set_mod_fxt m (Some setup) None ;;; test_main tests)
    (fun e s => e = RCU_E_OK /\ mc_nr_failed_test (st_mach s) = 0 /\ mc_nr_succ_test (st_mach s) = 0 /\
       st_out s = [Verdict true]) rcu_ready) as Hw.
  { apply wp_elim in Hw as (e & s & E & -> & ?). by exists s. }
  apply wp_bind, wp_bind, wp_rcu_init; [apply ready_unrun|]. apply wp_ret, wp_bind.
  apply (suite_fixtures [] [] start_lists (None, None) (Some setup, None)); [apply suite_start|]. intros s Hs.
  eapply (wp_suite_main (Some setup, None) tests); [done..|apply Hs|]. cbv zeta. rewrite Hfx. cbn.
  intros s' F P O _. destruct tests; [done|]. done.
Qed.

(** C33: The run of any database of registries, modules and tests, none of which
    has been run, ends.  It returns the error status exactly when a module whose
    setup and teardown return has a test that does not pass; the machine counts
    the failed and the passed tests of those modules; and the run hook, when
    there is one, is called at the start and at the end.  The conditions are those
    of the counters and names: at most INT_MAX registries, modules and tests, and
    functions that pass at most INT_MAX assertions under names that fit. *)
Theorem run_tests_verdict hs lr s :
  code_ok -> unrun hs s -> hs !! RegList = Some lr -> countable hs lr ->
  exists s',
    rcu_run_tests s = Ret (if existsb (mod_fails hs s) (all_mods hs lr) then RCU_E_NG else RCU_E_OK) s' /\
    mc_nr_failed_test (st_mach s') = sum_over (mod_nr_fail hs s) (all_mods hs lr) /\
    mc_nr_succ_test (st_mach s') = sum_over (mod_nr_pass hs s) (all_mods hs lr) /\
    st_out s' = (st_out s ++ hook_calls s true ++ hook_calls s false) ++
      [Verdict (negb (existsb (mod_fails hs s) (all_mods hs lr)) && (0 <? sum_over (mod_size hs) (all_mods hs lr)))].
Proof.
  intros Hcode Hun Hlr Hcnt.
  enough (wp rcu_run_tests (fun e s' => e = (if existsb (mod_fails hs s) (all_mods hs lr) then RCU_E_NG else RCU_E_OK) /\
    mc_nr_failed_test (st_mach s') = sum_over (mod_nr_fail hs s) (all_mods hs lr) /\
    mc_nr_succ_test (st_mach s') = sum_over (mod_nr_pass hs s) (all_mods hs lr) /\
    st_out s' = (st_out s ++ hook_calls s true ++ hook_calls s false) ++
      [Verdict (negb (existsb (mod_fails hs s) (all_mods hs lr)) && (0 <? sum_over (mod_size hs) (all_mods hs lr)))]) s) as Hw.
  { apply wp_elim in Hw as (e & s' & E & -> & ?). by exists s'. }
  by apply (wp_run_suite hs lr).
Qed.

(** An assertion that fails in the setup of a test is recorded as a failure
    of its teardown: [destroy_failed] is set and [init_failed] is not. *)
Theorem setup_failure_blamed_on_teardown hs f t filename func_name line msg s :
  calling hs RCU_RUN_CTX_FUNC_INIT s -> mc_curr_func (st_mach s) = Some f -> st_test s !! f = Some t ->
  is_Some (hs !! FuncFails f) ->
  exists e s' t', rcu_assert_impl false filename func_name line msg s = Ret (Some e) s' /\
    st_test s' !! f = Some t' /\ t_destroy_failed t' = true /\ t_init_failed t' = t_init_failed t.
Proof.
  intros Hc Hf Ht Hfs.
  assert (wp (perform [Assert false filename func_name line msg]) (fun e s' => e <> None /\ exists t',
    st_test s' !! f = Some t' /\ t_destroy_failed t' = true /\ t_init_failed t' = t_init_failed t) s) as Hw.
  { apply (wp_perform_fixture hs RCU_RUN_CTX_FUNC_INIT f t); try done; [by left|].
    intros e s' He _ _ _ Et. split; [by intros ->; destruct He as [He _]; specialize (He eq_refl)|].
    exists (set_t_destroy_failed true t). by rewrite Et, lookup_insert_eq. }
  apply wp_elim in Hw as (e & s' & E & He & t' & HT).
  cbn in E. unfold bind in E. destruct (rcu_assert_impl _ _ _ _ _ s) as [[e'|] s1|] eqn:E1; [|unfold ret in E; congruence|done].
  unfold ret in E. simplify_eq. by exists e', s', t'.
Qed.

(** [rcu_add_mod_to_reg] accepts the last module of a registry again, and
    then no traversal of the modules of that registry ends, whatever bound is
    put on its length. *)
Theorem readded_module_never_ends hs r l m x s :
  db s hs -> mc_init_done (st_mach s) = true -> hs !! ModList r = Some (l ++ [ModLink m]) -> st_reg s !! r = Some x ->
  r_nr_mod x < INT_MAX ->
  exists s', rcu_add_mod_to_reg (Some r) (Some m) s = Ret RCU_E_OK s' /\
    forall fuel, for_each (R := unit) st_node fuel (ModList r) (first l (ModLink m)) (fun c => ret (inr c)) s' = UB.
Proof.
  intros Hd Hi Hl Hx Hmax. pose proof (rings_ring _ _ (db_rings _ _ Hd) _ _ Hl) as Hring.
  apply ring_neighbours in Hring as HN. destruct HN as (P & N & _ & _ & N1 & N2).
  destruct (db_live _ _ Hd _ _ (ModLink m) Hl ltac:(set_solver)) as (_ & _ & [k Hk]).
  pose proof (rings_dom _ _ _ _ (ModFails m) (db_rings _ _ Hd) Hk ltac:(by left)) as Hmf.
  destruct Hring as [Hs [Hnd _]%NoDup_cons]. apply seg_app in Hs as [Hs [_ Hp]].
  enough (wp (rcu_add_mod_to_reg (Some r) (Some m)) (fun a s' => a = RCU_E_OK /\
    path (st_node s') (ModList r) l (ModLink m) /\ nx (st_node s') (ModLink m) = Some (ModLink m)) s) as Hw.
  { apply wp_elim in Hw as (a & s' & E & -> & Hseg & He). exists s'. split; [done|]. intros fuel.
    apply (traversal_stuck st_node _ _ _ _ (ModList r)); [done|set_solver|done|done]. }
  apply wp_bind, wp_rcu_init; [done|]. apply wp_bind, wp_zoom, wp_init_list; [by eapply nx_dom|]. intros ns1 [A1 B1 D1].
  apply wp_bind, wp_zoom, wp_insert_again; [cbn; by rewrite B1, decide_False|done|cbn; eapply dom_same; [done|]; by eapply nx_dom|].
  intros ns2 [A2 B2 D2]. apply wp_bind, (wp_bump_reg _ x); [done|done|].
  apply wp_bind, wp_zoom, wp_init_list; [cbn; eapply dom_same; [done|]; by eapply dom_same|].
  intros ns3 [A3 B3 D3]. wp_steps. cbn in *. split; [done|]. split; [|by rewrite A3, A2, decide_False, decide_True].
  eapply seg_path; [done|]. intros a Ha. assert (a <> ModLink m) by (intros ->; done).
  rewrite A3, A2, A1, !decide_False; try done. intros ->. apply elem_of_cons in Ha as [Ha|Ha]; [done|].
  eapply (db_typed _ _ Hd _ _ (ModFails m) Hl). set_solver.
Qed.

(** A test registered under a name of 255 characters or more has a name
    without its terminator, and any assertion in its body then reads past the
    field: the program is undefined. *)
Theorem long_test_name_undefined f entry init destroy name cond filename func_name line msg s :
  (RCU_TEST_FUNCTION_NAME_LENGTH <= String.length name)%nat ->
  mc_init_done (st_mach s) = true -> mc_run_ctx (st_mach s) = RCU_RUN_CTX_FUNC -> mc_curr_func (st_mach s) = Some f ->
  st_test s !! f = Some (new_test entry init destroy (Some name)) ->
  String.length (t_name (new_test entry init destroy (Some name))) = RCU_TEST_FUNCTION_NAME_LENGTH /\
  rcu_assert_impl cond filename func_name line msg s = UB.
Proof.
  intros Hn C2 C4 Hf Ht.
  assert (String.length (t_name (new_test entry init destroy (Some name))) = RCU_TEST_FUNCTION_NAME_LENGTH) as El.
  { cbn. unfold strncpy_name. by apply length_substring. }
  split; [done|]. unfold rcu_assert_impl, rcu_init, test_name, test_at, object, mach, gets, the, ret, bind, guard.
  rewrite C2, C4, Hf, Ht, El. by rewrite Nat.ltb_irrefl.
Qed.
End Verdict.

(** ** Witnesses *)

Module Toy.
Definition holds_true : action := Assert true "suite.c" "t" 7 "x == x".
Definition holds_false : action := Assert false "suite.c" "t" 9 "x != x".

(** Function 1 passes, function 2 fails its second assertion, function 3 fails
    its first, function 4 dies. *)
Definition env : RcEnv := {|
  code f := match f with
            | 1%positive => [holds_true]
            | 2%positive => [holds_true; holds_false]
            | 3%positive => [holds_false]
            | 4%positive => [Signal SIGSEGV]
            | _ => []
            end;
  malloc_ok _ := true;
  fmt_ptr _ := "0x1000"%string;
  report_opens := true;
  report_time := ("Mon Jan  1 00:00:00 2024" +:+ nl)%string |}.
End Toy.
#[local] Existing Instance Toy.env.

Lemma toy_code_ok : code_ok.
Proof.
  intros f. destruct (decide (f ∈ [1; 2; 3; 4]%positive)) as [Hf|Hf].
  - repeat (apply elem_of_cons in Hf as [->|Hf]); [..|by apply elem_of_nil in Hf];
      (split; [|by vm_compute]); repeat constructor; by apply Nat.ltb_lt.
  - assert (code f = []) as ->; [|by split; [constructor|vm_compute]]. cbn. destruct f as [[f|f|]|[f|[f|f|]|]|]; try done; destruct Hf; set_solver.
Qed.

Abbreviation toy_tests := [(1%positive, "passes"%string); (2%positive, "fails"%string)].

Lemma toy_names : Forall (fun t => (String.length t.2 < RCU_TEST_FUNCTION_NAME_LENGTH)%nat) toy_tests.
Proof. repeat constructor; by apply Nat.ltb_lt. Qed.

Lemma test_main_verdict_witness :
  exists s, test_main toy_tests rcu_start = Ret RCU_E_NG s /\
    mc_nr_failed_test (st_mach s) = 1 /\ mc_nr_succ_test (st_mach s) = 1 /\ st_out s = [Verdict false].
Proof. exact (test_main_verdict toy_tests (fun _ => eq_refl) toy_code_ok toy_names ltac:(by vm_compute)). Defined.

Lemma failed_setup_reported_as_success_witness :
  exists s,
    (let! m := rcu_get_default_mod in rcu_set_mod_fxt m (Some 3%positive) None ;;; test_main toy_tests) rcu_start
      = Ret RCU_E_OK s /\
    mc_nr_failed_test (st_mach s) = 0 /\ mc_nr_succ_test (st_mach s) = 0 /\ st_out s = [Verdict true].
Proof.
  apply (failed_setup_reported_as_success 3%positive toy_tests); [done|apply toy_code_ok|apply toy_names|by vm_compute|done|done].
Defined.

Lemma run_tests_verdict_witness :
  exists s', rcu_run_tests rcu_ready = Ret RCU_E_OK s' /\ st_out s' = [Verdict false].
Proof.
  destruct (run_tests_verdict start_lists [RegLink DEF_REG] rcu_ready toy_code_ok ready_unrun ltac:(reflexivity)
              ltac:(split; by vm_compute))
    as (s' & E & _ & _ & O). exists s'. split; [exact E|exact O].
Defined.

Lemma readded_module_never_ends_witness :
  exists s', rcu_add_mod_to_reg (Some DEF_REG) (Some DEF_MOD) rcu_ready = Ret RCU_E_OK s' /\
    forall fuel, for_each (R := unit) st_node fuel (ModList DEF_REG) (ModLink DEF_MOD) (fun c => ret (inr c)) s' = UB.
Proof.
  destruct (st_reg rcu_ready !! DEF_REG) as [x|] eqn:Ex; [|vm_compute in Ex; discriminate].
  assert (r_nr_mod x < INT_MAX) as Hmax by (vm_compute in Ex; injection Ex as <-; by vm_compute).
  exact (readded_module_never_ends start_lists DEF_REG [] DEF_MOD x rcu_ready (ur_db _ _ ready_unrun)
           (ur_init _ _ ready_unrun) ltac:(reflexivity) Ex Hmax).
Defined.

(** A registered test whose setup is running. *)
Lemma toy_setup_running : exists hs f t s,
  calling hs RCU_RUN_CTX_FUNC_INIT s /\ mc_curr_func (st_mach s) = Some f /\ st_test s !! f = Some t /\
  is_Some (hs !! FuncFails f).
Proof.
  assert (wp (add_test (1%positive, "passes"%string)) (fun _ s => exists hs f, suite (None, None) [(1%positive, "passes"%string)] [f] hs s)
    rcu_ready) as Hw.
  { apply (suite_add (None, None) [] [] start_lists); [done|by apply Nat.ltb_lt|by vm_compute|apply suite_start|]. intros e s i hs Hs. by exists hs, i. }
  apply wp_elim in Hw as (_ & s & _ & hs & f & [[D I _ _ _ _ _ _ _] _ _ S4 S5 _ _ _]).
  inversion S5 as [|t0 i0 ? ? Ht]; subst.
  destruct (db_live _ _ D _ _ (FuncLink f) S4 ltac:(by left)) as [_ Hfs].
  eexists hs, f, _, (set_st_frames 1 (set_st_mach (set_mc_curr_func (Some f) (set_mc_run_ctx RCU_RUN_CTX_FUNC_INIT (st_mach s))) s)).
  split; [|by split]. split; try done; [|cbn; lia]. apply holds_frames, holds_mach. exists hs. split; [done|apply agree_refl].
Qed.

Lemma setup_failure_blamed_on_teardown_witness :
  exists f t s e s' t', st_test s !! f = Some t /\
    rcu_assert_impl false "suite.c" "setup" 3 "x != x" s = Ret (Some e) s' /\
    st_test s' !! f = Some t' /\ t_destroy_failed t' = true /\ t_init_failed t' = t_init_failed t.
Proof.
  destruct toy_setup_running as (hs & f & t & s & Hc & Hf & Ht & Hfs).
  destruct (setup_failure_blamed_on_teardown hs f t "suite.c" "setup" 3 "x != x" s Hc Hf Ht Hfs) as (e & s' & t' & ?).
  by exists f, t, s, e, s', t'.
Defined.

(** The state in which the body of the only test, registered by [add_test] with
    a name of 255 characters, runs. *)
Definition long_name : string := Nat.iter 255 (String.append "t"%string) EmptyString.
Definition toy_long : rcu :=
  let s := run_end (add_test (1%positive, long_name) rcu_ready) rcu_ready in
  set_st_mach (set_mc_curr_func (Some 2%positive) (set_mc_run_ctx RCU_RUN_CTX_FUNC (st_mach s))) s.

Lemma long_test_name_undefined_witness : rcu_assert_impl true "suite.c" "t" 7 "x == x" toy_long = UB.
Proof.
  apply (long_test_name_undefined 2%positive 1%positive None None long_name true "suite.c" "t" 7 "x == x" toy_long).
  - apply Nat.leb_le. vm_compute. reflexivity.
  - vm_compute. reflexivity.
  - vm_compute. reflexivity.
  - vm_compute. reflexivity.
  - vm_compute. reflexivity.
Defined.
