(* ===== verification/RcSamples.v ===== *)
(** * RcSamples: the sample programs of the framework

    The macros of rcunit_assert.h and rcunit_api.h that a test program is written
    with, and the programs of rcunit/examples written with them, run by the model of
    the framework.  The sample with try blocks runs in the model of the exceptions,
    with the exception table of rcunit_exception.c.  What [printf] shows for a
    function pointer is fixed; the names made of it are not looked at. *)

From stdpp Require Import pretty.
From S2P Require Import Prelude RcList RcUnit RcDb RcRun RcSuite RcReport Excp.
Open Scope string_scope.
Open Scope list_scope.
Open Scope Z_scope.

(** ** Assertions (rcunit_assert.h) *)

(** [__FILE__], [__func__] and [__LINE__]. *)
Record place := At { at_file : string; at_func : string; at_line : Z }.

(** The condition is passed as an [int]. *)
Definition int_cond (cond : Z) : bool := negb (wrap 32 cond =? 0).
Definition of_bool (b : bool) : Z := if b then 1 else 0.
Definition check (p : place) (cond : Z) (msg : string) : action :=
  Assert (int_cond cond) (at_file p) (at_func p) (at_line p) msg.

(** [text] is the condition as written, [#cond]. *)
Definition RCU_ASSERT (p : place) (cond : Z) (text : string) : action := check p cond text.
Definition RCU_FAIL (p : place) (msg : string) : action :=
  check p 0 ("failed explicitly : " +:+ String (Ascii.ascii_of_nat 34) (msg +:+ String (Ascii.ascii_of_nat 34) "")).
Definition RCU_ASSERT_NULL (p : place) (is_null : bool) : action := check p (of_bool is_null) "expecting null pointer".
Definition RCU_ASSERT_NOT_NULL (p : place) (is_null : bool) : action :=
  check p (of_bool (negb is_null)) "expecting non-null pointer".
(** Both sides are converted to [long]. *)
Definition to_long (z : Z) : Z := wrap 64 (z + 2 ^ 63) - 2 ^ 63.
Definition RCU_ASSERT_EQUAL (p : place) (expected actual : Z) (texts : string * string) : action :=
  check p (of_bool (to_long expected =? to_long actual))
    (texts.2 +:+ " expected to be " +:+ texts.1 +:+ " but got " +:+ pretty (to_long actual)).
Definition RCU_ASSERT_NOT_EQUAL (p : place) (expected actual : Z) (texts : string * string) : action :=
  check p (of_bool (negb (to_long expected =? to_long actual)))
    (texts.2 +:+ " not expected to be " +:+ texts.1 +:+ " but got " +:+ pretty (to_long actual)).

(** [1 << pos], which an [int] holds for these positions only. *)
Definition bit (pos : Z) : option Z := if (0 <=? pos) && (pos <? 31) then Some (Z.shiftl 1 pos) else None.

(** The first argument of the two bit macros as it is written: an operand, or two of
    them joined with a bar. *)
Inductive argument := Operand (z : Z) | Bar (a b : Z).
Definition value (e : argument) : Z := match e with Operand z => z | Bar a b => Z.lor a b end.
(** [data & m] where [data] stands for the text of the argument. *)
Definition and_text (e : argument) (m : Z) : Z :=
  match e with Operand z => Z.land z m | Bar a b => Z.lor a (Z.land b m) end.

Definition to_int (z : Z) : Z := wrap 32 (z + 2 ^ 31) - 2 ^ 31.
Definition bit_msg (start : string) (pos data : Z) : string :=
  "bit " +:+ pretty pos +:+ start +:+ pretty (wrap 64 (to_int data)).
Definition RCU_ASSERT_BIT_SET (p : place) (data : argument) (pos : Z) : option action :=
  m ← bit pos; Some (check p (Z.land (to_int (value data)) m) (bit_msg " is not set in " pos (value data))).
Definition RCU_ASSERT_BIT_NOT_SET (p : place) (data : argument) (pos : Z) : option action :=
  m ← bit pos; Some (check p (of_bool (and_text data m =? 0)) (bit_msg " is set in " pos (value data))).

(** Whether the assertion holds. *)
Definition outcome_of (a : option action) : option bool :=
  match a with Some (Assert cond _ _ _ _) => Some cond | _ => None end.

(** ** Tables (rcunit_api.h)

    A table is what stands before the row of null pointers. *)
Definition RCU_INC_TEST (name : string) (test : fn) : rcu_test_function_entry := FuncEntry name (Some test) None None.
Definition RCU_INC_TEST_FXT (name : string) (test : fn) (setup teardown : option fn) : rcu_test_function_entry :=
  FuncEntry name (Some test) setup teardown.
Definition RCU_INC_MOD (name : string) (tbl : list rcu_test_function_entry) : rcu_module_entry :=
  ModEntry name None None (Some tbl).
Definition RCU_INC_MOD_FXT (name : string) (setup teardown : option fn) (tbl : list rcu_test_function_entry) : rcu_module_entry :=
  ModEntry name setup teardown (Some tbl).

(** ** The programs

    Function [k] of a program is the [k]-th of its list. *)
Definition app_env (codes : list (list action)) : RcEnv := {|
  code f := default [] (codes !! pred (Pos.to_nat f));
  malloc_ok _ := true;
  fmt_ptr _ := "0x401136";
  report_opens := true;
  report_time := "Mon Jan  1 00:00:00 2024" +:+ nl |}.
Definition EXIT_SUCCESS : Z := 0.
(** The number of the enumeration; the functions used here return the first two. *)
Definition status (e : rcu_error) : Z := match e with RCU_E_OK => 0 | _ => 1 end.

(** *** rcunit_sample_app_simple.c *)
Module Simple.
Definition simple_file : string := "rcunit_sample_app_simple.c".
Definition test_something : list action := [RCU_ASSERT (At simple_file "test_something" 5) 1 "1"].
#[export] Instance simple_env : RcEnv := app_env [test_something].
Definition simple_main : M rcu Z := rcu_add_test (Some 1%positive) ;;; rcu_run_tests ;;; ret EXIT_SUCCESS.
End Simple.

(** *** rcunit_sample_app_module.c *)
Module Module_.
Definition module_file : string := "rcunit_sample_app_module.c".
Definition math_calc_sum (x y : Z) : Z := x + y.
Definition test_math_calc_sum : list action :=
  [RCU_ASSERT_EQUAL (At module_file "test_calc_sum" 10) (-2) (math_calc_sum (-1) (-1)) ("-2", "calc_sum(-1, -1)")].
#[export] Instance module_env : RcEnv := app_env [test_math_calc_sum].
(** The module [math] is created; nothing is added to it. *)
Definition module_main : M rcu Z := rcu_get_mod (Some "math") ;;; rcu_run_tests ;;; ret EXIT_SUCCESS.
End Module_.

(** *** rcunit_sample_app_function_table.c *)
Module FunctionTable.
Definition function_table_file : string := "rcunit_sample_app_function_table.c".
Definition calc_sum (x y : Z) : Z := x + y.
Definition calc_diff (x y : Z) : Z := x - y.
Definition test_calc_sum : list action :=
  [RCU_ASSERT_EQUAL (At function_table_file "test_calc_sum" 13) 3 (calc_sum 1 2) ("3", "calc_sum(1, 2)")].
Definition test_calc_diff : list action :=
  [RCU_ASSERT_EQUAL (At function_table_file "test_calc_diff" 17) (-1) (calc_diff 1 2) ("-1", "calc_diff(1, 2)")].
#[export] Instance function_table_env : RcEnv := app_env [test_calc_sum; test_calc_diff].
Definition calc_tests_table : list rcu_test_function_entry :=
  [RCU_INC_TEST "test_calc_sum" 1; RCU_INC_TEST "test_calc_diff" 2].
Definition function_table_main : M rcu Z :=
  let! m := rcu_get_default_mod in
  rcu_add_test_func_tbl (Some m) (Some calc_tests_table) ;;;
  rcu_run_tests ;;; ret EXIT_SUCCESS.
End FunctionTable.

(** *** rcunit_sample_app_run_hook.c *)
Module RunHook_.
#[export] Instance run_hook_env : RcEnv := app_env [[]].
(** What the hook prints; the model of the runner emits its calls. *)
Definition run_hook (o : rcu_output) : option string :=
  match o with RunHook _ true => Some "Test started" | RunHook _ false => Some "Test finished" | _ => None end.
Definition run_hook_main : M rcu Z := rcu_init ;;; rcu_set_run_hook (Some 1%positive) ;;; rcu_run_tests ;;; ret EXIT_SUCCESS.
End RunHook_.

(** *** rcunit_sample_app_signal.c *)
Module Signal_.
Definition signal_file : string := "rcunit_sample_app_signal.c".
(** The second statement reads a field through the null pointer. *)
Definition my_test : list action := [RCU_ASSERT_NULL (At signal_file "my_test" 12) true; Signal SIGSEGV].
#[export] Instance signal_env : RcEnv := app_env [my_test].
Definition signal_main : M rcu Z := rcu_add_test (Some 1%positive) ;;; let! e := rcu_run_tests in ret (status e).
End Signal_.

(** *** rcunit_sample_app_demo.c *)
Module Demo.
Definition demo_file : string := "rcunit_sample_app_demo.c".
Definition successful_test : list action := [RCU_ASSERT (At demo_file "successful_test" 6) 1 "RCU_TRUE"].
Definition test_without_asserts : list action := [].
Definition failed_test : list action := [RCU_FAIL (At demo_file "failed_test" 13) "failed_test"].
Definition failed_setup : list action := [RCU_FAIL (At demo_file "failed_setup" 17) "failed_setup"].
Definition failed_teardown : list action := [RCU_FAIL (At demo_file "failed_teardown" 21) "failed_teardown"].
Definition module_setup : list action := [].
Definition module_teardown : list action := [].
Definition failed_module_setup : list action := [RCU_FAIL (At demo_file "failed_module_setup" 41) "failed_module_setup"].
Definition failed_module_teardown : list action :=
  [RCU_FAIL (At demo_file "failed_module_teardown" 45) "failed_module_teardown"].
#[export] Instance demo_env : RcEnv := app_env
  [successful_test; test_without_asserts; failed_test; failed_setup; failed_teardown; module_setup; module_teardown;
   failed_module_setup; failed_module_teardown].
Definition test_table_with_all_kinds_test_failures : list rcu_test_function_entry :=
  [RCU_INC_TEST "test_without_asserts" 2; RCU_INC_TEST "failed_test" 3;
   RCU_INC_TEST_FXT "successful_test" 1 (Some 4%positive) None;
   RCU_INC_TEST_FXT "successful_test" 1 None (Some 5%positive)].
Definition test_table_with_successful_tests : list rcu_test_function_entry := [RCU_INC_TEST "successful_test" 1].
Definition module_table : list rcu_module_entry :=
  [RCU_INC_MOD_FXT "m1" (Some 6%positive) (Some 7%positive) test_table_with_successful_tests].
(** The dump prints its lines to the same output as the run; they are not kept. *)
Definition dump : M rcu unit := let! _ := starting [] rcu_dump_test_dbase in ret tt.
Definition demo_main : M rcu Z :=
  rcu_get_reg (Some "empty-registry") ;;;
  let! m := rcu_get_default_mod in
  rcu_add_test_func_tbl (Some m) (Some test_table_with_all_kinds_test_failures) ;;;
  let! r := rcu_get_default_reg in
  rcu_add_test_mod_tbl (Some r) (Some module_table) ;;;
  dump ;;;
  rcu_run_tests ;;; ret EXIT_SUCCESS.
End Demo.

(** *** rcunit_sample_app_non_test_assertions.c *)
Module NonTest.
Definition non_test_file : string := "rcunit_sample_app_non_test_assertions.c".
Definition assert_x (line k : Z) : action :=
  RCU_ASSERT (At non_test_file "sample_test_codes_7_non_test_func" line) (of_bool (100 =? k)) ("x == " +:+ pretty k).
Definition sample_test_codes_7_non_test_func : list action :=
  [assert_x 5 100; assert_x 6 101; assert_x 7 102; assert_x 8 103; assert_x 9 104].
#[export] Instance non_test_env : RcEnv := app_env [[]].
(** What the hook prints for the record it gets: [fail_rec->info]. *)
Definition sample_test_codes_7_assert_hook (s : rcu) (o : rcu_output) : option string :=
  match o with AssertHook _ k => Some ("Assertion failure : " +:+ default "" (st_fail s !! k)) | _ => None end.
(** [rcu_init] returns [RCU_E_OK] always. *)
Definition before_destroy : M rcu rcu_error :=
  rcu_init ;;;
  let! e := rcu_set_assert_hook (Some 1%positive) in
  if bool_decide (e = RCU_E_NG) then rcu_destroy ;;; ret e else
  perform sample_test_codes_7_non_test_func ;;; ret e.
Definition sample_test_codes_7 : M rcu Z :=
  let! e := before_destroy in
  if bool_decide (e = RCU_E_NG) then ret (-1) else rcu_destroy ;;; ret 0.
Definition non_test_main : M rcu Z := sample_test_codes_7 ;;; ret 0.
End NonTest.

(** ** Exceptions *)

(** The exception objects (rcunit_exception.c). *)
Record rcu_exception := Exception { ex_id : rcu_exception_id; ex_name : string }.
Definition g_rcu_excp_tbl : list rcu_exception :=
  [Exception RCU_EXCP_ID_START "Reserved (RCU_EXCP_ID_START)";
   Exception RCU_EXCP_ABORTTESTRUN "test function aborted";
   Exception RCU_EXCP_ABORTMODRUN "test module aborted";
   Exception RCU_EXCP_NULLPOINTER "null pointer";
   Exception RCU_EXCP_INVPARAM "invalid parameter";
   Exception RCU_EXCP_SIGSEGV "segmentation violation";
   Exception RCU_EXCP_SIGILL "illegal instruction";
   Exception RCU_EXCP_SIGFPE "floating point";
   Exception RCU_EXCP_SIGBUS "bus error";
   Exception RCU_EXCP_ASSERTIONFAILURE "assertion failure";
   Exception RCU_EXCP_ID_END "Reserved (RCU_EXCP_ID_END)";
   Exception RCU_EXCP_ID_UNKNOWN "Unknown"].

(** The numbers of the enumeration. *)
Definition id_number (id : rcu_exception_id) : nat :=
  match id with
  | RCU_EXCP_ID_START => 0 | RCU_EXCP_ABORTTESTRUN => 1 | RCU_EXCP_ABORTMODRUN => 2 | RCU_EXCP_NULLPOINTER => 3
  | RCU_EXCP_INVPARAM => 4 | RCU_EXCP_SIGSEGV => 5 | RCU_EXCP_SIGILL => 6 | RCU_EXCP_SIGFPE => 7
  | RCU_EXCP_SIGBUS => 8 | RCU_EXCP_ASSERTIONFAILURE => 9 | RCU_EXCP_ID_END => 10 | RCU_EXCP_ID_UNKNOWN => 11
  end%nat.

(** The object of an id.  [rcu_lookup_excp_by_id] of RcUnit keeps its id only. *)
Definition lookup_excp (id : rcu_exception_id) : option rcu_exception :=
  if (id_number RCU_EXCP_ID_START <? id_number id)%nat && (id_number id <? id_number RCU_EXCP_ID_END)%nat
  then g_rcu_excp_tbl !! id_number id else g_rcu_excp_tbl !! id_number RCU_EXCP_ID_UNKNOWN.

Lemma lookup_excp_id id : exists e, lookup_excp id = Some e /\ ex_id e = rcu_lookup_excp_by_id id.
Proof. destruct id; by eexists. Qed.

(** Nothing sets [g_excp_initialized]. *)
Definition g_excp_initialized : bool := false.
Definition rcu_init_exception : M emach unit := if negb g_excp_initialized then modify (set_curr None) else ret tt.
Definition rcu_destroy_exception : M emach unit := ret tt.

(** *** rcunit_sample_app_exception.c

    Step [n] is the statement on line [n]: a line that is printed, or the
    assignment through the pointer. *)
Definition sample_test_codes_6_1 (is_null : bool) : stmt :=
  Seq (Step 9)
    (if is_null then Seq (Seq (Step 11) (Throw RCU_EXCP_NULLPOINTER)) (Step 18) else Step 18).
Definition sample_test_codes_6_2 (flag : Z) : stmt :=
  Seq (Step 31)
    (Seq (Try (sample_test_codes_6_1 (flag =? 0))
              (fun _ _ => Seq (Step 36) (Seq (Step 37) (Throw RCU_EXCP_INVPARAM))))
         (Step 40)).
(** [rcu_init] comes before the block; what it does to the frames is
    [rcu_init_exception], and [rcu_destroy] does nothing to them. *)
Definition sample_test_codes_6 (flag : Z) : M emach flow :=
  exec_stmt (Step 47) ;;;
  rcu_init_exception ;;;
  let! r := exec_stmt (Seq (Try (sample_test_codes_6_2 flag) (fun _ _ => Step 56)) (Step 61)) in
  rcu_destroy_exception ;;;
  ret r.
Definition exception_main : M emach Z := exec_stmt (Step 68) ;;; sample_test_codes_6 1 ;;; ret 0.

(** ** What they do *)

Lemma land_bit z pos : 0 <= pos -> Z.land z (Z.shiftl 1 pos) = if Z.testbit z pos then 2 ^ pos else 0.
Proof.
  intros Hp. rewrite Z.shiftl_1_l. apply Z.bits_inj'. intros n Hn. rewrite Z.land_spec, Z.pow2_bits_eqb by done.
  destruct (Z.eqb_spec pos n) as [->|Hne].
  - rewrite andb_true_r. destruct (Z.testbit z n) eqn:E; [by rewrite Z.pow2_bits_true|by rewrite Z.testbit_0_l].
  - rewrite andb_false_r. destruct (Z.testbit z pos); [by rewrite Z.pow2_bits_false|by rewrite Z.testbit_0_l].
Qed.

Lemma to_int_bit z pos : 0 <= pos < 31 -> Z.testbit (to_int z) pos = Z.testbit z pos.
Proof.
  intros Hp. rewrite <- (Z.mod_pow2_bits_low (to_int z) 31), <- (Z.mod_pow2_bits_low z 31) by lia.
  f_equal. replace (to_int z) with (z + (- 2 * ((z + 2 ^ 31) / 2 ^ 32)) * 2 ^ 31); [apply Z_mod_plus_full|].
  unfold to_int, wrap. pose proof (Z.div_mod (z + 2 ^ 31) (2 ^ 32)). lia.
Qed.

Lemma int_cond_bool (b : bool) pos : 0 <= pos < 31 -> int_cond (if b then 2 ^ pos else 0) = b.
Proof.
  intros Hp. unfold int_cond. destruct b; [|done].
  assert (0 < 2 ^ pos <= 2 ^ 30) by (split; [lia|apply Z.pow_le_mono_r; lia]).
  rewrite wrap_small by (unfold in_range; lia). destruct (Z.eqb_spec (2 ^ pos) 0); [lia|done].
Qed.

Lemma int_cond_of_bool b : int_cond (of_bool b) = b.
Proof. by destruct b. Qed.

Lemma bit_some pos : 0 <= pos < 31 -> bit pos = Some (Z.shiftl 1 pos).
Proof. intros Hp. unfold bit. by rewrite (proj2 (Z.leb_le _ _)), (proj2 (Z.ltb_lt _ _)) by lia. Qed.

Lemma bit_clear z pos : 0 <= pos -> (Z.land z (Z.shiftl 1 pos) =? 0) = negb (Z.testbit z pos).
Proof.
  intros Hp. rewrite land_bit by done. destruct (Z.testbit z pos); [|done].
  apply Z.eqb_neq. pose proof (Z.pow_pos_nonneg 2 pos). lia.
Qed.

(** The bit assertions.  For the positions an [int] has, [RCU_ASSERT_BIT_SET]
    holds exactly when the bit of the value is set, and so does
    [RCU_ASSERT_BIT_NOT_SET] when it is not, if its argument is a single operand.
    Its argument is not parenthesised: of an argument [a | b] it asserts that [a]
    is zero and the bit of [b] is not set. *)
Theorem bit_assertions p data pos z a b :
  0 <= pos < 31 ->
  outcome_of (RCU_ASSERT_BIT_SET p data pos) = Some (Z.testbit (value data) pos) /\
  outcome_of (RCU_ASSERT_BIT_NOT_SET p (Operand z) pos) = Some (negb (Z.testbit z pos)) /\
  outcome_of (RCU_ASSERT_BIT_NOT_SET p (Bar a b) pos) = Some ((a =? 0) && negb (Z.testbit b pos)).
Proof.
  intros Hp. unfold RCU_ASSERT_BIT_SET, RCU_ASSERT_BIT_NOT_SET. rewrite bit_some by done.
  cbn [mbind option_bind outcome_of check and_text]. rewrite !int_cond_of_bool, bit_clear, land_bit by lia.
  rewrite to_int_bit, int_cond_bool by done. split_and!; [done..|]. f_equal.
  rewrite <- bit_clear by lia. set (c := Z.land b _).
  destruct (Z.eqb_spec a 0) as [->|Ha]; [by rewrite Z.lor_0_l|]. apply Z.eqb_neq. by intros [? _]%Z.lor_eq_0_iff.
Qed.

Lemma bit_assertions_witness :
  outcome_of (RCU_ASSERT_BIT_NOT_SET (At "t.c" "t" 1) (Bar 1 0) 3) = Some false /\
  Z.testbit (value (Bar 1 0)) 3 = false.
Proof.
  split; [|reflexivity]. destruct (bit_assertions (At "t.c" "t" 1) (Bar 1 0) 3 0 1 0) as (_ & _ & ->); [lia|reflexivity].
Defined.

(** What a program shows: its exit status, the counts of tests that passed and
    failed, and its output. *)
Definition shows (r : outcome rcu Z) : option (Z * Z * Z * list rcu_output) :=
  match r with
  | Ret x s => Some (x, mc_nr_succ_test (st_mach s), mc_nr_failed_test (st_mach s), st_out s)
  | UB => None
  end.

(** The sample programs run.  The simple program and the function table pass;
    the program that reads through a null pointer is stopped by its signal, counts
    one failed test and exits with an error; the demonstration counts one passed
    and four failed tests and exits with success all the same; the module sample
    registers no test, so its run is not a success; the run hook is called twice;
    and of five assertions outside a test the four that fail reach the hook, with
    their texts. *)
Example samples_run :
  shows (Simple.simple_main rcu_start) = Some (0, 1, 0, [Verdict true]) /\
  shows (FunctionTable.function_table_main rcu_start) = Some (0, 2, 0, [Verdict true]) /\
  shows (Signal_.signal_main rcu_start) = Some (1, 0, 1, [Verdict false]) /\
  shows (Demo.demo_main rcu_start) = Some (0, 1, 4, [Verdict false]) /\
  shows (Module_.module_main rcu_start) = Some (0, 0, 0, [Verdict false]) /\
  omap RunHook_.run_hook (st_out (run_end (RunHook_.run_hook_main rcu_start) rcu_start)) = ["Test started"; "Test finished"] /\
  (exists s, NonTest.before_destroy rcu_start = Ret RCU_E_OK s /\
     omap (NonTest.sample_test_codes_7_assert_hook s) (st_out s) =
       (fun x => "Assertion failure : rcunit_sample_app_non_test_assertions.c(" +:+ x) <$>
       ["6) : x == 101"; "7) : x == 102"; "8) : x == 103"; "9) : x == 104"]) /\
  (exists s, NonTest.non_test_main rcu_start = Ret 0 s /\ st_fail s = ∅).
Proof. split_and!; try (vm_compute; reflexivity); eexists; (split; [vm_compute; reflexivity|vm_compute; reflexivity]). Qed.

(** The exception sample.  From a state where no fault is blocked, the program
    of the sample ends normally: with a flag other than zero the pointer is valid
    and nothing is thrown; with the flag zero the null pointer exception is caught in
    [sample_test_codes_6_2], whose handler throws the one that the caller catches.
    The signal actions are those of the start, and no frame is current. *)
Theorem sample_exceptions flag s :
  em_ok s ->
  exists s', sample_test_codes_6 flag s = Ret Next s' /\
    em_out s' = em_out s ++ (if flag =? 0 then [47; 31; 9; 11; 36; 37; 56; 61] else [47; 31; 9; 18; 40; 61]) /\
    em_actions s' = em_actions s /\ em_mask s' = em_mask s /\ g_curr_excp_frame s' = None.
Proof.
  intros [Hf Ht Ho]. set (p := Seq (Try (sample_test_codes_6_2 flag) (fun _ _ => Step 56)) (Step 61)).
  enough (wp (sample_test_codes_6 flag) (fun r s' => r = Next /\
    em_out s' = em_out s ++ (if flag =? 0 then [47; 31; 9; 11; 36; 37; 56; 61] else [47; 31; 9; 18; 40; 61]) /\
    em_actions s' = em_actions s /\ em_mask s' = em_mask s /\ g_curr_excp_frame s' = None) s) as Hw.
  { apply wp_elim in Hw as (r & s' & E & -> & ?). by exists s'. }
  apply wp_bind, wp_bind, wp_modify. wp_step. apply wp_bind, wp_modify, wp_bind. fold p.
  eapply wp_conseq; [apply (wp_exec_stmt p)|].
  - constructor; cbn; [done|done|done].
  - left. subst p. cbn. by destruct (flag =? 0).
  - intros r s' He. unfold ends in He.
    assert (meaning p = ((if flag =? 0 then [31; 9; 11; 36; 37; 56; 61] else [31; 9; 18; 40; 61]), Normal)) as Em
      by (subst p; cbn; by destruct (flag =? 0)).
    rewrite Em in He. destruct He as [-> [Hc _ Ha Hm _ Hout]]. apply wp_bind, wp_ret, wp_ret. split_and!; try done.
    rewrite Hout. cbn. rewrite <- app_assoc. by destruct (flag =? 0).
Qed.

Lemma sample_exceptions_witness :
  exists s', sample_test_codes_6 0 toy_start = Ret Next s' /\ em_out s' = [47; 31; 9; 11; 36; 37; 56; 61].
Proof.
  destruct (sample_exceptions 0 toy_start) as (s' & E & Eo & _).
  - constructor; [by intros i []|done|]. intros []; vm_compute; discriminate.
  - exists s'. split; [exact E|exact Eo].
Defined.
