(* ===== verification/RcRest.v ===== *)
(** * RcRest: functions of the framework that a run does not depend on

    [rcu_prepare_report] (rcunit_report.c), the restart of the assertion engine
    (rcunit_assert.c), and the functions of rcunit_machine.c, rcunit.c and the report
    formats that only return.  Nothing calls the first two; the theorems say what
    they would do. *)

From S2P Require Import Prelude RcList RcUnit RcDb RcRun RcSuite RcVerdict RcReport.
Open Scope string_scope.
Open Scope list_scope.
Open Scope Z_scope.

Section Rest.
Context `{RcEnv}.

(** ** Machine and assertion engine *)

Definition rcu_is_mach_initialized (machine : option rcu_test_machine) : bool :=
  match machine with Some mc => mc_init_done mc | None => false end.

(** [memset] of the assertion engine: the links of its list are [NULL] after it. *)
Definition clear_engine (mc : rcu_test_machine) : rcu_test_machine :=
  set_mc_assert_hook None (set_mc_curr_func None (set_mc_curr_mod None (set_mc_curr_reg None mc))).
Definition rcu_restart_assert_engine : M rcu rcu_error :=
  upd_mach clear_engine ;;;
  modify (fun s => set_st_node (clear_nodes [AssertList] (st_node s)) s) ;;;
  ret RCU_E_OK.
Definition rcu_stop_assert_engine : M rcu rcu_error := ret RCU_E_OK.
Definition rcu_restart_mach : M rcu rcu_error := ret RCU_E_OK.
Definition rcu_stop_mach : M rcu rcu_error := rcu_stop_assert_engine ;;; ret RCU_E_OK.
Definition rcu_exit_hook : M rcu rcu_error := rcu_destroy ;;; ret RCU_E_OK.

(** ** The report formats *)

Definition rcu_gen_html_report : M rcu rcu_error := ret RCU_E_OK.
Definition rcu_gen_json_report : M rcu rcu_error := ret RCU_E_OK.
Definition rcu_gen_xml_report : M rcu rcu_error := ret RCU_E_OK.

(** ** rcu_prepare_report *)

(** The counts of tests of a registry, which only this function uses, and the
    warnings it prints. *)
Record prep := Prep { pr_tests : gmap ident (Z * Z); pr_warnings : list string }.
Definition tests_of_reg (p : prep) (r : ident) : Z * Z := default (0, 0) (pr_tests p !! r).
Definition on_prep (g : prep -> prep) : M (rcu * prep) unit := modify (fun x => (x.1, g x.2)).
Definition warn (x : string) : M (rcu * prep) unit := on_prep (fun p => Prep (pr_tests p) (pr_warnings p ++ [x])).

Definition RCU_IS_TEST_SUCCEDED (stat : run_stat) : bool := bool_decide (stat = RCU_RUN_STAT_TEST_SUCC).
Definition RCU_IS_TEST_FAILED (stat : run_stat) : bool := bool_decide (stat = RCU_RUN_STAT_TEST_FAILED).

Definition prepare_test (m : ident) (c : loc) : M (rcu * prep) unit :=
  let! f := reading (as_func c) in
  let! t := reading (test_at f) in
  if RCU_IS_TEST_SUCCEDED (t_run_stat t) then reading (bump_mod m m_nr_succ_test set_m_nr_succ_test)
  else if RCU_IS_TEST_FAILED (t_run_stat t) then reading (bump_mod m m_nr_failed_test set_m_nr_failed_test)
  else warn ("Test with unknown test result : " +:+ t_name t).

Definition prepare_mod (r : ident) (c : loc) : M (rcu * prep) unit :=
  let! m := reading (as_mod c) in
  each_in (FuncList m) (prepare_test m) ;;;
  let! x := reading (mod_at m) in
  (if RCU_IS_TEST_SUCCEDED (m_run_stat x)
   then reading (bump_reg r r_nr_succ_mod set_r_nr_succ_mod) else ret tt) ;;;
  (if RCU_IS_TEST_FAILED (m_run_stat x)
   then reading (bump_reg r r_nr_failed_mod set_r_nr_failed_mod)
   else warn ("Module with unknown test result : " +:+ m_name x)) ;;;
  let! p := gets snd in
  let! succ := int_add (tests_of_reg p r).1 (m_nr_succ_test x) in
  let! failed := int_add (tests_of_reg p r).2 (m_nr_failed_test x) in
  on_prep (fun p => Prep (<[r := (succ, failed)]> (pr_tests p)) (pr_warnings p)).

Definition prepare_reg (c : loc) : M (rcu * prep) unit :=
  let! r := reading (as_reg c) in
  each_in (ModList r) (prepare_mod r) ;;;
  let! y := reading (reg_at r) in
  (if 0 <? r_nr_succ_mod y then reading (bump_mach mc_nr_succ_reg set_mc_nr_succ_reg 1)
   else if 0 <? r_nr_failed_mod y then reading (bump_mach mc_nr_failed_reg set_mc_nr_failed_reg 1)
   else warn ("Registry with unknown test result : " +:+ r_name y)) ;;;
  let! p := gets snd in
  reading (bump_mach mc_nr_succ_test set_mc_nr_succ_test (tests_of_reg p r).1) ;;;
  reading (bump_mach mc_nr_failed_test set_mc_nr_failed_test (tests_of_reg p r).2).

Definition rcu_prepare_report : M (rcu * prep) unit := each_in RegList prepare_reg.

(** ** A restarted engine *)

Lemma insert_unlinked (ns : nodes loc) l e : l <> e -> pv ns l = None -> rcu_insert_list (Some l) (Some e) ns = UB.
Proof.
  intros Hne Hl. unfold pv in Hl. unfold rcu_insert_list, set_prev, set_next, bind, load, modify, deref.
  destruct (ns !! l) as [[nl pl]|] eqn:El; [|done]. cbn in Hl. subst pl. cbn [prev].
  destruct (ns !! e) as [n|] eqn:He; [|done]. rewrite lookup_insert_eq.
  rewrite !lookup_insert_ne by done. by rewrite El.
Qed.

Lemma wp_cre_fail_rec_unlinked info filename line s :
  (forall i, malloc_ok i = true) -> pv (st_node s) AssertList = None ->
  wp (rcu_cre_fail_rec info filename line) (fun p s' => is_Some p /\ pv (st_node s') AssertList = None) s.
Proof.
  intros Hm Hl. unfold rcu_cre_fail_rec, rcu_malloc. apply wp_bind, wp_bind, wp_gets, wp_bind, wp_modify, wp_ret.
  rewrite Hm. apply wp_bind, wp_modify, wp_bind, wp_bind, wp_gets, wp_bind, wp_modify, wp_ret. rewrite Hm.
  apply wp_bind, wp_zoom. cbn. apply wp_init_list; [rewrite lookup_insert_eq; by eexists|]. intros ns [_ Hp _].
  split; [by eexists|]. rewrite Hp, decide_False by done.
  unfold pv. by rewrite lookup_insert_ne.
Qed.

(** After [rcu_restart_assert_engine], an assertion that fails outside a test run
    inserts its record into a list without links, which is undefined. *)
Theorem restart_breaks_assertions s filename func_name line msg :
  mc_init_done (st_mach s) = true -> mc_run_ctx (st_mach s) = RCU_RUN_CTX_UNKNOWN -> (forall i, malloc_ok i = true) ->
  (rcu_restart_assert_engine ;;; rcu_assert_impl false filename func_name line msg) s = UB.
Proof.
  intros Hi Hc Hm.
  apply (bind_ub _ _ (fun _ s' => mc_init_done (st_mach s') = true /\ mc_run_ctx (st_mach s') = RCU_RUN_CTX_UNKNOWN /\
    pv (st_node s') AssertList = None)).
  { apply wp_bind, wp_modify, wp_bind, wp_modify. wp_step. cbn. split; [done|]. split; [done|].
    unfold pv. by rewrite lookup_insert_eq. }
  intros _ s1 (Hi1 & Hc1 & Hl). unfold rcu_assert_impl.
  rewrite (bind_run rcu_init _ s1 tt s1) by (unfold rcu_init, mach, bind, gets; by rewrite Hi1).
  rewrite (bind_run mach _ s1 _ s1 eq_refl), Hc1, bind_assoc. unfold rcu_add_fail_rec_impl. rewrite bind_assoc.
  eapply bind_ub; [by apply wp_cre_fail_rec_unlinked|]. intros p s2 [[k ->] Hl2]. rewrite bind_assoc.
  unfold bind at 1, nodes_do, zoom. by rewrite insert_unlinked.
Qed.
End Rest.

(** ** A registry that passed in part *)

#[local] Existing Instance RcVerdict.Toy.env.

(** One module passes, another fails; the run counts the registry as failed. *)
Definition toy_mixed : M rcu rcu_error :=
  rcu_add_test (Some 1%positive) ;;;
  let! m := rcu_get_mod (Some "math") in
  rcu_add_test_to_mod m (Some 3%positive) ;;;
  rcu_run_tests_impl.

(** [rcu_prepare_report] after that run counts the registry as passed as well, counts
    the tests of the modules again and adds the doubled numbers to those of the machine,
    and warns of the module that passed. *)
Example prepare_counts_again :
  let s := run_end (toy_mixed rcu_start) rcu_start in
  let counts mc := (mc_nr_succ_reg mc, mc_nr_failed_reg mc, mc_nr_succ_test mc, mc_nr_failed_test mc) in
  counts (st_mach s) = (0, 1, 1, 1) /\
  exists s' p, rcu_prepare_report (s, Prep ∅ []) = Ret tt (s', p) /\ counts (st_mach s') = (1, 1, 3, 3) /\
    pr_warnings p = ["Module with unknown test result : default-mod"].
Proof. split; [vm_compute; reflexivity|]. eexists _, _. split; [vm_compute; reflexivity|split; vm_compute; reflexivity]. Qed.
