(* ===== verification/Mtrace.v ===== *)
(** * Mtrace: the memory tracer of rcunit

    [rcunit_mtrace.c]: a pointer cache records allocations in tables of 32 slots
    that are chained in a list, and what is still recorded when it is asked is a
    leak.  The tables are allocated with [rcu_native_malloc]; their addresses are
    the numbers of the allocations.  Above it is the allocator of [rcunit_mem.c]:
    [rcu_malloc] initialises the framework and with it the tracer, and [rcu_free]
    hands the block back to [free], which is undefined for a block that [malloc]
    has not given out or has taken back already.  The main theorem is that a cache is a finite
    map from pointers to sizes, whatever the tables look like inside. *)

From S2P Require Import Prelude RcList.

Definition rcu_pointer_table_SIZE : nat := 32.
Arguments rcu_pointer_table_SIZE : simpl never.

(** [g_ptr_cache_1] and [g_ptr_cache_2]. *)
Inductive cache := Rcunit | User.
#[export] Instance cache_eq_dec : EqDecision cache.
Proof. solve_decision. Defined.

(** The list nodes: the heads in the caches and the links of the tables. *)
Inductive loc := TblList (c : cache) | TblLink (i : positive).
#[export] Instance loc_eq_dec : EqDecision loc.
Proof. solve_decision. Defined.
#[export] Instance loc_countable : Countable loc.
Proof.
  apply (inj_countable'
    (fun x => match x with TblList Rcunit => inl false | TblList User => inl true | TblLink i => inr i end)
    (fun x => match x with inl false => TblList Rcunit | inl true => TblList User | inr i => TblLink i end)).
  by intros [[]|].
Defined.

(** A pointer is its address, 0 is [NULL].  The file, function and line of a slot
    are never set. *)
Record rcu_pointer_info := PtrInfo { pi_ptr : Z; pi_size : Z; pi_used : bool }.

Record rcu_pointer_cache := PtrCache {
  nr_alloc : Z; nr_free : Z; nr_ptr_tbl : Z; nr_free_counter : Z;
  max_alloc_size : Z; max_total_alloc_size : Z; pc_name : option string
}.

Record mtrace := Mtrace {
  mt_node : gmap loc (rcu_list loc);
  mt_tbl : gmap positive (list rcu_pointer_info);
  mt_cache_1 : rcu_pointer_cache;
  mt_cache_2 : rcu_pointer_cache;
  gs_mtrace_init_done : bool;
  mt_fresh : positive
}.

Definition set_node x (s : mtrace) : mtrace :=
  Mtrace x (mt_tbl s) (mt_cache_1 s) (mt_cache_2 s) (gs_mtrace_init_done s) (mt_fresh s).
Definition set_tbl x (s : mtrace) : mtrace :=
  Mtrace (mt_node s) x (mt_cache_1 s) (mt_cache_2 s) (gs_mtrace_init_done s) (mt_fresh s).
Definition set_init_done x (s : mtrace) : mtrace :=
  Mtrace (mt_node s) (mt_tbl s) (mt_cache_1 s) (mt_cache_2 s) x (mt_fresh s).
Definition set_fresh x (s : mtrace) : mtrace :=
  Mtrace (mt_node s) (mt_tbl s) (mt_cache_1 s) (mt_cache_2 s) (gs_mtrace_init_done s) x.

Definition cache_at (c : cache) (s : mtrace) : rcu_pointer_cache :=
  match c with Rcunit => mt_cache_1 s | User => mt_cache_2 s end.
Definition set_cache (c : cache) (x : rcu_pointer_cache) (s : mtrace) : mtrace :=
  match c with
  | Rcunit => Mtrace (mt_node s) (mt_tbl s) x (mt_cache_2 s) (gs_mtrace_init_done s) (mt_fresh s)
  | User => Mtrace (mt_node s) (mt_tbl s) (mt_cache_1 s) x (gs_mtrace_init_done s) (mt_fresh s)
  end.

Definition on_cache (c : cache) (f : rcu_pointer_cache -> rcu_pointer_cache) : M mtrace unit :=
  modify (fun s => set_cache c (f (cache_at c s)) s).
Definition nodes_do {A} (m : M (gmap loc (rcu_list loc)) A) : M mtrace A := zoom mt_node set_node m.

(** The static storage of the tracer before anything runs. *)
Definition zero_cache : rcu_pointer_cache := PtrCache 0 0 0 0 0 0 None.
Definition mt_zero : mtrace :=
  Mtrace {[TblList Rcunit := Node None None; TblList User := Node None None]} ∅ zero_cache zero_cache false 1.

Section Code.
(** Whether the [i]-th [rcu_native_malloc] succeeds. *)
Context (malloc_ok : positive -> bool).

(** A new table, cleared by [memset]. *)
Definition empty_info : rcu_pointer_info := PtrInfo 0 0 false.
Definition malloc_tbl : M mtrace (option positive) :=
  let! i := gets mt_fresh in
  modify (set_fresh (Pos.succ i)) ;;;
  if malloc_ok i then
    modify (fun s => set_tbl (<[i := replicate rcu_pointer_table_SIZE empty_info]> (mt_tbl s)) s) ;;;
    modify (fun s => set_node (<[TblLink i := Node None None]> (mt_node s)) s) ;;;
    ret (Some i)
  else ret None.

(** [true] for [RCU_E_OK]. *)
Definition rcu_cre_ptr_tbl (c : cache) : M mtrace bool :=
  let! ptr_tbl := malloc_tbl in
  match ptr_tbl with
  | None => ret false
  | Some i =>
      nodes_do (rcu_init_list (Some (TblLink i))) ;;;
      nodes_do (rcu_insert_list (Some (TblList c)) (Some (TblLink i))) ;;;
      on_cache c (fun p => PtrCache (nr_alloc p) (nr_free p) (u64 (nr_ptr_tbl p + 1)) (nr_free_counter p)
                             (max_alloc_size p) (max_total_alloc_size p) (pc_name p)) ;;;
      ret true
  end.

(** The cast of a cursor to the table whose first field it is. *)
Definition as_tbl (cursor : loc) : M mtrace (positive * list rcu_pointer_info) :=
  match cursor with
  | TblLink i => fun s => match mt_tbl s !! i with Some t => Ret (i, t) s | None => UB end
  | TblList _ => undefined
  end.

(** A slot: its table and its index.  The first one that satisfies [f]. *)
Definition find_slot (f : rcu_pointer_info -> bool) (c : cache) : M mtrace (option (positive * nat)) :=
  RCU_FOR_EACH_ENTRY mt_node (TblList c) (fun cursor =>
    let! (i, tbl) := as_tbl cursor in
    ret (match first_index f tbl with Some a => inl (i, a) | None => inr cursor end)).

Definition rcu_find_free_slot (c : cache) : M mtrace (option (positive * nat)) :=
  find_slot (fun p => negb (pi_used p)) c.

Definition rcu_srch_ptr_info (ptr : Z) (c : cache) : M mtrace (option (positive * nat)) :=
  find_slot (fun p => pi_ptr p =? ptr) c.

Definition set_slot (x : positive * nat) (p : rcu_pointer_info) : M mtrace unit :=
  let! (_, tbl) := as_tbl (TblLink x.1) in
  modify (fun s => set_tbl (<[x.1 := <[x.2 := p]> tbl]> (mt_tbl s)) s).

Definition rcu_cache_ptr (ptr size : Z) (c : cache) : M mtrace bool :=
  if ptr =? 0 then ret false else
  let! r := rcu_srch_ptr_info ptr c in
  match r with
  | Some _ => ret false
  | None =>
      let! r := rcu_find_free_slot c in
      let! r := match r with
                | Some x => ret (Some x)
                | None => rcu_cre_ptr_tbl c ;;; rcu_find_free_slot c
                end in
      match r with
      | None => ret false
      | Some x => set_slot x (PtrInfo ptr size true) ;;; ret true
      end
  end.

(** [RCU_ENABLE_POINTER_TABLE_COMPACTION] is 0: compaction (file Compact) is not called. *)
Definition rcu_uncache_ptr (ptr : Z) (c : cache) : M mtrace bool :=
  if ptr =? 0 then ret false else
  let! r := rcu_srch_ptr_info ptr c in
  match r with
  | None => ret false
  | Some x =>
      set_slot x empty_info ;;;
      on_cache c (fun p =>
        let n := u64 (nr_free_counter p + 1) in
        PtrCache (nr_alloc p) (nr_free p) (nr_ptr_tbl p)
          (if n =? Z.of_nat rcu_pointer_table_SIZE then 0 else n)
          (max_alloc_size p) (max_total_alloc_size p) (pc_name p)) ;;;
      ret true
  end.

(** ** Initialisation *)

Definition rcu_init_ptr_cache (c : cache) (name : string) : M mtrace bool :=
  on_cache c (fun _ => zero_cache) ;;;
  modify (fun s => set_node (<[TblList c := Node None None]> (mt_node s)) s) ;;;
  nodes_do (rcu_init_list (Some (TblList c))) ;;;
  let! ok := rcu_cre_ptr_tbl c in
  if negb ok then ret false else
  on_cache c (fun p => PtrCache (nr_alloc p) (nr_free p) (nr_ptr_tbl p) 0
                         (max_alloc_size p) (max_total_alloc_size p) (Some name)) ;;;
  ret true.

Definition rcu_init_mtrace : M mtrace bool :=
  let! done := gets gs_mtrace_init_done in
  if done : bool then ret true else
  rcu_init_ptr_cache Rcunit "rcunit"%string ;;;
  rcu_init_ptr_cache User "user"%string ;;;
  modify (set_init_done true) ;;;
  ret true.

Definition rcu_ensure_mtrace_init : M mtrace unit :=
  let! done := gets gs_mtrace_init_done in
  if negb done then rcu_init_mtrace ;;; ret tt else ret tt.

(** [rcu_native_free] of a table; freeing what is not allocated is undefined. *)
Definition free_tbl (cursor : loc) : M mtrace unit :=
  let! (i, _) := as_tbl cursor in
  modify (fun s => set_node (delete cursor (mt_node s)) (set_tbl (delete i (mt_tbl s)) s)).

(** Between [RCU_SAVE_CURSOR] and [RCU_RESTORE_CURSOR]: the table at the cursor is
    taken out and freed, and the cursor is the entry before it. *)
Definition unlink_tbl (cursor : loc) : M mtrace loc :=
  let! n := nodes_do (load cursor) in
  let! saved := nodes_do (deref (prev n)) in
  nodes_do (rcu_remove_list (Some cursor)) ;;;
  free_tbl cursor ;;;
  ret saved.

Definition rcu_destroy_ptr_cache (c : cache) : M mtrace bool :=
  let! _ := RCU_FOR_EACH_ENTRY (R := unit) mt_node (TblList c) (fun cursor =>
    let! saved := unlink_tbl cursor in ret (inr saved)) in
  ret true.

Definition rcu_destroy_mtrace : M mtrace bool :=
  let! done := gets gs_mtrace_init_done in
  if negb done then ret false else
  rcu_destroy_ptr_cache Rcunit ;;;
  rcu_destroy_ptr_cache User ;;;
  modify (set_init_done false) ;;;
  ret true.

(** ** The interface *)

Definition rcu_trace_alloc_impl (ptr size : Z) (c : cache) : M mtrace bool :=
  rcu_ensure_mtrace_init ;;;
  on_cache c (fun p => PtrCache (u64 (nr_alloc p + 1)) (nr_free p) (nr_ptr_tbl p) (nr_free_counter p)
                         (max_alloc_size p) (max_total_alloc_size p) (pc_name p)) ;;;
  let! _ := rcu_cache_ptr ptr size c in
  on_cache c (fun p => PtrCache (nr_alloc p) (nr_free p) (nr_ptr_tbl p) (nr_free_counter p)
                         (if max_alloc_size p <? size then size else max_alloc_size p)
                         (u64 (max_total_alloc_size p + size)) (pc_name p)) ;;;
  ret true.

Definition rcu_trace_free_impl (ptr : Z) (c : cache) : M mtrace bool :=
  rcu_ensure_mtrace_init ;;;
  on_cache c (fun p => PtrCache (nr_alloc p) (u64 (nr_free p + 1)) (nr_ptr_tbl p) (nr_free_counter p)
                         (max_alloc_size p) (max_total_alloc_size p) (pc_name p)) ;;;
  let! _ := rcu_uncache_ptr ptr c in
  ret true.

(** The loop over the slots of the tables, which counts the leaks in an [int] and
    their size in a [size_t].  The counters are locals of the caller. *)
Definition count_slot (p : rcu_pointer_info) : M (mtrace * (Z * Z)) unit :=
  if pi_used p then
    let! acc := gets snd in
    guard (acc.1 <? INT_MAX) ;;;
    modify (fun x => (x.1, (acc.1 + 1, u64 (acc.2 + pi_size p))))
  else ret tt.

Definition count_leaks (c : cache) : M (mtrace * (Z * Z)) unit :=
  let! _ := RCU_FOR_EACH_ENTRY (R := unit) (fun x => mt_node x.1) (TblList c) (fun cursor =>
    let! (_, tbl) := zoom fst (fun y x => (y, x.2)) (as_tbl cursor) in
    foldM (fun _ => count_slot) tbl tt ;;;
    ret (inr cursor)) in
  ret tt.

(** Run [m] with counters that start at [acc], and return them. *)
Definition with_counters (acc : Z * Z) (m : M (mtrace * (Z * Z)) unit) : M mtrace (Z * Z) :=
  fun s => match m (s, acc) with Ret _ (s', acc') => Ret acc' s' | UB => UB end.

(** Adds to [nr_leaks] and [leak_size], which the caller has set. *)
Definition rcu_get_mtrace_results (c : cache) (acc : Z * Z) : M mtrace (Z * Z) :=
  rcu_ensure_mtrace_init ;;; with_counters acc (count_leaks c).

(** The numbers of the report. *)
Record leak_report := Report {
  rp_alloc : Z; rp_free : Z; rp_leaks : Z; rp_leak_size : Z; rp_max_alloc : Z; rp_total_alloc : Z
}.

Definition rcu_has_mem_leak : M mtrace bool :=
  let! r := rcu_get_mtrace_results Rcunit (0, 0) in
  ret (0 <? r.1).

(** ** The allocator of the framework *)

(** [RCU_ALIGN_N], in [size_t]. *)
Definition RCU_SIZEOF_MEMCELL : Z := 4.
Definition RCU_ALIGN_N (n val : Z) : Z := Z.land (u64 (val + n - 1)) (2 ^ 64 - 1 - (n - 1)).

(** The tracer, [init_done] of the machine, and the blocks that [malloc] has given
    to [rcu_malloc]. *)
Record memory := Memory { mm_tracer : mtrace; mm_mach : bool; mm_heap : gset Z }.
Definition traced {A} (m : M mtrace A) : M memory A :=
  zoom mm_tracer (fun t s => Memory t (mm_mach s) (mm_heap s)) m.

(** The memory of the process when it starts. *)
Definition mem_zero : memory := Memory mt_zero false ∅.

(** What [rcu_init] does to the tracer: [rcu_init_test_mach] of a machine that is
    not initialised yet initialises it.  The database is that of [RcUnit]. *)
Definition rcu_init : M memory unit :=
  let! done := gets mm_mach in
  if done : bool then ret tt else
  modify (fun s => Memory (mm_tracer s) true (mm_heap s)) ;;;
  traced rcu_init_mtrace ;;;
  ret tt.

(** [malloc] answered [addr]. *)
Definition rcu_native_malloc (addr : Z) : M memory unit :=
  if addr =? 0 then ret tt else
  modify (fun s => Memory (mm_tracer s) (mm_mach s) ({[addr]} ∪ mm_heap s)).

Definition rcu_native_free (addr : Z) : M memory unit :=
  if addr =? 0 then ret tt else
  let! heap := gets mm_heap in
  guard (bool_decide (addr ∈ heap)) ;;;
  modify (fun s => Memory (mm_tracer s) (mm_mach s) (heap ∖ {[addr]})).

(** [native size] is the address [malloc] returns for [size] bytes. *)
Definition rcu_malloc (native : Z -> Z) (size : Z) : M memory Z :=
  rcu_init ;;;
  let aligned_size := RCU_ALIGN_N RCU_SIZEOF_MEMCELL size in
  let addr := native aligned_size in
  rcu_native_malloc addr ;;;
  (if addr =? 0 then ret tt else traced (rcu_trace_alloc_impl addr aligned_size Rcunit) ;;; ret tt) ;;;
  ret addr.

Definition rcu_free (addr : Z) : M memory unit :=
  (if addr =? 0 then ret tt else traced (rcu_trace_free_impl addr Rcunit) ;;; ret tt) ;;;
  rcu_native_free addr.

Definition rcu_check_mem_leak_impl (c : cache) : M memory leak_report :=
  rcu_init ;;;
  traced (rcu_ensure_mtrace_init ;;;
          let! r := with_counters (0, 0) (count_leaks c) in
          let! p := gets (cache_at c) in
          ret (Report (nr_alloc p) (nr_free p) r.1 r.2 (max_alloc_size p) (max_total_alloc_size p))).

(** A cell is a [long]. *)
Definition rcu_alloc_mem_cell (native : Z -> Z) (nr_mem_cell : Z) : M memory Z :=
  if nr_mem_cell =? 0 then ret 0 else rcu_malloc native (u64 (8 * nr_mem_cell)).

(** [None] for a null [cell]; otherwise what it points to, before and after. *)
Definition rcu_free_mem_cell (cell : option Z) : M memory (option Z) :=
  match cell with
  | None => ret None
  | Some addr => if addr =? 0 then ret (Some 0) else rcu_free addr ;;; ret (Some 0)
  end.

(** The calls of a program, and what they return. *)
Inductive op :=
| TraceAlloc (c : cache) (ptr size : Z) | TraceFree (c : cache) (ptr : Z)
| Malloc (size addr : Z) | Free (addr : Z)
| CheckLeak (c : cache) | HasLeak | Init | Destroy.
Inductive answer := Done | Status (ok : bool) | Pointer (addr : Z) | Reported (r : leak_report) | Leaks (b : bool).

(** In [Malloc size addr] the native allocator returns [addr]. *)
Definition exec (o : op) : M memory answer :=
  match o with
  | TraceAlloc c ptr size => let! ok := traced (rcu_trace_alloc_impl ptr size c) in ret (Status ok)
  | TraceFree c ptr => let! ok := traced (rcu_trace_free_impl ptr c) in ret (Status ok)
  | Malloc size addr => let! p := rcu_malloc (fun _ => addr) size in ret (Pointer p)
  | Free addr => rcu_free addr ;;; ret Done
  | CheckLeak c => let! r := rcu_check_mem_leak_impl c in ret (Reported r)
  | HasLeak => let! b := traced rcu_has_mem_leak in ret (Leaks b)
  | Init => let! ok := traced rcu_init_mtrace in ret (Status ok)
  | Destroy => let! ok := traced rcu_destroy_mtrace in ret (Status ok)
  end.

Fixpoint exec_all (l : list op) : M memory (list answer) :=
  match l with
  | [] => ret []
  | o :: l => let! a := exec o in let! r := exec_all l in ret (a :: r)
  end.
End Code.

(** ** What the tracer promises

    An account of every cache: the pointers that are live, with their sizes, and
    the counters.  [None]: the tracer is not initialised. *)
Record account := Account { live : gmap Z Z; allocs : Z; frees : Z; largest : Z; allocated : Z }.
Definition no_account : account := Account ∅ 0 0 0 0.
Definition book := option (cache -> account).
Definition opened (b : book) : cache -> account := default (fun _ => no_account) b.

(** The accounts [ms] with [m] for cache [c]. *)
Definition at_cache {A} (c : cache) (m : A) (ms : cache -> A) (c' : cache) : A :=
  if decide (c' = c) then m else ms c'.

(** A pointer is recorded unless it is [NULL] or live already. *)
Definition cached (ptr size : Z) (m : gmap Z Z) : gmap Z Z :=
  if (ptr =? 0) || bool_decide (is_Some (m !! ptr)) then m else <[ptr := size]> m.
Definition total (l : list (Z * Z)) : Z := foldr (fun x a => x.2 + a) 0 l.

(** [drop]: the tracer had no memory to record the pointer. *)
Definition spec_alloc (drop : bool) (ptr sz : Z) (a : account) : account :=
  Account (if drop then live a else cached ptr sz (live a)) (u64 (allocs a + 1)) (frees a)
    (if largest a <? sz then sz else largest a) (u64 (allocated a + sz)).
Definition spec_free (ptr : Z) (a : account) : account :=
  Account (delete ptr (live a)) (allocs a) (u64 (frees a + 1)) (largest a) (allocated a).
Definition spec_report (a : account) : leak_report :=
  Report (allocs a) (frees a) (Z.of_nat (size (live a))) (u64 (total (map_to_list (live a))))
    (largest a) (allocated a).

(** The accounts, and whether the machine is initialised: [rcu_init] of one that is
    not also opens the accounts. *)
Definition spec_step (drop : bool) (o : op) (x : book * bool) : answer * (book * bool) :=
  let (b, mach) := x in
  let b0 := opened b in
  let upd c a := Some (at_cache c a b0) in
  match o with
  | TraceAlloc c ptr sz => (Status true, (upd c (spec_alloc drop ptr sz (b0 c)), mach))
  | TraceFree c ptr => (Status true, (upd c (spec_free ptr (b0 c)), mach))
  | Malloc sz addr =>
      (Pointer addr, (if addr =? 0 then if mach then b else Some b0
                      else upd Rcunit (spec_alloc drop addr (RCU_ALIGN_N RCU_SIZEOF_MEMCELL sz) (b0 Rcunit)), true))
  | Free addr => (Done, (if addr =? 0 then b else upd Rcunit (spec_free addr (b0 Rcunit)), mach))
  | CheckLeak c => (Reported (spec_report (b0 c)), (Some b0, true))
  | HasLeak => (Leaks (0 <? Z.of_nat (size (live (b0 Rcunit)))), (Some b0, mach))
  | Init => (Status true, (Some b0, mach))
  | Destroy => (Status (bool_decide (is_Some b)), (None, mach))
  end.

Fixpoint spec_all (l : list (bool * op)) (x : book * bool) : list answer * (book * bool) :=
  match l with
  | [] => ([], x)
  | (drop, o) :: l =>
      let y := spec_step drop o x in
      let z := spec_all l y.2 in
      (y.1 :: z.1, z.2)
  end.

(** The answers when the tracer always has memory. *)
Definition ideal (l : list op) : list answer := (spec_all ((fun o => (false, o)) <$> l) (None, false)).1.

(** The blocks in use after a call; [None] when [malloc] gives out a block that is
    in use, which it does not, or the program frees one that is not. *)
Definition heap_step (o : op) (h : gset Z) : option (gset Z) :=
  match o with
  | Malloc _ addr => if addr =? 0 then Some h else if bool_decide (addr ∈ h) then None else Some ({[addr]} ∪ h)
  | Free addr => if addr =? 0 then Some h else if bool_decide (addr ∈ h) then Some (h ∖ {[addr]}) else None
  | _ => Some h
  end.
Fixpoint heap_run (l : list op) (h : gset Z) : option (gset Z) :=
  match l with
  | [] => Some h
  | o :: l => match heap_step o h with Some h' => heap_run l h' | None => None end
  end.
Definition proper (l : list op) : bool := bool_decide (is_Some (heap_run l ∅)).

(** [a] reports no leak that [a'] does not, and the same counters. *)
Definition no_more (a a' : answer) : Prop :=
  match a, a' with
  | Reported r, Reported r' =>
      rp_leaks r <= rp_leaks r' /\ rp_alloc r = rp_alloc r' /\ rp_free r = rp_free r' /\
      rp_max_alloc r = rp_max_alloc r' /\ rp_total_alloc r = rp_total_alloc r'
  | Leaks b, Leaks b' => b = true -> b' = true
  | _, _ => a = a'
  end.

(** ** The tables as a finite map *)

(** The slots of the tables in [l], in order, and the pointers they record. *)
Definition infos (s : mtrace) (l : list loc) : list rcu_pointer_info :=
  l ≫= fun x => match x with TblLink i => default [] (mt_tbl s !! i) | TblList _ => [] end.
Definition contents (l : list rcu_pointer_info) : list (Z * Z) :=
  omap (fun p => if pi_used p then Some (pi_ptr p, pi_size p) else None) l.

(** A slot is free exactly when its pointer is [NULL]. *)
Definition slot_ok (p : rcu_pointer_info) : Prop := pi_used p = true <-> pi_ptr p <> 0.

(** The slots [l] record the map [m]. *)
Record records (l : list rcu_pointer_info) (m : gmap Z Z) : Prop := {
  rec_slots : Forall slot_ok l;
  rec_nodup : NoDup (contents l).*1;
  rec_map : list_to_map (contents l) = m;
}.

(** The lists of tables, by head; every table is in one of them. *)
Record mt_ok (s : mtrace) (hs : gmap loc (list loc)) : Prop := {
  ok_rings : rings (mt_node s) hs;
  ok_heads h l : hs !! h = Some l -> exists c, h = TblList c;
  ok_entries h l x : hs !! h = Some l -> x ∈ l -> exists i, x = TblLink i /\ is_Some (mt_tbl s !! i);
  ok_dom i : is_Some (mt_tbl s !! i) -> exists h l, hs !! h = Some l /\ TblLink i ∈ l;
  ok_len i t : mt_tbl s !! i = Some t -> length t = rcu_pointer_table_SIZE;
  ok_fresh i : is_Some (mt_tbl s !! i) -> (i < mt_fresh s)%positive;
}.

(** The counters of a cache that the report shows, and what changing tables keeps. *)
Definition stats (p : rcu_pointer_cache) : Z * Z * Z * Z :=
  (nr_alloc p, nr_free p, max_alloc_size p, max_total_alloc_size p).
Record kept (s s' : mtrace) : Prop := {
  kept_init : gs_mtrace_init_done s' = gs_mtrace_init_done s;
  kept_stats c : stats (cache_at c s') = stats (cache_at c s);
}.

Lemma contents_app l1 l2 : contents (l1 ++ l2) = contents l1 ++ contents l2.
Proof. apply omap_app. Qed.

Lemma contents_cons p l :
  contents (p :: l) = (if pi_used p then [(pi_ptr p, pi_size p)] else []) ++ contents l.
Proof. unfold contents. cbn. by destruct (pi_used p). Qed.

Lemma infos_app s l1 l2 : infos s (l1 ++ l2) = infos s l1 ++ infos s l2.
Proof. apply bind_app. Qed.

Lemma infos_cons s i l : infos s (TblLink i :: l) = default [] (mt_tbl s !! i) ++ infos s l.
Proof. done. Qed.

(** What a slot says about the map. *)
Lemma records_lookup l m p :
  records l m -> p ∈ l -> pi_ptr p <> 0 -> m !! pi_ptr p = Some (pi_size p).
Proof.
  intros [Hs Hn <-] Hp Hnz. apply elem_of_list_to_map_1; [done|].
  apply list_elem_of_omap. exists p. rewrite Forall_forall in Hs. destruct (Hs p Hp) as [_ Hu].
  by rewrite Hu.
Qed.

Lemma records_none l m q : records l m -> (forall p, p ∈ l -> pi_ptr p <> q) -> m !! q = None.
Proof.
  intros [_ _ <-] Hq. apply not_elem_of_list_to_map_1. intros [[a z] [-> Hin]]%list_elem_of_fmap.
  apply list_elem_of_omap in Hin as (p & Hp & E). destruct (pi_used p); [|done]. injection E as E _.
  by apply (Hq p Hp).
Qed.

(** Filling a free slot, and clearing one. *)
Lemma records_fill l1 l2 m old ptr size :
  records (l1 ++ old :: l2) m -> pi_used old = false -> ptr <> 0 -> m !! ptr = None ->
  records (l1 ++ PtrInfo ptr size true :: l2) (<[ptr := size]> m).
Proof.
  intros [Hs Hn <-] Hu Hp Hm. rewrite contents_app, contents_cons, Hu in *. cbn [app] in *.
  assert (contents (l1 ++ PtrInfo ptr size true :: l2) ≡ₚ (ptr, size) :: contents l1 ++ contents l2) as E.
  { rewrite contents_app, contents_cons. cbn. by rewrite Permutation_middle. }
  assert (NoDup ((ptr, size) :: contents l1 ++ contents l2).*1) as Hn'.
  { cbn. apply NoDup_cons. split; [|done]. by apply not_elem_of_list_to_map_2. }
  constructor.
  - rewrite Forall_app, Forall_cons in *. destruct Hs as (? & _ & ?). split_and!; try done.
  - by rewrite E.
  - erewrite list_to_map_proper; [|by rewrite E|exact E]. done.
Qed.

Lemma records_clear l1 l2 m old :
  records (l1 ++ old :: l2) m -> pi_ptr old <> 0 ->
  records (l1 ++ empty_info :: l2) (delete (pi_ptr old) m).
Proof.
  intros [Hs Hn <-] Hp. rewrite Forall_app, Forall_cons in Hs. destruct Hs as (Hs1 & Ho & Hs2).
  assert (contents (l1 ++ old :: l2) ≡ₚ (pi_ptr old, pi_size old) :: contents l1 ++ contents l2) as E.
  { rewrite contents_app, contents_cons, (proj2 Ho Hp). cbn. by rewrite Permutation_middle. }
  assert (contents (l1 ++ empty_info :: l2) = contents l1 ++ contents l2) as E'
    by by rewrite contents_app, contents_cons.
  pose proof Hn as Hn'. rewrite E in Hn'. cbn in Hn'. apply NoDup_cons in Hn' as [Hni Hnd].
  constructor.
  - rewrite Forall_app, Forall_cons. by split_and!.
  - by rewrite E'.
  - rewrite E', (list_to_map_proper _ _ Hn E). cbn. rewrite delete_insert_id; [done|].
    by apply not_elem_of_list_to_map_1.
Qed.

Lemma records_empty n : records (replicate n empty_info) ∅.
Proof.
  assert (contents (replicate n empty_info) = []) as E by by induction n.
  constructor; rewrite ?E; [by apply Forall_replicate|apply NoDup_nil_2|done].
Qed.

Lemma records_grow l m n : records l m -> records (l ++ replicate n empty_info) m.
Proof.
  intros [Hs Hn <-]. assert (contents (l ++ replicate n empty_info) = contents l) as E.
  { rewrite contents_app. replace (contents (replicate n empty_info)) with (@nil (Z * Z)) by by induction n.
    by rewrite app_nil_r. }
  constructor; rewrite ?E; [|done|done]. apply Forall_app. split; [done|by apply Forall_replicate].
Qed.

Section Proofs.
Context (malloc_ok : positive -> bool).

(** ** Searching *)

Lemma wp_as_tbl i t (Q : _ -> mtrace -> Prop) s :
  mt_tbl s !! i = Some t -> Q (i, t) s -> wp (as_tbl (TblLink i)) Q s.
Proof. intros E HQ. unfold wp, as_tbl. by rewrite E. Qed.

Lemma mt_ring s hs h l : mt_ok s hs -> hs !! h = Some l -> ring (mt_node s) h l.
Proof. intros Hok. by apply (rings_ring _ _ (ok_rings _ _ Hok)). Qed.

(** The slot found is in a table of the cache; otherwise no slot satisfies [f]. *)
Lemma wp_find_slot f c hs l s :
  mt_ok s hs -> hs !! TblList c = Some l ->
  wp (find_slot f c) (fun r s' => s' = s /\
    match r with
    | Some (i, a) => TblLink i ∈ l /\ exists t p, mt_tbl s !! i = Some t /\ t !! a = Some p /\ f p = true
    | None => forall p, p ∈ infos s l -> f p = false
    end) s.
Proof.
  intros Hok Hl.
  apply (wp_traverse _ _ _ _ (fun d s' => s' = s /\ forall p, p ∈ infos s d -> f p = false) l).
  - intros d s' [-> _]. by eapply mt_ring.
  - intros d x t s' -> [-> Hd].
    destruct (ok_entries _ _ Hok _ _ x Hl) as (i & -> & [tbl Ht]); [set_solver|].
    apply wp_bind. eapply wp_as_tbl; [done|]. wp_step. destruct (first_index f tbl) as [a|] eqn:Ea.
    + apply first_index_Some in Ea as (p & Hp & Hf & _). split; [done|]. split; [set_solver|]. eauto.
    + split; [done|]. split; [done|]. intros p. rewrite infos_app, elem_of_app. intros [Hp|Hp]; [by apply Hd|].
      cbn in Hp. rewrite Ht in Hp. cbn in Hp. rewrite app_nil_r in Hp.
      apply list_elem_of_lookup in Hp as [k Hk]. by eapply (proj1 (first_index_None f tbl) Ea).
  - intros s' [-> Hd]. done.
  - split; [done|]. cbn. by intros p ?%elem_of_nil.
Qed.

Lemma infos_slot s l i t a p :
  TblLink i ∈ l -> mt_tbl s !! i = Some t -> t !! a = Some p -> p ∈ infos s l.
Proof.
  intros Hi Ht Hp. apply list_elem_of_bind. exists (TblLink i). split; [|done]. rewrite Ht.
  by apply list_elem_of_lookup_2 in Hp.
Qed.

(** ** Writing a slot *)

Lemma infos_ext s s' l :
  (forall i, TblLink i ∈ l -> mt_tbl s' !! i = mt_tbl s !! i) -> infos s' l = infos s l.
Proof.
  intros E. induction l as [|x l IH]; [done|]. unfold infos in *. cbn. rewrite IH by set_solver.
  f_equal. destruct x; [done|]. by rewrite E by set_solver.
Qed.

Lemma infos_split s hs h l i t :
  mt_ok s hs -> hs !! h = Some l -> TblLink i ∈ l -> mt_tbl s !! i = Some t ->
  exists l1 l2, infos s l = infos s l1 ++ t ++ infos s l2 /\
    forall s', (forall j, j <> i -> mt_tbl s' !! j = mt_tbl s !! j) ->
      infos s' l = infos s l1 ++ default [] (mt_tbl s' !! i) ++ infos s l2.
Proof.
  intros Hok Hl (l1 & l2 & ->)%list_elem_of_split Ht.
  destruct (mt_ring _ _ _ _ Hok Hl) as [_ Hd]. rewrite NoDup_cons, NoDup_app, NoDup_cons in Hd.
  exists l1, l2. split.
  - by rewrite infos_app, infos_cons, Ht.
  - intros s' Hs'. rewrite infos_app, infos_cons.
    rewrite !(infos_ext s s'); [done|..]; intros j Hj; apply Hs'; set_solver.
Qed.

(** Other caches have other tables. *)
Lemma tbl_owner s hs h l h' l' i :
  mt_ok s hs -> hs !! h = Some l -> hs !! h' = Some l' -> TblLink i ∈ l -> TblLink i ∈ l' -> h = h'.
Proof.
  intros Hok Hl Hl' Hi Hi'. eapply (rings_disjoint _ _ (ok_rings _ _ Hok)); [apply Hl|apply Hl'|by right|by right].
Qed.

Lemma mt_ok_tbl s hs i t t' :
  mt_ok s hs -> mt_tbl s !! i = Some t -> length t' = length t -> mt_ok (set_tbl (<[i := t']> (mt_tbl s)) s) hs.
Proof.
  intros [Hr Hh He Hd Hl Hf] Ht Hlen.
  assert (forall j, is_Some (<[i := t']> (mt_tbl s) !! j) <-> is_Some (mt_tbl s !! j)) as Hdom.
  { intros j. destruct (decide (j = i)) as [->|]; [rewrite lookup_insert_eq|by rewrite lookup_insert_ne].
    rewrite Ht. split; by eexists. }
  constructor; cbn; try done.
  - intros h l x Hx Hin. destruct (He h l x Hx Hin) as (j & -> & Hj). exists j. split; [done|]. by apply Hdom.
  - intros j Hj. by apply Hd, Hdom.
  - intros j u [[<- <-]|[_ Hj]]%lookup_insert_Some; [rewrite Hlen|]; by eapply Hl.
  - intros j Hj. by apply Hf, Hdom.
Qed.

Lemma mt_ok_slot s hs i t a p :
  mt_ok s hs -> mt_tbl s !! i = Some t -> mt_ok (set_tbl (<[i := <[a := p]> t]> (mt_tbl s)) s) hs.
Proof. intros Hok Ht. eapply mt_ok_tbl; [done..|]. by rewrite length_insert. Qed.

(** Writing slot [a] of table [i] of cache [c]: the slots of the cache change
    there, those of the other cache stay. *)
Lemma wp_set_slot c hs l s i t a old new (Q : unit -> mtrace -> Prop) :
  mt_ok s hs -> hs !! TblList c = Some l -> TblLink i ∈ l -> mt_tbl s !! i = Some t -> t !! a = Some old ->
  (forall s', mt_ok s' hs -> kept s s' ->
     (exists l1 l2, infos s l = l1 ++ old :: l2 /\ infos s' l = l1 ++ new :: l2) ->
     (forall h l', hs !! h = Some l' -> h <> TblList c -> infos s' l' = infos s l') -> Q tt s') ->
  wp (set_slot (i, a) new) Q s.
Proof.
  intros Hok Hl Hi Ht Ha HQ. apply wp_bind. eapply wp_as_tbl; [done|]. cbn [fst snd].
  apply wp_modify. apply HQ; [by apply mt_ok_slot|by split; [|intros []]| |].
  - destruct (infos_split _ _ _ _ _ _ Hok Hl Hi Ht) as (l1 & l2 & E & E').
    rewrite E. rewrite E' by (intros j Hj; cbn; by rewrite lookup_insert_ne). cbn. rewrite lookup_insert_eq. cbn.
    exists (infos s l1 ++ take a t), (drop (S a) t ++ infos s l2).
    pose proof (lookup_lt_Some _ _ _ Ha) as Hlt. split.
    + rewrite <- (take_drop_middle t a old Ha) at 1. by rewrite <- !app_assoc.
    + rewrite insert_take_drop by done. by rewrite <- !app_assoc.
  - intros h l' Hl' Hne. apply infos_ext. intros j Hj. cbn. apply lookup_insert_ne. intros <-.
    apply Hne. by eapply tbl_owner.
Qed.

(** ** A new table *)

Lemma loose_fresh s hs i : mt_ok s hs -> mt_tbl s !! i = None -> loose hs (TblLink i).
Proof.
  intros Hok Hi h l Hl [E|Hin]%elem_of_cons.
  - destruct (ok_heads _ _ Hok _ _ Hl) as [c ->]. done.
  - destruct (ok_entries _ _ Hok _ _ _ Hl Hin) as (j & [= <-] & [t Ht]). congruence.
Qed.

Lemma nodes_loose (ns : nodes loc) hs e n : rings ns hs -> loose hs e -> rings (<[e := n]> ns) hs.
Proof.
  intros Hr Hl. eapply rings_frame, Hr. intros h l x Hh Hx. unfold nx, pv.
  rewrite lookup_insert_ne; [done|]. intros ->. by apply (Hl h l).
Qed.

(** The tables after [rcu_cre_ptr_tbl] put table [i] at the end of the list [l]. *)
Lemma mt_ok_grow s hs c l i ns p fr :
  mt_ok s hs -> hs !! TblList c = Some l -> (i < fr)%positive -> (mt_fresh s <= i)%positive ->
  rings ns (<[TblList c := l ++ [TblLink i]]> hs) ->
  mt_ok (Mtrace ns (<[i := replicate rcu_pointer_table_SIZE empty_info]> (mt_tbl s)) p.1 p.2
           (gs_mtrace_init_done s) fr) (<[TblList c := l ++ [TblLink i]]> hs).
Proof.
  intros [Hr Hh He Hd Hl Hf] Hc Hi Hs Hr'. constructor; cbn; [done|..].
  - intros h k [[<- _]|[_ Hk]]%lookup_insert_Some; eauto.
  - intros h k x [[<- <-]|[_ Hk]]%lookup_insert_Some Hx.
    + apply elem_of_app in Hx as [Hx|[= ->]%list_elem_of_singleton].
      * destruct (He _ _ _ Hc Hx) as (j & -> & Hj). exists j. split; [done|]. apply lookup_insert_is_Some'. by right.
      * exists i. split; [done|]. by rewrite lookup_insert_eq.
    + destruct (He _ _ _ Hk Hx) as (j & -> & Hj). exists j. split; [done|]. apply lookup_insert_is_Some'. by right.
  - intros j [->|Hj]%lookup_insert_is_Some'.
    + exists (TblList c), (l ++ [TblLink j]). rewrite lookup_insert_eq. split; [done|set_solver].
    + destruct (Hd j Hj) as (h & k & Hk & Hin). destruct (decide (h = TblList c)) as [->|Hne].
      * exists (TblList c), (l ++ [TblLink i]). rewrite lookup_insert_eq. split; [done|]. simplify_eq. set_solver.
      * exists h, k. by rewrite lookup_insert_ne.
  - intros j t [[<- <-]|[_ Hj]]%lookup_insert_Some; [by rewrite length_replicate|by eapply Hl].
  - intros j [->|Hj%Hf]%lookup_insert_is_Some'; lia.
Qed.

Lemma wp_cre_ptr_tbl c hs l s (Q : bool -> mtrace -> Prop) :
  mt_ok s hs -> hs !! TblList c = Some l ->
  (malloc_ok (mt_fresh s) = false -> forall s', mt_ok s' hs -> mt_tbl s' = mt_tbl s ->
     kept s s' -> Q false s') ->
  (forall s' i, mt_tbl s !! i = None -> mt_ok s' (<[TblList c := l ++ [TblLink i]]> hs) ->
     mt_tbl s' = <[i := replicate rcu_pointer_table_SIZE empty_info]> (mt_tbl s) ->
     kept s s' -> Q true s') ->
  wp (rcu_cre_ptr_tbl malloc_ok c) Q s.
Proof.
  intros Hok Hl Hno Hyes. pose proof Hok as [Hr Hh He Hd Hlen Hf].
  assert (mt_tbl s !! mt_fresh s = None) as Hfr.
  { destruct (mt_tbl s !! mt_fresh s) eqn:E; [|done]. specialize (Hf (mt_fresh s)). rewrite E in Hf.
    specialize (Hf ltac:(by eexists)). lia. }
  pose proof (loose_fresh s hs _ Hok Hfr) as Hlo. set (i := mt_fresh s) in *.
  apply wp_bind. unfold malloc_tbl. apply wp_bind, wp_gets, wp_bind, wp_modify. fold i.
  destruct (malloc_ok i) eqn:Em.
  2:{ wp_step. wp_step. apply Hno; [done| |done|by split; [|intros []]]. constructor; cbn; try done. intros j ?%Hf. lia. }
  apply wp_bind, wp_modify, wp_bind, wp_modify. wp_step. cbn [mt_node set_node set_tbl set_fresh].
  set (ns := <[TblLink i := _]> (mt_node s)).
  assert (rings ns hs) as Hns by by apply nodes_loose.
  apply wp_bind, wp_zoom. apply wp_init_list; [cbn; subst ns; by rewrite lookup_insert_eq|]. intros ns1 [N1 P1 D1].
  assert (rings ns1 hs) as Hns1.
  { eapply rings_frame, Hns. intros h k x Hk Hx.
    rewrite N1, P1, !decide_False by (intros ->; by apply (Hlo h k)). done. }
  apply wp_bind, wp_zoom. apply (wp_insert_list (TblList c) l).
  - by apply (rings_ring _ _ Hns1).
  - by apply Hlo.
  - cbn. apply elem_of_dom. rewrite D1. apply elem_of_dom. cbn. subst ns. by rewrite lookup_insert_eq.
  - intros ns2 Hlinks. apply (rings_insert ns1 ns2 hs) in Hlinks; [|done..].
    apply wp_bind, wp_modify. wp_step. apply (Hyes _ i); [done| |by destruct c|by destruct c; split; [|intros []| |intros []]].
    destruct c; [refine (mt_ok_grow s hs Rcunit l i ns2 (_, mt_cache_2 s) _ Hok Hl _ _ Hlinks)|
                 refine (mt_ok_grow s hs User l i ns2 (mt_cache_1 s, _) _ Hok Hl _ _ Hlinks)]; cbn; lia.
Qed.

(** ** Caching and uncaching *)

(** The tables of cache [c] record the map [m]. *)
Definition held (s : mtrace) (hs : gmap loc (list loc)) (c : cache) (m : gmap Z Z) : Prop :=
  exists l, hs !! TblList c = Some l /\ records (infos s l) m.

Lemma at_cache_id {A} c (ms : cache -> A) c' : at_cache c (ms c) ms c' = ms c'.
Proof. unfold at_cache. by case_decide; subst. Qed.

Lemma at_cache_twice {A} c x y (ms : cache -> A) c' : at_cache c x (at_cache c y ms) c' = at_cache c x ms c'.
Proof. unfold at_cache. by case_decide. Qed.

(** Replacing the slot [old] by [new]. *)
Lemma wp_replace c hs ms m' l s i t a old new (Q : unit -> mtrace -> Prop) :
  mt_ok s hs -> (forall c, held s hs c (ms c)) ->
  hs !! TblList c = Some l -> TblLink i ∈ l -> mt_tbl s !! i = Some t -> t !! a = Some old ->
  (forall l1 l2, records (l1 ++ old :: l2) (ms c) -> records (l1 ++ new :: l2) m') ->
  (forall s', mt_ok s' hs -> kept s s' -> (forall c', held s' hs c' (at_cache c m' ms c')) -> Q tt s') ->
  wp (set_slot (i, a) new) Q s.
Proof.
  intros Hok Hh Hl Hi Ht Ha Hrec HQ. eapply wp_set_slot; [done..|].
  intros s' Hok' Hk (l1 & l2 & E & E') Ho. apply HQ; [done..|]. intros c'.
  destruct (Hh c') as (k & Hkl & Hr). exists k. split; [done|]. unfold at_cache. case_decide as Hc.
  - subst c'. simplify_eq. rewrite E'. apply Hrec. by rewrite <- E.
  - by rewrite (Ho _ _ Hkl) by congruence.
Qed.

(** A new table records nothing. *)
Lemma held_grow s s' hs c l i :
  mt_ok s hs -> hs !! TblList c = Some l -> mt_tbl s !! i = None ->
  mt_tbl s' = <[i := replicate rcu_pointer_table_SIZE empty_info]> (mt_tbl s) ->
  (infos s' (l ++ [TblLink i]) = infos s l ++ replicate rcu_pointer_table_SIZE empty_info) /\
  (forall c' m, held s hs c' m -> held s' (<[TblList c := l ++ [TblLink i]]> hs) c' m).
Proof.
  intros Hok Hl Hi Et.
  assert (forall h k, hs !! h = Some k -> infos s' k = infos s k) as Hold.
  { intros h k Hk. apply infos_ext. intros j Hj. rewrite Et, lookup_insert_ne; [done|]. intros <-.
    destruct (ok_entries _ _ Hok _ _ _ Hk Hj) as (? & [= <-] & [? ?]). congruence. }
  assert (infos s' (l ++ [TblLink i]) = infos s l ++ replicate rcu_pointer_table_SIZE empty_info) as E.
  { rewrite infos_app, (Hold _ _ Hl), infos_cons, Et, lookup_insert_eq. cbn [default]. by rewrite app_nil_r. }
  split; [done|]. intros c' m (k & Hk & Hr). destruct (decide (c' = c)) as [->|Hne].
  - simplify_eq. exists (l ++ [TblLink i]). rewrite lookup_insert_eq, E. split; [done|]. by apply records_grow.
  - exists k. rewrite lookup_insert_ne by congruence. split; [done|]. by rewrite (Hold _ _ Hk).
Qed.

(** Slot [x] of cache [c] is free. *)
Definition free_at (s : mtrace) (hs : gmap loc (list loc)) (c : cache) (x : positive * nat) : Prop :=
  exists l t old, hs !! TblList c = Some l /\ TblLink x.1 ∈ l /\ mt_tbl s !! x.1 = Some t /\
    t !! x.2 = Some old /\ pi_used old = false.

(** When every slot is used, a table is added; only [malloc] can prevent it. *)
Lemma wp_make_slot c hs ms l s (Q : option (positive * nat) -> mtrace -> Prop) :
  mt_ok s hs -> (forall c, held s hs c (ms c)) -> hs !! TblList c = Some l ->
  (forall p, p ∈ infos s l -> negb (pi_used p) = false) ->
  (forall s' hs' x, mt_ok s' hs' -> kept s s' -> (forall c, held s' hs' c (ms c)) ->
     free_at s' hs' c x -> Q (Some x) s') ->
  ((exists i, malloc_ok i = false) ->
   forall s', mt_ok s' hs -> kept s s' -> (forall c, held s' hs c (ms c)) -> Q None s') ->
  wp (rcu_cre_ptr_tbl malloc_ok c ;;; rcu_find_free_slot c) Q s.
Proof.
  intros Hok Hh Hl Hfull Hyes Hno. apply wp_bind. eapply wp_cre_ptr_tbl; [done..| |].
  - intros Hm s' Hok' Et Hk.
    assert (forall k, infos s' k = infos s k) as Ei by (intros k; apply infos_ext; by rewrite Et).
    eapply wp_conseq; [by eapply wp_find_slot|]. intros [[i a]|] s'' [-> Hr].
    + destruct Hr as (Hi & t & p & Ht & Hp & Hu). specialize (Hfull p).
      rewrite Hfull in Hu; [done|]. rewrite <- Ei. by eapply infos_slot.
    + apply Hno; [eauto|done|done|]. intros c'. destruct (Hh c') as (k & ? & ?). exists k. by rewrite Ei.
  - intros s' i Hi Hok' Et Hk. destruct (held_grow _ _ _ _ _ _ Hok Hl Hi Et) as [E Hg].
    assert (forall c', held s' (<[TblList c := l ++ [TblLink i]]> hs) c' (ms c')) as Hh' by (intros c'; by apply Hg).
    eapply wp_conseq; [eapply wp_find_slot; [done|apply lookup_insert_eq]|]. intros [[j a]|] s'' [-> Hr].
    + destruct Hr as (Hj & t & p & Ht & Hp & Hu). apply (Hyes _ _ (j, a) Hok' Hk Hh').
      exists (l ++ [TblLink i]), t, p. rewrite lookup_insert_eq. by destruct (pi_used p).
    + exfalso. specialize (Hr empty_info). rewrite E in Hr. discriminate Hr. apply elem_of_app. right.
      apply elem_of_replicate. done.
Qed.

Lemma wp_cache_ptr ptr size c hs ms s (Q : bool -> mtrace -> Prop) :
  mt_ok s hs -> (forall c, held s hs c (ms c)) ->
  (forall r s' hs' m, mt_ok s' hs' -> kept s s' ->
     m = cached ptr size (ms c) \/ m = ms c /\ (exists i, malloc_ok i = false) ->
     (forall c', held s' hs' c' (at_cache c m ms c')) -> Q r s') ->
  wp (rcu_cache_ptr malloc_ok ptr size c) Q s.
Proof.
  intros Hok Hh HQ. unfold rcu_cache_ptr, cached in *. destruct (Z.eqb_spec ptr 0) as [->|Hz]; cbn in HQ.
  { wp_step. by eapply (HQ _ _ hs (ms c)); [..|left|intros c'; rewrite at_cache_id]. }
  destruct (Hh c) as (l & Hl & Hr). apply wp_bind. eapply wp_conseq; [by eapply wp_find_slot|].
  intros [[i a]|] s' [-> Hf].
  { destruct Hf as (Hi & t & p & Ht & Hp & Hu%Z.eqb_eq).
    assert (is_Some (ms c !! ptr)) as Hs.
    { exists (pi_size p). rewrite <- Hu. eapply records_lookup; [done|by eapply infos_slot|congruence]. }
    wp_step. eapply (HQ _ _ hs (ms c)); [done|done| |intros c'; by rewrite at_cache_id].
    left. by rewrite bool_decide_true. }
  assert (ms c !! ptr = None) as Hn.
  { eapply records_none; [done|]. intros p Hp%Hf. lia. }
  rewrite Hn in HQ. rewrite bool_decide_false in HQ by by intros [].
  assert (forall s' hs' x, mt_ok s' hs' -> kept s s' -> (forall c, held s' hs' c (ms c)) -> free_at s' hs' c x ->
    wp (set_slot x (PtrInfo ptr size true) ;;; ret true) Q s') as Hfill.
  { intros s' hs' [i a] Hok' Hk Hh' (k & t & old & Hk' & Hi & Ht & Ha & Hu). apply wp_bind.
    eapply (wp_replace c hs' ms (<[ptr := size]> (ms c))); [done..| |].
    - intros l1 l2 Hrec. by eapply records_fill.
    - intros s'' Hok'' [Ki Ks] Hh''. wp_step. eapply HQ; [done| |by left|done]. destruct Hk as [Ki' Ks'].
      split; [congruence|]. intros c'. by rewrite Ks. }
  apply wp_bind. eapply wp_conseq; [by eapply wp_find_slot|]. intros [[i a]|] s' [-> Hfr].
  - wp_step. wp_step. destruct Hfr as (Hi & t & p & Ht & Hp & Hu). apply (Hfill s hs (i, a)); [done|by split|done|].
    exists l, t, p. by destruct (pi_used p).
  - apply wp_bind. eapply (wp_make_slot c hs ms l s); [done..| |].
    + intros s' hs' x Hok' Hk Hh' Hx. by apply (Hfill s' hs').
    + intros Hm s' Hok' Hk Hh'. wp_step. eapply (HQ _ _ hs (ms c)); [done|done|by right|].
      intros c'. by rewrite at_cache_id.
Qed.

Lemma records_zero l m : records l m -> m !! 0 = None.
Proof.
  intros [Hs _ <-]. apply not_elem_of_list_to_map_1. intros [[a z] [E0 Hin]]%list_elem_of_fmap. cbn in E0.
  apply list_elem_of_omap in Hin as (p & Hp & E). rewrite Forall_forall in Hs. specialize (Hs p Hp) as [Hu _].
  destruct (pi_used p); [|done]. injection E as E _. apply Hu; congruence.
Qed.

(** What depends on the tables alone. *)
Lemma mt_ok_frame s s' hs :
  mt_node s' = mt_node s -> mt_tbl s' = mt_tbl s -> mt_fresh s' = mt_fresh s -> mt_ok s hs -> mt_ok s' hs.
Proof. intros En Et Ef [? ? ? ? ? ?]. constructor; rewrite ?En, ?Et, ?Ef; done. Qed.

Lemma held_frame s s' hs c m : mt_tbl s' = mt_tbl s -> held s hs c m -> held s' hs c m.
Proof.
  intros Et (l & Hl & Hr). exists l. split; [done|]. rewrite (infos_ext s s'); [done|]. by rewrite Et.
Qed.

(** A change of the counters of one cache. *)
Lemma wp_on_cache c f (Q : unit -> mtrace -> Prop) s :
  (forall s', mt_node s' = mt_node s -> mt_tbl s' = mt_tbl s -> mt_fresh s' = mt_fresh s ->
     gs_mtrace_init_done s' = gs_mtrace_init_done s ->
     (forall c', cache_at c' s' = at_cache c (f (cache_at c s)) (fun c => cache_at c s) c') -> Q tt s') ->
  wp (on_cache c f) Q s.
Proof. intros HQ. apply wp_modify, HQ; destruct c; try done; by intros []. Qed.

Lemma wp_uncache_ptr ptr c hs ms s (Q : bool -> mtrace -> Prop) :
  mt_ok s hs -> (forall c, held s hs c (ms c)) ->
  (forall r s', mt_ok s' hs -> kept s s' ->
     (forall c', held s' hs c' (at_cache c (delete ptr (ms c)) ms c')) -> Q r s') ->
  wp (rcu_uncache_ptr ptr c) Q s.
Proof.
  intros Hok Hh HQ. unfold rcu_uncache_ptr. destruct (Hh c) as (l & Hl & Hr).
  assert (forall r, ms c !! ptr = None -> Q r s) as Hnone.
  { intros r Hn. apply HQ; [done|by split|]. intros c'. by rewrite delete_id, at_cache_id. }
  destruct (Z.eqb_spec ptr 0) as [->|Hz].
  { wp_step. apply Hnone. by eapply records_zero. }
  apply wp_bind. eapply wp_conseq; [by eapply wp_find_slot|]. intros [[i a]|] s' [-> Hf].
  - destruct Hf as (Hi & t & p & Ht & Hp & <-%Z.eqb_eq). apply wp_bind.
    eapply (wp_replace c hs ms (delete (pi_ptr p) (ms c))); [done..| |].
    { intros l1 l2 Hrec. by apply records_clear. }
    intros s' Hok' [Ki Ks] Hh'. apply wp_bind, wp_on_cache. intros s'' En Et Ef Ei Ec. wp_step.
    apply HQ; [by eapply mt_ok_frame| |intros c'; by eapply held_frame].
    split; [congruence|]. intros c'. rewrite <- Ks, Ec. unfold at_cache. by case_decide; subst.
  - wp_step. apply Hnone. eapply records_none; [done|]. intros p Hp%Hf. lia.
Qed.

(** ** Initialisation *)

(** A head that is initialised joins the lists as an empty one. *)
Lemma mt_ok_head s hs c ns :
  mt_ok s hs -> hs !! TblList c = None -> rings ns (<[TblList c := []]> hs) ->
  mt_ok (set_node ns s) (<[TblList c := []]> hs).
Proof.
  intros [Hr Hh He Hd Hlen Hf] Hc Hr'. constructor; cbn; try done.
  - intros h l [[<- _]|[_ Hl]]%lookup_insert_Some; eauto.
  - intros h l x [[<- <-]|[_ Hl]]%lookup_insert_Some Hx; [by apply elem_of_nil in Hx|eauto].
  - intros i (h & l & Hl & Hin)%Hd. exists h, l. rewrite lookup_insert_ne; [done|]. intros <-. congruence.
Qed.

Lemma wp_init_ptr_cache c name hs s (Q : bool -> mtrace -> Prop) :
  mt_ok s hs -> hs !! TblList c = None ->
  (forall r s' l, mt_ok s' (<[TblList c := l]> hs) -> gs_mtrace_init_done s' = gs_mtrace_init_done s ->
     (forall c', stats (cache_at c' s') = at_cache c (0, 0, 0, 0) (fun c => stats (cache_at c s)) c') ->
     held s' (<[TblList c := l]> hs) c ∅ ->
     (forall c' m, c' <> c -> held s hs c' m -> held s' (<[TblList c := l]> hs) c' m) -> Q r s') ->
  wp (rcu_init_ptr_cache malloc_ok c name) Q s.
Proof.
  intros Hok Hc HQ. apply wp_bind, wp_on_cache. intros s1 En Et Ef Ei Ec.
  apply wp_bind, wp_modify, wp_bind, wp_zoom. cbn [mt_node set_node]. rewrite En.
  apply wp_init_list; [by rewrite lookup_insert_eq|]. intros ns Hns.
  assert (loose hs (TblList c)) as Hlo.
  { intros h l Hl [E|Hin]%elem_of_cons; [congruence|].
    by destruct (ok_entries _ _ Hok _ _ _ Hl Hin) as (? & ? & _). }
  apply (rings_init _ _ hs) in Hns; [|apply nodes_loose; [apply (ok_rings _ _ Hok)|done]|done].
  apply (mt_ok_frame s s1) in Hok; [|done..]. apply (mt_ok_head _ _ _ _ Hok Hc) in Hns as Hok2.
  set (s2 := set_node ns s1) in *.
  assert (held s2 (<[TblList c := []]> hs) c ∅) as Hc2.
  { exists []. rewrite lookup_insert_eq. split; [done|]. apply (records_empty 0). }
  assert (forall c' m, c' <> c -> held s hs c' m -> held s2 (<[TblList c := []]> hs) c' m) as Ho2.
  { intros c' m Hne (l & Hl & Hr). exists l. rewrite lookup_insert_ne by congruence. split; [done|].
    rewrite (infos_ext s s2); [done|]. intros; cbn; by rewrite Et. }
  assert (forall c', stats (cache_at c' s2) = at_cache c (0, 0, 0, 0) (fun c => stats (cache_at c s)) c') as Hst.
  { intros c'. trans (stats (cache_at c' s1)); [by destruct c'|]. rewrite Ec. unfold at_cache. by case_decide. }
  apply wp_bind. eapply wp_cre_ptr_tbl; [done|apply lookup_insert_eq|..].
  - intros _ s3 Hok3 Et3 [Ki Ks]. cbn [negb]. wp_step. apply (HQ _ _ []); [done|by rewrite Ki|intros c'; by rewrite Ks| |].
    + by eapply held_frame.
    + intros c' m Hne Hh. eapply held_frame; [done|]. by apply Ho2.
  - intros s3 i Hi Hok3 Et3 [Ki Ks].
    destruct (held_grow _ s3 _ c [] i Hok2 ltac:(apply lookup_insert_eq) Hi Et3) as [_ Hg].
    rewrite insert_insert_eq in *. cbn [app negb].
    apply wp_bind, wp_on_cache. intros s4 En4 Et4 Ef4 Ei4 Ec4. wp_step.
    apply (HQ _ _ [TblLink i]); [by eapply mt_ok_frame|by rewrite Ei4, Ki| | |].
    + intros c'. rewrite <- Hst, <- Ks, Ec4. unfold at_cache. by case_decide; subst.
    + eapply held_frame; [done|]. by apply Hg.
    + intros c' m Hne Hh. eapply held_frame; [done|]. by apply Hg, Ho2.
Qed.

(** ** Counting *)

Lemma total_perm l l' : l ≡ₚ l' -> total l = total l'.
Proof. unfold total. intros E. induction E; cbn; lia. Qed.

Lemma wp_count_tbl s t n z :
  n + Z.of_nat (length (contents t)) <= INT_MAX ->
  wp (foldM (fun _ => count_slot) t tt)
     (fun _ x => x = (s, (n + Z.of_nat (length (contents t)), u64 (z + total (contents t))))) (s, (n, u64 z)).
Proof.
  revert n z. induction t as [|p t IH]; intros n z Hn; cbn [foldM].
  - wp_step. cbn. by rewrite !Z.add_0_r.
  - rewrite contents_cons in *. unfold count_slot at 1. apply wp_bind. destruct (pi_used p).
    + rewrite length_app in Hn. cbn in Hn. apply wp_bind, wp_gets, wp_bind, wp_guard; [cbn; lia|]. apply wp_modify.
      cbn [fst snd]. replace (u64 (u64 z + pi_size p)) with (u64 (z + pi_size p))
        by (unfold wrap; by rewrite Zplus_mod_idemp_l).
      eapply wp_conseq; [apply IH; lia|]. intros _ x ->. rewrite length_app.
      do 2 f_equal; [cbn; lia|]. f_equal. unfold total. cbn. lia.
    + wp_step. apply IH. done.
Qed.

(** The counters grow by the number and the total size of the recorded pointers. *)
Lemma wp_count_leaks c hs m s (Q : Z * Z -> mtrace -> Prop) :
  mt_ok s hs -> held s hs c m -> Z.of_nat (size m) <= INT_MAX ->
  Q (Z.of_nat (size m), u64 (total (map_to_list m))) s ->
  wp (with_counters (0, 0) (count_leaks c)) Q s.
Proof.
  intros Hok (l & Hl & [_ Hn Hm]) Hle HQ.
  assert (contents (infos s l) ≡ₚ map_to_list m) as Hp by (rewrite <- Hm; symmetry; by apply map_to_list_to_map).
  assert (length (contents (infos s l)) = size m) as Hs by by rewrite Hp, length_map_to_list.
  rewrite <- (total_perm _ _ Hp), <- Hs in HQ.
  assert (wp (count_leaks c) (fun _ x => Q x.2 x.1) (s, (0, 0))) as Hw.
  2:{ unfold wp, with_counters in *. by destruct (count_leaks c _) as [? [??]|]. }
  apply wp_bind.
  apply (wp_traverse _ _ _ _ (fun d x => x = (s, (Z.of_nat (length (contents (infos s d))),
                                                   u64 (total (contents (infos s d)))))) l).
  - intros d x ->. by eapply mt_ring.
  - intros d x t y El ->. destruct (ok_entries _ _ Hok _ _ x Hl) as (i & -> & [tbl Ht]); [set_solver|].
    apply wp_bind, wp_zoom. eapply wp_as_tbl; [done|]. cbn [fst snd].
    assert (contents (infos s (d ++ [TblLink i])) = contents (infos s d) ++ contents tbl) as E.
    { rewrite infos_app, contents_app, infos_cons, Ht. cbn [default]. by rewrite app_nil_r. }
    assert (length (contents (infos s d)) + length (contents tbl) <= size m)%nat as Hlt.
    { rewrite <- Hs, El. rewrite (cons_middle (TblLink i)), app_assoc, infos_app, contents_app, length_app, E, length_app. lia. }
    apply wp_bind. eapply wp_conseq; [apply wp_count_tbl; lia|]. intros _ y ->. wp_step. split; [done|].
    rewrite E, length_app. do 2 f_equal; [lia|]. f_equal. clear. unfold total. induction (contents (infos s d)); cbn in *; lia.
  - intros x ->. wp_step. done.
  - done.
Qed.

(** ** Destruction *)

(** The first table [i] of a list, taken out of it and freed. *)
Lemma mt_ok_drop s hs c i t ns :
  mt_ok s (<[TblList c := TblLink i :: t]> hs) -> rings ns (<[TblList c := t]> hs) ->
  mt_ok (set_node (delete (TblLink i) ns) (set_tbl (delete i (mt_tbl s)) s)) (<[TblList c := t]> hs).
Proof.
  clear malloc_ok. intros Hok Hr. set (hs1 := <[TblList c := TblLink i :: t]> hs) in *.
  assert (hs1 !! TblList c = Some (TblLink i :: t)) as Hc by apply lookup_insert_eq.
  assert (forall h l, <[TblList c := t]> hs !! h = Some l -> exists l', hs1 !! h = Some l' /\ l ⊆ l') as Hsub.
  { intros h l [[<- <-]|[Hne Hl]]%lookup_insert_Some; [exists (TblLink i :: t); split; [done|set_solver]|].
    exists l. split; [|done]. subst hs1. by rewrite lookup_insert_ne. }
  assert (forall h l, <[TblList c := t]> hs !! h = Some l -> TblLink i ∉ l) as Hni.
  { intros h l Hl Hin. destruct (Hsub _ _ Hl) as (l' & Hl' & Hs).
    assert (h = TblList c) as -> by (eapply tbl_owner; [done|apply Hl'|apply Hc|by apply Hs|by left]).
    rewrite lookup_insert_eq in Hl. injection Hl as <-. destruct (mt_ring _ _ _ _ Hok Hc) as [_ Hd].
    rewrite !NoDup_cons in Hd. by destruct Hd as (_ & ? & _). }
  constructor; cbn.
  - eapply rings_frame, Hr. intros h l x Hl Hx. unfold nx, pv. rewrite lookup_delete_ne; [done|]. intros <-.
    apply elem_of_cons in Hx as [<-|Hx]; [|by eapply Hni].
    destruct (Hsub _ _ Hl) as (? & Hl' & _). by destruct (ok_heads _ _ Hok _ _ Hl').
  - intros h l (l' & Hl' & _)%Hsub. by eapply ok_heads.
  - intros h l x Hl Hx. destruct (Hsub _ _ Hl) as (l' & Hl' & Hs).
    destruct (ok_entries _ _ Hok _ _ x Hl' (Hs _ Hx)) as (j & -> & Hj). exists j. split; [done|].
    rewrite lookup_delete_ne; [done|]. intros <-. by eapply Hni.
  - intros j [u [Hne Hj]%lookup_delete_Some]. destruct (ok_dom _ _ Hok j) as (h & l & Hl & Hin); [by eexists|].
    destruct (decide (h = TblList c)) as [->|Hhc].
    + exists (TblList c), t. rewrite lookup_insert_eq. split; [done|]. simplify_eq. set_solver.
    + exists h, l. rewrite lookup_insert_ne by done. subst hs1. by rewrite lookup_insert_ne in Hl by done.
  - intros j u [_ Hj]%lookup_delete_Some. by eapply ok_len.
  - intros j [u [_ Hj]%lookup_delete_Some]. eapply ok_fresh; [done|]. by eexists.
Qed.

(** The first table of a list is unlinked, and the cursor is back at the head. *)
Lemma wp_unlink_tbl c hs x t s (Q : loc -> mtrace -> Prop) :
  mt_ok s (<[TblList c := x :: t]> hs) ->
  (forall s', mt_ok s' (<[TblList c := t]> hs) -> (forall i, x = TblLink i -> mt_tbl s' = delete i (mt_tbl s)) ->
     Q (TblList c) s') ->
  wp (unlink_tbl x) Q s.
Proof.
  clear malloc_ok. intros Hok HQ. assert (<[TblList c := x :: t]> hs !! TblList c = Some (x :: t)) as Hc by apply lookup_insert_eq.
  pose proof (mt_ring _ _ _ _ Hok Hc) as Hring. destruct (ring_neighbours _ _ [] x t Hring) as (Hp&Hn&_&Hb&N1&N2).
  destruct (ok_entries _ _ Hok _ _ x Hc) as (i & -> & [u Hu]); [by left|].
  apply wp_bind, wp_zoom, wp_load; [eapply ring_dom; [done|set_solver]|]. intros n En.
  assert (prev n = Some (TblList c)) as Epr by (unfold pv in Hp; by rewrite En in Hp).
  apply wp_bind, wp_zoom. rewrite Epr. apply wp_deref.
  apply wp_bind, wp_zoom. eapply (wp_remove_list (TblList c)); [done|done|by intros E; rewrite E in Hb|done| | |].
  1,2: eapply ring_dom; [done|]; set_solver.
  intros ns Hns. apply (rings_remove _ _ (<[TblList c := TblLink i :: t]> hs) (TblList c) [] (TblLink i) t) in Hns;
    [|apply (ok_rings _ _ Hok)|done].
  rewrite insert_insert_eq in Hns. apply wp_bind, wp_bind. eapply wp_as_tbl; [done|]. cbn [fst snd].
  apply wp_modify, wp_ret, HQ; [by apply (mt_ok_drop _ _ _ _ _ ns) in Hok|]. by intros j [= <-].
Qed.

Lemma wp_destroy_ptr_cache c hs l s (Q : bool -> mtrace -> Prop) :
  mt_ok s hs -> hs !! TblList c = Some l ->
  (forall s', mt_ok s' (delete (TblList c) hs) -> Q true s') ->
  wp (rcu_destroy_ptr_cache c) Q s.
Proof.
  intros Hok Hl HQ. apply wp_bind.
  apply (wp_drain _ _ _ _ (fun t s' => mt_ok s' (<[TblList c := t]> hs)) l).
  - intros t s' Hs'. eapply mt_ring; [done|]. apply lookup_insert_eq.
  - intros x t s' Hs'. apply wp_bind. eapply wp_unlink_tbl; [done|]. intros s2 Hs2 _. by wp_step.
  - intros s' [Hr Hh He Hd Hlen Hf]. wp_step. apply HQ. rewrite <- (delete_insert_eq hs (TblList c) []).
    constructor; try done.
    + by apply rings_delete.
    + intros h k [_ Hk]%lookup_delete_Some. eauto.
    + intros h k x [_ Hk]%lookup_delete_Some. eauto.
    + intros i (h & k & Hk & Hin)%Hd. exists h, k. rewrite lookup_delete_ne; [done|]. intros <-.
      rewrite lookup_insert_eq in Hk. simplify_eq. by apply elem_of_nil in Hin.
  - by rewrite insert_id.
Qed.

(** ** The tables keep the accounts *)

Definition tally (a : account) : Z * Z * Z * Z := (allocs a, frees a, largest a, allocated a).
Definition booked (s : mtrace) (b : book) : Prop :=
  match b with
  | None => gs_mtrace_init_done s = false /\ mt_ok s ∅
  | Some b =>
      gs_mtrace_init_done s = true /\ exists hs, mt_ok s hs /\
        (forall c, held s hs c (live (b c))) /\ (forall c, stats (cache_at c s) = tally (b c))
  end.

Lemma wp_init_mtrace b s (Q : bool -> mtrace -> Prop) :
  booked s b -> (forall s', booked s' (Some (opened b)) -> Q true s') -> wp (rcu_init_mtrace malloc_ok) Q s.
Proof.
  intros Hb HQ. apply wp_bind, wp_gets. destruct b as [b|].
  { pose proof Hb as [-> _]. wp_step. by apply HQ. }
  destruct Hb as [Hd Hok]. rewrite Hd. apply wp_bind.
  eapply (wp_init_ptr_cache Rcunit _ ∅); [done|apply lookup_empty|]. intros r1 s1 l1 Hok1 Hd1 St1 H1 _.
  apply wp_bind. eapply (wp_init_ptr_cache User _ _ s1); [done|by rewrite lookup_insert_ne|].
  intros r2 s2 l2 Hok2 Hd2 St2 H2 Ho. apply wp_bind, wp_modify. wp_step. apply HQ.
  split; [done|]. eexists. split; [by eapply mt_ok_frame; [..|apply Hok2]|]. split.
  - intros c. eapply held_frame; [reflexivity|]. destruct c; [by apply Ho|done].
  - intros c. trans (stats (cache_at c s2)); [by destruct c|]. rewrite St2. destruct c; [|done].
    unfold at_cache. rewrite decide_False by done. by rewrite St1.
Qed.

Lemma wp_ensure b s (Q : unit -> mtrace -> Prop) :
  booked s b -> (forall s', booked s' (Some (opened b)) -> Q tt s') -> wp (rcu_ensure_mtrace_init malloc_ok) Q s.
Proof.
  intros Hb HQ. apply wp_bind, wp_gets. destruct (gs_mtrace_init_done s) eqn:Hd; cbn [negb].
  - wp_step. destruct b; [by apply HQ|]. destruct Hb. congruence.
  - apply wp_bind. eapply wp_init_mtrace; [done|]. intros s' Hs'. wp_step. by apply HQ.
Qed.

Lemma booked_ext s b b' : (forall c, b' c = b c) -> booked s (Some b) -> booked s (Some b').
Proof.
  intros E (Hd & hs & Hok & Hh & Hst). split; [done|]. exists hs. split; [done|].
  split; intros c; rewrite E; auto.
Qed.

(** Updating the counters of cache [c]. *)
Lemma booked_counters b c f a s (Q : unit -> mtrace -> Prop) :
  booked s (Some b) -> live a = live (b c) ->
  (forall p, stats p = tally (b c) -> stats (f p) = tally a) ->
  (forall s', booked s' (Some (at_cache c a b)) -> Q tt s') -> wp (on_cache c f) Q s.
Proof.
  intros (Hd & hs & Hok & Hh & Hst) Ha Hf HQ. apply wp_on_cache. intros s' En Et Ef Ei Ec. apply HQ.
  split; [congruence|]. exists hs. split; [by eapply mt_ok_frame|]. split.
  - intros c'. eapply held_frame; [done|]. unfold at_cache. case_decide; subst; rewrite ?Ha; done.
  - intros c'. rewrite Ec. unfold at_cache. case_decide; subst; auto.
Qed.

Lemma wp_trace_alloc b ptr sz c s (Q : bool -> mtrace -> Prop) :
  booked s b ->
  (forall s' drop, (drop = true -> exists i, malloc_ok i = false) ->
     booked s' (Some (at_cache c (spec_alloc drop ptr sz (opened b c)) (opened b))) -> Q true s') ->
  wp (rcu_trace_alloc_impl malloc_ok ptr sz c) Q s.
Proof.
  intros Hb HQ. apply wp_bind. eapply wp_ensure; [done|]. clear s Hb. intros s Hb. set (b0 := opened b) in *.
  set (a := b0 c) in *. apply wp_bind.
  eapply (booked_counters b0 c _ (Account (live a) (u64 (allocs a + 1)) (frees a) (largest a) (allocated a)));
    [done|done|by unfold stats, tally; intros p [= -> -> -> ->]|]. clear s Hb.
  intros s (Hd & hs & Hok & Hh & Hst). apply wp_bind.
  eapply (wp_cache_ptr _ _ _ _ (fun c' => live (b0 c'))); [done| |].
  { intros c'. specialize (Hh c'). unfold at_cache in Hh. by case_decide; subst. }
  intros r s' hs' m Hok' [Ki Ks] Hm Hh'. apply wp_bind.
  eapply (booked_counters (at_cache c (Account m (u64 (allocs a + 1)) (frees a) (largest a) (allocated a)) b0) c _
    (Account m (u64 (allocs a + 1)) (frees a) (if largest a <? sz then sz else largest a) (u64 (allocated a + sz)))).
  - split; [congruence|]. exists hs'. split; [done|]. split; intros c'.
    + specialize (Hh' c'). unfold at_cache in *. by case_decide.
    + rewrite Ks, Hst. unfold at_cache. by case_decide.
  - unfold at_cache. by rewrite decide_True.
  - unfold at_cache. rewrite decide_True by done. unfold stats, tally. cbn. by intros p [= -> -> -> ->].
  - intros s'' Hb''. wp_step. apply (HQ _ (bool_decide (m <> cached ptr sz (live a)))).
    { rewrite bool_decide_eq_true. by destruct Hm as [?|[_ ?]]. }
    eapply booked_ext, Hb''. intros c'. rewrite at_cache_twice. unfold at_cache, spec_alloc.
    case_decide; [|done]. f_equal. case_bool_decide; [by destruct Hm as [?|[? _]]|].
    by destruct (decide (m = cached ptr sz (live a))).
Qed.

Lemma wp_trace_free b ptr c s (Q : bool -> mtrace -> Prop) :
  booked s b ->
  (forall s', booked s' (Some (at_cache c (spec_free ptr (opened b c)) (opened b))) -> Q true s') ->
  wp (rcu_trace_free_impl malloc_ok ptr c) Q s.
Proof.
  intros Hb HQ. apply wp_bind. eapply wp_ensure; [done|]. clear s Hb. intros s Hb. set (b0 := opened b) in *.
  set (a := b0 c) in *. apply wp_bind.
  eapply (booked_counters b0 c _ (Account (live a) (allocs a) (u64 (frees a + 1)) (largest a) (allocated a)));
    [done|done|by unfold stats, tally; intros p [= -> -> -> ->]|]. clear s Hb.
  intros s (Hd & hs & Hok & Hh & Hst). apply wp_bind.
  eapply (wp_uncache_ptr _ _ _ (fun c' => live (b0 c'))); [done| |].
  { intros c'. specialize (Hh c'). unfold at_cache in Hh. by case_decide; subst. }
  intros r s' Hok' [Ki Ks] Hh'. wp_step. apply HQ. split; [congruence|]. exists hs. split; [done|].
  split; intros c'.
  - specialize (Hh' c'). unfold at_cache in *. by case_decide.
  - rewrite Ks, Hst. unfold at_cache. by case_decide.
Qed.

Lemma wp_destroy_mtrace b s (Q : bool -> mtrace -> Prop) :
  booked s b -> (forall s', booked s' None -> Q (bool_decide (is_Some b)) s') -> wp rcu_destroy_mtrace Q s.
Proof.
  intros Hb HQ. apply wp_bind, wp_gets. destruct b as [b|].
  2:{ pose proof Hb as [-> _]. cbn [negb]. wp_step. by apply HQ. }
  destruct Hb as (-> & hs & Hok & Hh & _). cbn [negb]. destruct (Hh Rcunit) as (l1 & H1 & _), (Hh User) as (l2 & H2 & _).
  apply wp_bind. eapply wp_destroy_ptr_cache; [done|exact H1|]. intros s1 Hok1.
  apply wp_bind. eapply wp_destroy_ptr_cache; [done|by rewrite lookup_delete_ne|]. intros s2 Hok2.
  apply wp_bind, wp_modify. wp_step. apply HQ. split; [done|]. eapply (mt_ok_frame s2); [done..|].
  replace ∅ with (delete (TblList User) (delete (TblList Rcunit) hs)); [done|]. apply map_empty. intros h.
  destruct (delete _ _ !! h) as [l|] eqn:E; [|done].
  apply lookup_delete_Some in E as [N1 [N2 E]%lookup_delete_Some].
  by destruct (ok_heads _ _ Hok _ _ E) as [[] ->].
Qed.

(** Every account has at most [k] live pointers. *)
Definition small (k : nat) (b : book) : Prop := forall c, (size (live (opened b c)) <= k)%nat.

Lemma cached_size ptr sz m : (size (cached ptr sz m) <= S (size m))%nat.
Proof. unfold cached. case_match; [lia|]. rewrite map_size_insert. destruct (m !! ptr); unfold id; lia. Qed.

Lemma spec_step_small k drop o b mach : small k b -> small (S k) (spec_step drop o (b, mach)).2.1.
Proof.
  intros Hk. assert (small (S k) b) as Hb by (intros c; specialize (Hk c); lia). assert (small (S k) (Some (opened b))) as H0 by (intros c; specialize (Hk c); cbn; lia).
  assert (forall c a, (size (live a) <= S k)%nat -> small (S k) (Some (at_cache c a (opened b)))) as Hupd.
  { intros c a Ha c'. cbn. unfold at_cache. by case_decide; [|apply H0]. }
  assert (forall c d ptr sz, (size (live (spec_alloc d ptr sz (opened b c))) <= S k)%nat) as Ha.
  { intros c d ptr sz. specialize (Hk c). pose proof (cached_size ptr sz (live (opened b c))).
    cbn. destruct d; lia. }
  assert (forall c ptr, (size (live (spec_free ptr (opened b c))) <= S k)%nat) as Hf.
  { intros c ptr. specialize (Hk c). cbn. rewrite map_size_delete. destruct (_ !! ptr); unfold id; lia. }
  destruct o; cbn [spec_step fst snd]; auto; try (repeat case_match; auto).
  intros c. cbn. rewrite map_size_empty. lia.
Qed.

(** The accounts and the state of the machine. *)
Definition audited (s : memory) (x : book * bool) : Prop := booked (mm_tracer s) x.1 /\ mm_mach s = x.2.

Lemma wp_traced {A} (m : M mtrace A) (Q : A -> memory -> Prop) s :
  wp m (fun a t => Q a (Memory t (mm_mach s) (mm_heap s))) (mm_tracer s) -> wp (traced m) Q s.
Proof. intros Hw. by apply (wp_zoom mm_tracer (fun t s => Memory t (mm_mach s) (mm_heap s))). Qed.

Lemma wp_mem_init b mach (Q : unit -> memory -> Prop) s :
  audited s (b, mach) ->
  (forall s', audited s' (if mach then b else Some (opened b), true) -> mm_heap s' = mm_heap s -> Q tt s') ->
  wp (rcu_init malloc_ok) Q s.
Proof.
  intros [Hb Hm] HQ. cbn in Hb, Hm. apply wp_bind, wp_gets. rewrite Hm. destruct mach.
  - wp_step. by apply HQ.
  - apply wp_bind, wp_modify, wp_bind, wp_traced. eapply wp_init_mtrace; [done|]. intros t Ht. wp_step. by apply HQ.
Qed.

Lemma wp_check_leak b mach c (Q : leak_report -> memory -> Prop) s :
  audited s (b, mach) -> Z.of_nat (size (live (opened b c))) <= INT_MAX ->
  (forall s', audited s' (Some (opened b), true) -> mm_heap s' = mm_heap s -> Q (spec_report (opened b c)) s') ->
  wp (rcu_check_mem_leak_impl malloc_ok c) Q s.
Proof.
  intros Ha Hsz HQ. apply wp_bind, (wp_mem_init b mach); [done|]. intros s1 [Hb1 Hm1] Eh. cbn in Hb1, Hm1.
  apply wp_traced, wp_bind. eapply wp_ensure; [done|]. replace (opened (if mach then b else Some (opened b))) with (opened b) by (by destruct mach).
  intros s' Hs'. pose proof Hs' as (_ & hs & Hok & Hh & Hst).
  apply wp_bind. eapply wp_count_leaks; [done|apply Hh|apply Hsz|]. apply wp_bind, wp_gets. wp_step.
  specialize (Hst c). unfold stats, tally in Hst. injection Hst as -> -> -> ->. by apply HQ.
Qed.

(** An operation answers, and changes the accounts and the blocks in use, as
    specified. *)
Lemma wp_exec k b mach o h s :
  audited s (b, mach) -> small k b -> Z.of_nat k <= INT_MAX -> heap_step o (mm_heap s) = Some h ->
  wp (exec malloc_ok o) (fun a s' => exists drop, (drop = true -> exists i, malloc_ok i = false) /\
    a = (spec_step drop o (b, mach)).1 /\ audited s' (spec_step drop o (b, mach)).2 /\ mm_heap s' = h) s.
Proof.
  intros Ha Hk Hmax Hh. pose proof Ha as [Hb Hm]. cbn in Hb, Hm.
  assert (forall c, Z.of_nat (size (live (opened b c))) <= INT_MAX) as Hsz by (intros c; specialize (Hk c); lia).
  assert (opened (if mach then b else Some (opened b)) = opened b) as Eo by (by destruct mach).
  destruct o; cbn [exec spec_step fst snd]; cbn [heap_step] in Hh; try injection Hh as <-.
  - apply wp_bind, wp_traced. eapply wp_trace_alloc; [done|]. intros s' drop Hd Hs'. wp_step. by exists drop.
  - apply wp_bind, wp_traced. eapply wp_trace_free; [done|]. intros s' Hs'. wp_step. by exists false.
  - apply wp_bind, wp_bind, (wp_mem_init b mach); [done|]. intros s1 [Hb1 Hm1] Eh. cbn in Hb1, Hm1. cbv zeta.
    rewrite <- Eh in Hh. unfold rcu_native_malloc. destruct (addr =? 0).
    + injection Hh as <-. wp_steps. by exists false.
    + case_bool_decide; [done|]. injection Hh as <-. apply wp_bind, wp_modify, wp_bind, wp_bind, wp_traced.
      eapply wp_trace_alloc; [done|]. rewrite Eo. intros s' drop Hd Hs'. wp_steps. exists drop. by split_and!.
  - apply wp_bind. unfold rcu_free, rcu_native_free. destruct (addr =? 0).
    + injection Hh as <-. wp_steps. by exists false.
    + case_bool_decide as Hin; [|done]. injection Hh as <-. apply wp_bind, wp_bind, wp_traced.
      eapply wp_trace_free; [done|]. intros s' Hs'. wp_step. apply wp_bind, wp_gets, wp_bind, wp_guard; [by apply bool_decide_eq_true|].
      wp_steps. by exists false.
  - apply wp_bind, (wp_check_leak b mach); [done|done|]. intros s' Hs' Eh. wp_step. by exists false.
  - apply wp_bind, wp_traced, wp_bind, wp_bind. eapply wp_ensure; [done|]. intros s' Hs'. pose proof Hs' as (_ & hs & Hok & Hg & _).
    eapply wp_count_leaks; [done|apply Hg|apply Hsz|]. wp_step. wp_step. by exists false.
  - apply wp_bind, wp_traced. eapply wp_init_mtrace; [done|]. intros s' Hs'. wp_step. by exists false.
  - apply wp_bind, wp_traced. eapply wp_destroy_mtrace; [done|]. intros s' Hs'. wp_step. by exists false.
Qed.

Lemma wp_exec_all ops k x s :
  audited s x -> small k x.1 -> Z.of_nat (k + length ops) <= INT_MAX -> is_Some (heap_run ops (mm_heap s)) ->
  wp (exec_all malloc_ok ops) (fun r s' => exists l, l.*2 = ops /\
    (true ∈ l.*1 -> exists i, malloc_ok i = false) /\
    r = (spec_all l x).1 /\ audited s' (spec_all l x).2) s.
Proof.
  revert k x s. induction ops as [|o ops IH]; intros k [b mach] s Ha Hk Hmax Hh; cbn [exec_all].
  { wp_step. exists []. split; [done|]. split; [by intros ?%elem_of_nil|done]. }
  cbn in Hmax, Hh. destruct (heap_step o (mm_heap s)) as [h|] eqn:Eh; [|by destruct Hh].
  apply wp_bind. eapply wp_conseq; [apply (wp_exec k b mach o h); [done|done|lia|done]|].
  intros a s1 (drop & Hd & -> & Ha1 & <-). apply wp_bind.
  eapply wp_conseq; [apply (IH (S k)); [exact Ha1|by apply spec_step_small|lia|done]|].
  intros r s2 (l & <- & Hl & -> & Ha2). wp_step. exists ((drop, o) :: l). split; [done|]. split; [|done].
  cbn [fmap list_fmap fst]. intros [E|Hin]%elem_of_cons; [by apply Hd|by apply Hl].
Qed.

Lemma booked_zero : booked mt_zero None.
Proof.
  split; [done|]. constructor; try done.
  - by intros i [].
  - by intros i [].
Qed.

Lemma small_none : small 0 None.
Proof. intros c. done. Qed.

Lemma audited_zero : audited mem_zero (None, false).
Proof. split; [apply booked_zero|done]. Qed.
End Proofs.

(** ** Lost records hide leaks, they do not invent them *)

Definition within (a a' : account) : Prop := dom (live a) ⊆ dom (live a') /\ tally a = tally a'.
Definition below (b b' : book) : Prop := (is_Some b <-> is_Some b') /\ forall c, within (opened b c) (opened b' c).

Lemma dom_cached ptr sz (m : gmap Z Z) :
  dom (cached ptr sz m) = (if ptr =? 0 then ∅ else {[ptr]}) ∪ dom m.
Proof.
  unfold cached. destruct (ptr =? 0); cbn [orb]; [set_solver|]. case_bool_decide as Hp; [|by rewrite dom_insert_L].
  apply elem_of_dom in Hp. set_solver.
Qed.

Lemma within_alloc drop ptr sz a a' :
  within a a' -> within (spec_alloc drop ptr sz a) (spec_alloc false ptr sz a').
Proof.
  intros [Hd Ht]. unfold tally in Ht. injection Ht as E1 E2 E3 E4. split.
  - cbn. rewrite dom_cached. destruct drop; [|rewrite dom_cached]; set_solver.
  - unfold tally. cbn. by rewrite E1, E2, E3, E4.
Qed.

Lemma within_free ptr a a' : within a a' -> within (spec_free ptr a) (spec_free ptr a').
Proof.
  intros [Hd Ht]. unfold tally in Ht. injection Ht as E1 E2 E3 E4. split.
  - cbn. rewrite !dom_delete_L. set_solver.
  - unfold tally. cbn. by rewrite E1, E2, E3, E4.
Qed.

Lemma within_size a a' : within a a' -> (size (live a) <= size (live a'))%nat.
Proof. intros [Hd _]. rewrite <- !size_dom. by apply subseteq_size. Qed.

Definition also_below (x x' : book * bool) : Prop := below x.1 x'.1 /\ x.2 = x'.2.

Lemma below_step drop o x x' :
  also_below x x' ->
  no_more (spec_step drop o x).1 (spec_step false o x').1 /\ also_below (spec_step drop o x).2 (spec_step false o x').2.
Proof.
  destruct x as [b mach], x' as [b' mach']. intros [Hb Em]. cbn in Hb, Em. subst mach'. pose proof Hb as [Hi Hw].
  assert (below (Some (opened b)) (Some (opened b'))) as H0 by by split.
  assert (forall c a a', within a a' -> below (Some (at_cache c a (opened b))) (Some (at_cache c a' (opened b')))) as Hu.
  { intros c a a' Ha. split; [done|]. intros c'. cbn. unfold at_cache. by case_decide. }
  destruct o; cbn [spec_step fst snd no_more].
  - split; [done|]. split; [|done]. by apply Hu, within_alloc.
  - split; [done|]. split; [|done]. by apply Hu, within_free.
  - split; [done|]. split; [|done]. cbn. case_match; [by destruct mach|]. by apply Hu, within_alloc.
  - split; [done|]. split; [|done]. cbn. case_match; [done|]. by apply Hu, within_free.
  - split; [|done]. pose proof (within_size _ _ (Hw c)). destruct (Hw c) as [_ Ht]. unfold tally in Ht.
    injection Ht as E1 E2 E3 E4. cbn. split_and!; [lia|done..].
  - split; [|done]. pose proof (within_size _ _ (Hw Rcunit)). lia.
  - done.
  - split; [|by split]. f_equal. by apply bool_decide_ext.
Qed.

Lemma below_all l x x' :
  also_below x x' -> Forall2 no_more (spec_all l x).1 (spec_all ((fun o => (false, o)) <$> l.*2) x').1.
Proof.
  revert x x'. induction l as [|[drop o] l IH]; intros x x' Hb; [constructor|].
  destruct (below_step drop o _ _ Hb) as [Ha Hb']. cbn. constructor; [done|by apply IH].
Qed.

(** ** The theorems *)

Lemma undropped (l : list (bool * op)) : true ∉ l.*1 -> l = (fun o => (false, o)) <$> l.*2.
Proof.
  induction l as [|[[] o] l IH]; intros Hn; [done|by destruct Hn; left|]. cbn. f_equal. apply IH.
  intros Hin. apply Hn. by right.
Qed.

(** C35: The memory tracer is exact.  Take a sequence of at most INT_MAX calls:
    traced allocations and frees, of either cache, [rcu_malloc] and [rcu_free],
    leak checks, and initialisations and destructions of the tracer.  When the
    allocations of the tracer itself succeed, [malloc] gives out no block that is in
    use and the program frees only blocks that are, the sequence runs without
    undefined behaviour and answers what a finite map from live pointers to sizes
    answers: the number of leaks, their total size, and the counters of the
    report. *)
Theorem tracer_is_exact (malloc_ok : positive -> bool) (ops : list op) :
  (forall i, malloc_ok i = true) -> proper ops = true -> Z.of_nat (length ops) <= INT_MAX ->
  exists s, exec_all malloc_ok ops mem_zero = Ret (ideal ops) s.
Proof.
  intros Hm Hp%bool_decide_eq_true Hl.
  destruct (wp_elim _ _ _ (wp_exec_all malloc_ok ops 0 (None, false) _ audited_zero small_none Hl Hp))
    as (r & s & E & l & El & Hd & -> & _).
  exists s. rewrite E. unfold ideal. rewrite <- El, <- undropped; [done|]. intros [i Hi]%Hd. by rewrite Hm in Hi.
Qed.

(** The memory tracer invents no leak.  Whatever allocations of the tracer fail,
    the calls run without undefined behaviour, and against the exact answers
    every report counts at most as many leaks, with the same counters, and
    [rcu_has_mem_leak] is true only where the exact answer is. *)
Theorem tracer_invents_no_leak (malloc_ok : positive -> bool) (ops : list op) :
  proper ops = true -> Z.of_nat (length ops) <= INT_MAX ->
  exists r s, exec_all malloc_ok ops mem_zero = Ret r s /\ Forall2 no_more r (ideal ops).
Proof.
  intros Hp%bool_decide_eq_true Hl.
  destruct (wp_elim _ _ _ (wp_exec_all malloc_ok ops 0 (None, false) _ audited_zero small_none Hl Hp))
    as (r & s & E & l & <- & _ & -> & _).
  eexists _, s. split; [exact E|]. apply below_all. split; [|done]. split; [done|]. by intros c.
Qed.

(** The memory tracer leaks nothing itself.  Whatever ran before and whatever
    allocations failed, after [rcu_destroy_mtrace] every table that was allocated
    has been freed, each of them once: a second free would be undefined. *)
Theorem tracer_frees_its_tables (malloc_ok : positive -> bool) (ops : list op) :
  proper ops = true -> Z.of_nat (length ops) < INT_MAX ->
  exists r s, exec_all malloc_ok (ops ++ [Destroy]) mem_zero = Ret r s /\ mt_tbl (mm_tracer s) = ∅.
Proof.
  intros Hp%bool_decide_eq_true Hl.
  assert (forall h, is_Some (heap_run ops h) -> is_Some (heap_run (ops ++ [Destroy]) h)) as Hp'.
  { clear. induction ops as [|o ops IH]; intros h Hh; [done|]. cbn in Hh |- *. case_match; [by apply IH|done]. }
  destruct (wp_elim _ _ _ (wp_exec_all malloc_ok (ops ++ [Destroy]) 0 (None, false) _ audited_zero small_none
    ltac:(rewrite length_app; cbn; lia) (Hp' _ Hp))) as (r & s & E & l & El & _ & _ & Hb).
  exists r, s. split; [done|]. destruct l as [|[drop o] l _] using rev_ind; [by destruct ops|].
  rewrite fmap_app in El. apply app_inj_2 in El as [_ [= ->]]; [|done].
  assert (forall x, (spec_all (l ++ [(drop, Destroy)]) x).2.1 = None) as Hn.
  { clear. induction l as [|[d o] l IH]; intros x; [by destruct x|]. apply IH. }
  destruct Hb as [Hb _]. rewrite Hn in Hb. destruct Hb as [_ Hok]. apply map_empty. intros i.
  destruct (mt_tbl (mm_tracer s) !! i) eqn:Ei; [|done]. by destruct (ok_dom _ _ Hok i) as (? & ? & ? & _).
Qed.

(** ** The size [rcu_malloc] asks for *)

(** Below the last three sizes of [size_t], the size rounded up to a cell... *)
Lemma align_rounds_up size :
  0 <= size <= 2 ^ 64 - 4 ->
  let a := RCU_ALIGN_N RCU_SIZEOF_MEMCELL size in a mod 4 = 0 /\ size <= a < size + 4.
Proof.
  intros Hs. cbv zeta. unfold RCU_ALIGN_N, RCU_SIZEOF_MEMCELL.
  rewrite wrap_small by (unfold in_range; lia).
  assert (Z.land (size + 4 - 1) (2 ^ 64 - 1 - (4 - 1)) = (size + 3) / 4 * 4) as ->.
  { rewrite <- (Z.shiftr_div_pow2 _ 2), <- (Z.shiftl_mul_pow2 _ 2) by lia. apply Z.bits_inj'. intros n Hn.
    rewrite Z.land_spec, Z.shiftl_spec by done. replace (size + 4 - 1) with (size + 3) by lia.
    change (2 ^ 64 - 1 - (4 - 1)) with (Z.shiftl (Z.ones 62) 2). rewrite Z.shiftl_spec by done.
    destruct (decide (n < 2)) as [Hlt|Hge].
    - rewrite !(Z.testbit_neg_r _ (n - 2)) by lia. by rewrite andb_false_r.
    - rewrite Z.shiftr_spec by lia. replace (n - 2 + 2) with n by lia. destruct (decide (n < 64)) as [Hn64|Hn64].
      + rewrite Z.ones_spec_low by lia. apply andb_true_r.
      + assert (Z.testbit (size + 3) n = false) as ->; [|done]. apply Z.testbit_false; [lia|].
        rewrite Z.div_small; [done|]. assert (2 ^ 64 <= 2 ^ n) by (apply Z.pow_le_mono_r; lia). lia. }
  rewrite Z.mod_mul by lia. split; [done|]. pose proof (Z.div_mod (size + 3) 4). pose proof (Z.mod_pos_bound (size + 3) 4).
  lia.
Qed.

(** ... and for those three it wraps to 0: [rcu_malloc] of almost the whole
    address space succeeds with an empty block. *)
Lemma align_wraps size : 2 ^ 64 - 3 <= size < 2 ^ 64 -> RCU_ALIGN_N RCU_SIZEOF_MEMCELL size = 0.
Proof.
  intros Hs. unfold RCU_ALIGN_N, RCU_SIZEOF_MEMCELL, wrap.
  assert (size = 2 ^ 64 - 3 \/ size = 2 ^ 64 - 2 \/ size = 2 ^ 64 - 1) as [-> | [-> | ->]] by lia; done.
Qed.

(** ** Witnesses *)

(** A failed allocation initialises the tracer.  Forty blocks fill more than one
    table; all but two are freed.  The user's pointer is not rcunit's. *)
Definition toy_calls : list op :=
  [Malloc 8 0; Destroy; Destroy] ++
  ((fun i => Malloc (Z.of_nat i) (Z.of_nat (100 + i))) <$> seq 0 40) ++
  ((fun i => Free (Z.of_nat (100 + i))) <$> seq 0 38) ++
  [Free 0; HasLeak; CheckLeak Rcunit; TraceAlloc User 7 9; TraceAlloc User 7 1; CheckLeak User;
   Free 138; Free 139; HasLeak; CheckLeak User; Destroy; HasLeak; CheckLeak User].
Definition toy_reports (l : list answer) : list answer :=
  omap (fun a => match a with Reported _ | Leaks _ | Status _ => Some a | _ => None end) l.

Lemma tracer_is_exact_witness :
  exists r s, exec_all (fun _ => true) toy_calls mem_zero = Ret r s /\ toy_reports r =
    [Status true; Status false; Leaks true; Reported (Report 40 38 2 80 40 840); Status true; Status true;
     Reported (Report 2 0 1 9 9 10); Leaks false; Reported (Report 2 0 1 9 9 10); Status true; Leaks false;
     Reported (Report 0 0 0 0 0 0)].
Proof.
  destruct (tracer_is_exact (fun _ => true) toy_calls) as [s E]; [done|vm_compute; reflexivity|vm_compute; discriminate|].
  exists (ideal toy_calls), s. split; [exact E|]. vm_compute. reflexivity.
Defined.

(** Only the first table could be allocated. *)
Lemma tracer_invents_no_leak_witness :
  exists r s, exec_all (fun i => (i =? 1)%positive) toy_calls mem_zero = Ret r s /\
    Forall2 no_more r (ideal toy_calls) /\ toy_reports (ideal toy_calls) <> [].
Proof.
  destruct (tracer_invents_no_leak (fun i => (i =? 1)%positive) toy_calls) as (r & s & E & H);
    [vm_compute; reflexivity|vm_compute; discriminate|].
  exists r, s. split; [exact E|]. split; [exact H|]. vm_compute. discriminate.
Defined.

Lemma tracer_frees_its_tables_witness :
  exists r s, exec_all (fun _ => true) (toy_calls ++ [CheckLeak User; Destroy]) mem_zero = Ret r s /\ mt_tbl (mm_tracer s) = ∅.
Proof.
  destruct (tracer_frees_its_tables (fun _ => true) (toy_calls ++ [CheckLeak User])) as (r & s & E & H);
    [vm_compute; reflexivity|vm_compute; reflexivity|].
  exists r, s. rewrite <- app_assoc in E. split; [exact E|exact H].
Defined.
