(* ===== verification/Compact.v ===== *)
(** * Compact: compacting and dumping the tables of the memory tracer

    [rcu_cmpct_ptr_tble] and the two dumps of [rcunit_mtrace.c].  Compaction moves
    the records of the first tables of a cache into the free slots of the last ones
    and frees the tables it has emptied.  Its call in [rcu_uncache_ptr] is switched
    off by [RCU_ENABLE_POINTER_TABLE_COMPACTION]; the theorems show what it does when
    it is called: it keeps every record of a cache of two tables, and it takes the
    list head for a table as soon as it has freed the first of three. *)

From S2P Require Import Prelude RcList Mtrace.

(** ** The dumps *)

(** The lines they print. *)
Inductive dump_line :=
  | CacheStart
  | CacheEnd
  | TableStart (i : positive)
  | TableEnd
  | Slot (a : nat) (used : bool) (ptr : Z).

Definition rcu_dump_ptr_tble (ptr_tbl : loc) : M mtrace (list dump_line) :=
  let! (i, tbl) := as_tbl ptr_tbl in
  ret (TableStart i :: imap (fun a p => Slot a (pi_used p) (pi_ptr p)) tbl ++ [TableEnd]).

(** The lines printed so far beside the state of the tracer. *)
Definition dump_cache : cache -> M (mtrace * list dump_line) unit := fun c =>
  let! _ := RCU_FOR_EACH_ENTRY (R := unit) (fun x => mt_node x.1) (TblList c) (fun cursor =>
    let! lines := zoom fst (fun y x => (y, x.2)) (rcu_dump_ptr_tble cursor) in
    modify (fun x => (x.1, x.2 ++ lines)) ;;;
    ret (inr cursor)) in
  modify (fun x => (x.1, x.2 ++ [CacheEnd])).

Definition rcu_dump_ptr_cache (c : cache) : M mtrace (list dump_line) :=
  fun s => match dump_cache c (s, [CacheStart]) with Ret _ (s', lines) => Ret lines s' | UB => UB end.

(** ** Compaction *)

(** The locals of the loop over the slots of the source table. *)
Record moving := Moving {
  mv_src : list rcu_pointer_info; mv_dst : list rcu_pointer_info;
  src_tbl_empty : bool; moved_src_index : nat; moved_dst_index : nat
}.

(** Slot [a] of the source goes to the first free slot of the destination. *)
Definition move_slot (v : moving) (a : nat) : moving :=
  match mv_src v !! a with
  | Some p =>
      if negb (pi_used p) then Moving (mv_src v) (mv_dst v) (src_tbl_empty v) (moved_src_index v) 0 else
      match first_index (fun q => negb (pi_used q)) (mv_dst v) with
      | Some b => Moving (<[a := PtrInfo 0 (pi_size p) false]> (mv_src v)) (<[b := p]> (mv_dst v)) false a b
      | None => Moving (mv_src v) (mv_dst v) false (moved_src_index v) 0
      end
  | None => v
  end.

Definition move_slots (src dst : list rcu_pointer_info) : moving :=
  foldl move_slot (Moving src dst true 0 0) (seq 0 rcu_pointer_table_SIZE).

(** One turn of the loop over the tables.  [RCU_RESTORE_CURSOR] leaves the cursor
    before the table that was freed, and nothing advances it. *)
Definition cmpct_turn (src_cursor dst_cursor : loc) : M mtrace (loc * loc) :=
  let! (i, src) := as_tbl src_cursor in
  let! (j, dst) := as_tbl dst_cursor in
  rcu_dump_ptr_tble src_cursor ;;;
  rcu_dump_ptr_tble dst_cursor ;;;
  let v := move_slots src dst in
  modify (fun s => set_tbl (<[j := mv_dst v]> (<[i := mv_src v]> (mt_tbl s))) s) ;;;
  rcu_dump_ptr_tble src_cursor ;;;
  rcu_dump_ptr_tble dst_cursor ;;;
  let! src_cursor := if src_tbl_empty v || (moved_src_index v =? rcu_pointer_table_SIZE - 1)%nat
                     then unlink_tbl src_cursor else ret src_cursor in
  let! dst_cursor := if (moved_dst_index v =? 0)%nat || (moved_dst_index v =? rcu_pointer_table_SIZE - 1)%nat
                     then let! n := nodes_do (load dst_cursor) in nodes_do (deref (prev n))
                     else ret dst_cursor in
  ret (src_cursor, dst_cursor).

Fixpoint cmpct_loop (fuel : nat) (src_cursor dst_cursor : loc) : M mtrace unit :=
  if decide (src_cursor = dst_cursor) then ret tt else
  match fuel with
  | O => undefined
  | S fuel =>
      let! c := cmpct_turn src_cursor dst_cursor in
      cmpct_loop fuel c.1 c.2
  end.

(** A turn frees a table or moves the destination back, which no list allows more
    often than it has nodes. *)
Definition rcu_cmpct_ptr_tble (c : cache) : M mtrace bool :=
  let! p := gets (cache_at c) in
  (if 1 <? nr_ptr_tbl p then
     rcu_dump_ptr_cache c ;;;
     let! h := nodes_do (load (TblList c)) in
     let! src_cursor := nodes_do (deref (next h)) in
     let! dst_cursor := nodes_do (deref (prev h)) in
     let! fuel := gets (fun s => 2 * size (mt_node s))%nat in
     cmpct_loop fuel src_cursor dst_cursor
   else ret tt) ;;;
  rcu_dump_ptr_cache c ;;;
  ret true.

(** ** Dumping reads *)

(** The lines of the tables in [l]. *)
Definition table_lines (s : mtrace) (l : list loc) : list dump_line :=
  l ≫= fun x => match x with
    | TblLink i => TableStart i :: imap (fun a p => Slot a (pi_used p) (pi_ptr p)) (default [] (mt_tbl s !! i)) ++ [TableEnd]
    | TblList _ => []
    end.

Lemma wp_dump_ptr_tble s i t (Q : list dump_line -> mtrace -> Prop) :
  mt_tbl s !! i = Some t -> Q (table_lines s [TblLink i]) s -> wp (rcu_dump_ptr_tble (TblLink i)) Q s.
Proof.
  intros Ht HQ. apply wp_bind. eapply wp_as_tbl; [done|]. wp_step. unfold table_lines in HQ. cbn in HQ.
  rewrite Ht, app_nil_r in HQ. done.
Qed.

Lemma wp_dump_ptr_cache c hs l s (Q : list dump_line -> mtrace -> Prop) :
  mt_ok s hs -> hs !! TblList c = Some l -> Q (CacheStart :: table_lines s l ++ [CacheEnd]) s ->
  wp (rcu_dump_ptr_cache c) Q s.
Proof.
  intros Hok Hl HQ.
  assert (wp (dump_cache c) (fun _ x => Q x.2 x.1) (s, [CacheStart])) as Hw.
  2:{ unfold wp, rcu_dump_ptr_cache in *. by destruct (dump_cache c _) as [? [??]|]. }
  apply wp_bind.
  apply (wp_traverse _ _ _ _ (fun d x => x = (s, CacheStart :: table_lines s d)) l).
  - intros d x ->. by eapply mt_ring.
  - intros d x t y El ->. destruct (ok_entries _ _ Hok _ _ x Hl) as (i & -> & [tbl Ht]); [set_solver|].
    apply wp_bind, wp_zoom. eapply wp_dump_ptr_tble; [done|]. apply wp_bind, wp_modify. wp_step. split; [done|].
    cbn [fst snd]. unfold table_lines. by rewrite bind_app.
  - intros x ->. wp_step. done.
  - done.
Qed.

(** ** Moving slots *)

Lemma contents_insert l a old new :
  l !! a = Some old -> contents (<[a := new]> l) ++ contents [old] ≡ₚ contents l ++ contents [new].
Proof.
  intros Ha. pose proof (lookup_lt_Some _ _ _ Ha).
  rewrite <- (take_drop_middle l a old Ha) at 2. rewrite insert_take_drop by done.
  rewrite !contents_app, !(contents_cons _ (drop _ _)), !(contents_cons _ []). cbn [contents omap list_omap app].
  rewrite !app_nil_r. solve_Permutation.
Qed.

(** What moving slots keeps: the sizes of the tables and the pointers they record. *)
Definition same_records (v v' : moving) : Prop :=
  length (mv_src v') = length (mv_src v) /\ length (mv_dst v') = length (mv_dst v) /\
  contents (mv_src v' ++ mv_dst v') ≡ₚ contents (mv_src v ++ mv_dst v).

Lemma move_slot_records v a : same_records v (move_slot v a).
Proof.
  unfold same_records, move_slot. destruct (mv_src v !! a) as [p|] eqn:Ha; [|done].
  destruct (pi_used p) eqn:Hp; [|done]. cbn [negb].
  destruct (first_index _ (mv_dst v)) as [b|] eqn:Hb; [|done].
  apply first_index_Some in Hb as (q & Hq & Hu%negb_true_iff & _). cbn. rewrite !length_insert. split_and!; [done..|].
  pose proof (contents_insert _ _ _ (PtrInfo 0 (pi_size p) false) Ha) as E1.
  pose proof (contents_insert _ _ _ p Hq) as E2. rewrite !(contents_cons _ []), Hu in E2.
  rewrite !(contents_cons _ []) in E1. rewrite !contents_app. cbn [pi_used contents omap list_omap app] in E1, E2.
  rewrite ?app_nil_r in E1, E2. rewrite E2, <- E1. solve_Permutation.
Qed.

Lemma move_slots_records v l : same_records v (foldl move_slot v l).
Proof.
  revert v. induction l as [|a l IH]; intros v; [done|]. cbn. destruct (move_slot_records v a) as (E1 & E2 & E3).
  destruct (IH (move_slot v a)) as (F1 & F2 & F3). split_and!; [congruence..|by rewrite F3].
Qed.

(** The slots of the source outside [l] stay, and the index is of one of [l]. *)
Lemma moved_only v l (v' := foldl move_slot v l) :
  (forall b, b ∉ l -> mv_src v' !! b = mv_src v !! b) /\
  (moved_src_index v' = moved_src_index v \/ moved_src_index v' ∈ l).
Proof.
  subst v'. revert v. induction l as [|a l IH]; intros v; [by split; [|left]|]. cbn [foldl].
  destruct (IH (move_slot v a)) as [Hb Hm]. split.
  - intros b Hin. apply not_elem_of_cons in Hin as [Hne Hin]. rewrite (Hb b Hin). unfold move_slot.
    destruct (mv_src v !! a); [|done]. destruct (negb _); [done|]. destruct (first_index _ _); [|done].
    by apply list_lookup_insert_ne.
  - destruct Hm as [->|Hm]; [|right; by right]. unfold move_slot.
    destruct (mv_src v !! a); [|by left]. destruct (negb _); [by left|].
    destruct (first_index _ _); [right; by left|by left].
Qed.

(** A source that is reported empty was empty. *)
Lemma moved_nothing v l :
  src_tbl_empty (foldl move_slot v l) = true ->
  src_tbl_empty v = true /\ forall a p, a ∈ l -> mv_src v !! a = Some p -> pi_used p = false.
Proof.
  revert v. induction l as [|a l IH]; intros v E; [split; [done|]; by intros a p ?%elem_of_nil|].
  cbn [foldl] in E. apply IH in E as [E Hu]. unfold move_slot in E, Hu.
  destruct (mv_src v !! a) as [p|] eqn:Ha.
  2:{ split; [done|]. intros b q [->|Hq]%elem_of_cons Hb; [congruence|by eapply Hu]. }
  destruct (pi_used p) eqn:Hp; cbn [negb] in E, Hu; [by destruct (first_index _ _)|].
  split; [done|]. intros b q [->|Hq]%elem_of_cons Hb; [congruence|by eapply Hu].
Qed.

Lemma move_slots_unused src dst :
  Forall (fun p => pi_used p = false) src -> move_slots src dst = Moving src dst true 0 0.
Proof.
  intros Hs. unfold move_slots. induction (seq 0 _) as [|a l IH]; [done|]. cbn.
  unfold move_slot at 2. cbn. destruct (src !! a) as [p|] eqn:Ha; [|done].
  rewrite Forall_lookup in Hs. by rewrite (Hs _ _ Ha).
Qed.

Lemma contents_unused l : Forall (fun p => pi_used p = false) l -> contents l = [].
Proof. induction 1 as [|p l Hp _ IH]; [done|]. by rewrite contents_cons, Hp, IH. Qed.

Lemma moved_last n src dst p :
  src !! n = Some p -> pi_used p = false -> length src = S n -> n <> 0%nat ->
  let v := foldl move_slot (Moving src dst true 0 0) (seq 0 (S n)) in
  moved_dst_index v = 0%nat /\ (moved_src_index v =? n)%nat = false /\
  (src_tbl_empty v = true -> Forall (fun p => pi_used p = false) src).
Proof.
  intros Hlast Hp Hlen Hn. cbv zeta. split_and!.
  3:{ intros [_ Hu]%moved_nothing. apply Forall_lookup. intros a q Hq. apply (Hu a q); [|done].
      apply elem_of_seq. apply lookup_lt_Some in Hq. lia. }
  all: rewrite seq_S, foldl_snoc, Nat.add_0_l; destruct (moved_only (Moving src dst true 0 0) (seq 0 n)) as [Hb Hm].
  all: unfold move_slot at 1; rewrite (Hb n) by (rewrite elem_of_seq; lia); cbn [mv_src]; rewrite Hlast, Hp.
  { done. }
  cbn [negb moved_src_index] in *. apply Nat.eqb_neq. rewrite elem_of_seq in Hm. lia.
Qed.

(** When the last slot of the source is free, the destination cursor moves and the
    source is freed exactly when it had no record. *)
Lemma move_slots_last src dst p :
  src !! (rcu_pointer_table_SIZE - 1)%nat = Some p -> pi_used p = false ->
  length src = rcu_pointer_table_SIZE ->
  moved_dst_index (move_slots src dst) = 0%nat /\
  (moved_src_index (move_slots src dst) =? rcu_pointer_table_SIZE - 1)%nat = false /\
  (src_tbl_empty (move_slots src dst) = true -> Forall (fun p => pi_used p = false) src).
Proof. intros Hlast Hp Hlen. by apply (moved_last (rcu_pointer_table_SIZE - 1) src dst p). Qed.

Lemma move_slots_keep src dst (v := move_slots src dst) :
  length (mv_src v) = length src /\ length (mv_dst v) = length dst /\
  contents (mv_src v) ++ contents (mv_dst v) ≡ₚ contents src ++ contents dst.
Proof. rewrite <- !contents_app. apply (move_slots_records (Moving src dst true 0 0)). Qed.

#[local] Opaque move_slots.

Lemma set_node_id s : set_node (mt_node s) s = s.
Proof. by destruct s. Qed.

(** ** A turn *)

(** The links after a turn from the first table [i] to the table [j], which is the
    last, when the destination cursor moves: the source is the list head if [i] was
    freed, and the destination is the entry before [j]. *)
Lemma wp_cmpct_turn c hs i j rest u t s (Q : loc * loc -> mtrace -> Prop) :
  mt_ok s (<[TblList c := TblLink i :: rest ++ [TblLink j]]> hs) ->
  mt_tbl s !! i = Some u -> mt_tbl s !! j = Some t -> i <> j ->
  let v := move_slots u t in
  let tbls := <[j := mv_dst v]> (<[i := mv_src v]> (mt_tbl s)) in
  let freed := src_tbl_empty v || (moved_src_index v =? rcu_pointer_table_SIZE - 1)%nat in
  moved_dst_index v = 0%nat ->
  (forall s' l, l = (if freed then rest else TblLink i :: rest) ++ [TblLink j] ->
     mt_ok s' (<[TblList c := l]> hs) -> mt_tbl s' = (if freed then delete i tbls else tbls) ->
     Q (if freed then TblList c else TblLink i, final (if freed then TblList c else TblLink i) rest) s') ->
  wp (cmpct_turn (TblLink i) (TblLink j)) Q s.
Proof.
  intros Hok Hu Ht Hij v tbls freed Hd HQ.
  destruct (move_slots_keep u t) as (Lu & Lt & _). fold v in Lu, Lt.
  set (s1 := set_tbl tbls s).
  assert (mt_ok s1 (<[TblList c := TblLink i :: rest ++ [TblLink j]]> hs)) as Hok1.
  { refine (mt_ok_tbl (set_tbl (<[i := mv_src v]> (mt_tbl s)) s) _ j t (mv_dst v) _ _ _); [by eapply mt_ok_tbl| |done].
    cbn. by rewrite lookup_insert_ne. }
  assert (mt_tbl s1 !! i = Some (mv_src v)) as Hi1 by (unfold s1, tbls; cbn; by rewrite lookup_insert_ne, lookup_insert_eq).
  assert (mt_tbl s1 !! j = Some (mv_dst v)) as Hj1 by (unfold s1, tbls; cbn; by rewrite lookup_insert_eq).
  apply wp_bind. eapply wp_as_tbl; [done|]. apply wp_bind. eapply wp_as_tbl; [done|].
  do 2 (apply wp_bind; eapply wp_dump_ptr_tble; [done|]). cbv zeta. fold v. apply wp_bind, wp_modify.
  change (set_tbl _ s) with s1. do 2 (apply wp_bind; eapply wp_dump_ptr_tble; [done|]). fold freed. apply wp_bind.
  assert (forall s2 l x, mt_ok s2 (<[TblList c := l ++ [TblLink j]]> hs) ->
    mt_tbl s2 = (if freed then delete i tbls else tbls) -> l = (if freed then rest else TblLink i :: rest) ->
    x = (if freed then TblList c else TblLink i) ->
    wp (let! dst_cursor := if (moved_dst_index v =? 0)%nat || (moved_dst_index v =? rcu_pointer_table_SIZE - 1)%nat
                     then let! n := nodes_do (load (TblLink j)) in nodes_do (deref (prev n))
                     else ret (TblLink j) in ret (x, dst_cursor)) Q s2) as Hrest.
  { intros s2 l x Hok2 Et El ->. rewrite Hd. cbn [Nat.eqb orb].
    pose proof (mt_ring _ _ _ _ Hok2 (lookup_insert_eq _ _ _)) as Hr.
    destruct (ring_neighbours _ _ l (TblLink j) [] Hr) as (Hp&_).
    apply wp_bind, wp_bind, wp_zoom, wp_load; [eapply ring_dom; [done|set_solver]|]. intros n En.
    assert (prev n = Some (final (TblList c) l)) as Ep by (unfold pv in Hp; by rewrite En in Hp).
    apply wp_zoom. rewrite Ep. apply wp_deref. wp_step.
    rewrite !set_node_id.
    replace (final (TblList c) l) with (final (if freed then TblList c else TblLink i) rest);
      [apply (HQ s2 (l ++ [TblLink j])); [by rewrite El|done..]|].
    subst l. destruct freed; [done|]. unfold final. rewrite last_cons. by destruct (last rest). }
  destruct freed eqn:Ef.
  - apply (wp_unlink_tbl c hs _ (rest ++ [TblLink j])); [done|]. intros s2 Hok2 E2.
    apply (Hrest s2 rest); [done| |done..]. by rewrite (E2 i).
  - wp_step. by apply (Hrest s1 (TblLink i :: rest)).
Qed.

(** Past the dump, compaction is the loop from the first table to the last. *)
Lemma cmpct_start c hs l s :
  mt_ok s hs -> hs !! TblList c = Some l -> 1 < nr_ptr_tbl (cache_at c s) ->
  rcu_cmpct_ptr_tble c s =
  (cmpct_loop (2 * size (mt_node s)) (first l (TblList c)) (final (TblList c) l) ;;;
   rcu_dump_ptr_cache c ;;; ret true) s.
Proof.
  intros Hok Hl Hn. pose proof (mt_ring _ _ _ _ Hok Hl) as [Hseg _].
  pose proof (seg_first _ _ _ _ Hseg) as Hnx. pose proof (seg_final _ _ _ _ Hseg) as Hpv.
  destruct (nx_dom _ _ _ Hnx) as [h Eh]. unfold nx, pv in *. rewrite Eh in Hnx, Hpv. cbn in Hnx, Hpv.
  destruct (wp_elim _ _ _ (wp_dump_ptr_cache c hs l s (fun _ s' => s' = s) Hok Hl eq_refl)) as (ls & ? & Ed & ->).
  assert (forall x : option loc, forall y, x = Some y -> nodes_do (deref x) s = Ret y s) as Hderef
    by (intros x y ->; unfold nodes_do, zoom; cbn; by rewrite set_node_id).
  assert (nodes_do (load (TblList c)) s = Ret h s) as Hload
    by (unfold nodes_do, zoom, load; rewrite Eh; by rewrite set_node_id).
  unfold rcu_cmpct_ptr_tble. rewrite (bind_run (gets _) _ s _ s eq_refl), (proj2 (Z.ltb_lt _ _) Hn).
  rewrite bind_assoc, (bind_run _ _ _ _ _ Ed), bind_assoc, (bind_run _ _ _ _ _ Hload), bind_assoc.
  rewrite (bind_run _ _ _ _ _ (Hderef _ _ Hnx)), bind_assoc, (bind_run _ _ _ _ _ (Hderef _ _ Hpv)), bind_assoc.
  done.
Qed.

Lemma size_ring (ns : nodes loc) h l : ring ns h l -> l <> [] -> exists n, (2 * size ns = S (S n))%nat.
Proof.
  intros Hr Hl. pose proof (ring_size _ _ _ Hr). destruct l; [done|]. cbn in *.
  exists (2 * size ns - 2)%nat. lia.
Qed.

(** C37: Compaction loses its place.  When the oldest of three or more tables holds
    no record, the first turn frees it and leaves the source cursor on the list
    head; the destination cursor is still on a table, so the loop goes on and
    reads the head as if it were a table. *)
Theorem compaction_loses_its_place s hs c i k rest j u :
  mt_ok s hs -> hs !! TblList c = Some (TblLink i :: k :: rest ++ [TblLink j]) ->
  mt_tbl s !! i = Some u -> Forall (fun p => pi_used p = false) u -> 1 < nr_ptr_tbl (cache_at c s) ->
  wp (cmpct_turn (TblLink i) (TblLink j))
     (fun x s' => x.1 = TblList c /\ x.2 ∈ k :: rest /\ cmpct_turn x.1 x.2 s' = UB) s /\
  rcu_cmpct_ptr_tble c s = UB.
Proof.
  intros Hok Hl Hu Hun Hn. pose proof (mt_ring _ _ _ _ Hok Hl) as Hr.
  destruct (ok_entries _ _ Hok _ _ (TblLink j) Hl) as (? & [= <-] & [t Ht]); [set_solver|].
  assert (i <> j) as Hij by (intros <-; destruct Hr as [_ Hd]; rewrite !NoDup_cons in Hd; set_solver).
  assert (wp (cmpct_turn (TblLink i) (TblLink j))
     (fun x s' => x.1 = TblList c /\ x.2 ∈ k :: rest /\ cmpct_turn x.1 x.2 s' = UB) s) as Hw.
  { apply (wp_cmpct_turn c hs i j (k :: rest) u t).
    - by rewrite insert_id.
    - done.
    - done.
    - done.
    - by rewrite move_slots_unused.
    - intros s' l _ Hok' _. rewrite move_slots_unused by done. cbn [src_tbl_empty orb fst snd].
      split; [done|]. split; [|done]. unfold final. rewrite last_cons.
      destruct (last rest) eqn:E; cbn; [right; by apply last_Some_elem_of|by left]. }
  split; [done|]. rewrite (cmpct_start _ hs _ _ Hok Hl Hn). cbn [first].
  destruct (size_ring _ _ _ Hr) as [n ->]; [done|].
  replace (final _ _) with (TblLink j) by (change (TblLink i :: k :: rest ++ [TblLink j])
    with ((TblLink i :: k :: rest) ++ [TblLink j]); by rewrite final_snoc).
  unfold bind at 1. cbn [cmpct_loop]. rewrite (decide_False (P := TblLink i = TblLink j)) by (by intros [= ?]).
  erewrite bind_ub; [done|exact Hw|]. intros x s' (-> & Hx & E). rewrite decide_False.
  - unfold bind. by rewrite E.
  - intros E'. rewrite <- E' in Hx. destruct Hr as [_ Hd]. rewrite NoDup_cons in Hd. set_solver.
Qed.

(** C36: Compaction of two tables keeps what they record.  When the last slot of the
    first table is free, compaction ends; the first table is freed exactly when it
    held no record, and the remaining tables record the same pointers and sizes. *)
Theorem compaction_keeps_records s hs c i j u p :
  mt_ok s hs -> hs !! TblList c = Some [TblLink i; TblLink j] -> mt_tbl s !! i = Some u ->
  u !! (rcu_pointer_table_SIZE - 1)%nat = Some p -> pi_used p = false -> 1 < nr_ptr_tbl (cache_at c s) ->
  wp (rcu_cmpct_ptr_tble c)
     (fun r s' => r = true /\ exists l, mt_ok s' (<[TblList c := l]> hs) /\
        l = (if decide (Forall (fun q => pi_used q = false) u) then [TblLink j] else [TblLink i; TblLink j]) /\
        contents (infos s' l) ≡ₚ contents (infos s [TblLink i; TblLink j])) s.
Proof.
  intros Hok Hl Hu Hlast Hp Hn. pose proof (mt_ring _ _ _ _ Hok Hl) as Hr.
  destruct (ok_entries _ _ Hok _ _ (TblLink j) Hl) as (? & [= <-] & [t Ht]); [set_solver|].
  assert (i <> j) as Hij by (intros <-; destruct Hr as [_ Hd]; rewrite !NoDup_cons in Hd; set_solver).
  destruct (move_slots_last u t p Hlast Hp (ok_len _ _ Hok _ _ Hu)) as (Hd & Hs & He).
  destruct (move_slots_keep u t) as (_ & _ & Hc).
  unfold wp at 1. rewrite (cmpct_start _ hs _ _ Hok Hl Hn). fold (wp (S := mtrace) (A := bool)).
  destruct (size_ring _ _ _ Hr) as [n ->]; [done|]. cbn [first]. change (final (TblList c) _) with (TblLink j).
  apply wp_bind. cbn [cmpct_loop]. rewrite (decide_False (P := TblLink i = TblLink j)) by (by intros [= ?]).
  apply wp_bind, (wp_cmpct_turn c hs i j [] u t); [by rewrite insert_id|done..|].
  rewrite Hs, orb_false_r. intros s' l -> Hok' Et. cbn [fst snd final last default].
  rewrite decide_True by done. wp_step. apply wp_bind. eapply wp_dump_ptr_cache; [done|apply lookup_insert_eq|].
  wp_step. split; [done|]. eexists. split; [done|].
  rewrite !infos_cons, Hu, Ht. cbn [default].
  destruct (src_tbl_empty _) eqn:Eu.
  - rewrite decide_True by auto. split; [done|]. cbn [app]. rewrite infos_cons, Et.
    rewrite lookup_delete_ne, lookup_insert_eq by done. cbn [default]. rewrite !contents_app, (app_assoc (contents u)), <- Hc.
    rewrite move_slots_unused by auto. cbn [mv_src mv_dst]. by rewrite (contents_unused u) by auto.
  - rewrite decide_False by (intros Hf; by rewrite move_slots_unused in Eu). split; [done|]. cbn [app].
    rewrite !infos_cons, Et, lookup_insert_ne, !lookup_insert_eq by done. cbn [default].
    by rewrite !contents_app, !app_assoc, Hc.
Qed.

(** ** Examples *)

(** A table whose first [n] slots record pointers from [a] on. *)
Definition toy_table (a : Z) (n : nat) : list rcu_pointer_info :=
  ((fun k => PtrInfo (a + Z.of_nat k) 8 true) <$> seq 0 n) ++ replicate (rcu_pointer_table_SIZE - n) empty_info.

(** Two tables, the first one with two records, and three tables, the first one empty. *)
Definition toy_two : mtrace :=
  Mtrace (<[TblList User := Node (Some (TblLink 1)) (Some (TblLink 2))]>
          (<[TblLink 1 := Node (Some (TblLink 2)) (Some (TblList User))]>
          {[TblLink 2 := Node (Some (TblList User)) (Some (TblLink 1))]}))
         (<[1%positive := toy_table 100 2]> {[2%positive := toy_table 200 3]})
         zero_cache (PtrCache 0 0 2 0 0 0 None) true 3.
Definition toy_three : mtrace :=
  Mtrace (<[TblList User := Node (Some (TblLink 1)) (Some (TblLink 3))]>
          (<[TblLink 1 := Node (Some (TblLink 2)) (Some (TblList User))]>
          (<[TblLink 2 := Node (Some (TblLink 3)) (Some (TblLink 1))]>
          {[TblLink 3 := Node (Some (TblList User)) (Some (TblLink 2))]})))
         (<[1%positive := toy_table 0 0]> (<[2%positive := toy_table 100 2]> {[3%positive := toy_table 200 3]}))
         zero_cache (PtrCache 0 0 3 0 0 0 None) true 4.

(** One list with every table in it. *)
Lemma mt_ok_single s c l :
  ring (mt_node s) (TblList c) l ->
  Forall (fun x => match x with TblLink i => is_Some (mt_tbl s !! i) | TblList _ => False end) l ->
  map_Forall (fun i t => length t = rcu_pointer_table_SIZE /\ (i < mt_fresh s)%positive /\ TblLink i ∈ l) (mt_tbl s) ->
  mt_ok s {[TblList c := l]}.
Proof.
  intros Hr Hl Ht. rewrite Forall_forall in Hl. constructor.
  - split.
    + by intros h k [<- <-]%lookup_singleton_Some.
    + by intros h k h' k' x [<- _]%lookup_singleton_Some [<- _]%lookup_singleton_Some.
  - intros h k [<- _]%lookup_singleton_Some. by eexists.
  - intros h k x [<- <-]%lookup_singleton_Some Hx. specialize (Hl x Hx). destruct x; [done|by eexists].
  - intros i [t Hi]. exists (TblList c), l. split; [apply lookup_singleton_eq|by apply (Ht i t)].
  - intros i t Hi. by apply (Ht i t).
  - intros i [t Hi]. by apply (Ht i t).
Qed.

Lemma toy_two_ok : mt_ok toy_two {[TblList User := [TblLink 1; TblLink 2]]}.
Proof.
  apply mt_ok_single; [|repeat constructor; by eexists|by apply (bool_decide_unpack _)].
  split; [by vm_compute|by apply (bool_decide_unpack _)].
Qed.
Lemma toy_three_ok : mt_ok toy_three {[TblList User := [TblLink 1; TblLink 2; TblLink 3]]}.
Proof.
  apply mt_ok_single; [|repeat constructor; by eexists|by apply (bool_decide_unpack _)].
  split; [by vm_compute|by apply (bool_decide_unpack _)].
Qed.

Lemma compaction_keeps_records_witness :
  wp (rcu_cmpct_ptr_tble User) (fun _ s' => exists l, contents (infos s' l) ≡ₚ
    [(100, 8); (101, 8); (200, 8); (201, 8); (202, 8)]) toy_two.
Proof.
  eapply wp_conseq.
  - apply (compaction_keeps_records toy_two _ User 1 2 (toy_table 100 2) empty_info toy_two_ok); reflexivity.
  - intros r s' (_ & l & _ & _ & E). by exists l.
Defined.

Lemma compaction_loses_its_place_witness : rcu_cmpct_ptr_tble User toy_three = UB.
Proof.
  apply (compaction_loses_its_place toy_three _ User 1 (TblLink 2) [] 3 (toy_table 0 0) toy_three_ok).
  - reflexivity.
  - reflexivity.
  - by apply (bool_decide_unpack _).
  - reflexivity.
Defined.
