(* ===== verification/RcHash.v ===== *)
(** * RcHash: creating a hash table

    [rcu_cre_hash_tbl] of [rcunit_hashtable.c], with the size macros of
    [rcunit_hashtable.h], on the traced allocator.  The hash functions of the same
    file are in RcMisc.  The function allocates a table and returns [NULL] on every
    path: the table is lost, and the tracer says so. *)

From S2P Require Import Prelude RcList Mtrace.

(** [size_t] arithmetic; [sizeof (rcu_hashtable)] is 24 and [sizeof (rcu_list)] 16. *)
Definition RCU_SIZEIN_MEMCELL (nbytes : Z) : Z := Z.shiftr (u64 (nbytes + 3)) 2.
Definition SIZEOF_RCU_HASHTABLE : Z := 24.
Definition SIZEOF_RCU_LIST : Z := 16.

(** [nr_bucket - 1] is computed in [int] and converted. *)
Definition RCU_SIZEOF_HASHTABLE (nr_bucket : Z) : Z :=
  u64 (RCU_SIZEIN_MEMCELL SIZEOF_RCU_HASHTABLE +
       u64 (RCU_SIZEIN_MEMCELL SIZEOF_RCU_LIST * u64 (nr_bucket - 1))).

(** The conversion of a [size_t] to [int]. *)
Definition to_int (z : Z) : Z := wrap 32 (z + 2 ^ 31) - 2 ^ 31.

(** The pointer it returns. *)
Definition rcu_cre_hash_tbl (malloc_ok : positive -> bool) (native : Z -> Z) (nr_bucket : Z) : M memory Z :=
  if nr_bucket =? 0 then ret 0 else
  guard (- 2 ^ 31 <? nr_bucket) ;;;
  let tbl_size := to_int (RCU_SIZEOF_HASHTABLE nr_bucket) in
  let! tbl := rcu_alloc_mem_cell malloc_ok native (u64 tbl_size) in
  if tbl =? 0 then ret 0 else ret 0.

Lemma to_int_small z : - 2 ^ 31 <= z < 2 ^ 31 -> to_int z = z.
Proof. intros Hz. unfold to_int. rewrite wrap_small by (unfold in_range; lia). lia. Qed.

(** The number of cells of a table of [n] buckets: one cell per four bytes. *)
Lemma hashtable_cells n : 0 < n < 2 ^ 28 -> to_int (RCU_SIZEOF_HASHTABLE n) = 4 * n + 2.
Proof.
  intros Hn. unfold RCU_SIZEOF_HASHTABLE.
  change (RCU_SIZEIN_MEMCELL SIZEOF_RCU_HASHTABLE) with 6. change (RCU_SIZEIN_MEMCELL SIZEOF_RCU_LIST) with 4.
  rewrite (wrap_small 64 (n - 1)), (wrap_small 64 (4 * _)), (wrap_small 64 (6 + _)) by (unfold in_range; lia).
  rewrite to_int_small by lia. lia.
Qed.

(** The size of the block in bytes: a cell has eight of them. *)
Definition table_bytes (n : Z) : Z := 8 * (4 * n + 2).

Lemma align_cells n : 0 < n < 2 ^ 28 -> RCU_ALIGN_N RCU_SIZEOF_MEMCELL (table_bytes n) = table_bytes n.
Proof.
  intros Hn. unfold table_bytes. destruct (align_rounds_up (8 * (4 * n + 2))) as [Hm Hr]; [lia|].
  set (a := RCU_ALIGN_N _ _) in *. apply Z.mod_divide in Hm as [k Hk]; lia.
Qed.

(** The report after one allocation. *)
Lemma lone_report m sz :
  m <> 0 -> 0 < sz < 2 ^ 64 -> spec_report (spec_alloc false m sz no_account) = Report 1 0 1 sz sz sz.
Proof.
  intros Hm Hsz. unfold spec_report, spec_alloc, cached, no_account. cbn [live allocs frees largest allocated].
  rewrite (proj2 (Z.eqb_neq m 0)), (proj2 (Z.ltb_lt 0 sz)) by lia. cbn [orb].
  rewrite lookup_empty, bool_decide_eq_false_2 by (by intros []). rewrite insert_empty, map_size_singleton.
  rewrite map_to_list_singleton. cbn [total foldr snd]. rewrite Z.add_0_r, !wrap_small by (unfold in_range; lia). done.
Qed.

(** No hash table is ever created.  [rcu_cre_hash_tbl] returns [NULL] even when
    memory is available, and the block it allocated, twice the size of the table, is
    reported as a leak. *)
Theorem hash_table_is_lost malloc_ok native n :
  (forall i, malloc_ok i = true) -> 0 < n < 2 ^ 28 -> native (table_bytes n) <> 0 ->
  exists s,
    (let! tbl := rcu_cre_hash_tbl malloc_ok native n in
     let! r := rcu_check_mem_leak_impl malloc_ok Rcunit in ret (tbl, r)) mem_zero =
    Ret (0, Report 1 0 1 (table_bytes n) (table_bytes n) (table_bytes n)) s.
Proof.
  intros Hm Hn Hp. set (m := native (table_bytes n)) in *.
  enough (wp (let! tbl := rcu_cre_hash_tbl malloc_ok native n in
     let! r := rcu_check_mem_leak_impl malloc_ok Rcunit in ret (tbl, r))
     (fun x _ => x = (0, Report 1 0 1 (table_bytes n) (table_bytes n) (table_bytes n))) mem_zero) as Hw.
  { apply wp_elim in Hw as (? & s & E & ->). by exists s. }
  pose proof (align_cells n Hn) as Ea. unfold table_bytes in Ea, m |- *. set (sz := 8 * (4 * n + 2)) in *.
  assert (0 < sz < 2 ^ 64) as Hsz by (subst sz; lia).
  apply wp_bind. unfold rcu_cre_hash_tbl. rewrite (proj2 (Z.eqb_neq n 0)) by lia.
  apply wp_bind, wp_guard; [apply Z.ltb_lt; lia|]. cbv zeta. rewrite hashtable_cells by done.
  rewrite (wrap_small 64 (4 * n + 2)) by (unfold in_range; lia). apply wp_bind.
  unfold rcu_alloc_mem_cell. rewrite (proj2 (Z.eqb_neq _ 0)) by lia.
  fold sz. rewrite (wrap_small 64 sz) by (unfold in_range; lia).
  apply wp_bind, (wp_mem_init malloc_ok None false); [apply audited_zero|]. intros s1 [Hb1 Hm1] Eh. cbn [fst snd] in Hb1, Hm1.
  cbv zeta. rewrite Ea. fold m. unfold rcu_native_malloc. rewrite (proj2 (Z.eqb_neq m 0)) by done.
  apply wp_bind, wp_modify, wp_bind, wp_bind, wp_traced. eapply wp_trace_alloc; [exact Hb1|]. intros s drop Hd Hb. wp_steps.
  assert (drop = false) as -> by (destruct drop; [|done]; destruct Hd as [i Hi]; [done|]; by rewrite Hm in Hi).
  rewrite (proj2 (Z.eqb_neq m 0)) by done. wp_step. apply wp_bind.
  eapply (wp_check_leak malloc_ok _ true); [split; [exact Hb|done]| |].
  { pose proof (spec_step_small 0 false (TraceAlloc Rcunit m sz) None false small_none Rcunit) as Hk. cbn in Hk |- *. unfold INT_MAX. lia. }
  intros s' _ _. wp_step. f_equal. by apply lone_report.
Qed.

Lemma hash_table_is_lost_witness :
  exists s, (let! tbl := rcu_cre_hash_tbl (fun _ => true) (fun _ => 4096) 10 in
     let! r := rcu_check_mem_leak_impl (fun _ => true) Rcunit in ret (tbl, r)) mem_zero =
    Ret (0, Report 1 0 1 336 336 336) s.
Proof. apply (hash_table_is_lost (fun _ => true) (fun _ => 4096) 10); done. Defined.
