(* ===== verification/RcMisc.v ===== *)
(** * RcMisc: the queue, the hash functions and the thread table of rcunit

    Parts of the framework that the run of a test program does not use
    (rcunit_queue.c, rcunit_hashtable.c, rcunit_thread.c).  The theorems are what
    the code does; in each of the three it is not what it means to do. *)

From S2P Require Import Prelude RcList.
Open Scope Z_scope.

(** ** The queue *)

Section Queue.
Context {loc : Type} `{Countable loc}.

Definition rcu_init_queue (queue : option loc) : M (nodes loc) unit := rcu_init_list queue.
Definition rcu_destroy_queue (queue : option loc) : M (nodes loc) unit := rcu_init_list queue.
Definition rcu_insert_queue (queue element : option loc) : M (nodes loc) unit := rcu_insert_list queue element.
Definition rcu_is_queue_empty (queue : option loc) : M (nodes loc) bool := rcu_is_list_empty queue.

(** [element] is uninitialised when the condition fails. *)
Definition rcu_remove_queue (queue : option loc) : M (nodes loc) (option loc) :=
  match queue with
  | None => undefined
  | Some q =>
      let! empty := rcu_is_list_empty (Some q) in
      if empty : bool then undefined else
      let! n := load q in
      ret (prev n)
  end.

(** A removal removes nothing: it returns the entry inserted last and leaves the
    queue as it is; from an empty queue it returns an indeterminate pointer. *)
Lemma remove_queue_removes_nothing (ns : nodes loc) (q : loc) (l : list loc) (e : loc) :
  (ring ns q (l ++ [e]) -> rcu_remove_queue (Some q) ns = Ret (Some e) ns) /\
  (ring ns q [] -> rcu_remove_queue (Some q) ns = UB).
Proof.
  unfold rcu_remove_queue, rcu_is_list_empty, bind, load, ret. split; intros [Hs Hd].
  - pose proof (seg_first _ _ _ _ Hs) as Hf. pose proof (seg_final _ _ _ _ Hs) as Hl. rewrite final_snoc in Hl.
    unfold nx, pv in Hf, Hl. destruct (ns !! q) as [n|] eqn:Eq; [|done]. cbn in Hf, Hl. rewrite Hf.
    rewrite bool_decide_false; [cbn; rewrite Eq; cbn; by rewrite Hl|]. intros [= E]. apply NoDup_cons in Hd as [Hd _]. apply Hd.
    destruct l as [|x l]; cbn in E; subst; set_solver.
  - pose proof (seg_first _ _ _ _ Hs) as Hf. unfold nx in Hf. destruct (ns !! q) as [n|]; [|done]. cbn in Hf.
    rewrite Hf. by rewrite bool_decide_true.
Qed.
End Queue.

(** ** The hash functions *)

(** [int] arithmetic: [None] is undefined.  A negative number is not shifted to
    the left, and shifted to the right with its sign. *)
Definition int_of (z : Z) : option Z := if (- 2 ^ 31 <=? z) && (z <? 2 ^ 31) then Some z else None.
Definition int_shl (x k : Z) : option Z := if x <? 0 then None else int_of (x * 2 ^ k).
Definition add_shl (key k : Z) : option Z := y ← int_shl key k; int_of (key + y).
Definition xor_shr (key k : Z) : Z := Z.lxor key (Z.shiftr key k).

Definition rcu_gen_int32_hash_jenkins_impl (key : Z) : option Z :=
  key ← add_shl key 12;
  let key := xor_shr key 22 in
  key ← add_shl key 4;
  let key := xor_shr key 9 in
  key ← add_shl key 10;
  let key := xor_shr key 2 in
  key ← add_shl key 7;
  Some (xor_shr key 12).
Definition rcu_gen_int32_hash (key : Z) : option Z := rcu_gen_int32_hash_jenkins_impl key.

(** One step of the loop, on the character [c]. *)
Definition hash_step (hash c : Z) : option Z :=
  x ← int_shl hash 3;
  x ← int_of (x + hash);
  x ← int_shl x 2;
  x ← int_of (x + hash);
  int_of (x + c).
(** The characters up to the terminator, as [char] values. *)
Fixpoint str_hash (hash : Z) (strz : list Z) : option Z :=
  match strz with
  | [] => Some hash
  | _ :: rest => h ← hash_step hash (default 0 (head rest)); str_hash h rest
  end.
Definition rcu_gen_str_hash (strz : list Z) : option Z := str_hash 0 strz.

Lemma add_shl_spec x k : 0 <= k -> add_shl x k = if x <? 0 then None else int_of (x + x * 2 ^ k).
Proof.
  intros Hk. unfold add_shl, int_shl, int_of. destruct (Z.ltb_spec x 0) as [|Hx]; [done|].
  pose proof (Z.pow_pos_nonneg 2 k ltac:(lia) Hk).
  destruct (Z.ltb_spec (x * 2 ^ k) (2 ^ 31)).
  - rewrite andb_true_r. replace (- 2 ^ 31 <=? x * 2 ^ k) with true by (symmetry; apply Z.leb_le; nia). done.
  - rewrite andb_false_r. cbn. replace (x + x * 2 ^ k <? 2 ^ 31) with false by (symmetry; apply Z.ltb_ge; lia).
    by rewrite andb_false_r.
Qed.

Lemma xor_shr_half x k : 0 < x -> 0 < k -> x < 2 * xor_shr x k.
Proof.
  intros Hx Hk. unfold xor_shr. pose proof (Z.log2_spec x Hx) as [Hlo Hhi].
  set (n := Z.log2 x) in *. pose proof (Z.log2_nonneg x). fold n in H.
  assert (0 <= Z.lxor x (Z.shiftr x k)) as Hnn.
  { apply Z.lxor_nonneg. rewrite Z.shiftr_nonneg. lia. }
  assert (Z.testbit (Z.lxor x (Z.shiftr x k)) n = true) as Hb.
  { rewrite Z.lxor_spec, Z.shiftr_spec by done. unfold n. rewrite Z.bit_log2 by done.
    rewrite (Z.bits_above_log2 x) by (fold n; lia). done. }
  assert (2 ^ n <= Z.lxor x (Z.shiftr x k)) as Hge.
  { destruct (Z.le_gt_cases (2 ^ n) (Z.lxor x (Z.shiftr x k))) as [|Hlt]; [done|].
    exfalso. revert Hb. rewrite (proj2 (Z.testbit_false _ _ H)); [done|]. by rewrite Z.div_small. }
  rewrite Z.pow_succ_r in Hhi by done. lia.
Qed.

(** The integer hash is undefined for every key but 0: its sums overflow. *)
Theorem int32_hash_undefined (key : Z) : rcu_gen_int32_hash key = if key =? 0 then Some 0 else None.
Proof.
  destruct (Z.eqb_spec key 0) as [->|Hz]; [done|].
  assert (forall x k y, 0 <= k -> add_shl x k = Some y -> 0 <= x /\ y = x + x * 2 ^ k /\ y < 2 ^ 31) as Hadd.
  { intros x k y Hk. rewrite add_shl_spec by done. destruct (Z.ltb_spec x 0); [done|]. unfold int_of.
    destruct (_ && _) eqn:E; [|done]. apply andb_true_iff in E as [_ E%Z.ltb_lt]. by intros [= <-]. }
  destruct (decide (key = 1 \/ key = 2 \/ key = 3)) as [Hs|Hs]; [by destruct Hs as [-> | [-> | ->]]; vm_compute|].
  unfold rcu_gen_int32_hash, rcu_gen_int32_hash_jenkins_impl.
  destruct (add_shl key 12) as [k1|] eqn:E1; [|done]. cbn [mbind option_bind].
  apply Hadd in E1 as (P1 & E1 & _); [|lia]. pose proof (xor_shr_half k1 22). set (k1' := xor_shr k1 22) in *.
  destruct (add_shl k1' 4) as [k2|] eqn:E2; [|done]. cbn [mbind option_bind].
  apply Hadd in E2 as (P2 & E2 & _); [|lia]. pose proof (xor_shr_half k2 9). set (k2' := xor_shr k2 9) in *.
  destruct (add_shl k2' 10) as [k3|] eqn:E3; [|done]. cbn [mbind option_bind].
  apply Hadd in E3 as (P3 & E3 & _); [|lia]. pose proof (xor_shr_half k3 2). set (k3' := xor_shr k3 2) in *.
  destruct (add_shl k3' 7) as [k4|] eqn:E4; [|done]. apply Hadd in E4 as (P4 & E4 & B4); [|lia]. lia.
Qed.

(** The string hash does not look at the first character of the string. *)
Theorem str_hash_skips_first (a b : Z) (l : list Z) : rcu_gen_str_hash (a :: l) = rcu_gen_str_hash (b :: l).
Proof. done. Qed.

(** ** The thread table *)

(** [g_rcu_thread_list] and the link of a thread. *)
Inductive loc := ThreadList | ThreadLink (i : positive).
#[export] Instance loc_eq_dec : EqDecision loc.
Proof. solve_decision. Defined.
#[export] Instance loc_countable : Countable loc.
Proof.
  apply (inj_countable' (fun x => match x with ThreadList => None | ThreadLink i => Some i end)
                        (fun x => match x with None => ThreadList | Some i => ThreadLink i end)).
  by intros [].
Defined.

(** The threads by address, with their names; those that were joined. *)
Record threads := Threads {
  th_node : nodes loc;
  th_name : gmap positive string;
  g_rcu_threads_initialized : bool;
  th_fresh : positive;
  th_joined : list positive
}.
Definition set_th_node x (s : threads) : threads :=
  Threads x (th_name s) (g_rcu_threads_initialized s) (th_fresh s) (th_joined s).
Definition set_th_name x (s : threads) : threads :=
  Threads (th_node s) x (g_rcu_threads_initialized s) (th_fresh s) (th_joined s).
Definition set_th_init x (s : threads) : threads :=
  Threads (th_node s) (th_name s) x (th_fresh s) (th_joined s).
Definition set_th_fresh x (s : threads) : threads :=
  Threads (th_node s) (th_name s) (g_rcu_threads_initialized s) x (th_joined s).
Definition set_th_joined x (s : threads) : threads :=
  Threads (th_node s) (th_name s) (g_rcu_threads_initialized s) (th_fresh s) x.
Definition th_nodes {A} (m : M (nodes loc) A) : M threads A := zoom th_node set_th_node m.

Section Threads.
(** Whether the [i]-th [rcu_native_malloc] succeeds. *)
Context (malloc_ok : positive -> bool).

Definition rcu_init_threads : M threads unit :=
  let! done := gets g_rcu_threads_initialized in
  if done : bool then ret tt else
  th_nodes (rcu_init_list (Some ThreadList)) ;;;
  modify (set_th_init true).

Definition rcu_destroy_threads : M threads unit :=
  let! done := gets g_rcu_threads_initialized in
  if done : bool then modify (set_th_init false) else ret tt.

Definition rcu_init_thread (thread : option positive) : M threads unit :=
  match thread with
  | None => ret tt
  | Some i => th_nodes (rcu_init_list (Some (ThreadLink i)))
  end.

Definition name_at (c : loc) : M threads (positive * string) :=
  match c with
  | ThreadLink i => fun s => match th_name s !! i with Some n => Ret (i, n) s | None => UB end
  | ThreadList => undefined
  end.

Definition rcu_srch_thread_by_name (name : string) : M threads (option positive) :=
  RCU_FOR_EACH_ENTRY th_node ThreadList (fun c =>
    let! (i, n) := name_at c in
    ret (if bool_decide (n = name) then inl i else inr c)).

(** The thread is freed; its link stays in the list. *)
Definition rcu_destroy_thread (thread_addr : option (option positive)) : M threads unit :=
  rcu_init_threads ;;;
  match thread_addr with
  | None => undefined
  | Some None => ret tt
  | Some (Some i) =>
      name_at (ThreadLink i) ;;;
      modify (fun s => set_th_node (delete (ThreadLink i) (th_node s)) (set_th_name (delete i (th_name s)) s))
  end.

(** [pthread_create] starts the routine; its result is ignored. *)
Definition rcu_get_thread (name : option string) : M threads (option positive) :=
  rcu_init_threads ;;;
  match name with
  | None => ret None
  | Some n =>
      let! found := rcu_srch_thread_by_name n in
      match found with
      | Some i => ret (Some i)
      | None =>
          let! i := gets th_fresh in
          modify (set_th_fresh (Pos.succ i)) ;;;
          if malloc_ok i then
            modify (fun s => set_th_node (<[ThreadLink i := Node None None]> (th_node s)) s) ;;;
            rcu_init_thread (Some i) ;;;
            th_nodes (rcu_insert_list (Some ThreadList) (Some (ThreadLink i))) ;;;
            modify (fun s => set_th_name (<[i := n]> (th_name s)) s) ;;;
            ret (Some i)
          else ret None
      end
  end.

Definition rcu_stop_thread (thread : option positive) : M threads unit :=
  match thread with
  | None => ret tt
  | Some i =>
      let! (_, n) := name_at (ThreadLink i) in
      let! found := rcu_srch_thread_by_name n in
      match found with
      | None => ret tt
      | Some _ => modify (fun s => set_th_joined (th_joined s ++ [i]) s)
      end
  end.
End Threads.

(** *** Proofs *)

(** The table: a list of live threads with different names. *)
Record th_ok (s : threads) (l : list loc) : Prop := {
  th_ring : ring (th_node s) ThreadList l;
  th_live c : c ∈ l -> exists i n, c = ThreadLink i /\ th_name s !! i = Some n;
  th_distinct i j n : ThreadLink i ∈ l -> ThreadLink j ∈ l -> th_name s !! i = Some n -> th_name s !! j = Some n -> i = j;
  th_started : g_rcu_threads_initialized s = true;
  th_new i : is_Some (th_node s !! ThreadLink i) -> (i < th_fresh s)%positive;
}.

Lemma wp_srch_thread n l s :
  th_ok s l ->
  wp (rcu_srch_thread_by_name n) (fun r s' => s' = s /\
    match r with
    | Some i => ThreadLink i ∈ l /\ th_name s !! i = Some n
    | None => forall i, ThreadLink i ∈ l -> th_name s !! i <> Some n
    end) s.
Proof.
  intros Hok. apply (wp_traverse _ _ _ _ (fun d s' => s' = s /\ forall i, ThreadLink i ∈ d -> th_name s !! i <> Some n) l).
  - intros d s' [-> _]. apply Hok.
  - intros d c t s' El [-> Hd]. destruct (th_live _ _ Hok c) as (i & m & -> & Hi); [set_solver|].
    apply wp_bind. unfold wp at 1, name_at. rewrite Hi. wp_step. case_bool_decide as Hm.
    + subst m. split; [done|]. split; [set_solver|done].
    + split; [done|]. split; [done|]. intros j [Hj|Hj%list_elem_of_singleton]%elem_of_app; [by apply Hd|]. simplify_eq. congruence.
  - by intros s' [-> Hd].
  - split; [done|]. by intros i ?%elem_of_nil.
Qed.

Lemma wp_init_threads l s (Q : unit -> threads -> Prop) : th_ok s l -> Q tt s -> wp rcu_init_threads Q s.
Proof. intros Hok HQ. apply wp_bind, wp_gets. rewrite (th_started _ _ Hok). by wp_step. Qed.

(** A new thread joins the table. *)
Lemma th_ok_grow s l i n ns :
  th_ok s l -> i = th_fresh s -> (forall i, ThreadLink i ∈ l -> th_name s !! i <> Some n) ->
  ring ns ThreadList (l ++ [ThreadLink i]) -> dom ns = {[ThreadLink i]} ∪ dom (th_node s) ->
  th_ok (set_th_name (<[i := n]> (th_name s)) (set_th_node ns (set_th_fresh (Pos.succ i) s))) (l ++ [ThreadLink i]).
Proof.
  intros [Hr Hl Hx Hst Hf] Ei Hn Hr' Hdom.
  assert (forall j, ThreadLink j ∈ l -> <[i := n]> (th_name s) !! j = th_name s !! j) as Hold.
  { intros j Hj. apply lookup_insert_ne. intros <-. destruct Hr' as [_ [_ [_ [Hd _]]%NoDup_app]%NoDup_cons].
    apply (Hd _ Hj). by left. }
  split; cbn; [done| | |done|].
  - intros c [Hc | ->%list_elem_of_singleton]%elem_of_app; [|exists i, n; by rewrite lookup_insert_eq].
    destruct (Hl c Hc) as (j & m & -> & Hj). exists j, m. by rewrite Hold.
  - intros j k m [Hj|[= ->]%list_elem_of_singleton]%elem_of_app [Hk|[= ->]%list_elem_of_singleton]%elem_of_app;
      rewrite ?lookup_insert_eq, ?Hold by done; [by apply Hx| | |done].
    + intros E [= <-]. by destruct (Hn j Hj).
    + intros [= <-] E. by destruct (Hn k Hk).
  - intros j. rewrite <- elem_of_dom, Hdom, elem_of_union, elem_of_singleton, elem_of_dom.
    intros [[= ->]|Hj%Hf]; lia.
Qed.

Lemma wp_new_thread (malloc_ok : positive -> bool) n l s :
  th_ok s l -> (forall i, ThreadLink i ∈ l -> th_name s !! i <> Some n) -> malloc_ok (th_fresh s) = true ->
  wp (rcu_get_thread malloc_ok (Some n))
     (fun r s' => exists i, r = Some i /\ th_ok s' (l ++ [ThreadLink i]) /\ th_name s' !! i = Some n) s.
Proof.
  intros Hok Hn Hm. apply wp_bind. eapply wp_init_threads; [done|]. apply wp_bind.
  eapply wp_conseq; [by apply wp_srch_thread|]. intros [i|] s' [-> Hr]; [destruct Hr as [Hi Hi']; by destruct (Hn i)|].
  apply wp_bind, wp_gets, wp_bind, wp_modify. rewrite Hm. pose proof (th_ring _ _ Hok) as Hring.
  assert (ThreadLink (th_fresh s) ∉ ThreadList :: l) as Hi.
  { intros Hin. pose proof (ring_dom _ _ _ _ Hring Hin) as Hdom%(th_new _ _ Hok). lia. }
  apply wp_bind, wp_modify, wp_bind, wp_zoom. cbn [th_node set_th_node set_th_fresh].
  apply wp_init_list; [by rewrite lookup_insert_eq|]. intros ns1 [N1 P1 D1].
  assert (ring ns1 ThreadList l) as Hr1.
  { eapply ring_frame, Hring. intros x Hin. assert (x <> ThreadLink (th_fresh s)) by (intros ->; done).
    rewrite N1, P1, !decide_False by done. unfold nx, pv. by rewrite lookup_insert_ne. }
  rewrite dom_insert_L in D1. assert (is_Some (ns1 !! ThreadLink (th_fresh s))) as Hsome
    by (apply elem_of_dom; rewrite D1; set_solver).
  apply wp_bind, wp_zoom. apply (wp_insert_list ThreadList l); [done|done|done|]. intros ns2 Hlk.
  apply wp_bind, wp_modify. wp_step. eexists. split; [done|]. split; [|cbn; by rewrite lookup_insert_eq].
  apply (th_ok_grow s l _ n ns2); [done|done|done| |etrans; [apply (links_dom _ _ _ _ Hlk)|exact D1]].
  eapply (rings_ring _ (<[ThreadList := _]> {[ThreadList := l]})); [|by rewrite lookup_insert_eq].
  eapply rings_insert; [|by rewrite lookup_singleton_eq| |exact Hlk].
  - split; [by intros h k [<- <-]%lookup_singleton_Some|].
    by intros h k h' k' x [<- _]%lookup_singleton_Some [<- _]%lookup_singleton_Some.
  - by intros h k [<- <-]%lookup_singleton_Some.
Qed.

(** A thread is created once per name: a request returns a thread of that name,
    and repeating it returns the same thread and changes nothing. *)
Theorem get_thread_once (malloc_ok : positive -> bool) (n : string) (l : list loc) (s : threads) :
  th_ok s l -> malloc_ok (th_fresh s) = true ->
  exists i l' s', rcu_get_thread malloc_ok (Some n) s = Ret (Some i) s' /\ th_ok s' l' /\
    th_name s' !! i = Some n /\ rcu_get_thread malloc_ok (Some n) s' = Ret (Some i) s'.
Proof.
  intros Hok Hm.
  assert (forall s l i, th_ok s l -> ThreadLink i ∈ l -> th_name s !! i = Some n ->
    rcu_get_thread malloc_ok (Some n) s = Ret (Some i) s) as Hagain.
  { clear. intros s l i Hok Hi Hn.
    assert (wp (rcu_get_thread malloc_ok (Some n)) (fun r s' => r = Some i /\ s' = s) s) as Hw.
    { apply wp_bind. eapply wp_init_threads; [done|]. apply wp_bind.
      eapply wp_conseq; [by apply wp_srch_thread|]. intros [j|] s' [-> Hr]; [|by destruct (Hr i)].
      wp_step. split; [|done]. f_equal. destruct Hr. by eapply (th_distinct _ _ Hok). }
    by destruct (wp_elim _ _ _ Hw) as (? & ? & E & -> & ->). }
  destruct (wp_elim _ _ _ (wp_srch_thread n l s Hok)) as (r & s1 & _ & -> & Hr). destruct r as [i|].
  - destruct Hr as [Hi Hn]. exists i, l, s. split; [by eapply Hagain|]. split; [done|]. split; [done|by eapply Hagain].
  - destruct (wp_elim _ _ _ (wp_new_thread malloc_ok n l s Hok Hr Hm)) as (? & s' & E & i & -> & Hok' & Hn).
    exists i, (l ++ [ThreadLink i]), s'. split; [done|]. split; [done|]. split; [done|]. eapply Hagain; [done| |done].
    set_solver.
Qed.

(** The table of a process that asked for no thread yet. *)
Definition toy_threads : threads :=
  run_end (rcu_init_threads (Threads {[ThreadList := Node None None]} ∅ false 1 []))
          (Threads ∅ ∅ false 1 []).

Lemma toy_threads_ok : th_ok toy_threads [].
Proof.
  split; [|by intros c ?%elem_of_nil|by intros i j n ?%elem_of_nil|reflexivity|].
  - split; [vm_compute; by split|]. apply NoDup_singleton.
  - intros i. replace (th_node toy_threads) with ({[ThreadList := Node (Some ThreadList) (Some ThreadList)]} : nodes loc)
      by (vm_compute; reflexivity). rewrite lookup_singleton_ne by done. by intros [].
Qed.

Lemma get_thread_once_witness :
  exists i s', rcu_get_thread (fun _ => true) (Some "worker"%string) toy_threads = Ret (Some i) s' /\
    rcu_get_thread (fun _ => true) (Some "worker"%string) s' = Ret (Some i) s'.
Proof.
  destruct (get_thread_once (fun _ => true) "worker" [] toy_threads toy_threads_ok eq_refl)
    as (i & l' & s' & E & _ & _ & E').
  exists i, s'. split; [exact E|exact E'].
Defined.

(** A destroyed thread stays in the list: the next request reads freed memory. *)
Example destroyed_thread_dangles :
  (let! i := rcu_get_thread (fun _ => true) (Some "worker"%string) in
   rcu_destroy_thread (Some i) ;;;
   rcu_get_thread (fun _ => true) (Some "reader"%string)) toy_threads = UB.
Proof. vm_compute. reflexivity. Qed.
