(* ===== verification/RcRandom.v ===== *)
(** * Random numbers of rcunit (rcunit_random.c)

    [rcu_gen_random_number] scales what [rand] returns with floating point
    arithmetic.  Its operands are integers, so a [double] is an integer here, and
    the product is rounded to 53 bits, to the nearest and to even; the divisor is a
    power of two, so the division is exact.  [None] is undefined behaviour. *)

From S2P Require Import Prelude.

#[local] Open Scope Z_scope.

(** ** The code *)

Definition RAND_MAX : Z := 2 ^ 31 - 1.
Definition is_int (z : Z) : bool := (- 2 ^ 31 <=? z) && (z <? 2 ^ 31).

(** An integer of at most 53 bits is a [double]; others are rounded. *)
Definition round_double (x : Z) : Z :=
  let e := Z.log2 x - 52 in
  if e <=? 0 then x else
  let q := x / 2 ^ e in
  let r := x mod 2 ^ e in
  let half := 2 ^ (e - 1) in
  (if (half <? r) || ((half =? r) && Z.odd q) then q + 1 else q) * 2 ^ e.

(** The seed of [srand]: the time as an [int], taken as unsigned. *)
Definition rcu_init_random_number (t : Z) : Z := u32 t.

(** [r] is what [rand] returns. *)
Definition rcu_gen_random_number (min max r : Z) : option Z :=
  if max <? min then Some min else
  if negb (is_int (max - min)) then None else
  if negb (is_int (max - min + 1)) then None else
  let x := round_double ((max - min + 1) * r) / (RAND_MAX + 1) in
  if negb (is_int x && is_int (min + x)) then None else Some (min + x).

(** ** Rounding *)

Lemma is_int_true z : is_int z = true <-> - 2 ^ 31 <= z < 2 ^ 31.
Proof. unfold is_int. rewrite andb_true_iff, Z.leb_le, Z.ltb_lt. done. Qed.

Lemma round_double_exact x : 0 <= x < 2 ^ 53 -> round_double x = x.
Proof.
  intros Hx. unfold round_double. destruct (Z.leb_spec (Z.log2 x - 52) 0) as [|He]; [done|].
  destruct (decide (x = 0)) as [->|Hne]; [done|].
  assert (Z.log2 x < 53) by (apply Z.log2_lt_pow2; lia). lia.
Qed.

(** Rounding adds at most the 2^53rd part. *)
Lemma round_double_near x : 0 <= x -> 0 <= round_double x /\ 2 ^ 53 * (round_double x - x) <= x.
Proof.
  intros Hx. unfold round_double. set (e := Z.log2 x - 52). destruct (Z.leb_spec e 0) as [|He]; [lia|].
  assert (0 < x) as Hpos. { destruct (decide (x = 0)) as [->|]; [|lia]. unfold e in He. cbn in He. lia. }
  pose proof (Z.log2_spec x Hpos) as [Hlo _]. replace (Z.log2 x) with (52 + e) in Hlo by (unfold e; lia).
  rewrite Z.pow_add_r in Hlo by lia.
  assert (2 ^ e = 2 * 2 ^ (e - 1)) as Ep by (rewrite <- Z.pow_succ_r by lia; f_equal; lia).
  pose proof (Z.pow_pos_nonneg 2 (e - 1) ltac:(lia) ltac:(lia)) as Hp.
  pose proof (Z.div_mod x (2 ^ e) ltac:(lia)) as Hd. pose proof (Z.mod_pos_bound x (2 ^ e) ltac:(lia)) as Hm.
  pose proof (Z.div_pos x (2 ^ e) ltac:(lia) ltac:(lia)) as Hq.
  change (2 ^ 53) with (2 * 2 ^ 52). set (h := 2 ^ (e - 1)) in *. set (q := x / 2 ^ e) in *. set (r := x mod 2 ^ e) in *.
  rewrite Ep in *. set (c := 2 ^ 52) in *. assert (0 < c) by (unfold c; lia).
  destruct ((h <? r) || _) eqn:E.
  - assert (h <= r) by (apply orb_true_iff in E as [E%Z.ltb_lt|[E%Z.eqb_eq _]%andb_true_iff]; lia).
    split; [nia|]. assert ((q + 1) * (2 * h) - x <= h) by nia. nia.
  - split; [nia|]. assert (q * (2 * h) - x <= 0) by nia. nia.
Qed.

(** ** Properties *)

(** The generator stays in its range.  For bounds that are [int]s and whatever
    [rand] returns, the result is between the bounds, the rounding included; with
    the bounds the wrong way round it is the lower argument; and the difference of
    the bounds overflows exactly when the range has more numbers than an [int]. *)
Theorem random_number_in_range (min max r : Z) :
  - 2 ^ 31 <= min < 2 ^ 31 -> - 2 ^ 31 <= max < 2 ^ 31 -> 0 <= r <= RAND_MAX ->
  match rcu_gen_random_number min max r with
  | Some v => if max <? min then v = min else min <= v <= max
  | None => 2 ^ 31 <= max - min + 1
  end /\ (2 ^ 31 <= max - min + 1 -> rcu_gen_random_number min max r = None).
Proof.
  unfold RAND_MAX. intros Hmin Hmax Hr. unfold rcu_gen_random_number.
  destruct (Z.ltb_spec max min) as [|Hle]; [split; [done|lia]|].
  destruct (is_int (max - min)) eqn:E1; cbn [negb].
  2:{ split; [|done]. apply not_true_iff_false in E1. rewrite is_int_true in E1. lia. }
  destruct (is_int (max - min + 1)) eqn:E2; cbn [negb].
  2:{ split; [|done]. apply not_true_iff_false in E2. rewrite is_int_true in E2. lia. }
  rewrite is_int_true in E1, E2. change (RAND_MAX + 1) with (2 ^ 31). set (n := max - min + 1) in *.
  destruct (round_double_near (n * r) ltac:(nia)) as [Hx0 Hx1]. set (x := round_double (n * r)) in *.
  assert (x < n * 2 ^ 31) as Hx by nia.
  pose proof (Z.div_pos x (2 ^ 31) Hx0 ltac:(lia)). pose proof (Z.div_lt_upper_bound x (2 ^ 31) n ltac:(lia) ltac:(lia)).
  assert (is_int (x / 2 ^ 31) = true) as -> by (apply is_int_true; lia).
  assert (is_int (min + x / 2 ^ 31) = true) as -> by (apply is_int_true; lia).
  cbn [andb negb]. split; lia.
Qed.

(** C40: Without rounding: on ranges of up to 2^22 numbers the floating point formula is
    the integer formula [min + n * r / 2^31], and every number of the range is the
    result for some value of [rand]. *)
Theorem random_number_is_integer_scaling (min max : Z) :
  - 2 ^ 31 <= min -> min <= max < 2 ^ 31 -> max - min < 2 ^ 22 ->
  (forall r, 0 <= r <= RAND_MAX ->
     rcu_gen_random_number min max r = Some (min + (max - min + 1) * r / (RAND_MAX + 1))) /\
  (forall v, min <= v <= max -> exists r, 0 <= r <= RAND_MAX /\ rcu_gen_random_number min max r = Some v).
Proof.
  unfold RAND_MAX. intros Hmin Hmax Hn.
  assert (forall r, 0 <= r <= 2 ^ 31 - 1 ->
    rcu_gen_random_number min max r = Some (min + (max - min + 1) * r / (2 ^ 31 - 1 + 1))) as Hex.
  { intros r Hr. unfold rcu_gen_random_number, RAND_MAX. rewrite (proj2 (Z.ltb_ge max min)) by lia.
    rewrite (proj2 (is_int_true (max - min))), (proj2 (is_int_true (max - min + 1))) by lia. cbn [negb].
    rewrite round_double_exact by nia. set (n := max - min + 1).
    assert (0 <= n * r / (2 ^ 31 - 1 + 1) < n) as Hb.
    { split; [apply Z.div_pos; nia|]. apply Z.div_lt_upper_bound; nia. }
    rewrite !(proj2 (is_int_true _)) by lia. done. }
  split; [exact Hex|]. intros v Hv. set (n := max - min + 1) in *. set (d := v - min).
  pose proof (Z.div_mod (d * 2 ^ 31 + n - 1) n ltac:(lia)) as Hd.
  pose proof (Z.mod_pos_bound (d * 2 ^ 31 + n - 1) n ltac:(lia)) as Hm.
  set (r := (d * 2 ^ 31 + n - 1) / n) in *. set (k := (d * 2 ^ 31 + n - 1) mod n) in *.
  assert (0 <= r <= 2 ^ 31 - 1) as Hr. { assert (0 <= d <= n - 1) by (unfold d, n; lia). split; nia. }
  exists r. split; [done|]. rewrite (Hex r Hr). f_equal.
  enough (n * r / (2 ^ 31 - 1 + 1) = d) as -> by (unfold d; lia).
  symmetry. apply (Z.div_unique_pos _ _ _ (n * r - d * 2 ^ 31)); nia.
Qed.

Lemma random_number_in_range_witness :
  match rcu_gen_random_number (-5) 5 RAND_MAX with
  | Some v => if 5 <? -5 then v = -5 else -5 <= v <= 5
  | None => 2 ^ 31 <= 5 - -5 + 1
  end /\ (2 ^ 31 <= 5 - -5 + 1 -> rcu_gen_random_number (-5) 5 RAND_MAX = None).
Proof. apply (random_number_in_range (-5) 5 RAND_MAX); unfold RAND_MAX; lia. Defined.

Lemma random_number_is_integer_scaling_witness :
  (forall r, 0 <= r <= RAND_MAX -> rcu_gen_random_number 1 10 r = Some (1 + (10 - 1 + 1) * r / (RAND_MAX + 1))) /\
  (forall v, 1 <= v <= 10 -> exists r, 0 <= r <= RAND_MAX /\ rcu_gen_random_number 1 10 r = Some v).
Proof. apply (random_number_is_integer_scaling 1 10); lia. Defined.
