(* ===== verification/PeerTests.v ===== *)
(** * PeerTests: the unit tests of the repository, run in the model

    The bodies of the tests of tests/test_peer.c, and of those of
    tests/test_common.c that need no cryptography, translated to calls of the
    definitions of this library, and run by the model of the framework.

    A test is a computation on the state of peer.c that gives the outcomes of
    its assertions, each with its line.  What the assertions print is a
    parameter. *)

From S2P Require Import Prelude Replay Platform Crypto Handshake Hex Cidr Session RcList RcUnit RcDb RcRun RcSuite.
From Stdlib Require Import Ascii Strings.Byte.
Open Scope list_scope.
Open Scope Z_scope.

(** ** Assertions (rcunit_assert.h) *)

Definition RCU_ASSERT_TRUE (cond : bool) : bool := cond.
Definition RCU_ASSERT_FALSE (cond : bool) : bool := negb cond.
Definition RCU_ASSERT_NULL {A} (ptr : option A) : bool := match ptr with None => true | Some _ => false end.
Definition RCU_ASSERT_EQUAL (expected actual : Z) : bool := expected =? actual.
(** Elements of one array are known by their index. *)
Definition RCU_ASSERT_EQUAL_PTRS (expected : nat) (actual : option nat) : bool := bool_decide (actual = Some expected).
Definition RCU_ASSERT_EQUAL_STRING (expected actual : string) : bool := bool_decide (expected = actual).
Definition RCU_ASSERT_SAME_BYTE_ARRAY (array1 array2 : bytes) : bool := memcmp array1 array2 =? 0.

(** The status of a function that returns 0, with a result, or -1. *)
Definition rc {A} (o : option A) : Z := match o with Some _ => 0 | None => -1 end.
(** The prefix behind the pointer given to [parse_cidr], zero before the call. *)
Definition out (o : option ip_prefix) : ip_prefix := default prefix_zero o.

Section Bodies.
Context `{Env}.

Abbreviation test := (M world (list (Z * bool))).

(** ** Fixtures of test_peer.c *)

Definition reset_state : M world unit := mod_tab (fun t =>
  let tm := timers t in
  Tables (Timing REKEY_AFTER_SECS (cfg_reconnect_interval tm) (cfg_session_expiry tm) PREV_KEY_GRACE_SECS
            (cfg_handshake_timeout tm) (cfg_handshake_cooldown tm) (cfg_worker_threads tm))
    [] (replicate MAX_PEERS zero_session) 0 (replicate MAX_PEERS zero_pending)
    (precomp_eph_key t) (precomp_eph_pub t)).

Definition make_addr (ip : string) (port : Z) : sockaddr_in := SockAddr (default 0 (inet_pton (chars ip))) port.
Definition fill (len : nat) (v : byte) : bytes := replicate len v.

(** A zeroed session with the fields a test sets. *)
Definition a_session (is_active : bool) (a : sockaddr_in) (pub : bytes) (rs : list ip_prefix) : peer_session :=
  PeerSession is_active a pub zero_key zero_key false 0 0 0 0 0 false 0 replay_init rs false.
Definition a_config (pub : bytes) (rs : list ip_prefix) : peer_config :=
  PeerConfig pub rs false zero_addr EmptyString 0 0.

(** The first entries of [sessions], and [session_slots]. *)
Definition put_sessions (n : nat) (l : list peer_session) : M world unit :=
  mod_tab (fun t => set_session_slots n (set_sessions (l ++ drop (length l) (sessions t)) t)).

(** ** parse_cidr *)

Definition test_parse_cidr_basic : test :=
  let p := parse_cidr "10.9.0.0/24" in
  ret [(51, RCU_ASSERT_EQUAL 0 (rc p));
       (52, RCU_ASSERT_EQUAL 24 (prefix_len (out p)));
       (53, RCU_ASSERT_EQUAL 0x0A090000 (network (out p)));
       (54, RCU_ASSERT_EQUAL 0xFFFFFF00 (mask (out p)))].

Definition test_parse_cidr_no_prefix_defaults_to_32 : test :=
  let p := parse_cidr "10.9.0.5" in
  ret [(59, RCU_ASSERT_EQUAL 0 (rc p));
       (60, RCU_ASSERT_EQUAL 32 (prefix_len (out p)));
       (61, RCU_ASSERT_EQUAL 0xFFFFFFFF (mask (out p)));
       (62, RCU_ASSERT_EQUAL 0x0A090005 (network (out p)))].

Definition test_parse_cidr_zero_prefix : test :=
  let p := parse_cidr "0.0.0.0/0" in
  ret [(67, RCU_ASSERT_EQUAL 0 (rc p));
       (68, RCU_ASSERT_EQUAL 0 (prefix_len (out p)));
       (69, RCU_ASSERT_EQUAL 0 (mask (out p)));
       (70, RCU_ASSERT_EQUAL 0 (network (out p)))].

Definition test_parse_cidr_masks_host_bits : test :=
  let p := parse_cidr "10.9.0.5/24" in
  ret [(76, RCU_ASSERT_EQUAL 0 (rc p));
       (77, RCU_ASSERT_EQUAL 0x0A090000 (network (out p)))].

Definition test_parse_cidr_invalid_address_rejected : test :=
  ret [(82, RCU_ASSERT_EQUAL (-1) (rc (parse_cidr "not-an-ip/24")))].

Definition test_parse_cidr_prefix_too_large_rejected : test :=
  ret [(87, RCU_ASSERT_EQUAL (-1) (rc (parse_cidr "10.9.0.0/33")))].

Definition test_parse_cidr_negative_prefix_rejected : test :=
  ret [(92, RCU_ASSERT_EQUAL (-1) (rc (parse_cidr "10.9.0.0/-1")))].

(** ** check_allowed_src *)

Definition test_check_allowed_src_no_routes_allows_anything : test :=
  let s := zero_session in
  ret [(100, RCU_ASSERT_TRUE (check_allowed_src s 0x0A090005))].

Definition test_check_allowed_src_matching_route_allowed : test :=
  let s := a_session false zero_addr zero_key [out (parse_cidr "10.9.0.0/24")] in
  ret [(107, RCU_ASSERT_TRUE (check_allowed_src s 0x0A090005))].

Definition test_check_allowed_src_non_matching_route_rejected : test :=
  let s := a_session false zero_addr zero_key [out (parse_cidr "10.9.0.0/24")] in
  ret [(114, RCU_ASSERT_FALSE (check_allowed_src s 0x0A0A0005))].

Definition test_check_allowed_src_checks_all_configured_routes : test :=
  let s := a_session false zero_addr zero_key
             [out (parse_cidr "10.9.0.0/24"); out (parse_cidr "192.168.1.0/24")] in
  ret [(122, RCU_ASSERT_TRUE (check_allowed_src s 0xC0A80105))].

(** ** route_lookup *)

Definition test_route_lookup_picks_longest_prefix : test :=
  reset_state ;;;
  put_sessions 2 [a_session true zero_addr zero_key [out (parse_cidr "10.9.0.0/16")];
                  a_session true zero_addr zero_key [out (parse_cidr "10.9.0.0/24")]] ;;;
  let! t := tab in
  let r := route_lookup t 0x0A090005 in
  ret [(139, RCU_ASSERT_EQUAL_PTRS 1 r)].

Definition test_route_lookup_ignores_inactive_sessions : test :=
  reset_state ;;;
  put_sessions 1 [a_session false zero_addr zero_key [out (parse_cidr "10.9.0.0/24")]] ;;;
  let! t := tab in
  ret [(149, RCU_ASSERT_NULL (route_lookup t 0x0A090005))].

Definition test_route_lookup_no_match_returns_null : test :=
  reset_state ;;;
  put_sessions 1 [a_session true zero_addr zero_key [out (parse_cidr "192.168.1.0/24")]] ;;;
  let! t := tab in
  ret [(159, RCU_ASSERT_NULL (route_lookup t 0x0A090005))].

(** ** find_session_by_addr, find_session_by_pub *)

Definition test_find_session_by_addr_match : test :=
  reset_state ;;;
  put_sessions 1 [a_session true (make_addr "1.2.3.4" 5040) zero_key []] ;;;
  let q := make_addr "1.2.3.4" 5040 in
  let! t := tab in
  ret [(171, RCU_ASSERT_EQUAL_PTRS 0 (find_session_by_addr t q))].

Definition test_find_session_by_addr_port_mismatch_not_found : test :=
  reset_state ;;;
  put_sessions 1 [a_session true (make_addr "1.2.3.4" 5040) zero_key []] ;;;
  let q := make_addr "1.2.3.4" 9999 in
  let! t := tab in
  ret [(181, RCU_ASSERT_NULL (find_session_by_addr t q))].

Definition test_find_session_by_addr_skips_inactive : test :=
  reset_state ;;;
  put_sessions 1 [a_session false (make_addr "1.2.3.4" 5040) zero_key []] ;;;
  let q := make_addr "1.2.3.4" 5040 in
  let! t := tab in
  ret [(191, RCU_ASSERT_NULL (find_session_by_addr t q))].

Definition test_find_session_by_pub_match : test :=
  reset_state ;;;
  put_sessions 1 [a_session true zero_addr (fill DH_PUBKEY_LEN xab) []] ;;;
  let pub := fill DH_PUBKEY_LEN xab in
  let! t := tab in
  ret [(202, RCU_ASSERT_EQUAL_PTRS 0 (find_session_by_pub t pub))].

Definition test_find_session_by_pub_no_match : test :=
  reset_state ;;;
  put_sessions 1 [a_session true zero_addr (fill DH_PUBKEY_LEN xab) []] ;;;
  let pub := fill DH_PUBKEY_LEN xcd in
  let! t := tab in
  ret [(213, RCU_ASSERT_NULL (find_session_by_pub t pub))].

(** ** find_peer_config *)

Definition test_find_peer_config_match : test :=
  reset_state ;;;
  mod_tab (set_peer_configs [a_config (fill DH_PUBKEY_LEN x11) []]) ;;;
  let pub := fill DH_PUBKEY_LEN x11 in
  let! t := tab in
  ret [(225, RCU_ASSERT_EQUAL_PTRS 0 (find_peer_config t pub))].

Definition test_find_peer_config_no_match : test :=
  reset_state ;;;
  mod_tab (set_peer_configs [a_config (fill DH_PUBKEY_LEN x11) []]) ;;;
  let pub := fill DH_PUBKEY_LEN x22 in
  let! t := tab in
  ret [(235, RCU_ASSERT_NULL (find_peer_config t pub))].

(** ** alloc_session *)

(** The call, on the tables of the state. *)
Definition do_alloc_session (pub : bytes) (a : sockaddr_in) : M world (option nat) :=
  let! t := tab in
  let '(r, t') := alloc_session t pub a in
  mod_tab (fun _ => t') ;;; ret r.

Definition test_alloc_session_reuses_slot_by_pubkey : test :=
  reset_state ;;;
  put_sessions 1 [a_session true zero_addr (fill DH_PUBKEY_LEN xaa) []] ;;;
  let pub := fill DH_PUBKEY_LEN xaa in
  let addr := make_addr "5.6.7.8" 5040 in
  let! s := do_alloc_session pub addr in
  let! t := tab in
  ret [(251, RCU_ASSERT_EQUAL_PTRS 0 s);
       (252, RCU_ASSERT_EQUAL 1 (Z.of_nat (session_slots t)))].

Definition test_alloc_session_reuses_slot_by_addr_when_pub_unknown : test :=
  reset_state ;;;
  put_sessions 1 [a_session true (make_addr "5.6.7.8" 5040) (fill DH_PUBKEY_LEN xaa) []] ;;;
  let new_pub := fill DH_PUBKEY_LEN xbb in
  let addr := make_addr "5.6.7.8" 5040 in
  let! s := do_alloc_session new_pub addr in
  ret [(267, RCU_ASSERT_EQUAL_PTRS 0 s)].

Definition test_alloc_session_reuses_free_slot_before_growing : test :=
  reset_state ;;;
  put_sessions 2 [zero_session; a_session true (make_addr "9.9.9.9" 1) (fill DH_PUBKEY_LEN xaa) []] ;;;
  let pub := fill DH_PUBKEY_LEN xcc in
  let addr := make_addr "1.1.1.1" 5040 in
  let! s := do_alloc_session pub addr in
  let! t := tab in
  ret [(283, RCU_ASSERT_EQUAL_PTRS 0 s);
       (284, RCU_ASSERT_EQUAL 2 (Z.of_nat (session_slots t)))].

Definition test_alloc_session_grows_table_when_no_free_slot : test :=
  reset_state ;;;
  put_sessions 1 [a_session true (make_addr "9.9.9.9" 1) (fill DH_PUBKEY_LEN xaa) []] ;;;
  let pub := fill DH_PUBKEY_LEN xcc in
  let addr := make_addr "1.1.1.1" 5040 in
  let! s := do_alloc_session pub addr in
  let! t := tab in
  ret [(299, RCU_ASSERT_EQUAL_PTRS 1 s);
       (300, RCU_ASSERT_EQUAL 2 (Z.of_nat (session_slots t)))].

Definition test_alloc_session_table_full_returns_null : test :=
  reset_state ;;;
  put_sessions MAX_PEERS
    ((fun i => a_session true (make_addr "9.9.9.9" (1000 + Z.of_nat i)) (fill DH_PUBKEY_LEN (byte_of (Z.of_nat i))) [])
     <$> seq 0 MAX_PEERS) ;;;
  let pub := fill DH_PUBKEY_LEN xff in
  let addr := make_addr "1.1.1.1" 5040 in
  let! s := do_alloc_session pub addr in
  ret [(316, RCU_ASSERT_NULL s)].

(** ** session_init

    The session of these tests is a local variable; here it is slot 0. *)

Definition test_session_init_new_session_has_clean_state : test :=
  reset_state ;;;
  let pub := fill DH_PUBKEY_LEN x11 in
  let key := fill CRYPTO_KEY_LEN x22 in
  let addr := make_addr "10.0.0.1" 5040 in
  let cfg := a_config zero_key [out (parse_cidr "10.9.0.0/24")] in
  session_init 0 addr pub key (Some cfg) true ;;;
  let! s := session_at 0 in
  ret [(338, RCU_ASSERT_TRUE (active s));
       (339, RCU_ASSERT_FALSE (prev_key_active s));
       (340, RCU_ASSERT_EQUAL 0 (send_seq s));
       (341, RCU_ASSERT_EQUAL 0 (recv_seq_highest (replay s)));
       (342, RCU_ASSERT_FALSE (rekeying s));
       (343, RCU_ASSERT_TRUE (is_outbound s));
       (344, RCU_ASSERT_EQUAL 1 (Z.of_nat (length (routes s))));
       (345, RCU_ASSERT_SAME_BYTE_ARRAY pub (static_pub s));
       (346, RCU_ASSERT_SAME_BYTE_ARRAY key (session_key s))].

Definition test_session_init_rekey_preserves_previous_key : test :=
  reset_state ;;;
  let pub := fill DH_PUBKEY_LEN x11 in
  let key1 := fill CRYPTO_KEY_LEN xaa in
  let key2 := fill CRYPTO_KEY_LEN xbb in
  let addr := make_addr "10.0.0.1" 5040 in
  session_init 0 addr pub key1 None false ;;;
  upd_session 0 (set_send_seq 42) ;;;
  session_init 0 addr pub key2 None false ;;;
  let! s := session_at 0 in
  ret [(368, RCU_ASSERT_TRUE (prev_key_active s));
       (369, RCU_ASSERT_SAME_BYTE_ARRAY key1 (prev_session_key s));
       (370, RCU_ASSERT_SAME_BYTE_ARRAY key2 (session_key s));
       (371, RCU_ASSERT_EQUAL 0 (send_seq s))].

Definition test_session_init_no_cfg_clears_routes : test :=
  reset_state ;;;
  let pub := fill DH_PUBKEY_LEN x11 in
  let key := fill CRYPTO_KEY_LEN x22 in
  let addr := make_addr "10.0.0.1" 5040 in
  session_init 0 addr pub key None false ;;;
  let! s := session_at 0 in
  ret [(388, RCU_ASSERT_EQUAL 0 (Z.of_nat (length (routes s))))].

(** ** bytes_to_hex, hex_to_bytes *)

Definition test_bytes_to_hex_zeros : test :=
  ret [(16, RCU_ASSERT_EQUAL_STRING "00000000" (bytes_to_hex [x00; x00; x00; x00] 4))].
Definition test_bytes_to_hex_all_ff : test :=
  ret [(23, RCU_ASSERT_EQUAL_STRING "ffffffff" (bytes_to_hex [xff; xff; xff; xff] 4))].
Definition test_bytes_to_hex_known_value : test :=
  ret [(30, RCU_ASSERT_EQUAL_STRING "deadbeef" (bytes_to_hex [xde; xad; xbe; xef] 4))].
Definition test_bytes_to_hex_single_byte : test :=
  ret [(37, RCU_ASSERT_EQUAL_STRING "0a" (bytes_to_hex [x0a] 1))].

(** [bytes[i]] after the call; -1 stands for a byte that was not written. *)
Definition byte_at (o : option bytes) (i : nat) : Z :=
  match o with Some l => match l !! i with Some b => bval b | None => -1 end | None => -1 end.

Definition test_hex_to_bytes_known_value : test :=
  let r := hex_to_bytes "deadbeef" 4 in
  ret [(45, RCU_ASSERT_EQUAL 0 (rc r));
       (46, RCU_ASSERT_EQUAL 0xde (byte_at r 0));
       (47, RCU_ASSERT_EQUAL 0xad (byte_at r 1));
       (48, RCU_ASSERT_EQUAL 0xbe (byte_at r 2));
       (49, RCU_ASSERT_EQUAL 0xef (byte_at r 3))].
Definition test_hex_to_bytes_wrong_length : test :=
  let r := hex_to_bytes "dead" 4 in
  ret [(55, RCU_ASSERT_EQUAL (-1) (rc r))].
Definition test_hex_to_bytes_uppercase : test :=
  let r := hex_to_bytes "DEADBEEF" 4 in
  ret [(61, RCU_ASSERT_EQUAL 0 (rc r));
       (62, RCU_ASSERT_EQUAL 0xde (byte_at r 0));
       (63, RCU_ASSERT_EQUAL 0xad (byte_at r 1));
       (64, RCU_ASSERT_EQUAL 0xbe (byte_at r 2));
       (65, RCU_ASSERT_EQUAL 0xef (byte_at r 3))].
Definition test_hex_to_bytes_roundtrip : test :=
  let original := [x01; x23; x45; x67; x89; xab; xcd; xef] in
  let hex := bytes_to_hex original 8 in
  let r := hex_to_bytes hex 8 in
  ret [(74, RCU_ASSERT_EQUAL 0 (rc r));
       (75, RCU_ASSERT_SAME_BYTE_ARRAY original (default [] r))].

(** ** check_replay

    [highest] and [window] are zeroed local variables, [replay_init]. *)

Definition test_replay_sequential_packets_accepted : test :=
  let '(r1, st) := check_replay 1 replay_init in
  let '(r2, st) := check_replay 2 st in
  let '(r3, st) := check_replay 3 st in
  ret [(108, RCU_ASSERT_EQUAL 0 r1); (109, RCU_ASSERT_EQUAL 0 r2); (110, RCU_ASSERT_EQUAL 0 r3);
       (111, RCU_ASSERT_EQUAL 3 (recv_seq_highest st))].
Definition test_replay_duplicate_rejected : test :=
  let '(r1, st) := check_replay 5 replay_init in
  let '(r2, _) := check_replay 5 st in
  ret [(118, RCU_ASSERT_EQUAL 0 r1); (119, RCU_ASSERT_EQUAL (-1) r2)].
Definition test_replay_out_of_order_within_window_accepted : test :=
  let '(r1, st) := check_replay 100 replay_init in
  let '(r2, st) := check_replay 50 st in
  let '(r3, _) := check_replay 50 st in
  ret [(126, RCU_ASSERT_EQUAL 0 r1); (127, RCU_ASSERT_EQUAL 0 r2); (128, RCU_ASSERT_EQUAL (-1) r3)].
Definition test_replay_too_old_rejected : test :=
  let '(_, st) := check_replay 3000 replay_init in
  ret [(137, RCU_ASSERT_EQUAL (-1) (check_replay 1 st).1)].
Definition test_replay_boundary_just_inside_window : test :=
  let '(_, st) := check_replay 2048 replay_init in
  ret [(146, RCU_ASSERT_EQUAL 0 (check_replay 1 st).1)].
Definition test_replay_boundary_just_outside_window : test :=
  let '(_, st) := check_replay 2048 replay_init in
  ret [(155, RCU_ASSERT_EQUAL (-1) (check_replay 0 st).1)].
Definition test_replay_large_gap_resets_window : test :=
  let '(_, st) := check_replay 1 replay_init in
  let '(r, st) := check_replay 100000 st in
  ret [(164, RCU_ASSERT_EQUAL 0 r); (165, RCU_ASSERT_EQUAL 100000 (recv_seq_highest st));
       (167, RCU_ASSERT_EQUAL (-1) (check_replay 1 st).1)].

(** ** The programs *)

Definition peer_main : list (string * test) :=
  [("test_parse_cidr_basic"%string, test_parse_cidr_basic);
   ("test_parse_cidr_no_prefix_defaults_to_32"%string, test_parse_cidr_no_prefix_defaults_to_32);
   ("test_parse_cidr_zero_prefix"%string, test_parse_cidr_zero_prefix);
   ("test_parse_cidr_masks_host_bits"%string, test_parse_cidr_masks_host_bits);
   ("test_parse_cidr_invalid_address_rejected"%string, test_parse_cidr_invalid_address_rejected);
   ("test_parse_cidr_prefix_too_large_rejected"%string, test_parse_cidr_prefix_too_large_rejected);
   ("test_parse_cidr_negative_prefix_rejected"%string, test_parse_cidr_negative_prefix_rejected);
   ("test_check_allowed_src_no_routes_allows_anything"%string, test_check_allowed_src_no_routes_allows_anything);
   ("test_check_allowed_src_matching_route_allowed"%string, test_check_allowed_src_matching_route_allowed);
   ("test_check_allowed_src_non_matching_route_rejected"%string, test_check_allowed_src_non_matching_route_rejected);
   ("test_check_allowed_src_checks_all_configured_routes"%string, test_check_allowed_src_checks_all_configured_routes);
   ("test_route_lookup_picks_longest_prefix"%string, test_route_lookup_picks_longest_prefix);
   ("test_route_lookup_ignores_inactive_sessions"%string, test_route_lookup_ignores_inactive_sessions);
   ("test_route_lookup_no_match_returns_null"%string, test_route_lookup_no_match_returns_null);
   ("test_find_session_by_addr_match"%string, test_find_session_by_addr_match);
   ("test_find_session_by_addr_port_mismatch_not_found"%string, test_find_session_by_addr_port_mismatch_not_found);
   ("test_find_session_by_addr_skips_inactive"%string, test_find_session_by_addr_skips_inactive);
   ("test_find_session_by_pub_match"%string, test_find_session_by_pub_match);
   ("test_find_session_by_pub_no_match"%string, test_find_session_by_pub_no_match);
   ("test_find_peer_config_match"%string, test_find_peer_config_match);
   ("test_find_peer_config_no_match"%string, test_find_peer_config_no_match);
   ("test_alloc_session_reuses_slot_by_pubkey"%string, test_alloc_session_reuses_slot_by_pubkey);
   ("test_alloc_session_reuses_slot_by_addr_when_pub_unknown"%string, test_alloc_session_reuses_slot_by_addr_when_pub_unknown);
   ("test_alloc_session_reuses_free_slot_before_growing"%string, test_alloc_session_reuses_free_slot_before_growing);
   ("test_alloc_session_grows_table_when_no_free_slot"%string, test_alloc_session_grows_table_when_no_free_slot);
   ("test_alloc_session_table_full_returns_null"%string, test_alloc_session_table_full_returns_null);
   ("test_session_init_new_session_has_clean_state"%string, test_session_init_new_session_has_clean_state);
   ("test_session_init_rekey_preserves_previous_key"%string, test_session_init_rekey_preserves_previous_key);
   ("test_session_init_no_cfg_clears_routes"%string, test_session_init_no_cfg_clears_routes)].

(** The tests of test_common.c above, in the order of its [main]. *)
Definition common_main : list (string * test) :=
  [("test_bytes_to_hex_zeros"%string, test_bytes_to_hex_zeros);
   ("test_bytes_to_hex_all_ff"%string, test_bytes_to_hex_all_ff);
   ("test_bytes_to_hex_known_value"%string, test_bytes_to_hex_known_value);
   ("test_bytes_to_hex_single_byte"%string, test_bytes_to_hex_single_byte);
   ("test_hex_to_bytes_known_value"%string, test_hex_to_bytes_known_value);
   ("test_hex_to_bytes_wrong_length"%string, test_hex_to_bytes_wrong_length);
   ("test_hex_to_bytes_uppercase"%string, test_hex_to_bytes_uppercase);
   ("test_hex_to_bytes_roundtrip"%string, test_hex_to_bytes_roundtrip);
   ("test_replay_sequential_packets_accepted"%string, test_replay_sequential_packets_accepted);
   ("test_replay_duplicate_rejected"%string, test_replay_duplicate_rejected);
   ("test_replay_out_of_order_within_window_accepted"%string, test_replay_out_of_order_within_window_accepted);
   ("test_replay_too_old_rejected"%string, test_replay_too_old_rejected);
   ("test_replay_boundary_just_inside_window"%string, test_replay_boundary_just_inside_window);
   ("test_replay_boundary_just_outside_window"%string, test_replay_boundary_just_outside_window);
   ("test_replay_large_gap_resets_window"%string, test_replay_large_gap_resets_window)].
End Bodies.

(** ** The programs under the framework

    Test [k] of a program is function [k + 1], registered under its name.  It
    starts in the state [start k], whatever the earlier ones left; an undefined
    body is a crash. *)
Section Programs.
Context `{Env} (start : nat -> world) (message : Z -> string) (print_pointer : fn -> string)
  (report_file : bool) (clock : string).

Definition assertions (filename name : string) (r : outcome world (list (Z * bool))) : list action :=
  match r with
  | Ret l _ => (fun '(line, cond) => Assert cond filename name line (message line)) <$> l
  | UB => [Signal SIGSEGV]
  end.

Definition program_env (filename : string) (prog : list (string * M world (list (Z * bool)))) : RcEnv := {|
  code f := let k := pred (Pos.to_nat f) in
            from_option (fun t : string * M world (list (Z * bool)) => assertions filename t.1 (t.2 (start k))) [] (prog !! k);
  malloc_ok _ := true;
  fmt_ptr := print_pointer;
  report_opens := report_file;
  report_time := clock |}.

Definition registered_tests (prog : list (string * M world (list (Z * bool)))) : list (fn * string) :=
  imap (fun k t => (Pos.of_succ_nat k, t.1)) prog.

(** ** The verdict *)

(** A body is defined, makes some assertions, which an [int] counts, and every one holds. *)
Definition body_ok (r : outcome world (list (Z * bool))) : bool :=
  match r with Ret l _ => negb (length l =? 0)%nat && (Z.of_nat (length l) <=? INT_MAX) && forallb snd l | UB => false end.
Definition good (t : string * M world (list (Z * bool))) : Prop :=
  (String.length t.1 < RCU_TEST_FUNCTION_NAME_LENGTH)%nat /\ forall w, body_ok (t.2 w) = true.

Lemma assertions_ok filename name r : body_ok r = true ->
  ends (assertions filename name r) = Finishes /\ 0 < passed (assertions filename name r) <= INT_MAX.
Proof.
  destruct r as [l w|]; [|done]. unfold body_ok. rewrite !andb_true_iff, Z.leb_le. intros [[Hl Hmax] Hall].
  assert (ends (assertions filename name (Ret l w)) = Finishes /\
          passed (assertions filename name (Ret l w)) = Z.of_nat (length l)) as [E P].
  { clear Hl Hmax. induction l as [|[line b] l IH]; [done|]. cbn in *. apply andb_true_iff in Hall as [-> Hall].
    destruct (IH Hall) as [E P]. cbn in *. split; [done|]. rewrite P. lia. }
  cbn in E, P |- *. rewrite P. split; [done|]. split; [|done]. destruct l; [done|]. cbn. lia.
Qed.

Lemma all_ok_counts `{RcEnv} tests : Forall (fun t => test_ok t = true) tests ->
  nr_bad tests = 0 /\ nr_ok tests = Z.of_nat (length tests).
Proof.
  unfold nr_bad, nr_ok. induction 1 as [|t tests Ht _ [IHb IHo]]; [done|].
  rewrite !filter_cons, Ht, decide_False, decide_True by done. cbn [length]. split; [done|lia].
Qed.

Lemma program_code filename prog : Forall good prog -> @code_ok (program_env filename prog).
Proof.
  intros Hg f. cbn. destruct (prog !! _) as [[name body]|] eqn:E; [|by split; [constructor|vm_compute]].
  destruct (Forall_lookup_1 _ _ _ _ Hg E) as [Hn Hb].
  split; [|by apply assertions_ok]. cbn. destruct (body _) as [l w|]; cbn; [|by repeat constructor].
  apply Forall_fmap, Forall_forall. by intros [line b] _.
Qed.

Lemma program_tests_ok filename prog : Forall good prog ->
  Forall (fun t => @test_ok (program_env filename prog) t = true) (registered_tests prog) /\
  Forall (fun t => (String.length t.2 < RCU_TEST_FUNCTION_NAME_LENGTH)%nat) (registered_tests prog).
Proof.
  intros Hg. split; apply Forall_lookup; intros k [f name]; unfold registered_tests; rewrite list_lookup_imap;
    (destruct (prog !! k) as [[name' body]|] eqn:E; [|done]); cbn; intros [= <- <-];
    destruct (Forall_lookup_1 _ _ _ _ Hg E) as [Hn Hb]; [|done].
  assert (@code (program_env filename prog) (Pos.of_succ_nat k) = assertions filename name' (body (start k))) as Ec.
  { cbn [code program_env]. cbv zeta. by rewrite SuccNat2Pos.id_succ, Nat.pred_succ, E. }
  unfold test_ok. cbn [fst]. rewrite Ec.
  destruct (assertions_ok filename name' (body (start k)) (Hb (start k))) as [-> [Hp _]].
  rewrite bool_decide_eq_true_2 by done. by apply Z.ltb_lt.
Qed.

Lemma program_verdict filename prog : Forall good prog -> prog <> [] -> Z.of_nat (length prog) <= INT_MAX ->
  exists s, @test_main (program_env filename prog) (registered_tests prog) rcu_start = Ret RCU_E_OK s /\
    mc_nr_failed_test (st_mach s) = 0 /\ mc_nr_succ_test (st_mach s) = Z.of_nat (length prog) /\ st_out s = [Verdict true].
Proof.
  intros Hg Hne Hmax. destruct (program_tests_ok filename prog Hg) as [Hok Hn].
  pose proof (program_code filename prog Hg) as Hc. set (E := program_env filename prog) in *.
  destruct (all_ok_counts _ Hok) as [Nb No].
  assert (length (registered_tests prog) = length prog) as El by apply length_imap.
  rewrite test_main_start.
  enough (wp (test_main (registered_tests prog)) (fun e s => e = RCU_E_OK /\ mc_nr_failed_test (st_mach s) = 0 /\
    mc_nr_succ_test (st_mach s) = Z.of_nat (length prog) /\ st_out s = [Verdict true]) rcu_ready) as Hw.
  { apply wp_elim in Hw as (e & s & Ew & -> & ?). by exists s. }
  eapply (wp_suite_main (None, None)); [done|exact Hc|exact Hn|by rewrite El|apply suite_start|].
  cbn. rewrite Nb, No, El. intros s F P O _. rewrite O. destruct prog; [done|]. done.
Qed.
End Programs.

Lemma peer_good `{Env} : Forall good peer_main.
Proof.
  repeat apply Forall_cons_2; try apply Forall_nil_2; (split; [by apply Nat.ltb_lt|intros [o t]; vm_compute; reflexivity]).
Qed.
Lemma common_good `{Env} : Forall good common_main.
Proof.
  repeat apply Forall_cons_2; try apply Forall_nil_2; (split; [by apply Nat.ltb_lt|intros [o t]; vm_compute; reflexivity]).
Qed.

