(* ===== verification/CommonTests.v ===== *)
(** * CommonTests: the tests of tests/test_common.c that use OpenSSL

    The tests of [derive_key], [encrypt_packet] and [decrypt_packet], and the whole
    program tests/test_common.c with them.  Three of the eight pass whatever OpenSSL
    computes, as long as it implements its algorithms.  The others check OpenSSL and
    not this code: that two given hashes differ, that two given sealings do not open,
    and that the random generator does not repeat itself at once; the lemmas say so. *)

From S2P Require Import Prelude Replay Platform Crypto Handshake Hex Cidr Session Invariant RcList RcUnit RcDb RcRun RcSuite PeerTests.
From Stdlib Require Import Ascii Strings.Byte.
Open Scope list_scope.
Open Scope Z_scope.

Definition RCU_ASSERT_NOT_NULL {A} (ptr : option A) : bool := negb (PeerTests.RCU_ASSERT_NULL ptr).
Definition RCU_ASSERT_NOT_SAME_BYTE_ARRAY (array1 array2 : bytes) : bool := negb (memcmp array1 array2 =? 0).

Section Bodies.
Context `{Env}.

Abbreviation test := (M world (list (Z * bool))).

(** ** derive_key *)

Definition test_derive_key_is_deterministic : test :=
  ret [(84, RCU_ASSERT_SAME_BYTE_ARRAY (derive_key "test-psk") (derive_key "test-psk"))].
Definition test_derive_key_different_psks_produce_different_keys : test :=
  ret [(91, RCU_ASSERT_NOT_SAME_BYTE_ARRAY (derive_key "psk-alpha") (derive_key "psk-beta"))].
Definition test_derive_key_output_is_not_zero : test :=
  ret [(99, RCU_ASSERT_NOT_SAME_BYTE_ARRAY (derive_key "any-psk") (fill CRYPTO_KEY_LEN Byte.x00))].

(** ** encrypt_packet and decrypt_packet

    The buffers have 512 bytes.  A context that could not be made is [NULL]; the
    calls on it are not defined here. *)

Definition new_ctx : M world (option evp_cipher_ctx) := liftO (io EVP_CIPHER_CTX_new).
Definition the_ctx (c : option evp_cipher_ctx) : M world evp_cipher_ctx :=
  match c with Some c => ret c | None => undefined end.

Definition test_encrypt_decrypt_roundtrip : test :=
  let key := derive_key "test-session-key" in
  let! enc_ctx := new_ctx in
  let! dec_ctx := new_ctx in
  match enc_ctx, dec_ctx with
  | Some enc, Some dec =>
      let plaintext := string_bytes "Hello, lanecove!" in
      let! (_, encrypted) := liftO (encrypt_packet enc key plaintext 512) in
      let! (_, decrypted) := liftO (decrypt_packet dec key (default [] encrypted) 512) in
      ret [(178, RCU_ASSERT_NOT_NULL enc_ctx); (179, RCU_ASSERT_NOT_NULL dec_ctx);
           (188, RCU_ASSERT_EQUAL 0 (rc encrypted));
           (189, RCU_ASSERT_TRUE (length (default [] encrypted) =? length plaintext + CRYPTO_OVERHEAD)%nat);
           (194, RCU_ASSERT_EQUAL 0 (rc decrypted));
           (195, RCU_ASSERT_EQUAL (Z.of_nat (length plaintext)) (Z.of_nat (length (default [] decrypted))));
           (196, RCU_ASSERT_SAME_BYTE_ARRAY plaintext (default [] decrypted))]
  | _, _ => ret [(178, RCU_ASSERT_NOT_NULL enc_ctx); (179, RCU_ASSERT_NOT_NULL dec_ctx)]
  end.

(** A packet that could not be encrypted has length zero. *)
Definition test_encrypt_wrong_key_fails_decrypt : test :=
  let! enc_ctx := new_ctx in
  let! dec_ctx := new_ctx in
  let! enc := the_ctx enc_ctx in
  let! dec := the_ctx dec_ctx in
  let! (_, encrypted) := liftO (encrypt_packet enc (derive_key "key-a") (string_bytes "secret message") 512) in
  let! (_, decrypted) := liftO (decrypt_packet dec (derive_key "key-b") (default [] encrypted) 512) in
  ret [(219, RCU_ASSERT_EQUAL (-1) (rc decrypted))].

(** [encrypted[CRYPTO_IV_LEN] ^= 0xff]; the byte is not set if there is no packet. *)
Definition flip (pkt : bytes) : bytes := alter (fun b => byte_of (Z.lxor (bval b) 0xff)) CRYPTO_IV_LEN pkt.
Definition test_decrypt_tampered_ciphertext_fails : test :=
  let key := derive_key "test-key" in
  let! enc_ctx := new_ctx in
  let! dec_ctx := new_ctx in
  let! enc := the_ctx enc_ctx in
  let! dec := the_ctx dec_ctx in
  let! (_, encrypted) := liftO (encrypt_packet enc key (string_bytes "tamper me") 512) in
  match encrypted with
  | None => undefined
  | Some pkt =>
      let! (_, decrypted) := liftO (decrypt_packet dec key (flip pkt) 512) in
      ret [(244, RCU_ASSERT_EQUAL (-1) (rc decrypted))]
  end.

Definition test_decrypt_truncated_input_fails : test :=
  let! ctx := new_ctx in
  let! c := the_ctx ctx in
  let buf := fill (CRYPTO_OVERHEAD - 1) Byte.x00 in
  let! (_, decrypted) := liftO (decrypt_packet c (derive_key "test-key") buf (CRYPTO_OVERHEAD - 1)) in
  ret [(259, RCU_ASSERT_EQUAL (-1) (rc decrypted))].

Definition test_encrypt_produces_different_ciphertext_each_time : test :=
  let key := derive_key "test-key" in
  let plaintext := string_bytes "same plaintext" in
  let! ctx1 := new_ctx in
  let! ctx2 := new_ctx in
  let! c1 := the_ctx ctx1 in
  let! c2 := the_ctx ctx2 in
  let! (_, enc1) := liftO (encrypt_packet c1 key plaintext 512) in
  let! (_, enc2) := liftO (encrypt_packet c2 key plaintext 512) in
  ret [(279, RCU_ASSERT_EQUAL (Z.of_nat (length (default [] enc1))) (Z.of_nat (length (default [] enc2))));
       (281, RCU_ASSERT_NOT_SAME_BYTE_ARRAY (default [] enc1) (default [] enc2))].

(** ** The program *)

(** All tests of test_common.c, in the order of its [main]. *)
Definition test_common_main : list (string * test) :=
  take 8 common_main ++
  [("test_derive_key_is_deterministic"%string, test_derive_key_is_deterministic);
   ("test_derive_key_different_psks_produce_different_keys"%string, test_derive_key_different_psks_produce_different_keys);
   ("test_derive_key_output_is_not_zero"%string, test_derive_key_output_is_not_zero)] ++
  drop 8 common_main ++
  [("test_encrypt_decrypt_roundtrip"%string, test_encrypt_decrypt_roundtrip);
   ("test_encrypt_wrong_key_fails_decrypt"%string, test_encrypt_wrong_key_fails_decrypt);
   ("test_decrypt_tampered_ciphertext_fails"%string, test_decrypt_tampered_ciphertext_fails);
   ("test_decrypt_truncated_input_fails"%string, test_decrypt_truncated_input_fails);
   ("test_encrypt_produces_different_ciphertext_each_time"%string, test_encrypt_produces_different_ciphertext_each_time)].
End Bodies.

(** ** The tests pass *)

Section Pass.
Context `{OpenSSLOk}.

Lemma length_key psk : length (derive_key psk) = CRYPTO_KEY_LEN.
Proof. apply SHA256_size. Qed.

Lemma rc_bool {A} (o : option A) : (0 =? rc o) = bool_decide (is_Some o) /\ (-1 =? rc o) = bool_decide (o = None).
Proof. destruct o; split; [by rewrite bool_decide_eq_true_2|done|done|done]. Qed.

Lemma differ_bool a b : length a = length b -> a <> b -> RCU_ASSERT_NOT_SAME_BYTE_ARRAY a b = true.
Proof.
  intros Hl Hne. unfold RCU_ASSERT_NOT_SAME_BYTE_ARRAY. destruct (Z.eqb_spec (memcmp a b) 0) as [E|]; [|done].
  by apply memcmp_eq in E.
Qed.

(** A context, and the fields of a packet. *)
Lemma wp_new_ctx (Q : option evp_cipher_ctx -> world -> Prop) w :
  (forall c o, os_n o = S (os_n (w_os w)) -> Q (Some c) (World _ o (w_tab w))) -> wp new_ctx Q w.
Proof. destruct w as [o t]. intros HQ. apply wp_liftO, wp_io. destruct (ok_cipher_ctx (os_n o)) as [c ->]. by apply HQ. Qed.

Lemma packet_fields iv ct tag (l := (length ct)%nat) :
  length iv = CRYPTO_IV_LEN -> length tag = CRYPTO_TAG_LEN ->
  let pkt := iv ++ ct ++ tag in
  length pkt = (l + CRYPTO_OVERHEAD)%nat /\ slice 0 CRYPTO_IV_LEN pkt = iv /\
  slice CRYPTO_IV_LEN (length pkt - CRYPTO_OVERHEAD) pkt = ct /\
  slice (length pkt - CRYPTO_TAG_LEN) CRYPTO_TAG_LEN pkt = tag.
Proof.
  intros Hiv Htag. cbv zeta. assert (length (iv ++ ct ++ tag) = (l + CRYPTO_OVERHEAD)%nat) as E
    by (rewrite !length_app; subst l; sizes).
  rewrite E. split_and!; [done|by apply slice_head|apply slice_mid; sizes|].
  rewrite app_assoc. apply slice_tail; [rewrite length_app; subst l; sizes|done].
Qed.

Lemma wp_test_seal ctx k plain cap w (Q : evp_cipher_ctx * option bytes -> world -> Prop) :
  (length plain + CRYPTO_OVERHEAD <= cap)%nat ->
  (forall c iv ct tag o, env_RAND_bytes (os_n (w_os w)) CRYPTO_IV_LEN = Some iv ->
     gcm_seal (derive_key k) iv plain = (ct, tag) -> length iv = CRYPTO_IV_LEN -> length ct = length plain ->
     length tag = CRYPTO_TAG_LEN -> os_n o = S (os_n (w_os w)) ->
     Q (c, Some (iv ++ ct ++ tag)) (World _ o (w_tab w))) ->
  wp (liftO (encrypt_packet ctx (derive_key k) plain cap)) Q w.
Proof.
  destruct w as [o t]. intros Hcap HQ. apply wp_liftO.
  eapply wp_conseq; [apply wp_encrypt_packet_iv; [apply length_key|done]|].
  intros [c r] o1 (_ & Hn & iv & ct & tag & Hiv & Hs & E). cbn [snd] in E. subst r.
  pose proof (RAND_bytes_size _ _ _ Hiv) as Hl.
  destruct (gcm_sizes _ _ _ _ _ (length_key k) Hl Hs) as [Hct Htag]. by apply HQ.
Qed.

Lemma wp_test_open ctx k iv ct tag cap w (Q : evp_cipher_ctx * option bytes -> world -> Prop) :
  length iv = CRYPTO_IV_LEN -> length tag = CRYPTO_TAG_LEN -> (length ct <= cap)%nat ->
  (forall c, Q (c, gcm_open (derive_key k) iv ct tag) w) ->
  wp (liftO (decrypt_packet ctx (derive_key k) (iv ++ ct ++ tag) cap)) Q w.
Proof.
  destruct w as [o t]. intros Hiv Htag Hcap HQ. apply wp_liftO.
  destruct (packet_fields iv ct tag Hiv Htag) as (El & E1 & E2 & E3).
  eapply wp_conseq; [apply wp_decrypt_packet_ok; [apply length_key|rewrite El; sizes..]|].
  intros [d y] o2 [-> Ey]. cbn [snd] in Ey. rewrite E1, E2, E3 in Ey. subst y. apply HQ.
Qed.

(** A test passes from every state. *)
Definition passing (t : M world (list (Z * bool))) : Prop := forall w, body_ok (t w) = true.

Lemma passing_wp t : (forall w, wp t (fun l _ => (0 < length l <= 10)%nat /\ Forall (fun x => x.2 = true) l) w) -> passing t.
Proof.
  intros Ht w. specialize (Ht w). unfold wp in Ht. destruct (t w) as [l w'|]; [|done]. destruct Ht as [Hl Hf]. unfold body_ok.
  rewrite !andb_true_iff, Z.leb_le. split; [split; [destruct l; [cbn in Hl; lia|done]|unfold INT_MAX; lia]|]. apply forallb_forall. rewrite Forall_forall in Hf.
  intros x Hx. by apply Hf, list_elem_of_In.
Qed.

Lemma roundtrip_passes : passing test_encrypt_decrypt_roundtrip.
Proof.
  apply passing_wp. intros w. apply wp_bind, wp_new_ctx. intros c1 o1 _. apply wp_bind, wp_new_ctx. intros c2 o2 _.
  apply wp_bind, wp_test_seal; [by apply Nat.leb_le|]. intros c iv ct tag o Hiv Hs Hl Hct Htag _. cbn [default].
  apply wp_bind, wp_test_open; [done|done|rewrite Hct; by apply Nat.leb_le|]. intros d.
  apply ok_seal_open in Hs. rewrite Hs. wp_step. split; [cbn; lia|].
  destruct (packet_fields iv ct tag Hl Htag) as (El & _). unfold id, from_option. rewrite El, Hct.
  repeat apply Forall_cons_2; by try apply Forall_nil_2.
Qed.

(** The other five tests check OpenSSL: what each of them checks of it. *)

Lemma different_psks_pass :
  derive_key "psk-alpha" <> derive_key "psk-beta" ->
  passing test_derive_key_different_psks_produce_different_keys.
Proof. intros Hne w. cbn. rewrite differ_bool; [done|by rewrite !length_key|done]. Qed.

Lemma not_zero_passes :
  derive_key "any-psk" <> fill CRYPTO_KEY_LEN Byte.x00 -> passing test_derive_key_output_is_not_zero.
Proof. intros Hne w. cbn. rewrite differ_bool; [done|by rewrite length_key|done]. Qed.

Lemma wrong_key_passes :
  (forall iv ct tag, gcm_seal (derive_key "key-a") iv (string_bytes "secret message") = (ct, tag) ->
     gcm_open (derive_key "key-b") iv ct tag = None) ->
  passing test_encrypt_wrong_key_fails_decrypt.
Proof.
  intros Hin. apply passing_wp. intros w. apply wp_bind, wp_new_ctx. intros c1 o1 _. apply wp_bind, wp_new_ctx. intros c2 o2 _.
  apply wp_bind, wp_ret, wp_bind, wp_ret.
  apply wp_bind, wp_test_seal; [by apply Nat.leb_le|]. intros c iv ct tag o Hiv Hs Hl Hct Htag _. cbn [default].
  apply wp_bind, wp_test_open; [done|done|rewrite Hct; by apply Nat.leb_le|]. intros d.
  rewrite (Hin _ _ _ Hs). wp_step. split; [cbn; lia|]. by repeat constructor.
Qed.

Lemma flip_ciphertext iv b ct tag : length iv = CRYPTO_IV_LEN ->
  flip (iv ++ (b :: ct) ++ tag) = iv ++ (byte_of (Z.lxor (bval b) 0xff) :: ct) ++ tag.
Proof. intros Hl. unfold flip. rewrite <- Hl. clear. induction iv; cbn; [done|]. by f_equal. Qed.

Lemma tampered_passes :
  (forall iv b ct tag, gcm_seal (derive_key "test-key") iv (string_bytes "tamper me") = (b :: ct, tag) ->
     gcm_open (derive_key "test-key") iv (byte_of (Z.lxor (bval b) 0xff) :: ct) tag = None) ->
  passing test_decrypt_tampered_ciphertext_fails.
Proof.
  intros Hin. apply passing_wp. intros w. apply wp_bind, wp_new_ctx. intros c1 o1 _. apply wp_bind, wp_new_ctx. intros c2 o2 _.
  apply wp_bind, wp_ret, wp_bind, wp_ret.
  apply wp_bind, wp_test_seal; [by apply Nat.leb_le|]. intros c iv ct tag o Hiv Hs Hl Hct Htag _.
  destruct ct as [|b ct]; [done|]. rewrite flip_ciphertext by done.
  apply wp_bind, wp_test_open; [done|done|cbn in *; rewrite Hct; by apply Nat.leb_le|]. intros d.
  rewrite (Hin _ _ _ _ Hs). wp_step. split; [cbn; lia|]. by repeat constructor.
Qed.

(** This one passes in the runs in which the generator does not give the same IV twice
    in a row. *)
Lemma different_ciphertext_passes w :
  env_RAND_bytes (S (S (os_n (w_os w)))) CRYPTO_IV_LEN <> env_RAND_bytes (S (S (S (os_n (w_os w))))) CRYPTO_IV_LEN ->
  wp test_encrypt_produces_different_ciphertext_each_time
     (fun l _ => (0 < length l <= 10)%nat /\ Forall (fun x => x.2 = true) l) w.
Proof.
  intros Hiv0. apply wp_bind, wp_new_ctx. intros c1 o1 Hn1. apply wp_bind, wp_new_ctx. intros c2 o2 Hn2.
  cbn [w_os w_tab] in *.
  apply wp_bind, wp_ret, wp_bind, wp_ret.
  apply wp_bind, wp_test_seal; [by apply Nat.leb_le|]. intros c iv ct tag o Hiv Hs Hl Hct Htag Hn. cbn [w_os w_tab] in *.
  apply wp_bind, wp_test_seal; [by apply Nat.leb_le|]. intros c' iv' ct' tag' o' Hiv' Hs' Hl' Hct' Htag' _.
  cbn [w_os w_tab] in *. unfold id, from_option. rewrite Hn in Hiv'. wp_step. split; [cbn; lia|].
  destruct (packet_fields iv ct tag Hl Htag) as (El & _), (packet_fields iv' ct' tag' Hl' Htag') as (El' & _).
  apply Forall_cons_2; [|apply Forall_cons_2; [|apply Forall_nil_2]]; cbn [snd].
  - unfold RCU_ASSERT_EQUAL. rewrite El, El', Hct, Hct'. apply Z.eqb_refl.
  - apply differ_bool; [by rewrite El, El', Hct, Hct'|]. intros E%app_inj_1; [|by rewrite Hl, Hl'].
    destruct E as [-> _]. apply Hiv0. rewrite Hn2, Hn1 in *. by rewrite Hiv, Hiv'.
Qed.

Lemma deterministic_passes : passing test_derive_key_is_deterministic.
Proof. intros w. cbn. unfold RCU_ASSERT_SAME_BYTE_ARRAY. by rewrite memcmp_refl. Qed.

Lemma truncated_passes : passing test_decrypt_truncated_input_fails.
Proof.
  apply passing_wp. intros [o0 t]. apply wp_bind, wp_new_ctx. intros c1 o1 _. apply wp_bind, wp_ret.
  apply wp_bind, wp_liftO. unfold decrypt_packet. cbv zeta.
  replace (length (fill (CRYPTO_OVERHEAD - 1) Byte.x00) <? CRYPTO_OVERHEAD)%nat with true by done. wp_step. wp_step.
  split; [cbn; lia|]. by repeat constructor.
Qed.
End Pass.

(** Three of the tests pass with every implementation of the algorithms, from every
    state: derivation is deterministic, packets open as what was sealed, and a packet
    too short for an IV and a tag is rejected. *)
Theorem crypto_tests_pass `{OpenSSLOk} :
  passing test_derive_key_is_deterministic /\ passing test_encrypt_decrypt_roundtrip /\
  passing test_decrypt_truncated_input_fails.
Proof. split_and!; [apply deterministic_passes|apply roundtrip_passes|apply truncated_passes]. Qed.
